(* ===== verification/_CoqProject ===== *)
-Q . S2P
Prelude.v
Memory.v
Isa.v
Os.v
RetSeq.v
Patcher.v
AsmHook.v
Intercept.v
Sigsegv.v
Process.v
Threads.v
Faults.v
Multi.v
Rewriter.v
Spawn.v
Maps.v
Simulation.v
Hooks.v
Reentrant.v
HookLibs.v
Coverage.v
Init.v
Nested.v
System.v
DebugInit.v
DebugHandler.v
Sud.v
