(* ===== verification/Prelude.v ===== *)
(** * A verification of vpoline

    vpoline intercepts the system calls of a RISC-V (RV64GC, Linux) program.  A
    shared library, preloaded into the program, replaces every [ecall] of the
    mapped libc with [jalr gp, gp, 0].  The global pointer gp is moved to an
    address in an execute-only page the library maps: the jump reaches a
    trampoline at gp, the trampoline an assembly routine, the routine a C
    dispatcher and the dispatcher the user's hook.  The way back is a short
    sequence of instructions that ends exactly below gp, so that its last [jalr]
    leaves gp as it was.  A load or store through the moved gp faults, because
    the page can only be executed, and a SIGSEGV handler performs it on the
    original page.

    ** The parts of the program and the files that model them

    - [Prelude] (this file): words of 8 to 64 bits with their wrap-around, bit
      fields, bytes, the result type of process-level code ([Ok], [Exited],
      [Killed]), the tactics and hint databases of the development.
    - [Memory]: the memory of the process, bytes and page protections, with
      checked little-endian accesses.
    - [Isa]: the RV64 machine that the written words and the listings run on:
      registers, the instructions the sources emit or emulate, their encodings,
      [step] and [run].  The kernel's side of [ecall] is the parameter [Kernel];
      every system call is recorded in a trace with the register file at it.
    - [Os]: mmap, mprotect, munmap and the page size, as a class with laws
      ([Os], [OsLaws]) and an instance ([linear_os]).
    - [RetSeq]: src/src/utils.c and the structure of src/src/main.h.
      [define_ret_sequence_info] and [allocate_ret_sequence_page] compute where
      the shadow region and the relocated gp are; [layout] is their composition.
      The variable [relocated_global_pointer], which the assembly reads, is in the
      memory: the second stores it there.  The other globals are a record.
    - [Patcher]: src/src/patcher.c.  [trampoline_words] and [return_words] are
      the words [setup_shadow_page_trampoline] and [setup_return] store;
      [prepare_page] is the whole construction of the page.
    - [AsmHook]: [____asm_impl] and [syscall_hook] of src/src/main.c.  The
      listings [asm_text] and [no_intercept_text] are the inline assembly, item
      by item; [arun] runs them.  The compiled call of [syscall_hook] may clobber
      all caller-saved registers and the stack below sp.
    - [Intercept]: an interception from the patched site to the instruction
      after it, through [Patcher] and [AsmHook].
    - [Sigsegv]: src/src/sigsegv_handler.c and src/src/rv_opcodes.h.
      [segfault_handler] and the functions it calls work on the saved context;
      [deliver] is the delivery of the signal and the return from it.
    - [Process]: the step relation of the running process ([pstep]): machine
      steps, with [asm_syscall_hook] as a routine, and faults that the handler
      resolves; well-typed states and the growth of the trace.
    - [Threads]: the interception one instruction at a time, while other threads
      change the memory: [tstep], the modality [leads] and the interleavings of
      any number of intercepted threads ([crowd_step]).
    - [Faults]: the handler one memory access at a time ([handler_step]) and the
      threads of a process in it or in their own code, interleaved ([fstep]).
    - [Multi]: the process with all its threads ([mstep]), in their own code, in
      the handler and in interceptions, from [Threads] and [Faults]; [sstep] is
      the same process as the program's author sees it.
    - [Spawn]: the child of clone and clone3, on the last part of the return
      sequence.
    - [Rewriter]: the disassembly loop of src/src/main.c
      ([disassemble_and_rewrite] and the [intercept_disasm_*] functions), over
      the parameter [Capstone], a class with laws and an instance.
    - [Maps]: [rewrite_code] of src/src/main.c: reading /proc/self/maps with
      [fgets], [strstr], [strtok] and [strtol].
    - [Init]: [load_hook_lib], [__vpoline_init] ([vpoline_init]) and
      [__libc_start_main] ([libc_start_main]) of src/src/main.c.
    - [Simulation]: the abstract program ([astep]: libc unpatched, gp the
      original one, system calls of libc answered by the hook's contract
      [spec_call]), the relation [sim] between it and the patched process, and
      the forward simulation.
    - [System]: [vpoline_init] followed by a run of the process.
    - [DebugInit]: the check of the target executable in the DEBUG build of
      [__vpoline_init].
    - [DebugHandler]: the DEBUG build of [segfault_handler], with its messages.
    - [Hooks]: the hook of src/test/hook_write_test.c, the printing and the
      [__hook_init] of src/test/safe_syscall_tracker.c.
    - [Reentrant]: hooks that make system calls, through [syscall_no_intercept] or
      through libc, whose patched sites lead to the hook again.  [hrun] runs such
      a hook on the machine, to a bounded depth, and ends with a result ([Ran]), at
      a fault ([Stuck]) or deeper than that ([Deep]); [hspec] is its meaning.
    - [Nested]: [Reentrant] in a process that [vpoline_init] has started.
    - [HookLibs]: the hooks of src/test/hook_fcntl_test.c, syscall_tracker.c and
      hook_template.c, as such code.
    - [Coverage]: the coverage test, src/test/wrapper_test.c with its header, and
      the hook of hook_wrapper_test.c (intercept_sys_wrapper.c has the same).
    - [Sud]: src/benchmark/libsud_custom.c, the interception by syscall user
      dispatch that the benchmarks compare with.

    Names are those of the sources.  Fallible code returns [res]; loops that are
    not structural take fuel and return [None] when it runs out, and theorems
    state that the fuel the definitions choose is enough: one iteration per byte
    of the region, plus one, for the disassembly loop (the code pointer moves on
    in each), one per character of the file, plus one, for the loop over its
    lines (no line is empty).  The listing of [asm_syscall_hook] has no loop and
    runs within its length.  The depth of [hrun] and [hspec] counts interceptions
    inside interceptions; [ranked_hook_returns] says which depth is enough.

    ** What the theorems show

    - Whole executions ([Simulation], [System]): after a successful start-up,
      every run of the program within the rules of [astep] is reproduced by the
      patched process, step by step ([started_process_simulates]); without a hook this is the run of the
      unpatched text on the machine ([unhooked_process_transparent]).  System
      calls are not lost ([patched_process_reaches_syscall]) and none are added
      ([patched_process_adds_nothing]).  The rules of [astep] say what is asked of the
      program: it uses gp only as the base of loads and stores, which stay in
      the shadow region, it reads neither the bytes vpoline uses nor the bytes
      below sp that an interception may have overwritten, it has 304 bytes of stack (and
      what the hook needs) at every system call, and does not make rt_sigreturn
      through libc; hook and kernel neither depend on nor change the bytes
      vpoline uses ([blind]).
    - An interception is transparent ([Intercept]): with no hook, or one that
      declines, the kernel gets exactly the caller's system call and the caller
      sees only a0 changed, floating-point registers included; a hook that
      handles the call replaces it; clone and clone3 reach the kernel with the
      caller's registers restored.  [sigreturn_sees_lowered_sp] shows that
      rt_sigreturn reaches it with sp 304 bytes below the caller's.
    - Interceptions may overlap ([interceptions_interleave]): in every interleaving
      of the steps of any number of threads, each with a frame of its own, no
      thread faults and each returns from its interception in at most 127 steps
      of its own (21 to the listing, less than 100 in it, 6 on the return path),
      with its context, its hook call and its system call.  A new thread or
      process gets out of the interception of its clone without its parent's
      stack ([clone_child_returns]).
    - Hooks may be intercepted themselves ([started_hook_may_call_libc]): the
      interceptions inside a hook do not disturb it, to any depth.  A hook whose
      libc calls have a lower rank than the call it answers returns
      ([ranked_hook_returns]); one that makes the calls it answers does not: at
      every depth the listing has called it once more, until a safety check fails,
      as for want of stack ([self_feeding_hook_never_returns]).
    - A whole start-up leads there ([Init]): [init_establishes_interception] and
      [libc_syscall_transparent] compose all components, with the variable
      [relocated_global_pointer] holding anything before ([init_publishes]);
      [init_terminates] bounds the outcomes.
    - The page ([RetSeq], [Patcher]): the trampoline reaches any 64-bit address;
      the construction succeeds or exits exactly when the offset of gp in its
      page leaves room, and is killed otherwise.
    - The handler ([Sigsegv]) implements the loads and stores of the I, F, D and
      C extensions at the redirected address, and the redirected address is that
      of the unpatched program exactly when at least 56 bytes of the page lie
      below gp; which accesses through gp the region covers; what happens
      on other instructions and on a second fault.  An access through gp beyond the
      region is made elsewhere or kills the process
      ([gp_access_outside_region_lost]), and an address computed from gp is not
      redirected ([gp_derived_pointer_unreadable] of [Init]).
      [fault_decided] says when a fault has one of these outcomes.
    - Threads may fault at the same time ([Faults]): every interleaving is a run
      in which each access is made at once on the backup page
      ([concurrent_faults_atomic]), and no thread is held up in the handler
      ([concurrent_faults_progress]).
    - A program with several threads ([Multi]): every interleaving of threads in
      their own code, in the handler and in interceptions, with new threads, is a
      run in which accesses to the region are single steps on the backup page and
      system calls at patched sites are the hook's answer, the system call when
      the hook declines, and the return ([threads_refine_atomic]); no thread is
      held up ([threads_never_stuck]).
    - The rewriting ([Rewriter], [Maps]) replaces exactly the ecalls the sweep
      meets, restores the protections, ends, and visits exactly the executable
      mappings of libc that the file lists.

    - The DEBUG build ([DebugInit]) starts up exactly in the target executable;
      elsewhere the program is left with gp = 0 ([skipped_init_loses_gp]).  Its
      handler redirects as that of the release build and ends otherwise with a
      trap ([debug_handler_agrees]).
    - The example hooks ([Hooks]): the text hook_write_test.c puts into an
      intercepted write reaches the kernel; the printing of
      safe_syscall_tracker.c is correct and within its buffer.  Those that call
      libc or print ([HookLibs]) do what they are written for, on the machine;
      the hook of the coverage test keeps the table of the test program, and the
      report counts what it marks ([Coverage]).
    - Syscall user dispatch ([Sud]) is transparent when the handler's frame is 80
      bytes, but exempts far more code than meant ([sud_exempts_code_above]).

    ** What is assumed and what is left out

    - Of the messages of the DEBUG build, those the handler writes are modelled.
    - [Kernel], [Os], [Capstone] and [HookLib] are code outside the repository.
      Memory protections are those of the process; no access wraps around the
      address space; an access is refused as a whole, at its first address.
    - The content of /proc/self/maps is what it is when the file is opened.
    - Threads interleave over a sequentially consistent memory; a call of the
      hook and a system call are one step each, and so is an access of the
      handler.  The rules of [mstep] say what is asked of a program with several
      threads: none of them, nor a hook or the kernel called for one, writes to
      the text, to the frame of another thread's interception or to the bytes
      vpoline uses, and the backing page stays accessible.  The start-up runs
      before the program has other threads.  In [Multi] the program's own steps
      are steps of the same machine on both sides: that gp has another value than
      in the unpatched program is the matter of [Simulation], which is about one
      thread.  rt_sigreturn is not among the system calls of [Threads] and [Multi].
    - The compiled C code is taken at its C meaning, under the calling
      convention; [__builtin_trap] is the compiler's [ebreak], SIGTRAP.  Messages
      on stderr are not modelled.  The C library functions the sources call
      (string functions, [sprintf], [snprintf], the errno convention of the system
      call wrappers) have definitions of their standard meaning.
    - The data of libvpoline are mapped and writable, the variable
      [relocated_global_pointer] is apart from libc and loading the hook library
      leaves it alone ([data_loaded], [libc_mapped]); where the linker puts it is
      a parameter.  munmap of an aligned range succeeds ([OsLaws]).
    - A fault of the handler inside the execute-only region itself is left open
      ([deliver] gives [None]); by [fault_decided] it needs an instruction that
      cannot be read, one in the execute-only page itself.
    - A hook is a function of its arguments and the memory that runs to its end
      in one step, and may write anywhere but to the frame of the call and to the
      bytes vpoline uses; in [Reentrant] it is code with loads, stores and system
      calls, which a check ([Unsafe]) keeps off the same bytes and off the stack
      above it, and whose system calls the kernel performs without changing
      them ([permitted]).  A function of libc that a hook calls passes its
      arguments to one [ecall] and returns its result, -1 for an error; where
      that [ecall] is and how much stack is used up to it are parameters.
    - Signal frames are kept apart from the memory.
    - The remaining programs under src/test call one libc function each, and
      those under src/benchmark measure times; they are not modelled, nor are
      the lines of the coverage report after its loop (a percentage in floating
      point). *)

From stdpp Require Import base gmap list strings.
From Stdlib Require Import ZArith Lia Bool.
From Stdlib.Strings Require Import Byte.

#[global] Open Scope Z_scope.

(** ** Machine-width integers *)

(** Unsigned wrap-around at the widths the sources use. *)
Definition wrap (w z : Z) : Z := z mod 2 ^ w.
Definition u8 (z : Z) : Z := wrap 8 z.
Definition u16 (z : Z) : Z := wrap 16 z.
Definition u32 (z : Z) : Z := wrap 32 z.
Definition u64 (z : Z) : Z := wrap 64 z.

(** The signed reading of the low [w] bits of [z]. *)
Definition sext (w z : Z) : Z :=
  let v := wrap w z in if v <? 2 ^ (w - 1) then v else v - 2 ^ w.

(** Bits [start .. start + len - 1] of [z]. *)
Definition slice (z start len : Z) : Z := Z.land (Z.shiftr z start) (Z.ones len).

Declare Scope vp_scope.
Delimit Scope vp_scope with vp.
Notation "a ⊞ b" := (u64 (a + b)) (at level 50, left associativity) : vp_scope.
Notation "a ⊟ b" := (u64 (a - b)) (at level 50, left associativity) : vp_scope.
#[global] Open Scope vp_scope.

(** A register-sized value. *)
Definition is_u64 (z : Z) : Prop := 0 <= z < 2 ^ 64.

(** ** Bytes *)

Definition byte_of_Z (z : Z) : byte := default x00 (Byte.of_N (Z.to_N (u8 z))).
Definition Z_of_byte (b : byte) : Z := Z.of_N (Byte.to_N b).

(** ** Results of process-level code

    [Ok] is a normal return, [Exited] a call of [exit], [Killed] a termination
    by a signal (a fault on an unmapped page, [abort] from a failed [assert]). *)
Inductive res (A : Type) : Type :=
| Ok (a : A)
| Exited (code : Z)
| Killed (sig : Z).
Arguments Ok {A} _.
Arguments Exited {A} _.
Arguments Killed {A} _.

#[export] Instance res_ret : MRet res := fun A a => Ok a.
#[export] Instance res_bind : MBind res := fun A B k r =>
  match r with Ok a => k a | Exited c => Exited c | Killed s => Killed s end.

(** ** Automation *)

Create HintDb vp.
Create Rewrite HintDb vp_word.

(** Turn boolean comparisons of the sources into arithmetic facts. *)
Ltac case_bool :=
  match goal with
  | |- context [Z.eqb ?a ?b] => destruct (Z.eqb_spec a b)
  | |- context [Z.ltb ?a ?b] => destruct (Z.ltb_spec a b)
  | |- context [Z.leb ?a ?b] => destruct (Z.leb_spec a b)
  end.
Ltac case_bools := repeat case_bool; cbn [andb orb negb].

(** Bounds of 64-bit words. *)
Ltac u64_lia := unfold is_u64; lia.
#[export] Hint Extern 4 (is_u64 _) => u64_lia : vp.

(** ** Lemmas on words *)

Lemma wrap_range w z : 0 <= w -> 0 <= wrap w z < 2 ^ w.
Proof. intros. apply Z.mod_pos_bound. apply Z.pow_pos_nonneg; lia. Qed.

Lemma u64_range z : is_u64 (u64 z).
Proof. apply wrap_range. lia. Qed.

Lemma u64_small z : is_u64 z -> u64 z = z.
Proof. intros. apply Z.mod_small. assumption. Qed.

Lemma u64_u64 z : u64 (u64 z) = u64 z.
Proof. apply u64_small, u64_range. Qed.

Lemma u64_add_l a b : u64 (u64 a + b) = u64 (a + b).
Proof. apply Zplus_mod_idemp_l. Qed.

Lemma u64_add_r a b : u64 (a + u64 b) = u64 (a + b).
Proof. apply Zplus_mod_idemp_r. Qed.

Lemma u64_sub_l a b : u64 (u64 a - b) = u64 (a - b).
Proof. apply Zminus_mod_idemp_l. Qed.

Lemma u64_sub_r a b : u64 (a - u64 b) = u64 (a - b).
Proof. apply Zminus_mod_idemp_r. Qed.

#[export] Hint Resolve u64_range u64_small : vp.
#[export] Hint Rewrite u64_u64 u64_add_l u64_add_r u64_sub_l u64_sub_r : vp_word.

Lemma slice_alt z s l : 0 <= s -> 0 <= l -> slice z s l = (z / 2 ^ s) mod 2 ^ l.
Proof. intros. unfold slice. rewrite Z.land_ones, Z.shiftr_div_pow2 by lia. reflexivity. Qed.

Lemma slice_range z s l : 0 <= l -> 0 <= slice z s l < 2 ^ l.
Proof.
  intros. unfold slice. rewrite Z.land_ones by lia.
  apply Z.mod_pos_bound, Z.pow_pos_nonneg; lia.
Qed.

Lemma sext_range w z : 0 < w -> - 2 ^ (w - 1) <= sext w z < 2 ^ (w - 1).
Proof.
  intros. unfold sext. pose proof (wrap_range w z ltac:(lia)).
  replace (2 ^ w) with (2 * 2 ^ (w - 1)) in *
    by (rewrite <- Z.pow_succ_r by lia; f_equal; lia).
  case_bools; lia.
Qed.

(** Sign extension does not change the value modulo [2 ^ w]. *)
Lemma sext_wrap w z : 0 < w -> wrap w (sext w z) = wrap w z.
Proof.
  intros. unfold sext. case_bools; unfold wrap.
  - apply Z.mod_mod. apply Z.pow_nonzero; lia.
  - replace (z mod 2 ^ w - 2 ^ w) with (z mod 2 ^ w + (-1) * 2 ^ w) by lia.
    rewrite Z_mod_plus_full. apply Z.mod_mod. apply Z.pow_nonzero; lia.
Qed.

Lemma Z_of_byte_range b : 0 <= Z_of_byte b < 256.
Proof. unfold Z_of_byte. pose proof (Byte.to_N_bounded b). lia. Qed.

Lemma Z_of_byte_of_Z z : Z_of_byte (byte_of_Z z) = u8 z.
Proof.
  unfold byte_of_Z, Z_of_byte.
  pose proof (wrap_range 8 z ltac:(lia)) as R. fold (u8 z) in R.
  destruct (Byte.of_N (Z.to_N (u8 z))) as [b|] eqn:E; simpl.
  - apply Byte.to_of_N in E. rewrite E. lia.
  - apply Byte.of_N_None_iff in E. lia.
Qed.

Lemma byte_of_Z_of_byte b : byte_of_Z (Z_of_byte b) = b.
Proof. destruct b; reflexivity. Qed.

(** ** Lemmas on results *)

Lemma res_bind_ok {A B} (r : res A) (k : A -> res B) b :
  r ≫= k = Ok b -> exists a, r = Ok a /\ k a = Ok b.
Proof. destruct r; simpl; intros; try discriminate. eauto. Qed.
