(* ===== verification/Memory.v ===== *)
(** * Byte-addressed memory with page protections

    The memory the sources read and write through C pointers and that the
    processor fetches from: a finite map of bytes (absent bytes read as zero,
    as anonymous mappings do) and the protection of every address ([None] where
    nothing is mapped), as the [PROT_*] flags of <sys/mman.h>.  Multi-byte
    accesses are little-endian.  No access wraps around the end of the 64-bit
    address space, where user memory is never mapped. *)

From stdpp Require Import base gmap list.
From Stdlib Require Import ZArith Lia Bool.
From Stdlib.Strings Require Import Byte.
From S2P Require Import Prelude.

(** ** Protections *)

Definition PROT_READ : Z := 1.
Definition PROT_WRITE : Z := 2.
Definition PROT_EXEC : Z := 4.

Record memory := Mem {
  m_bytes : gmap Z byte;
  m_prot : Z -> option Z
}.

(** [has_prot flag m a]: address [a] is mapped with the access bit [flag]. *)
Definition has_prot (flag : Z) (m : memory) (a : Z) : bool :=
  match m_prot m a with
  | Some p => negb (Z.land p flag =? 0)
  | None => false
  end.

(** ** Unchecked little-endian accesses *)

Definition mbyte (m : memory) (a : Z) : byte := default x00 (m_bytes m !! a).

Fixpoint mread (n : nat) (m : memory) (a : Z) : Z :=
  match n with
  | O => 0
  | S n' => Z_of_byte (mbyte m a) + 256 * mread n' m (a + 1)
  end.

Definition set_byte (m : memory) (a : Z) (b : byte) : memory :=
  Mem (<[a := b]> (m_bytes m)) (m_prot m).

Fixpoint mwrite (n : nat) (m : memory) (a v : Z) : memory :=
  match n with
  | O => m
  | S n' => mwrite n' (set_byte m a (byte_of_Z v)) (a + 1) (Z.shiftr v 8)
  end.

(** ** Checked accesses: [None] is an access fault *)

Fixpoint range_prot (flag : Z) (n : nat) (m : memory) (a : Z) : bool :=
  match n with
  | O => true
  | S n' => has_prot flag m a && range_prot flag n' m (a + 1)
  end.

Definition mload (n : nat) (m : memory) (a : Z) : option Z :=
  if range_prot PROT_READ n m a then Some (mread n m a) else None.

Definition mfetch (n : nat) (m : memory) (a : Z) : option Z :=
  if range_prot PROT_EXEC n m a then Some (mread n m a) else None.

Definition mstore (n : nat) (m : memory) (a v : Z) : option memory :=
  if range_prot PROT_WRITE n m a then Some (mwrite n m a v) else None.

(** Consecutive 32-bit words, as a [uint32_t *] array is written and read. *)
Fixpoint mwords (n : nat) (m : memory) (a : Z) : list Z :=
  match n with
  | O => []
  | S n' => mread 4 m a :: mwords n' m (a + 4)
  end.

(** ** Agreement of two memories on a range of addresses *)

Definition agree_on (lo hi : Z) (m1 m2 : memory) : Prop :=
  forall a, lo <= a < hi -> mbyte m1 a = mbyte m2 a.

Definition agree_off (lo hi : Z) (m1 m2 : memory) : Prop :=
  forall a, ~ (lo <= a < hi) -> mbyte m1 a = mbyte m2 a.

#[export] Instance agree_on_equiv lo hi : Equivalence (agree_on lo hi).
Proof.
  split; unfold agree_on.
  - intros m a _. reflexivity.
  - intros m1 m2 H a Ha. symmetry. auto.
  - intros m1 m2 m3 H1 H2 a Ha. rewrite H1 by assumption. auto.
Qed.

#[export] Instance agree_off_equiv lo hi : Equivalence (agree_off lo hi).
Proof.
  split; unfold agree_off.
  - intros m a _. reflexivity.
  - intros m1 m2 H a Ha. symmetry. auto.
  - intros m1 m2 m3 H1 H2 a Ha. rewrite H1 by assumption. auto.
Qed.

(** ** Lemmas *)

Lemma mbyte_set_byte m a b x :
  mbyte (set_byte m a b) x = if decide (a = x) then b else mbyte m x.
Proof.
  unfold mbyte, set_byte. simpl. rewrite lookup_insert. by case_decide.
Qed.

Lemma mwrite_prot n : forall m a v, m_prot (mwrite n m a v) = m_prot m.
Proof. induction n; intros; simpl; [done|]. by rewrite IHn. Qed.

Lemma has_prot_mwrite flag n m a v x :
  has_prot flag (mwrite n m a v) x = has_prot flag m x.
Proof. unfold has_prot. by rewrite mwrite_prot. Qed.

Lemma range_prot_spec flag n : forall m a,
  range_prot flag n m a = true <->
  forall x, a <= x < a + Z.of_nat n -> has_prot flag m x = true.
Proof.
  induction n; intros m a.
  - simpl. split; [intros _ x Hx; lia | done].
  - cbn [range_prot]. rewrite andb_true_iff, IHn. split.
    + intros [H0 H] x Hx. destruct (Z.eq_dec x a) as [->|]; [done|]. apply H. lia.
    + intros H. split; [apply H; lia|]. intros x Hx. apply H. lia.
Qed.

Lemma range_prot_ext flag n m1 m2 a :
  m_prot m1 = m_prot m2 -> range_prot flag n m1 a = range_prot flag n m2 a.
Proof.
  intros E. revert a. induction n; intros; simpl; [done|].
  rewrite IHn. unfold has_prot. by rewrite E.
Qed.

Lemma range_prot_agree flag n m1 m2 a :
  (forall x, a <= x < a + Z.of_nat n -> m_prot m1 x = m_prot m2 x) ->
  range_prot flag n m1 a = range_prot flag n m2 a.
Proof.
  revert a. induction n as [|n IH]; intros a H; [done|]. cbn [range_prot].
  rewrite IH by (intros; apply H; lia). unfold has_prot. by rewrite H by lia.
Qed.

(** What every byte is after a write. *)
Lemma mbyte_mwrite n : forall m a v x,
  mbyte (mwrite n m a v) x =
    if (a <=? x) && (x <? a + Z.of_nat n)
    then byte_of_Z (Z.shiftr v (8 * (x - a))) else mbyte m x.
Proof.
  induction n; intros m a v x.
  - cbn [mwrite]. case_bools; lia || done.
  - cbn [mwrite]. rewrite IHn, mbyte_set_byte.
    destruct (decide (a = x)) as [<-|].
    + rewrite Z.sub_diag, Z.mul_0_r, Z.shiftr_0_r. case_bools; lia || done.
    + case_bools; try lia; try done.
      rewrite Z.shiftr_shiftr by lia. do 2 f_equal. lia.
Qed.

Lemma mbyte_mwrite_out n m a v x :
  ~ (a <= x < a + Z.of_nat n) -> mbyte (mwrite n m a v) x = mbyte m x.
Proof. intros. rewrite mbyte_mwrite. case_bools; try lia; done. Qed.

Lemma mwrite_agree_off lo hi n m a v :
  lo <= a -> a + Z.of_nat n <= hi -> agree_off lo hi (mwrite n m a v) m.
Proof. intros ? ? x Hx. apply mbyte_mwrite_out. lia. Qed.

Lemma mread_ext n : forall m1 m2 a,
  agree_on a (a + Z.of_nat n) m1 m2 -> mread n m1 a = mread n m2 a.
Proof.
  induction n; intros m1 m2 a H; [done|]. cbn [mread].
  rewrite (H a) by lia. rewrite (IHn m1 m2 (a + 1)); [done|].
  intros x Hx. apply H. lia.
Qed.

Lemma mread_range n : forall m a, 0 <= mread n m a < 2 ^ (8 * Z.of_nat n).
Proof.
  induction n; intros m a; [simpl; lia|]. cbn [mread].
  specialize (IHn m (a + 1)). pose proof (Z_of_byte_range (mbyte m a)).
  replace (2 ^ (8 * Z.of_nat (S n))) with (256 * 2 ^ (8 * Z.of_nat n)); [lia|].
  change 256 with (2 ^ 8). rewrite <- Z.pow_add_r by lia. f_equal. lia.
Qed.

Lemma mread_mwrite_out n k m a b v :
  b + Z.of_nat k <= a \/ a + Z.of_nat n <= b ->
  mread k (mwrite n m a v) b = mread k m b.
Proof. intros. apply mread_ext. intros x Hx. apply mbyte_mwrite_out. lia. Qed.

Lemma mod_split_byte v k : 0 <= k ->
  v mod 2 ^ (8 + k) = v mod 2 ^ 8 + 256 * (Z.shiftr v 8 mod 2 ^ k).
Proof.
  intros. rewrite Z.pow_add_r, Z.rem_mul_r by lia.
  rewrite Z.shiftr_div_pow2 by lia. reflexivity.
Qed.

(** Reading back what was written. *)
Lemma mread_mwrite n : forall m a v, mread n (mwrite n m a v) a = v mod 2 ^ (8 * Z.of_nat n).
Proof.
  induction n; intros m a v; [simpl; by rewrite Z.mod_1_r|].
  cbn [mread mwrite]. rewrite IHn, mbyte_mwrite_out, mbyte_set_byte by lia.
  rewrite decide_True by done. rewrite Z_of_byte_of_Z.
  replace (8 * Z.of_nat (S n)) with (8 + 8 * Z.of_nat n) by lia.
  rewrite mod_split_byte by lia. reflexivity.
Qed.

Lemma mread8_mwrite m a v : is_u64 v -> mread 8 (mwrite 8 m a v) a = v.
Proof. intros. rewrite mread_mwrite. by apply Z.mod_small. Qed.

Lemma mread8_u64 m a : is_u64 (mread 8 m a).
Proof. apply (mread_range 8). Qed.

#[export] Hint Resolve mread8_u64 : vp.
