(* ===== verification/Isa.v ===== *)
(** * The RV64 machine the sources program

    The sources write machine code (the words of patcher.c, the inline assembly
    of main.c) and emulate memory instructions (sigsegv_handler.c).  This file
    is the language those words are in: the registers, the instructions the
    sources emit or emulate with their encodings, and one fetch-decode-execute
    step, after the RISC-V unprivileged ISA (RV64I, the loads and stores of F
    and D, and the compressed loads and stores).  Data accesses and fetches
    check the page protection; an access that is refused is a [Fault], which the
    kernel turns into SIGSEGV.  [ecall] hands the argument registers and the
    memory to the kernel, a parameter, and records the request in a trace. *)

From stdpp Require Import base gmap list.
From Stdlib Require Import ZArith Lia Bool.
From S2P Require Import Prelude Memory.

(** ** Registers by their ABI names *)

Definition zero : Z := 0.
Definition ra : Z := 1.
Definition sp : Z := 2.
Definition gp : Z := 3.
Definition t0 : Z := 5.
Definition t1 : Z := 6.
Definition t2 : Z := 7.
Definition a0 : Z := 10.
Definition a1 : Z := 11.
Definition a2 : Z := 12.
Definition a3 : Z := 13.
Definition a4 : Z := 14.
Definition a5 : Z := 15.
Definition a6 : Z := 16.
Definition a7 : Z := 17.
Definition t3 : Z := 28.
Definition t4 : Z := 29.
Definition t5 : Z := 30.
Definition t6 : Z := 31.

(** A system call as the kernel receives it: number, arguments and the whole
    register file at the [ecall]. *)
Record event := Event {
  ev_nr : Z;
  ev_args : list Z;
  ev_x : Z -> Z
}.

Record machine := Mach {
  pc : Z;
  xr : Z -> Z;
  fr : Z -> Z;
  mem : memory;
  trace : list event
}.

(** The system-call interface of the kernel: the number, the six arguments and
    the memory give the value returned in a0 and the memory afterwards. *)
Class Kernel := k_syscall : Z -> list Z -> memory -> Z * memory.

Definition getx (s : machine) (r : Z) : Z := if r =? 0 then 0 else xr s r.

Definition upd (f : Z -> Z) (r v : Z) : Z -> Z := fun q => if q =? r then v else f q.

Definition setx (r v : Z) (s : machine) : machine :=
  if r =? 0 then s else Mach (pc s) (upd (xr s) r v) (fr s) (mem s) (trace s).
Definition setf (r v : Z) (s : machine) : machine :=
  Mach (pc s) (xr s) (upd (fr s) r v) (mem s) (trace s).
Definition setpc (v : Z) (s : machine) : machine :=
  Mach v (xr s) (fr s) (mem s) (trace s).
Definition setmem (m : memory) (s : machine) : machine :=
  Mach (pc s) (xr s) (fr s) m (trace s).
Definition emit (e : event) (s : machine) : machine :=
  Mach (pc s) (xr s) (fr s) (mem s) (trace s ++ [e]).

(** ** Instructions *)

Inductive width := WB | WH | WW | WD.
#[export] Instance width_eq_dec : EqDecision width.
Proof. solve_decision. Defined.

Definition nbytes (w : width) : nat :=
  match w with WB => 1 | WH => 2 | WW => 4 | WD => 8 end.
Definition nbits (w : width) : Z := 8 * Z.of_nat (nbytes w).

(** Instructions that access memory. *)
Inductive minstr :=
| ILoad (w : width) (signed : bool) (rd rs1 imm : Z)
| IStore (w : width) (rs2 rs1 imm : Z)
| IFLoad (w : width) (rd rs1 imm : Z)
| IFStore (w : width) (rs2 rs1 imm : Z).

Inductive instr :=
| IMem (i : minstr)
| ILui (rd imm : Z)
| IAddi (rd rs1 imm : Z)
| IOri (rd rs1 imm : Z)
| ISlli (rd rs1 sh : Z)
| ISrli (rd rs1 sh : Z)
| IOr (rd rs1 rs2 : Z)
| IAnd (rd rs1 rs2 : Z)
| IJal (rd off : Z)
| IJalr (rd rs1 imm : Z)
| IBeq (rs1 rs2 off : Z)
| IEcall
| IEbreak.

#[export] Instance minstr_eq_dec : EqDecision minstr.
Proof. solve_decision. Defined.
#[export] Instance instr_eq_dec : EqDecision instr.
Proof. solve_decision. Defined.

(** ** Decoding 32-bit instructions *)

Definition imm_I (w : Z) : Z := sext 12 (slice w 20 12).
Definition imm_S (w : Z) : Z := sext 12 (slice w 7 5 + 32 * slice w 25 7).
Definition imm_U (w : Z) : Z := sext 32 (4096 * slice w 12 20).
Definition imm_J (w : Z) : Z :=
  sext 21 (2 * slice w 21 10 + 2 ^ 11 * slice w 20 1
           + 2 ^ 12 * slice w 12 8 + 2 ^ 20 * slice w 31 1).
Definition imm_B (w : Z) : Z :=
  sext 13 (2 * slice w 8 4 + 2 ^ 5 * slice w 25 6
           + 2 ^ 11 * slice w 7 1 + 2 ^ 12 * slice w 31 1).

(** LOAD, LOAD-FP, STORE and STORE-FP major opcodes. *)
Definition decode_mem (opcode funct3 rd rs1 rs2 immi imms : Z) : option minstr :=
  match opcode with
  | 3 =>
    match funct3 with
    | 0 => Some (ILoad WB true rd rs1 immi)
    | 1 => Some (ILoad WH true rd rs1 immi)
    | 2 => Some (ILoad WW true rd rs1 immi)
    | 3 => Some (ILoad WD true rd rs1 immi)
    | 4 => Some (ILoad WB false rd rs1 immi)
    | 5 => Some (ILoad WH false rd rs1 immi)
    | 6 => Some (ILoad WW false rd rs1 immi)
    | _ => None
    end
  | 7 =>
    match funct3 with
    | 2 => Some (IFLoad WW rd rs1 immi)
    | 3 => Some (IFLoad WD rd rs1 immi)
    | _ => None
    end
  | 35 =>
    match funct3 with
    | 0 => Some (IStore WB rs2 rs1 imms)
    | 1 => Some (IStore WH rs2 rs1 imms)
    | 2 => Some (IStore WW rs2 rs1 imms)
    | 3 => Some (IStore WD rs2 rs1 imms)
    | _ => None
    end
  | 39 =>
    match funct3 with
    | 2 => Some (IFStore WW rs2 rs1 imms)
    | 3 => Some (IFStore WD rs2 rs1 imms)
    | _ => None
    end
  | _ => None
  end.

Definition decode32 (w : Z) : option instr :=
  let opcode := slice w 0 7 in
  let rd := slice w 7 5 in
  let funct3 := slice w 12 3 in
  let rs1 := slice w 15 5 in
  let rs2 := slice w 20 5 in
  let funct7 := slice w 25 7 in
  match opcode with
  | 3 | 7 | 35 | 39 =>
      IMem <$> decode_mem opcode funct3 rd rs1 rs2 (imm_I w) (imm_S w)
  | 55 => Some (ILui rd (imm_U w))
  | 19 =>
    match funct3 with
    | 0 => Some (IAddi rd rs1 (imm_I w))
    | 6 => Some (IOri rd rs1 (imm_I w))
    | 1 => if slice w 26 6 =? 0 then Some (ISlli rd rs1 (slice w 20 6)) else None
    | 5 => if slice w 26 6 =? 0 then Some (ISrli rd rs1 (slice w 20 6)) else None
    | _ => None
    end
  | 51 =>
    match funct3, funct7 with
    | 6, 0 => Some (IOr rd rs1 rs2)
    | 7, 0 => Some (IAnd rd rs1 rs2)
    | _, _ => None
    end
  | 111 => Some (IJal rd (imm_J w))
  | 103 => if funct3 =? 0 then Some (IJalr rd rs1 (imm_I w)) else None
  | 99 => if funct3 =? 0 then Some (IBeq rs1 rs2 (imm_B w)) else None
  | 115 =>
    if w =? 0x00000073 then Some IEcall
    else if w =? 0x00100073 then Some IEbreak else None
  | _ => None
  end.

(** ** Decoding compressed loads and stores *)

(** Offsets of C.LW/C.SW and of C.LD/C.SD/C.FLD/C.FSD. *)
Definition imm_CLW (h : Z) : Z := 4 * slice h 6 1 + 8 * slice h 10 3 + 64 * slice h 5 1.
Definition imm_CLD (h : Z) : Z := 8 * slice h 10 3 + 64 * slice h 5 2.
(** Offsets of the stack-pointer relative forms. *)
Definition imm_CLWSP (h : Z) : Z := 4 * slice h 4 3 + 32 * slice h 12 1 + 64 * slice h 2 2.
Definition imm_CLDSP (h : Z) : Z := 8 * slice h 5 2 + 32 * slice h 12 1 + 64 * slice h 2 3.
Definition imm_CSWSP (h : Z) : Z := 4 * slice h 9 4 + 64 * slice h 7 2.
Definition imm_CSDSP (h : Z) : Z := 8 * slice h 10 3 + 64 * slice h 7 3.

Definition decode16 (h : Z) : option minstr :=
  let r := 8 + slice h 2 3 in
  let rs1 := 8 + slice h 7 3 in
  let rd := slice h 7 5 in
  let rs2 := slice h 2 5 in
  match slice h 0 2, slice h 13 3 with
  | 0, 1 => Some (IFLoad WD r rs1 (imm_CLD h))
  | 0, 2 => Some (ILoad WW true r rs1 (imm_CLW h))
  | 0, 3 => Some (ILoad WD true r rs1 (imm_CLD h))
  | 0, 5 => Some (IFStore WD r rs1 (imm_CLD h))
  | 0, 6 => Some (IStore WW r rs1 (imm_CLW h))
  | 0, 7 => Some (IStore WD r rs1 (imm_CLD h))
  | 2, 1 => Some (IFLoad WD rd sp (imm_CLDSP h))
  | 2, 2 => if rd =? 0 then None else Some (ILoad WW true rd sp (imm_CLWSP h))
  | 2, 3 => if rd =? 0 then None else Some (ILoad WD true rd sp (imm_CLDSP h))
  | 2, 5 => Some (IFStore WD rs2 sp (imm_CSDSP h))
  | 2, 6 => Some (IStore WW rs2 sp (imm_CSWSP h))
  | 2, 7 => Some (IStore WD rs2 sp (imm_CSDSP h))
  | _, _ => None
  end.

(** ** Execution *)

Inductive step_result :=
| Next (s : machine)
| Fault (addr : Z)
| Illegal
| Breakpoint (s : machine).

Definition base_imm (i : minstr) : Z * Z :=
  match i with
  | ILoad _ _ _ rs1 imm | IStore _ _ rs1 imm
  | IFLoad _ _ rs1 imm | IFStore _ _ rs1 imm => (rs1, imm)
  end.

Definition eff_addr (i : minstr) (s : machine) : Z :=
  let '(rs1, imm) := base_imm i in getx s rs1 ⊞ imm.

(** The register value of a loaded [w]-wide datum. *)
Definition extend (w : width) (signed : bool) (v : Z) : Z :=
  if signed then u64 (sext (nbits w) v) else v.

(** FLW boxes the single in the upper ones of the double register. *)
Definition nan_box (w : width) (v : Z) : Z :=
  match w with WW => Z.lor 0xFFFFFFFF00000000 v | _ => v end.

(** A memory instruction whose datum is at [ea]; [len] is its length. *)
Definition exec_mem_at (ea : Z) (i : minstr) (len : Z) (s : machine) : step_result :=
  let next := setpc (pc s ⊞ len) in
  match i with
  | ILoad w sg rd _ _ =>
    match mload (nbytes w) (mem s) ea with
    | Some v => Next (next (setx rd (extend w sg v) s))
    | None => Fault ea
    end
  | IFLoad w rd _ _ =>
    match mload (nbytes w) (mem s) ea with
    | Some v => Next (next (setf rd (nan_box w v) s))
    | None => Fault ea
    end
  | IStore w rs2 _ _ =>
    match mstore (nbytes w) (mem s) ea (getx s rs2) with
    | Some m => Next (next (setmem m s))
    | None => Fault ea
    end
  | IFStore w rs2 _ _ =>
    match mstore (nbytes w) (mem s) ea (fr s rs2) with
    | Some m => Next (next (setmem m s))
    | None => Fault ea
    end
  end.

(** Code that is given as a listing and not as words in memory: what running it
    from its entry address does, up to the point where it jumps elsewhere. *)
Class Routines := routine_at : Z -> option (machine -> step_result).

Section Exec.
Context {K : Kernel} {R : Routines}.

Definition do_ecall (s : machine) : machine :=
  let nr := getx s a7 in
  let args := map (getx s) [a0; a1; a2; a3; a4; a5] in
  let '(r, m) := k_syscall nr args (mem s) in
  setx a0 (u64 r) (setmem m (emit (Event nr args (xr s)) s)).

Definition exec (i : instr) (len : Z) (s : machine) : step_result :=
  let next := setpc (pc s ⊞ len) in
  match i with
  | IMem mi => exec_mem_at (eff_addr mi s) mi len s
  | ILui rd imm => Next (next (setx rd (u64 imm) s))
  | IAddi rd rs1 imm => Next (next (setx rd (getx s rs1 ⊞ imm) s))
  | IOri rd rs1 imm => Next (next (setx rd (Z.lor (getx s rs1) (u64 imm)) s))
  | ISlli rd rs1 sh => Next (next (setx rd (u64 (Z.shiftl (getx s rs1) sh)) s))
  | ISrli rd rs1 sh => Next (next (setx rd (Z.shiftr (getx s rs1) sh) s))
  | IOr rd rs1 rs2 => Next (next (setx rd (Z.lor (getx s rs1) (getx s rs2)) s))
  | IAnd rd rs1 rs2 => Next (next (setx rd (Z.land (getx s rs1) (getx s rs2)) s))
  | IJal rd off => Next (setpc (pc s ⊞ off) (setx rd (pc s ⊞ len) s))
  | IJalr rd rs1 imm =>
      let target := 2 * ((getx s rs1 ⊞ imm) / 2) in
      Next (setpc target (setx rd (pc s ⊞ len) s))
  | IBeq rs1 rs2 off =>
      Next (setpc (pc s ⊞ (if getx s rs1 =? getx s rs2 then off else len)) s)
  | IEcall => Next (next (do_ecall s))
  | IEbreak => Breakpoint s
  end.

(** Instruction at the program counter, with its length. *)
Definition fetch_decode (m : memory) (a : Z) : option (option instr * Z) :=
  match mfetch 2 m a with
  | None => None
  | Some h =>
    if Z.land h 3 =? 3 then
      match mfetch 4 m a with
      | None => None
      | Some w => Some (decode32 w, 4)
      end
    else Some (IMem <$> decode16 h, 2)
  end.

Definition step (s : machine) : step_result :=
  match routine_at (pc s) with
  | Some g => g s
  | None =>
    match fetch_decode (mem s) (pc s) with
    | None => Fault (pc s)
    | Some (None, _) => Illegal
    | Some (Some i, len) => exec i len s
    end
  end.

Fixpoint run (n : nat) (s : machine) : step_result :=
  match n with
  | O => Next s
  | S n' => match step s with Next s' => run n' s' | r => r end
  end.
End Exec.

Arguments upd f r v q /.
Arguments u64 : simpl never.
Arguments sext : simpl never.
Arguments mload : simpl never.
Arguments mstore : simpl never.
Arguments mfetch : simpl never.
Arguments decode32 : simpl never.
Arguments decode16 : simpl never.

(** ** Lemmas on registers *)

Lemma upd_eq f r v : upd f r v r = v.
Proof. unfold upd. by rewrite Z.eqb_refl. Qed.

Lemma upd_ne f r v q : q <> r -> upd f r v q = f q.
Proof. intros. unfold upd. by case_bools. Qed.

Lemma getx_pos s r : r <> 0 -> getx s r = xr s r.
Proof. intros. unfold getx. by case_bools. Qed.

Lemma trace_setx r v s : trace (setx r v s) = trace s.
Proof. unfold setx. by case_match. Qed.

(** ** Lemmas on steps *)

Lemma mread_2_of_4 m a : mread 2 m a = mread 4 m a mod 2 ^ 16.
Proof.
  cbn [mread].
  pose proof (Z_of_byte_range (mbyte m a)). pose proof (Z_of_byte_range (mbyte m (a + 1))).
  pose proof (Z_of_byte_range (mbyte m (a + 1 + 1))).
  pose proof (Z_of_byte_range (mbyte m (a + 1 + 1 + 1))).
  Z.div_mod_to_equations. lia.
Qed.

(** The words [ws] are laid out from [base] in executable memory. *)
Definition code_at (m : memory) (base : Z) (ws : list Z) : Prop :=
  mwords (length ws) m base = ws /\
  forall x, base <= x < base + 4 * Z.of_nat (length ws) -> has_prot PROT_EXEC m x = true.

Lemma mwords_lookup n : forall m base i,
  (i < n)%nat -> mwords n m base !! i = Some (mread 4 m (base + 4 * Z.of_nat i)).
Proof.
  induction n; intros m base i Hi; [lia|]. cbn [mwords]. destruct i as [|i]; cbn [lookup list_lookup].
  - do 2 f_equal. lia.
  - rewrite IHn by lia. do 2 f_equal. lia.
Qed.

Lemma mwords_ext n : forall m1 m2 base,
  agree_on base (base + 4 * Z.of_nat n) m1 m2 -> mwords n m1 base = mwords n m2 base.
Proof.
  induction n; intros m1 m2 base H; [done|]. cbn [mwords]. f_equal.
  - apply mread_ext. intros x Hx. apply H. lia.
  - apply IHn. intros x Hx. apply H. lia.
Qed.

Lemma code_at_ext m1 m2 base ws :
  agree_on base (base + 4 * Z.of_nat (length ws)) m1 m2 ->
  m_prot m1 = m_prot m2 -> code_at m1 base ws -> code_at m2 base ws.
Proof.
  intros A P [H X]. split.
  - rewrite <- H at 2. symmetry. by apply mwords_ext.
  - intros x Hx. unfold has_prot. rewrite <- P. apply X, Hx.
Qed.

Lemma code_at_mwrite m base ws n a v :
  a + Z.of_nat n <= base \/ base + 4 * Z.of_nat (length ws) <= a ->
  code_at m base ws -> code_at (mwrite n m a v) base ws.
Proof.
  intros D. apply code_at_ext; [|by rewrite mwrite_prot].
  intros x Hx. symmetry. apply mbyte_mwrite_out. lia.
Qed.

Lemma code_at_mread m base ws i w :
  code_at m base ws -> ws !! i = Some w ->
  mread 4 m (base + 4 * Z.of_nat i) = w /\
  (forall x, base + 4 * Z.of_nat i <= x < base + 4 * Z.of_nat i + 4 -> has_prot PROT_EXEC m x = true).
Proof.
  intros [H X] L. pose proof (lookup_lt_Some _ _ _ L) as Hl. split.
  - rewrite <- H in L. rewrite mwords_lookup in L by done. congruence.
  - intros x Hx. apply X. lia.
Qed.

Lemma fetch_decode_word m a w :
  mread 4 m a = w -> (forall x, a <= x < a + 4 -> has_prot PROT_EXEC m x = true) ->
  w mod 4 = 3 -> fetch_decode m a = Some (decode32 w, 4).
Proof.
  intros R X W. unfold fetch_decode, mfetch.
  rewrite (proj2 (range_prot_spec _ 2 _ _)) by (intros; apply X; lia).
  rewrite (proj2 (range_prot_spec _ 4 _ _)) by (intros; apply X; lia).
  rewrite mread_2_of_4, R.
  change 3 with (Z.ones 2) at 1. rewrite Z.land_ones by lia.
  assert (w mod 2 ^ 16 mod 2 ^ 2 = 3) as -> by (Z.div_mod_to_equations; lia). done.
Qed.

Section StepLemmas.
Context {K : Kernel} {R : Routines}.

Lemma step_code s base ws i w ins :
  code_at (mem s) base ws -> routine_at (pc s) = None -> pc s = base + 4 * Z.of_nat i ->
  ws !! i = Some w -> w mod 4 = 3 -> decode32 w = Some ins -> step s = exec ins 4 s.
Proof.
  intros C N P L W D. destruct (code_at_mread _ _ _ _ _ C L) as [RD X].
  unfold step. rewrite N, P, (fetch_decode_word _ _ w) by done. by rewrite D.
Qed.

Lemma run_app n k s s' : run n s = Next s' -> run (n + k) s = run k s'.
Proof.
  revert s. induction n; intros s H; simpl in *; [by inversion H|].
  destruct (step s); try discriminate. auto.
Qed.

Lemma run_step n s s' : step s = Next s' -> run (S n) s = run n s'.
Proof. intros H. simpl. by rewrite H. Qed.
End StepLemmas.

(** ** Running code laid out in memory *)

Section RunCode.
Context {K : Kernel} {R : Routines}.

Lemma run_code base ws i w ins n s s1 :
  code_at (mem s) base ws -> routine_at (pc s) = None -> pc s = base + 4 * Z.of_nat i ->
  ws !! i = Some w -> w mod 4 = 3 -> decode32 w = Some ins -> exec ins 4 s = Next s1 ->
  run (S n) s = run n s1.
Proof. intros. apply run_step. by erewrite step_code. Qed.

Lemma exec_sd rs2 rs1 imm len s a :
  getx s rs1 ⊞ imm = a ->
  (forall x, a <= x < a + 8 -> has_prot PROT_WRITE (mem s) x = true) ->
  exec (IMem (IStore WD rs2 rs1 imm)) len s =
    Next (setpc (pc s ⊞ len) (setmem (mwrite 8 (mem s) a (getx s rs2)) s)).
Proof.
  intros E P. unfold exec, exec_mem_at, eff_addr. cbn [base_imm nbytes]. rewrite E.
  unfold mstore. by rewrite (proj2 (range_prot_spec _ 8 _ _)) by (intros; apply P; lia).
Qed.

Lemma exec_ld rd rs1 imm len s a :
  getx s rs1 ⊞ imm = a ->
  (forall x, a <= x < a + 8 -> has_prot PROT_READ (mem s) x = true) ->
  exec (IMem (ILoad WD true rd rs1 imm)) len s =
    Next (setpc (pc s ⊞ len) (setx rd (mread 8 (mem s) a) s)).
Proof.
  intros E P. unfold exec, exec_mem_at, eff_addr. cbn [base_imm nbytes]. rewrite E.
  unfold mload. rewrite (proj2 (range_prot_spec _ 8 _ _)) by (intros; apply P; lia).
  unfold extend. change (nbits WD) with 64. do 3 f_equal.
  pose proof (mread8_u64 (mem s) a) as RG. unfold is_u64 in RG.
  unfold sext, u64, wrap. rewrite (Z.mod_small (mread _ _ _)) by done.
  case_bools; [by apply Z.mod_small|]. Z.div_mod_to_equations. lia.
Qed.
End RunCode.

(** ** Encodings of the instructions with computed immediates *)

Lemma decode_lui rd q : 0 <= rd < 32 -> 0 <= q < 2 ^ 20 ->
  decode32 (55 + 128 * rd + 2 ^ 12 * q) = Some (ILui rd (sext 32 (4096 * q))).
Proof.
  intros Hr Hq. set (w := 55 + _ + _).
  assert (slice w 0 7 = 55) as E1 by (rewrite slice_alt by lia; unfold w; Z.div_mod_to_equations; lia).
  assert (slice w 7 5 = rd) as E2 by (rewrite slice_alt by lia; unfold w; Z.div_mod_to_equations; lia).
  assert (slice w 12 20 = q) as E3 by (rewrite slice_alt by lia; unfold w; Z.div_mod_to_equations; lia).
  unfold decode32, imm_U. by rewrite E1, E2, E3.
Qed.

Lemma decode_addi rd rs1 i : 0 <= rd < 32 -> 0 <= rs1 < 32 -> 0 <= i < 2 ^ 12 ->
  decode32 (19 + 128 * rd + 2 ^ 15 * rs1 + 2 ^ 20 * i) = Some (IAddi rd rs1 (sext 12 i)).
Proof.
  intros Hr Hs Hi. set (w := 19 + _ + _ + _).
  assert (slice w 0 7 = 19) as E1 by (rewrite slice_alt by lia; unfold w; Z.div_mod_to_equations; lia).
  assert (slice w 7 5 = rd) as E2 by (rewrite slice_alt by lia; unfold w; Z.div_mod_to_equations; lia).
  assert (slice w 12 3 = 0) as E3 by (rewrite slice_alt by lia; unfold w; Z.div_mod_to_equations; lia).
  assert (slice w 15 5 = rs1) as E4 by (rewrite slice_alt by lia; unfold w; Z.div_mod_to_equations; lia).
  assert (slice w 20 12 = i) as E5 by (rewrite slice_alt by lia; unfold w; Z.div_mod_to_equations; lia).
  unfold decode32, imm_I. by rewrite E1, E2, E3, E4, E5.
Qed.

(** ** The system call of a state *)

Definition sys_args (s : machine) : list Z := map (getx s) [a0; a1; a2; a3; a4; a5].
Definition sys_event (s : machine) : event := Event (getx s a7) (sys_args s) (xr s).

(** The kernel's answer to it and the memory afterwards. *)
Definition sys_result `{Kernel} (s : machine) : Z :=
  u64 (k_syscall (getx s a7) (sys_args s) (mem s)).1.
Definition sys_memory `{Kernel} (s : machine) : memory :=
  (k_syscall (getx s a7) (sys_args s) (mem s)).2.

Lemma do_ecall_eq `{Kernel} s :
  do_ecall s =
    Mach (pc s) (upd (xr s) 10 (sys_result s)) (fr s) (sys_memory s) (trace s ++ [sys_event s]).
Proof. unfold do_ecall, sys_result, sys_memory, sys_args. by destruct (k_syscall _ _ _). Qed.

(** Evaluate register numbers and projections of explicit states. *)
Ltac reg_simpl :=
  cbv [setpc setx setf setmem getx Z.eqb Pos.eqb zero ra sp gp t0 t1 t2 a0 a1 a2 a3 a4 a5 a6 a7
       t3 t4 t5 t6];
  cbn [pc xr fr mem trace upd Z.eqb Pos.eqb].
