(* ===== verification/Os.v ===== *)
(** * What the sources use of the kernel's memory management

    mmap, mprotect, munmap and the page size, as an interface: [Os] has the calls the
    sources make and [OsLaws] what their manual pages promise.  The components
    are proved against the interface; [linear_os] at the end is an
    implementation (a simple allocator), used to run the code on concrete inputs
    and to show that the laws are satisfiable. *)

From stdpp Require Import base gmap list.
From Stdlib Require Import ZArith Lia Bool.
From S2P Require Import Prelude Memory.

Class Os := {
  (** [sysconf(_SC_PAGESIZE)] *)
  os_pagesize : Z;
  (** [mmap(NULL, len, prot, MAP_PRIVATE | MAP_ANONYMOUS, -1, 0)], [None] is [MAP_FAILED] *)
  os_mmap : memory -> Z -> Z -> option (Z * memory);
  (** [mprotect(addr, len, prot)], [None] is [-1] *)
  os_mprotect : memory -> Z -> Z -> Z -> option memory;
  (** [munmap(addr, len)], [None] is [-1] *)
  os_munmap : memory -> Z -> Z -> option memory
}.

(** Length rounded up to whole pages. *)
Definition page_up (psz len : Z) : Z := psz * ((len + psz - 1) / psz).

(** Protections of [m'] are those of [m], with [p] on [lo, hi). *)
Definition reprotected (lo hi p : Z) (m m' : memory) : Prop :=
  forall x, m_prot m' x = if (lo <=? x) && (x <? hi) then Some p else m_prot m x.

(** Protections of [m'] are those of [m], with nothing mapped on [lo, hi). *)
Definition unmapped (lo hi : Z) (m m' : memory) : Prop :=
  forall x, m_prot m' x = if (lo <=? x) && (x <? hi) then None else m_prot m x.

Class OsLaws (O : Os) := {
  pagesize_pow2 : exists k, 7 <= k <= 30 /\ os_pagesize = 2 ^ k;
  mmap_spec : forall m len p a m',
    0 < len -> os_mmap m len p = Some (a, m') ->
    a mod os_pagesize = 0 /\ os_pagesize <= a /\
    a + page_up os_pagesize len <= 2 ^ 63 /\
    (forall x, a <= x < a + page_up os_pagesize len -> m_prot m x = None) /\
    reprotected a (a + page_up os_pagesize len) p m m' /\
    agree_off a (a + page_up os_pagesize len) m' m;
  mprotect_spec : forall m a len p m',
    os_mprotect m a len p = Some m' ->
    m_bytes m' = m_bytes m /\
    reprotected a (a + page_up os_pagesize len) p m m';
  (** unmapping a page-aligned range succeeds *)
  munmap_spec : forall m a len,
    a mod os_pagesize = 0 -> 0 < len ->
    exists m', os_munmap m a len = Some m' /\
      unmapped a (a + page_up os_pagesize len) m m' /\
      agree_off a (a + page_up os_pagesize len) m' m
}.

(** ** Lemmas *)

Lemma page_up_ge psz len : 0 < psz -> len <= page_up psz len.
Proof. intros. unfold page_up. Z.div_mod_to_equations. nia. Qed.

Lemma page_up_mult psz k : 0 < psz -> page_up psz (psz * k) = psz * k.
Proof.
  intros. unfold page_up. f_equal.
  replace (psz * k + psz - 1) with (psz - 1 + k * psz) by lia.
  rewrite Z.div_add by lia. rewrite Z.div_small by lia. lia.
Qed.

(** A length of at most one page, and at least one byte, takes one page. *)
Lemma page_up_one psz len : 0 < len <= psz -> page_up psz len = psz.
Proof.
  intros. unfold page_up.
  replace (len + psz - 1) with (len - 1 + 1 * psz) by lia.
  rewrite Z.div_add by lia. rewrite Z.div_small by lia. lia.
Qed.

(** ** An implementation: a simple allocator above 2^32 *)

Definition bump_base : Z := 2 ^ 32.

Definition reprot (lo hi p : Z) (m : memory) : memory :=
  Mem (m_bytes m) (fun x => if (lo <=? x) && (x <? hi) then Some p else m_prot m x).

Definition unmap (lo hi : Z) (m : memory) : memory :=
  Mem (m_bytes m) (fun x => if (lo <=? x) && (x <? hi) then None else m_prot m x).

(** No byte of the [n] from [a] is mapped. *)
Fixpoint range_free (n : nat) (m : memory) (a : Z) : bool :=
  match n with
  | O => true
  | S n' => match m_prot m a with None => range_free n' m (a + 1) | Some _ => false end
  end.

(** The first of [slots] places, 64 KiB apart, where [n] bytes are free. *)
Fixpoint first_free (slots n : nat) (m : memory) (a : Z) : option Z :=
  match slots with
  | O => None
  | S slots' => if range_free n m a then Some a else first_free slots' n m (a + 2 ^ 16)
  end.

(** The allocator has four places above [bump_base]; it refuses when they are
    taken or when the region is longer than 64 KiB. *)
Definition linear_os : Os := {|
  os_pagesize := 4096;
  os_mmap := fun m len p =>
    if (0 <? len) && (len <=? 2 ^ 16) then
      match first_free 4 (Z.to_nat (page_up 4096 len)) m bump_base with
      | Some a => Some (a, reprot a (a + page_up 4096 len) p m)
      | None => None
      end
    else None;
  os_mprotect := fun m a len p =>
    if a mod 4096 =? 0 then Some (reprot a (a + page_up 4096 len) p m) else None;
  os_munmap := fun m a len =>
    if (a mod 4096 =? 0) && (0 <? len) then Some (unmap a (a + page_up 4096 len) m) else None
|}.

Lemma range_free_spec n : forall m a,
  range_free n m a = true -> forall x, a <= x < a + Z.of_nat n -> m_prot m x = None.
Proof.
  induction n; intros m a H x Hx; [lia|]. cbn [range_free] in H.
  destruct (m_prot m a) eqn:E; [discriminate|].
  destruct (Z.eq_dec x a) as [->|]; [done|]. eapply IHn; [done|]. lia.
Qed.

Lemma first_free_spec slots n m : forall a b,
  first_free slots n m a = Some b ->
  a <= b <= a + 2 ^ 16 * Z.of_nat slots /\ (b - a) mod 4096 = 0 /\ range_free n m b = true.
Proof.
  induction slots as [|slots IH]; intros a b; [discriminate|]. cbn [first_free].
  destruct (range_free n m a) eqn:E.
  - intros [= <-]. split_and!; [lia..| |done]. by rewrite Z.sub_diag.
  - intros (H1 & H2 & H3)%IH. split_and!; [lia..| |done].
    replace (b - a) with (b - (a + 2 ^ 16) + 16 * 4096) by lia. by rewrite Z_mod_plus_full.
Qed.

Lemma linear_os_laws : OsLaws linear_os.
Proof.
  constructor.
  - exists 12. split; [lia | reflexivity].
  - intros m len p a m' L. cbn [os_mmap os_pagesize linear_os].
    destruct (Z.ltb_spec 0 len), (Z.leb_spec len (2 ^ 16)); cbn [andb]; try discriminate.
    assert (0 <= page_up 4096 len <= 2 ^ 17)
      by (unfold page_up; Z.div_mod_to_equations; lia).
    destruct (first_free _ _ _ _) as [b|] eqn:Fr; [|discriminate].
    apply first_free_spec in Fr as (B & A & Fr). intros [= <- <-]. unfold bump_base in *.
    split_and!; try lia; try done.
    + revert A. Z.div_mod_to_equations. lia.
    + intros x Hx. eapply range_free_spec; [exact Fr|]. lia.
  - intros m a len p m'. cbn. case_bools; [|discriminate]. intros [= <-]. done.
  - intros m a len A Hl. cbn in A |- *. rewrite A, (proj2 (Z.ltb_lt 0 len) Hl).
    eexists. by split_and!.
Qed.
