(* ===== verification/RetSeq.v ===== *)
(** * The relocated global pointer and its page: utils.c

    [ReturnSequenceInfo] (main.h), [define_ret_sequence_info] and
    [allocate_ret_sequence_page] (utils.c): where the shadow page is, where the
    relocated global pointer points and how a shadow address corresponds to an
    address of the original page.  Pointers and [uintptr_t] are 64-bit words.

    The assembly of main.c reads [relocated_global_pointer] from memory, so that
    variable is in the memory of the process; the other globals are fields of a
    record. *)

From stdpp Require Import base gmap list.
From Stdlib Require Import ZArith Lia Bool.
From S2P Require Import Prelude Memory Os.

Definition RET_SEQUENCE_SIZE : Z := 56.

Record ReturnSequenceInfo := {
  start_addr : Z;
  end_addr : Z;
  start_addr_page : Z;
  end_addr_page : Z;
  gp_offset : Z;
  relocated_gp : Z;
  start_offset : Z;
  protection_size : Z;
  ret_sequence_page_addr : Z
}.

(** The global variables of main.c that the components share; of
    [relocated_global_pointer] it is the address, where the library is loaded. *)
Record globals := {
  virtual_global_pointer : Z;
  relocated_global_pointer_at : Z;
  page_size : Z;
  rsi : ReturnSequenceInfo
}.

(** Static storage: all zero. *)
Definition rsi0 : ReturnSequenceInfo :=
  {| start_addr := 0; end_addr := 0; start_addr_page := 0; end_addr_page := 0;
     gp_offset := 0; relocated_gp := 0; start_offset := 0; protection_size := 0;
     ret_sequence_page_addr := 0 |}.

Section RetSeq.
Context {O : Os}.

Definition define_ret_sequence_info (g : globals) : globals :=
  let page_size := u64 os_pagesize in
  let page_mask := u64 (Z.lnot (u64 (page_size - 1))) in
  let vgp := virtual_global_pointer g in
  let start_addr := vgp ⊟ RET_SEQUENCE_SIZE in
  let end_addr := vgp ⊟ 1 in
  let start_addr_page := Z.land start_addr page_mask in
  let end_addr_page := Z.land end_addr page_mask in
  {| virtual_global_pointer := vgp;
     relocated_global_pointer_at := relocated_global_pointer_at g;
     page_size := page_size;
     rsi := {| start_addr := start_addr;
               end_addr := end_addr;
               start_addr_page := start_addr_page;
               end_addr_page := end_addr_page;
               gp_offset := vgp mod page_size;
               relocated_gp := relocated_gp (rsi g);
               start_offset := start_offset (rsi g);
               protection_size := u64 (end_addr_page - start_addr_page + page_size);
               ret_sequence_page_addr := ret_sequence_page_addr (rsi g) |} |}.

(** The library's own variables are writable: the store to
    [relocated_global_pointer] does not fault. *)
Definition allocate_ret_sequence_page (g : globals) (m : memory) : res (globals * memory) :=
  let i := rsi g in
  match os_mmap m (protection_size i) (Z.lor PROT_READ PROT_WRITE) with
  | None => Exited 1
  | Some (page, m') =>
    let rgp := page ⊞ gp_offset i in
    let start := rgp ⊟ RET_SEQUENCE_SIZE in
    Ok ({| virtual_global_pointer := virtual_global_pointer g;
           relocated_global_pointer_at := relocated_global_pointer_at g;
           page_size := page_size g;
           rsi := {| start_addr := start;
                     end_addr := rgp ⊟ 1;
                     start_addr_page := start_addr_page i;
                     end_addr_page := end_addr_page i;
                     gp_offset := gp_offset i;
                     relocated_gp := rgp;
                     start_offset := u32 (start mod page_size g);
                     protection_size := protection_size i;
                     ret_sequence_page_addr := page |} |},
        mwrite 8 m' (relocated_global_pointer_at g) rgp)
  end.
End RetSeq.

(** ** Page arithmetic *)

(** [a & ~(psz - 1)] for a power-of-two page size. *)
Lemma page_mask_spec a k : is_u64 a -> 0 <= k < 64 ->
  Z.land a (u64 (Z.lnot (u64 (2 ^ k - 1)))) = a - a mod 2 ^ k.
Proof.
  intros Ha Hk.
  assert (0 < 2 ^ k) by (apply Z.pow_pos_nonneg; lia).
  assert (2 ^ k <= 2 ^ 63) by (apply Z.pow_le_mono_r; lia).
  rewrite (u64_small (2 ^ k - 1)) by u64_lia.
  replace (2 ^ k - 1) with (Z.ones k) by (rewrite Z.ones_equiv; lia).
  unfold u64, wrap. rewrite <- (Z.land_ones (Z.lnot _)) by lia.
  rewrite Z.land_assoc, (Z.land_comm a), <- Z.land_assoc, (Z.land_comm (Z.lnot _)).
  rewrite Z.land_ones by lia. rewrite (Z.mod_small a (2 ^ 64)) by exact Ha.
  rewrite <- Z.ldiff_land, Z.ldiff_ones_r by lia.
  rewrite Z.shiftr_div_pow2, Z.shiftl_mul_pow2 by lia.
  pose proof (Z.div_mod a (2 ^ k)). lia.
Qed.

(** An original global pointer with room below it and in user space. *)
Definition gp_sane (vgp : Z) : Prop := 4096 <= vgp < 2 ^ 63.

Section Facts.
Context {O : Os} {L : OsLaws O}.

Lemma pagesize_bounds : 128 <= os_pagesize <= 2 ^ 30.
Proof.
  destruct pagesize_pow2 as (k & Hk & ->). change 128 with (2 ^ 7).
  split; apply Z.pow_le_mono_r; lia.
Qed.

Lemma pagesize_u64 : u64 os_pagesize = os_pagesize.
Proof. pose proof pagesize_bounds. apply u64_small. unfold is_u64. lia. Qed.

Lemma page_of a : is_u64 a ->
  Z.land a (u64 (Z.lnot (u64 (u64 os_pagesize - 1)))) = a - a mod os_pagesize.
Proof.
  intros. rewrite pagesize_u64. destruct pagesize_pow2 as (k & Hk & ->).
  apply page_mask_spec; [done | lia].
Qed.

Lemma page_size_define g : page_size (define_ret_sequence_info g) = os_pagesize.
Proof. apply pagesize_u64. Qed.

Lemma gp_offset_define g :
  gp_offset (rsi (define_ret_sequence_info g)) = virtual_global_pointer g mod os_pagesize.
Proof. simpl. by rewrite pagesize_u64. Qed.

Lemma gp_offset_range g :
  0 <= gp_offset (rsi (define_ret_sequence_info g)) < os_pagesize.
Proof. rewrite gp_offset_define. apply Z.mod_pos_bound. pose proof pagesize_bounds. lia. Qed.

(** The pages of the first and of the last byte before the global pointer. *)
Lemma start_addr_page_define g : gp_sane (virtual_global_pointer g) ->
  let a := virtual_global_pointer g - RET_SEQUENCE_SIZE in
  start_addr_page (rsi (define_ret_sequence_info g)) = a - a mod os_pagesize.
Proof.
  intros [? ?] a. unfold a, RET_SEQUENCE_SIZE. cbn [define_ret_sequence_info rsi start_addr_page].
  unfold RET_SEQUENCE_SIZE. rewrite page_of by apply u64_range.
  by rewrite u64_small by u64_lia.
Qed.

Lemma end_addr_page_define g : gp_sane (virtual_global_pointer g) ->
  let a := virtual_global_pointer g - 1 in
  end_addr_page (rsi (define_ret_sequence_info g)) = a - a mod os_pagesize.
Proof.
  intros [? ?] a. unfold a. cbn [define_ret_sequence_info rsi end_addr_page].
  rewrite page_of by apply u64_range. by rewrite u64_small by u64_lia.
Qed.
End Facts.

(** Quotients of an address just below another one. *)
Lemma mod_below a d p : 0 < d <= p -> 0 < p ->
  (a - d) mod p = if a mod p <? d then a mod p - d + p else a mod p - d.
Proof.
  intros Hd Hp. pose proof (Z.mod_pos_bound a p Hp). pose proof (Z.div_mod a p ltac:(lia)).
  case_bools.
  - symmetry. apply (Z.mod_unique_pos _ _ (a / p - 1)); lia.
  - symmetry. apply (Z.mod_unique_pos _ _ (a / p)); lia.
Qed.

(** Bytes of the trampoline, which starts at the relocated global pointer:
    twenty instructions (patcher.c). *)
Definition TRAMPOLINE_SIZE : Z := 80.

(** The position of the global pointer in its page leaves room for the return
    sequence below it and for the trampoline above it. *)
Definition gp_fits (off psz : Z) : Prop :=
  RET_SEQUENCE_SIZE <= off /\ off + TRAMPOLINE_SIZE <= psz.

(** What [__vpoline_init] does with the two functions, up to the signal handler
    that it installs in between. *)
Definition layout `{Os} (g : globals) (m : memory) : res (globals * memory) :=
  allocate_ret_sequence_page (define_ret_sequence_info g) m.

Section Layout.
Context {O : Os} {L : OsLaws O}.

Lemma protection_size_cases g : gp_sane (virtual_global_pointer g) ->
  let off := virtual_global_pointer g mod os_pagesize in
  protection_size (rsi (define_ret_sequence_info g)) =
    if (1 <=? off) && (off <? RET_SEQUENCE_SIZE) then 2 * os_pagesize else os_pagesize.
Proof.
  intros S off. pose proof pagesize_bounds as B. unfold gp_sane in S.
  pose proof (start_addr_page_define g S) as E1. pose proof (end_addr_page_define g S) as E2.
  cbv zeta in E1, E2. change (protection_size _) with
    (u64 (end_addr_page (rsi (define_ret_sequence_info g))
          - start_addr_page (rsi (define_ret_sequence_info g)) + u64 os_pagesize)).
  rewrite E1, E2, pagesize_u64, !mod_below by (unfold RET_SEQUENCE_SIZE; lia).
  fold off. unfold RET_SEQUENCE_SIZE.
  assert (0 <= off < os_pagesize) by (apply Z.mod_pos_bound; lia).
  case_bools; rewrite u64_small; unfold is_u64; lia.
Qed.

(** Everything the allocation establishes, for the clients. *)
Lemma layout_spec g m g' m' : gp_sane (virtual_global_pointer g) ->
  layout g m = Ok (g', m') ->
  let off := virtual_global_pointer g mod os_pagesize in
  let i := rsi g' in
  let base := ret_sequence_page_addr i in
  let size := protection_size i in
  page_size g' = os_pagesize /\
  virtual_global_pointer g' = virtual_global_pointer g /\
  base mod os_pagesize = 0 /\ os_pagesize <= base /\ base + size <= 2 ^ 63 /\
  size = (if (1 <=? off) && (off <? RET_SEQUENCE_SIZE) then 2 * os_pagesize else os_pagesize) /\
  gp_offset i = off /\
  relocated_gp i = base + off /\
  relocated_global_pointer_at g' = relocated_global_pointer_at g /\
  start_addr i = relocated_gp i - RET_SEQUENCE_SIZE /\
  end_addr i = relocated_gp i - 1 /\
  start_offset i = start_addr i mod os_pagesize /\
  start_addr_page i = start_addr_page (rsi (define_ret_sequence_info g)) /\
  (forall x, base <= x < base + size -> m_prot m x = None) /\
  reprotected base (base + size) (Z.lor PROT_READ PROT_WRITE) m m' /\
  agree_off base (base + size) m' (mwrite 8 m (relocated_global_pointer_at g) (relocated_gp i)).
Proof.
  intros S H off i base size. unfold layout, allocate_ret_sequence_page in H.
  pose proof pagesize_bounds as B. pose proof (protection_size_cases g S) as PS.
  pose proof (page_size_define g) as DP. pose proof (gp_offset_define g) as DO.
  assert (virtual_global_pointer (define_ret_sequence_info g) = virtual_global_pointer g) as DV by done.
  assert (relocated_global_pointer_at (define_ret_sequence_info g) = relocated_global_pointer_at g) as DA by done.
  cbv zeta in PS. fold off in PS, DO.
  generalize dependent (define_ret_sequence_info g). intros d H PS DP DO DV DA.
  assert (0 <= off < os_pagesize) as Hoff by (apply Z.mod_pos_bound; lia).
  assert (exists k, protection_size (rsi d) = os_pagesize * k /\ 1 <= k) as (k & Ek & Hk)
    by (rewrite PS; case_bools; first [exists 2; lia | exists 1; lia]).
  destruct (os_mmap m (protection_size (rsi d)) _) as [[page mm]|] eqn:E; [|discriminate].
  apply mmap_spec in E; [|rewrite Ek; nia].
  rewrite Ek, page_up_mult, <- Ek in E by lia.
  destruct E as (A & P & T & F & R & G). inversion H; subst g' m'; clear H.
  subst i base size. cbn [rsi page_size virtual_global_pointer relocated_global_pointer_at
    ret_sequence_page_addr protection_size relocated_gp start_addr end_addr start_offset
    start_addr_page gp_offset]. rewrite DP, DO, DV, DA.
  unfold RET_SEQUENCE_SIZE in *.
  assert (protection_size (rsi d) >= os_pagesize) by (rewrite Ek; nia).
  rewrite !(u64_small (page + off)) by u64_lia.
  rewrite !(u64_small (page + off - 56)), !(u64_small (page + off - 1)) by u64_lia.
  split_and!; try done.
  - unfold u32, wrap. apply (Z.mod_small _ (2 ^ 32)).
    pose proof (Z.mod_pos_bound (page + off - 56) os_pagesize). lia.
  - intros x Hx. transitivity (mbyte (mwrite 8 mm (relocated_global_pointer_at g) (page + off)) x); [done|].
    rewrite !mbyte_mwrite. by rewrite G.
Qed.
End Layout.

(** The assembly finds the relocated global pointer in its variable. *)
Lemma layout_published `{Os} g m g' m' : layout g m = Ok (g', m') ->
  mread 8 m' (relocated_global_pointer_at g) = relocated_gp (rsi g').
Proof.
  unfold layout, allocate_ret_sequence_page. destruct (os_mmap _ _ _) as [[page mm]|]; [|done].
  intros [= <- <-].
  refine (eq_trans (mread_mwrite 8 mm (relocated_global_pointer_at g)
    (page ⊞ gp_offset (rsi (define_ret_sequence_info g)))) _).
  apply (Z.mod_small _ (2 ^ 64)), u64_range.
Qed.

(** ** Properties *)

Section Properties.
Context {O : Os} {L : OsLaws O}.

(** The relocated global pointer has the same offset in its page as the
    original one, it is stored in the variable [relocated_global_pointer], and
    the return sequence occupies the 56 bytes that end just below it. *)
Theorem relocated_gp_congruent g m g' m' :
  gp_sane (virtual_global_pointer g) -> layout g m = Ok (g', m') ->
  relocated_gp (rsi g') mod page_size g' = virtual_global_pointer g' mod page_size g' /\
  mread 8 m' (relocated_global_pointer_at g) = relocated_gp (rsi g') /\
  end_addr (rsi g') - start_addr (rsi g') + 1 = RET_SEQUENCE_SIZE /\
  end_addr (rsi g') + 1 = relocated_gp (rsi g').
Proof.
  intros S H. rewrite (layout_published _ _ _ _ H). destruct (layout_spec _ _ _ _ S H)
    as (EP & EV & A & _ & _ & _ & _ & ER & _ & ES & EE & _).
  rewrite EP, EV, ER, ES, EE, ER. split_and!; try (unfold RET_SEQUENCE_SIZE; lia).
  pose proof pagesize_bounds.
  rewrite Z.add_mod, A, Z.add_0_l, !Z.mod_mod by lia. done.
Qed.

(** The shadow region is one page, or two when the return sequence would
    straddle a page boundary below the original global pointer. *)
Theorem protection_size_one_or_two_pages g :
  gp_sane (virtual_global_pointer g) ->
  let d := define_ret_sequence_info g in
  protection_size (rsi d) =
    (if decide (start_addr_page (rsi d) = end_addr_page (rsi d))
     then page_size d else 2 * page_size d).
Proof.
  intros S d. unfold d. pose proof (protection_size_cases g S) as PS. cbv zeta in PS.
  rewrite PS, page_size_define, start_addr_page_define, end_addr_page_define by done.
  pose proof pagesize_bounds. pose proof (gp_offset_range g) as R.
  rewrite gp_offset_define in R. unfold RET_SEQUENCE_SIZE.
  rewrite !mod_below by lia. case_bools; case_decide; lia.
Qed.

(** The return sequence and the trampoline lie inside the shadow region
    exactly when the global pointer's offset in its page is at least 56 and
    leaves 80 bytes above it. *)
Theorem patch_area_in_region_iff g m g' m' :
  gp_sane (virtual_global_pointer g) -> layout g m = Ok (g', m') ->
  (ret_sequence_page_addr (rsi g') <= start_addr (rsi g') /\
   relocated_gp (rsi g') + TRAMPOLINE_SIZE
     <= ret_sequence_page_addr (rsi g') + protection_size (rsi g'))
  <-> gp_fits (gp_offset (rsi g')) (page_size g').
Proof.
  intros S H. pose proof (layout_spec _ _ _ _ S H)
    as (EP & EV & A & _ & _ & EZ & EO & ER & _ & ES & _).
  rewrite EO, EP, ES, ER, EZ. unfold gp_fits, RET_SEQUENCE_SIZE, TRAMPOLINE_SIZE.
  pose proof pagesize_bounds. case_bools; lia.
Qed.
End Properties.

(** ** A concrete process: one page of text, one page of data *)

Definition ex_g (vgp : Z) : globals :=
  {| virtual_global_pointer := vgp; relocated_global_pointer_at := 0x12f00; page_size := 0; rsi := rsi0 |}.

Definition ex_m : memory :=
  Mem ∅ (fun x => if (0x1000 <=? x) && (x <? 0x2000) then Some (Z.lor PROT_READ PROT_EXEC)
                  else if (0x12000 <=? x) && (x <? 0x13000) then Some (Z.lor PROT_READ PROT_WRITE)
                  else None).

(** Its state after the allocation. *)
Definition ex_laid (vgp : Z) : globals * memory :=
  match @layout linear_os (ex_g vgp) ex_m with Ok r => r | _ => (ex_g vgp, ex_m) end.

Lemma ex_laid_ok vgp :
  match @layout linear_os (ex_g vgp) ex_m with Ok _ => true | _ => false end = true ->
  @layout linear_os (ex_g vgp) ex_m = Ok ((ex_laid vgp).1, (ex_laid vgp).2).
Proof. unfold ex_laid. by destruct (layout _ _) as [[]| |]. Qed.

Section Witnesses.
#[local] Existing Instance linear_os.
#[local] Existing Instance linear_os_laws.

Lemma relocated_gp_congruent_witness :
  relocated_gp (rsi (ex_laid 0x12800).1) mod 4096 = 0x800.
Proof.
  destruct (relocated_gp_congruent (ex_g 0x12800) ex_m (ex_laid 0x12800).1 (ex_laid 0x12800).2)
    as (E & _).
  - unfold gp_sane. cbn. lia.
  - apply ex_laid_ok. vm_compute. reflexivity.
  - exact E.
Defined.

Lemma protection_size_one_or_two_pages_witness :
  protection_size (rsi (define_ret_sequence_info (ex_g 0x12800))) = 4096 /\
  protection_size (rsi (define_ret_sequence_info (ex_g 0x12010))) = 8192.
Proof.
  split; rewrite protection_size_one_or_two_pages by (unfold gp_sane; cbn; lia);
    vm_compute; reflexivity.
Defined.

Lemma patch_area_in_region_iff_witness :
  gp_fits (gp_offset (rsi (ex_laid 0x12800).1)) 4096 /\
  ~ gp_fits (gp_offset (rsi (ex_laid 0x12fc0).1)) 4096.
Proof.
  split.
  - apply (patch_area_in_region_iff (ex_g 0x12800) ex_m (ex_laid 0x12800).1 (ex_laid 0x12800).2).
    + unfold gp_sane. cbn. lia.
    + apply ex_laid_ok. vm_compute. reflexivity.
    + vm_compute. split; discriminate.
  - rewrite <- (patch_area_in_region_iff (ex_g 0x12fc0) ex_m (ex_laid 0x12fc0).1 (ex_laid 0x12fc0).2).
    + vm_compute. intros [_ H]. by apply H.
    + unfold gp_sane. cbn. lia.
    + apply ex_laid_ok. vm_compute. reflexivity.
Defined.
End Witnesses.
