(* ===== verification/Patcher.v ===== *)
(** * The code written around the relocated global pointer: patcher.c

    [setup_shadow_page_trampoline] writes the twenty instructions that save
    t0-t3, build the address of [asm_syscall_hook] in t0 and jump to it;
    [setup_return] writes the three return paths below the relocated global
    pointer and makes the page execute-only.  The theorems run the written words
    on the machine of [Isa]. *)

From stdpp Require Import base gmap list.
From Stdlib Require Import ZArith Lia Bool.
From S2P Require Import Prelude Memory Isa Os RetSeq.

Definition SIGABRT : Z := 6.
Definition SIGSEGV : Z := 11.

(** [p[0] = w0; p[1] = w1; ...] through a [uint32_t *p]. *)
Fixpoint store_words (base : Z) (ws : list Z) (m : memory) : res memory :=
  match ws with
  | [] => Ok m
  | w :: ws' =>
    match mstore 4 m base w with
    | Some m' => store_words (base + 4) ws' m'
    | None => Killed SIGSEGV
    end
  end.

(** The split of a 32-bit half into a LUI field and an ADDI immediate. *)
Definition split_imm (half : Z) : Z * Z :=
  let lui_imm_field := Z.land half 0xfffff000 in
  if negb (half mod 4096 =? 0) then
    let addi_imm_field := u32 (half - lui_imm_field) in
    if 2047 <? addi_imm_field then
      (u32 (lui_imm_field + 4096), u32 (- (4096 - addi_imm_field)))
    else (lui_imm_field, addi_imm_field)
  else (lui_imm_field, 0).

Definition trampoline_words (dst : Z) : list Z :=
  let upper_32 := u32 (Z.shiftr (Z.land dst 0xffffffff00000000) 32) in
  let lower_32 := u32 dst in
  let '(lui_hi, addi_hi) := split_imm upper_32 in
  let '(lui_lo, addi_lo) := split_imm lower_32 in
  [ 0xed010113;                                  (* addi sp, sp, -304 *)
    0x00513023;                                  (* sd t0, 0(sp) *)
    0x00613423;                                  (* sd t1, 8(sp) *)
    0x00713823;                                  (* sd t2, 16(sp) *)
    0x01c13c23;                                  (* sd t3, 24(sp) *)
    Z.lor 0x000002b7 lui_hi;                     (* lui t0, ... *)
    Z.lor 0x00028293 (u32 (Z.shiftl addi_hi 20)); (* addi t0, t0, ... *)
    0x02029293;                                  (* slli t0, t0, 32 *)
    Z.lor 0x00000e37 lui_lo;                     (* lui t3, ... *)
    Z.lor 0x000e0e13 (u32 (Z.shiftl addi_lo 20)); (* addi t3, t3, ... *)
    0x7ffff337;                                  (* lui t1, 0x7ffff *)
    0x7ff06393;                                  (* ori t2, zero, 0x7ff *)
    0x00139393;                                  (* slli t2, t2, 1 *)
    0x0013e393;                                  (* ori t2, t2, 1 *)
    0x00736333;                                  (* or t1, t1, t2 *)
    0x00131313;                                  (* slli t1, t1, 1 *)
    0x00136313;                                  (* ori t1, t1, 1 *)
    0x006e7e33;                                  (* and t3, t3, t1 *)
    0x01c2e2b3;                                  (* or t0, t0, t3 *)
    0x00028067 ].                                (* jalr zero, t0, 0 *)

(** [asm_syscall_hook] is an address the linker chooses. *)
Definition setup_shadow_page_trampoline (asm_syscall_hook : Z) (g : globals) (m : memory)
  : res memory :=
  store_words (relocated_gp (rsi g)) (trampoline_words asm_syscall_hook) m.

Definition return_words : list Z :=
  [ 0x12013183;     (* ld gp, 288(sp) *)
    0x00013283;     (* ld t0, 0(sp) *)
    0x13010113;     (* addi sp, sp, 304 *)
    0x0280006f;     (* j before_gp[13] *)
    0x00000073;     (* ecall *)
    0x12013183;     (* ld gp, 288(sp) *)
    0x00013283;     (* ld t0, 0(sp) *)
    0x13010113;     (* addi sp, sp, 304 *)
    0x0140006f;     (* j before_gp[13] *)
    0x12013183;     (* ld gp, 288(sp) *)
    0x00013283;     (* ld t0, 0(sp) *)
    0x13010113;     (* addi sp, sp, 304 *)
    0x00000073;     (* ecall *)
    0x000181e7 ].   (* jalr gp, gp, 0 *)

Definition setup_return `{Os} (g : globals) (m : memory) : res memory :=
  let i := rsi g in
  if negb (ret_sequence_page_addr i mod page_size g =? 0) then Killed SIGABRT
  else
    m1 ← store_words (start_addr i) return_words m;
    match os_mprotect m1 (ret_sequence_page_addr i)
            (u64 (RET_SEQUENCE_SIZE + start_offset i)) PROT_EXEC with
    | Some m2 => Ok m2
    | None => Exited 1
    end.

(** ** Writing words *)

Lemma store_words_ok ws : forall base m,
  (forall x, base <= x < base + 4 * Z.of_nat (length ws) -> has_prot PROT_WRITE m x = true) ->
  Forall (fun w => 0 <= w < 2 ^ 32) ws ->
  exists m', store_words base ws m = Ok m' /\
    mwords (length ws) m' base = ws /\
    agree_off base (base + 4 * Z.of_nat (length ws)) m' m /\
    m_prot m' = m_prot m.
Proof.
  induction ws as [|w ws IH]; intros base m P F.
  { exists m. simpl. split_and!; try done. }
  cbn [store_words length mwords]. unfold mstore.
  rewrite (proj2 (range_prot_spec _ 4 _ _)) by (intros; apply P; simpl; lia).
  inversion F as [|? ? Hw F']; subst.
  destruct (IH (base + 4) (mwrite 4 m base w)) as (m' & E & W & A & Q); [|done|].
  { intros x Hx. rewrite has_prot_mwrite. apply P. simpl. lia. }
  exists m'. rewrite E, W, Q. split_and!; try done.
  - f_equal. rewrite (mread_ext 4 m' (mwrite 4 m base w)).
    + rewrite mread_mwrite. by apply Z.mod_small.
    + intros x Hx. apply A. lia.
  - intros x Hx. rewrite A by lia. apply mbyte_mwrite_out. lia.
Qed.

(** A byte that cannot be written kills the process. *)
Lemma store_words_killed ws : forall base m x,
  base <= x < base + 4 * Z.of_nat (length ws) -> has_prot PROT_WRITE m x = false ->
  store_words base ws m = Killed SIGSEGV.
Proof.
  induction ws as [|w ws IH]; intros base m x Hx P; [simpl in Hx; lia|].
  cbn [store_words]. unfold mstore. destruct (range_prot _ 4 _ _) eqn:E; [|done].
  assert (~ base <= x < base + 4) as N.
  { intros Hn. rewrite (proj1 (range_prot_spec _ 4 _ _) E x ltac:(lia)) in P. discriminate. }
  apply (IH _ _ x); [cbn [length] in Hx; lia | by rewrite has_prot_mwrite].
Qed.

(** ** The immediates of LUI and ADDI *)

Lemma land_page a : 0 <= a < 2 ^ 32 -> Z.land a 0xfffff000 = a - a mod 4096.
Proof.
  intros. change 0xfffff000 with (Z.shiftl (Z.ones 20) 12).
  rewrite <- (Z.mod_small a (2 ^ 32)) at 1 by done. rewrite <- Z.land_ones by lia.
  rewrite <- Z.land_assoc. change (Z.land (Z.ones 32) _) with (Z.ldiff (Z.ones 32) (Z.ones 12)).
  rewrite Z.ldiff_land, Z.land_assoc, Z.land_ones, Z.mod_small, <- Z.ldiff_land by lia.
  rewrite Z.ldiff_ones_r by lia. rewrite Z.shiftl_mul_pow2, Z.shiftr_div_pow2 by lia.
  change (2 ^ 12) with 4096. pose proof (Z.div_mod a 4096). lia.
Qed.

(** A disjoint [|] is a sum. *)
Lemma lor_low_high lo hi k : 0 <= lo < 2 ^ k -> 0 <= k -> Z.lor lo (2 ^ k * hi) = lo + 2 ^ k * hi.
Proof.
  intros Hl Hk.
  assert (Z.land lo (2 ^ k * hi) = 0) as D.
  { apply Z.bits_inj'. intros n Hn. rewrite Z.land_spec, Z.bits_0.
    rewrite Z.mul_comm, <- Z.shiftl_mul_pow2 by lia. destruct (Z.lt_ge_cases n k).
    - rewrite Z.shiftl_spec_low by lia. apply andb_false_r.
    - rewrite <- (Z.mod_small lo (2 ^ k)) by done. by rewrite Z.mod_pow2_bits_high by lia. }
  by rewrite <- Z.lxor_lor, <- Z.add_nocarry_lxor.
Qed.

Lemma split_imm_spec half : 0 <= half < 2 ^ 32 ->
  exists q i, 0 <= q < 2 ^ 20 /\ 0 <= i < 2 ^ 12 /\
    (split_imm half).1 = 2 ^ 12 * q /\
    u32 (Z.shiftl (split_imm half).2 20) = 2 ^ 20 * i /\
    (4096 * q + sext 12 i) mod 2 ^ 32 = half.
Proof.
  intros H. exists ((half + 2048) / 4096 mod 2 ^ 20), (half mod 4096).
  split; [apply Z.mod_pos_bound; lia|]. split; [apply Z.mod_pos_bound; lia|].
  unfold split_imm. rewrite land_page by done.
  replace (half - (half - half mod 4096)) with (half mod 4096) by lia.
  assert (u32 (half mod 4096) = half mod 4096) as ->
    by (apply Z.mod_small; Z.div_mod_to_equations; lia).
  unfold sext, wrap. change (2 ^ 12) with 4096. rewrite Z.mod_mod by lia.
  unfold u32, wrap.
  case_bools; cbn [fst snd]; rewrite Z.shiftl_mul_pow2 by lia;
    repeat split; Z.div_mod_to_equations; lia.
Qed.

(** ** The words of the trampoline *)

(** The half [h] is what LUI [q] and ADDI [i] leave in the low 32 bits. *)
Definition half_parts (half q i : Z) : Prop :=
  0 <= q < 2 ^ 20 /\ 0 <= i < 2 ^ 12 /\ (4096 * q + sext 12 i) mod 2 ^ 32 = half.

Lemma trampoline_words_spec dst : is_u64 dst ->
  exists qh ih ql il,
    half_parts (dst / 2 ^ 32) qh ih /\ half_parts (dst mod 2 ^ 32) ql il /\
    trampoline_words dst =
      [ 0xed010113; 0x00513023; 0x00613423; 0x00713823; 0x01c13c23;
        55 + 128 * 5 + 2 ^ 12 * qh; 19 + 128 * 5 + 2 ^ 15 * 5 + 2 ^ 20 * ih; 0x02029293;
        55 + 128 * 28 + 2 ^ 12 * ql; 19 + 128 * 28 + 2 ^ 15 * 28 + 2 ^ 20 * il;
        0x7ffff337; 0x7ff06393; 0x00139393; 0x0013e393; 0x00736333; 0x00131313; 0x00136313;
        0x006e7e33; 0x01c2e2b3; 0x00028067 ].
Proof.
  intros Hd. unfold is_u64 in Hd.
  assert (u32 (Z.shiftr (Z.land dst 0xffffffff00000000) 32) = dst / 2 ^ 32) as Eh.
  { rewrite Z.shiftr_land. change (Z.shiftr 0xffffffff00000000 32) with (Z.ones 32).
    rewrite Z.land_ones, Z.shiftr_div_pow2 by lia. unfold u32, wrap.
    rewrite Z.mod_mod by lia. apply Z.mod_small. Z.div_mod_to_equations. lia. }
  destruct (split_imm_spec (dst / 2 ^ 32)) as (qh & ih & Qh & Ih & Lh & Ah & Sh);
    [Z.div_mod_to_equations; lia|].
  destruct (split_imm_spec (dst mod 2 ^ 32)) as (ql & il & Ql & Il & Ll & Al & Sl);
    [Z.div_mod_to_equations; lia|].
  exists qh, ih, ql, il. split; [done|]. split; [done|].
  unfold trampoline_words. rewrite Eh. change (u32 dst) with (dst mod 2 ^ 32).
  rewrite (surjective_pairing (split_imm (dst / 2 ^ 32))).
  rewrite (surjective_pairing (split_imm (dst mod 2 ^ 32))).
  rewrite Lh, Ah, Ll, Al. rewrite !lor_low_high by lia. done.
Qed.

Lemma trampoline_words_length dst : length (trampoline_words dst) = 20%nat.
Proof.
  unfold trampoline_words. destruct (split_imm _), (split_imm _). reflexivity.
Qed.

Lemma trampoline_words_range dst : is_u64 dst ->
  Forall (fun w => 0 <= w < 2 ^ 32) (trampoline_words dst).
Proof.
  intros Hd. destruct (trampoline_words_spec dst Hd)
    as (qh & ih & ql & il & (? & ? & _) & (? & ? & _) & ->).
  repeat constructor; lia.
Qed.

(** What LUI and ADDI leave, shifted up or masked to 32 bits. *)
Lemma half_shifted half q i x : half_parts half q i ->
  x = u64 (u64 (sext 32 (4096 * q)) + sext 12 i) -> u64 (Z.shiftl x 32) = 2 ^ 32 * half.
Proof.
  intros (Hq & Hi & <-) ->. rewrite Z.shiftl_mul_pow2 by lia. rewrite u64_add_l.
  pose proof (sext_wrap 32 (4096 * q) ltac:(lia)) as E. unfold u64, wrap in *.
  set (b := sext 12 i). set (a := sext 32 (4096 * q)) in *. clearbody a b.
  assert ((a + b) mod 2 ^ 32 = (4096 * q + b) mod 2 ^ 32) as <-
    by (rewrite Z.add_mod, E, <- Z.add_mod by lia; done).
  Z.div_mod_to_equations. lia.
Qed.

Lemma half_masked half q i x : half_parts half q i ->
  x = u64 (u64 (sext 32 (4096 * q)) + sext 12 i) -> Z.land x 0xffffffff = half.
Proof.
  intros (Hq & Hi & <-) ->. change 0xffffffff with (Z.ones 32). rewrite Z.land_ones by lia.
  rewrite u64_add_l. pose proof (sext_wrap 32 (4096 * q) ltac:(lia)) as E. unfold u64, wrap in *.
  set (b := sext 12 i). set (a := sext 32 (4096 * q)) in *. clearbody a b.
  assert ((a + b) mod 2 ^ 32 = (4096 * q + b) mod 2 ^ 32) as <-
    by (rewrite Z.add_mod, E, <- Z.add_mod by lia; done).
  Z.div_mod_to_equations. lia.
Qed.

(** ** Running the trampoline *)

(** Size of the frame the trampoline pushes. *)
Definition FRAME_SIZE : Z := 304.

Definition stack_rw (m : memory) (lo hi : Z) : Prop :=
  forall x, lo <= x < hi -> has_prot PROT_READ m x = true /\ has_prot PROT_WRITE m x = true.

(** A stack pointer with room for the frame below it, away from the code of
    [len] bytes at [code]. *)
Definition frame_ok (m : memory) (spv code len : Z) : Prop :=
  FRAME_SIZE <= spv < 2 ^ 63 /\ stack_rw m (spv - FRAME_SIZE) spv /\
  (spv <= code \/ code + len <= spv - FRAME_SIZE).

(** The memory after t0-t3 are saved in the frame. *)
Definition save_tmps (s : machine) : memory :=
  let f := xr s sp - FRAME_SIZE in
  mwrite 8 (mwrite 8 (mwrite 8 (mwrite 8 (mem s) f (xr s t0))
    (f + 8) (xr s t1)) (f + 16) (xr s t2)) (f + 24) (xr s t3).

(** The code at hand is in memory. *)
Definition in_memory `{Routines} (lo hi : Z) : Prop :=
  forall x, lo <= x < hi -> routine_at x = None.

(** Execute the instruction at index [i] of the code at hand; the state is
    simplified by evaluating the register numbers. *)
Ltac rv_simpl :=
  reg_simpl;
  repeat rewrite (u64_small (_ + 4)) by u64_lia.
Ltac rv_native :=
  rv_simpl; match goal with H : in_memory _ _ |- _ => apply H; lia end.
Ltac rv_decode :=
  first
    [ apply decode_lui; lia
    | apply decode_addi; lia
    | lazymatch goal with
      | |- decode32 ?w = Some ?i =>
          let r := eval vm_compute in (decode32 w) in
          lazymatch r with Some ?j => unify i j; vm_compute; reflexivity end
      end ].
Ltac rv_at i :=
  erewrite (run_code _ _ i);
  [ | eassumption | rv_native | rv_simpl; lia | reflexivity | Z.div_mod_to_equations; lia | rv_decode
    | reflexivity ];
  rv_simpl.
(** The same for a store of a doubleword, which leaves the code in place. *)
Ltac rv_sd i a :=
  erewrite (run_code _ _ i);
  [ | eassumption | rv_native | rv_simpl; lia | reflexivity | reflexivity | rv_decode
    | apply (exec_sd _ _ _ _ _ a);
      [ rv_simpl; rewrite u64_small by u64_lia; lia
      | rv_simpl; intros; rewrite ?has_prot_mwrite;
        match goal with H : forall y, _ -> has_prot PROT_WRITE _ y = true |- _ => apply H; lia end ] ];
  rv_simpl;
  lazymatch goal with
  | C : code_at ?m ?b ?ws |- context [Mach _ _ _ (mwrite 8 ?m a ?v) _] =>
      apply (code_at_mwrite _ _ _ 8 a v) in C; [ | simpl; lia ]
  end.

(** A system call. *)
Ltac rv_ecall i :=
  erewrite (run_code _ _ i);
  [ | eassumption | rv_native | rv_simpl; lia | reflexivity | reflexivity | rv_decode | reflexivity ];
  rewrite do_ecall_eq; rv_simpl.
(** A load of a doubleword from a readable stack. *)
Ltac rv_ld i a :=
  erewrite (run_code _ _ i);
  [ | eassumption | rv_native | rv_simpl; lia | reflexivity | reflexivity | rv_decode
    | apply (exec_ld _ _ _ _ _ a);
      [ rv_simpl; rewrite u64_small by u64_lia; lia
      | rv_simpl; intros;
        match goal with H : forall y, _ -> has_prot PROT_READ _ y = true /\ _ |- _ => apply H; lia end ] ];
  rv_simpl.

Section Run.
Context {K : Kernel} {R : Routines}.

(** From the first word of the trampoline to [asm_syscall_hook]: t0 holds the
    target, sp is lowered by the frame, t0-t3 are saved in it. *)
Lemma trampoline_run dst (s : machine) :
  is_u64 dst -> dst mod 2 = 0 ->
  code_at (mem s) (pc s) (trampoline_words dst) ->
  0 <= pc s -> pc s + TRAMPOLINE_SIZE <= 2 ^ 63 ->
  frame_ok (mem s) (xr s sp) (pc s) TRAMPOLINE_SIZE ->
  in_memory (pc s) (pc s + TRAMPOLINE_SIZE) ->
  exists x', run 20 s = Next (Mach dst x' (fr s) (save_tmps s) (trace s)) /\
    x' sp = xr s sp - FRAME_SIZE /\
    x' t0 = dst /\ x' t1 = 0xffffffff /\ x' t2 = 0xfff /\ x' t3 = dst mod 2 ^ 32 /\
    forall r, r ∉ [sp; t0; t1; t2; t3] -> x' r = xr s r.
Proof.
  intros Hd Hev C B1 B2 (S1 & S2 & S3) NR.
  destruct (trampoline_words_spec dst Hd)
    as (qh & ih & ql & il & Hh & Hl & E). rewrite E in C. clear E.
  destruct s as [base x f m tr]. unfold save_tmps. cbn [mem pc xr fr trace] in *.
  unfold FRAME_SIZE, TRAMPOLINE_SIZE, is_u64, sp, t0, t1, t2, t3 in *.
  assert (forall y, x 2 - 304 <= y < x 2 -> has_prot PROT_WRITE m y = true) as SW
    by (intros; apply S2; lia).
  pose proof Hh as (Qh & Ih & _). pose proof Hl as (Ql & Il & _).
  rv_at 0%nat. rewrite (u64_small (x 2 + -304)) by u64_lia.
  replace (x 2 + -304) with (x 2 - 304) by lia.
  rv_sd 1%nat (x 2 - 304).
  rv_sd 2%nat (x 2 - 304 + 8).
  rv_sd 3%nat (x 2 - 304 + 16).
  rv_sd 4%nat (x 2 - 304 + 24).
  rv_at 5%nat. rv_at 6%nat. rv_at 7%nat. rewrite (half_shifted _ _ _ _ Hh eq_refl).
  rv_at 8%nat. rv_at 9%nat. rv_at 10%nat. rv_at 11%nat. rv_at 12%nat. rv_at 13%nat.
  rv_at 14%nat. rv_at 15%nat. rv_at 16%nat.
  rv_at 17%nat.
  match goal with |- context [Z.land _ ?k] => change k with 0xffffffff end. rewrite (half_masked _ _ _ _ Hl eq_refl).
  rv_at 18%nat. rv_at 19%nat.
  assert (Z.lor (2 ^ 32 * (dst / 2 ^ 32)) (dst mod 2 ^ 32) = dst) as ->.
  { rewrite Z.lor_comm, lor_low_high by (try apply Z.mod_pos_bound; lia).
    pose proof (Z.div_mod dst (2 ^ 32)). lia. }
  rewrite Z.add_0_r, (u64_small dst) by done.
  replace (2 * (dst / 2)) with dst by (Z.div_mod_to_equations; lia).
  eexists. split; [reflexivity|]. split_and!; try reflexivity.
  intros r Hr. rewrite !not_elem_of_cons in Hr. destruct Hr as (? & ? & ? & ? & ? & _).
  by rewrite !upd_ne.
Qed.

(** ** Running the return paths *)

(** The state after a return path: gp holds the address after the last word,
    which is the relocated global pointer; the frame is popped. *)
Definition returned (base : Z) (s : machine) (m : memory) : machine :=
  let f := xr s sp in
  Mach (2 * (mread 8 m (f + 288) / 2))
    (upd (upd (upd (upd (xr s) gp (mread 8 m (f + 288))) t0 (mread 8 m f))
       sp (f + FRAME_SIZE)) gp (base + RET_SEQUENCE_SIZE)) (fr s) m (trace s).

(** The return sequence is at [base] and the frame at sp is readable. *)
Definition return_ready (base : Z) (s : machine) (m : memory) : Prop :=
  code_at m base return_words /\ 0 <= base /\ base + RET_SEQUENCE_SIZE < 2 ^ 63 /\
  0 <= xr s sp /\ xr s sp + FRAME_SIZE < 2 ^ 63 /\
  stack_rw m (xr s sp) (xr s sp + FRAME_SIZE) /\
  in_memory base (base + RET_SEQUENCE_SIZE).

Lemma return_handled base s :
  return_ready base s (mem s) -> pc s = base ->
  run 5 s = Next (returned base s (mem s)).
Proof.
  intros (C & B1 & B2 & F1 & F2 & RW & NR) P. destruct s as [p x f m tr].
  unfold returned, FRAME_SIZE, RET_SEQUENCE_SIZE, sp, stack_rw in *. cbn [mem pc xr fr trace] in *.
  subst p. pose proof (mread8_u64 m (x 2 + 288)).
  rv_ld 0%nat (x 2 + 288). rv_ld 1%nat (x 2). rv_at 2%nat.
  rewrite (u64_small (x 2 + 304)) by u64_lia.
  rv_at 3%nat. rewrite (u64_small (_ + 40)) by u64_lia.
  rv_at 13%nat. rewrite Z.add_0_r, (u64_small (mread _ _ _)) by done.
  repeat (lia || f_equal).
Qed.

Lemma return_normal base s :
  code_at (mem s) base return_words -> return_ready base s (sys_memory s) -> pc s = base + 16 ->
  run 6 s = Next (returned base
    (Mach (pc s) (upd (xr s) a0 (sys_result s)) (fr s) (sys_memory s) (trace s ++ [sys_event s]))
    (sys_memory s)).
Proof.
  intros C0 (C & B1 & B2 & F1 & F2 & RW & NR) P. destruct s as [p x f m tr].
  unfold returned, FRAME_SIZE, RET_SEQUENCE_SIZE, sp, stack_rw in *. cbn [mem pc xr fr trace] in *.
  subst p. rv_ecall 4%nat. set (m' := sys_memory _) in *. set (ev := sys_event _).
  set (r := sys_result _). clear C0. clearbody m' ev r.
  pose proof (mread8_u64 m' (x 2 + 288)).
  rv_ld 5%nat (x 2 + 288). rv_ld 6%nat (x 2). rv_at 7%nat.
  rewrite (u64_small (x 2 + 304)) by u64_lia.
  rv_at 8%nat. rewrite (u64_small (_ + 20)) by u64_lia.
  rv_at 13%nat. rewrite Z.add_0_r, (u64_small (mread _ _ _)) by done.
  repeat (lia || f_equal).
Qed.

(** The state in which the clone path makes its system call: the caller's
    registers, but for gp, which holds the return address. *)
Definition restored (base : Z) (s : machine) : machine :=
  Mach (base + 48)
    (upd (upd (upd (xr s) gp (mread 8 (mem s) (xr s sp + 288))) t0 (mread 8 (mem s) (xr s sp)))
       sp (xr s sp + FRAME_SIZE)) (fr s) (mem s) (trace s).

Lemma return_clone base s :
  return_ready base s (mem s) -> pc s = base + 36 ->
  code_at (sys_memory (restored base s)) base return_words ->
  run 5 s = Next (Mach (2 * (mread 8 (mem s) (xr s sp + 288) / 2))
    (upd (upd (xr (restored base s)) a0 (sys_result (restored base s)))
       gp (base + RET_SEQUENCE_SIZE))
    (fr s) (sys_memory (restored base s)) (trace s ++ [sys_event (restored base s)])).
Proof.
  intros (C & B1 & B2 & F1 & F2 & RW & NR) P C'. destruct s as [p x f m tr].
  unfold restored, FRAME_SIZE, RET_SEQUENCE_SIZE, sp, stack_rw in *. cbn [mem pc xr fr trace] in *.
  subst p. pose proof (mread8_u64 m (x 2 + 288)).
  rv_ld 9%nat (x 2 + 288). rv_ld 10%nat (x 2). rv_at 11%nat.
  rewrite (u64_small (x 2 + 304)) by u64_lia.
  replace (base + 36 + 4 + 4 + 4) with (base + 48) by lia.
  rv_ecall 12%nat. change t0 with 5 in *. change gp with 3 in *. clear C.
  set (m' := sys_memory _) in *. set (ev := sys_event _). set (r := sys_result _).
  clearbody m' ev r.
  rv_at 13%nat. rewrite Z.add_0_r, (u64_small (mread _ _ _)) by done.
  repeat (lia || f_equal).
Qed.
End Run.

(** ** Preparing the page *)

(** The steps of [__vpoline_init] that build the shadow page. *)
Definition prepare_page `{Os} (hook : Z) (g : globals) (m : memory) : res (globals * memory) :=
  '(g1, m1) ← layout g m;
  m2 ← setup_shadow_page_trampoline hook g1 m1;
  m3 ← setup_return g1 m2;
  Ok (g1, m3).

(** Everything the clients need of a prepared page. *)
Record page_ready (hook : Z) (g : globals) (m0 m : memory) : Prop := {
  pr_tramp : code_at m (relocated_gp (rsi g)) (trampoline_words hook);
  pr_ret : code_at m (relocated_gp (rsi g) - RET_SEQUENCE_SIZE) return_words;
  pr_low : page_size g <= ret_sequence_page_addr (rsi g);
  pr_high : relocated_gp (rsi g) + TRAMPOLINE_SIZE <= 2 ^ 63;
  pr_xom : forall x,
    ret_sequence_page_addr (rsi g) <= x < ret_sequence_page_addr (rsi g) + protection_size (rsi g) ->
    m_prot m x = Some PROT_EXEC;
  pr_rest : forall x,
    ~ (ret_sequence_page_addr (rsi g) <= x < ret_sequence_page_addr (rsi g) + protection_size (rsi g)) ->
    mbyte m x = mbyte (mwrite 8 m0 (relocated_global_pointer_at g) (relocated_gp (rsi g))) x /\
    m_prot m x = m_prot m0 x
}.

Lemma reprotected_has_prot flag lo hi p m m' x :
  reprotected lo hi p m m' -> lo <= x < hi -> negb (Z.land p flag =? 0) = true ->
  has_prot flag m' x = true.
Proof.
  intros R Hx F. unfold has_prot. rewrite R.
  destruct (Z.leb_spec lo x), (Z.ltb_spec x hi); cbn [andb]; lia || done.
Qed.

Lemma mbyte_ext m m' x : m_bytes m' = m_bytes m -> mbyte m' x = mbyte m x.
Proof. unfold mbyte. by intros ->. Qed.

(** C18: Entered at the relocated global pointer, the trampoline reaches
    [asm_syscall_hook], whatever its 64-bit address, in twenty instructions: it
    makes no system call, lowers sp by the frame, saves t0, t1, t2 and t3 in its
    first four slots, in this order, and changes no register but sp and t0-t3 and
    no memory but the frame. *)
Theorem trampoline_reaches_hook `{Kernel} `{Routines} dst (s : machine) :
  is_u64 dst -> dst mod 2 = 0 ->
  code_at (mem s) (pc s) (trampoline_words dst) ->
  0 <= pc s -> pc s + TRAMPOLINE_SIZE <= 2 ^ 63 ->
  frame_ok (mem s) (xr s sp) (pc s) TRAMPOLINE_SIZE ->
  in_memory (pc s) (pc s + TRAMPOLINE_SIZE) -> (forall r, r ∈ [t0; t1; t2; t3] -> is_u64 (xr s r)) ->
  exists s', run 20 s = Next s' /\ pc s' = dst /\ trace s' = trace s /\ fr s' = fr s /\
    xr s' sp = xr s sp - FRAME_SIZE /\
    (forall i r, [t0; t1; t2; t3] !! i = Some r -> mread 8 (mem s') (xr s' sp + 8 * Z.of_nat i) = xr s r) /\
    (forall r, r ∉ [sp; t0; t1; t2; t3] -> xr s' r = xr s r) /\
    agree_off (xr s' sp) (xr s sp) (mem s') (mem s).
Proof.
  intros Hd Ev C B1 B2 F M T. destruct (trampoline_run dst s Hd Ev C B1 B2 F M)
    as (x' & E & SP & _ & _ & _ & _ & X).
  eexists. split; [exact E|]. cbn [pc xr fr mem trace]. rewrite SP. unfold save_tmps. cbv zeta.
  unfold FRAME_SIZE in *. split_and!; try done.
  - intros i r Hi. destruct i as [|[|[|[|i]]]]; [injection Hi as <-..|done].
    all: rewrite ?(mread_mwrite_out 8 8) by lia.
    all: match goal with |- mread 8 (mwrite 8 _ ?a _) ?b = _ => replace b with a by lia end.
    all: apply mread8_mwrite, T; by repeat constructor.
  - intros a Ha. rewrite !(mbyte_mwrite_out 8) by lia. done.
Qed.

Section Prepare.
Context {O : Os} {L : OsLaws O}.

Lemma setup_return_ok g m m2 :
  page_size g = os_pagesize -> ret_sequence_page_addr (rsi g) mod os_pagesize = 0 ->
  gp_fits (relocated_gp (rsi g) - ret_sequence_page_addr (rsi g)) os_pagesize ->
  start_addr (rsi g) = relocated_gp (rsi g) - RET_SEQUENCE_SIZE ->
  start_offset (rsi g) = start_addr (rsi g) mod os_pagesize ->
  (forall x, ret_sequence_page_addr (rsi g) <= x < ret_sequence_page_addr (rsi g) + os_pagesize ->
     has_prot PROT_WRITE m x = true) ->
  setup_return g m = Ok m2 ->
  mwords 14 m2 (start_addr (rsi g)) = return_words /\
  agree_off (start_addr (rsi g)) (relocated_gp (rsi g)) m2 m /\
  reprotected (ret_sequence_page_addr (rsi g)) (ret_sequence_page_addr (rsi g) + os_pagesize)
    PROT_EXEC m m2.
Proof.
  intros EP A [F1 F2] ES EO W H. pose proof pagesize_bounds as B.
  unfold setup_return in H. rewrite EP, A in H. cbn [Z.eqb negb] in H.
  unfold RET_SEQUENCE_SIZE, TRAMPOLINE_SIZE in *.
  destruct (store_words_ok return_words (start_addr (rsi g)) m) as (m1 & E & M & G & Q).
  { intros x Hx. apply W. simpl in Hx. lia. }
  { repeat constructor; lia. }
  rewrite E in H. simpl in H.
  assert (start_offset (rsi g) = relocated_gp (rsi g) - ret_sequence_page_addr (rsi g) - 56) as EO'.
  { rewrite EO, ES. symmetry.
    apply (Z.mod_unique_pos _ _ (ret_sequence_page_addr (rsi g) / os_pagesize)); [lia|].
    pose proof (Z.div_mod (ret_sequence_page_addr (rsi g)) os_pagesize). lia. }
  rewrite u64_small in H by u64_lia.
  destruct (os_mprotect _ _ _ _) as [mm|] eqn:P; [|discriminate]. inversion H; subst mm; clear H.
  apply mprotect_spec in P as [PB PP].
  rewrite page_up_one in PP by lia.
  assert (forall x, mbyte m2 x = mbyte m1 x) as PB' by (intros; by apply mbyte_ext).
  split_and!.
  - rewrite <- M. apply mwords_ext. intros x _. apply PB'.
  - intros x Hx. rewrite PB'. apply G. simpl. lia.
  - intros x. rewrite PP. unfold has_prot in *. by rewrite Q.
Qed.

Lemma prepare_page_ready hook g m g' m' :
  is_u64 hook -> gp_sane (virtual_global_pointer g) ->
  gp_fits (virtual_global_pointer g mod os_pagesize) os_pagesize ->
  prepare_page hook g m = Ok (g', m') -> page_ready hook g' m m'.
Proof.
  intros Hh S [F1 F2] H. unfold prepare_page in H.
  destruct (layout g m) as [[g1 m1]| |] eqn:EL; [|discriminate..].
  pose proof (layout_spec _ _ _ _ S EL)
    as (EP & EV & A & B0 & B1 & EZ & EO & ER & EG & ES & EE & EF & _ & FR & RW & AG).
  pose proof pagesize_bounds as B. unfold RET_SEQUENCE_SIZE, TRAMPOLINE_SIZE in *.
  assert (protection_size (rsi g1) = os_pagesize) as EZ' by (rewrite EZ; case_bools; lia).
  rewrite EZ' in *. clear EZ. cbn [mbind res_bind] in H.
  set (rg := relocated_gp (rsi g1)) in *. set (pb := ret_sequence_page_addr (rsi g1)) in *.
  assert (forall x, pb <= x < pb + os_pagesize -> has_prot PROT_WRITE m1 x = true) as W1
    by (intros; eapply reprotected_has_prot; [exact RW | done | done]).
  unfold setup_shadow_page_trampoline in H.
  destruct (store_words_ok (trampoline_words hook) rg m1) as (m2 & E2 & M2 & G2 & Q2).
  { rewrite trampoline_words_length. intros x Hx. apply W1. lia. }
  { by apply trampoline_words_range. }
  fold rg in H. rewrite E2 in H. cbn [mbind res_bind] in H.
  destruct (setup_return g1 m2) as [m3| |] eqn:E3; [|discriminate..].
  inversion H; subst g' m'; clear H.
  apply setup_return_ok in E3; fold rg pb; unfold gp_fits, RET_SEQUENCE_SIZE, TRAMPOLINE_SIZE; try lia; try done.
  2: { intros x Hx. unfold has_prot. rewrite Q2. by apply W1. }
  fold rg pb in E3. destruct E3 as (M3 & G3 & R3). rewrite ES in *.
  rewrite trampoline_words_length in M2, G2.
  assert (forall x, pb <= x < pb + os_pagesize -> m_prot m3 x = Some PROT_EXEC) as X3.
  { intros x Hx. rewrite R3. destruct (Z.leb_spec pb x), (Z.ltb_spec x (pb + os_pagesize)); cbn [andb]; lia || done. }
  assert (forall x, pb <= x < pb + os_pagesize -> has_prot PROT_EXEC m3 x = true) as X4
    by (intros; unfold has_prot; by rewrite X3).
  constructor; fold rg pb; unfold RET_SEQUENCE_SIZE, TRAMPOLINE_SIZE; rewrite ?EZ', ?EP; try lia; try done.
  - split; rewrite trampoline_words_length; [|intros; apply X4; lia].
    rewrite <- M2. apply mwords_ext. intros x Hx. apply G3. lia.
  - split; [done|]. change (length return_words) with 14%nat. intros; apply X4; lia.
  - intros x Hx. split.
    + rewrite G3 by lia. rewrite G2 by lia. rewrite EG. apply AG. lia.
    + rewrite R3, Q2, RW.
      destruct (Z.leb_spec pb x), (Z.ltb_spec x (pb + os_pagesize)); cbn [andb]; lia || done.
Qed.
Lemma layout_not_killed g m sig : layout g m <> Killed sig.
Proof. unfold layout, allocate_ret_sequence_page. by destruct (os_mmap _ _ _) as [[]|]. Qed.

Lemma layout_exit g m c : layout g m = Exited c -> c = 1.
Proof.
  unfold layout, allocate_ret_sequence_page. destruct (os_mmap _ _ _) as [[]|]; congruence.
Qed.

(** The region is readable and writable after the allocation. *)
Lemma layout_writable g m g' m' x :
  gp_sane (virtual_global_pointer g) -> layout g m = Ok (g', m') ->
  has_prot PROT_WRITE m' x =
    (if (ret_sequence_page_addr (rsi g') <=? x)
        && (x <? ret_sequence_page_addr (rsi g') + protection_size (rsi g'))
     then true else has_prot PROT_WRITE m x).
Proof.
  intros S H. pose proof (layout_spec _ _ _ _ S H)
    as (_ & _ & _ & _ & _ & _ & _ & _ & _ & _ & _ & _ & _ & _ & RW & _).
  unfold has_prot. rewrite RW. by destruct (_ && _).
Qed.

Lemma store_words_not_exit ws : forall base m c, store_words base ws m <> Exited c.
Proof.
  induction ws as [|w ws IH]; intros base m c; cbn [store_words]; [done|].
  destruct (mstore _ _ _ _); [apply IH | done].
Qed.

Lemma setup_return_exit g m c : setup_return g m = Exited c -> c = 1.
Proof.
  unfold setup_return. destruct (negb _); [discriminate|].
  destruct (store_words _ _ m) as [m1| |] eqn:E; cbn; [|by apply store_words_not_exit in E|done].
  destruct (os_mprotect _ _ _ _); congruence.
Qed.

(** With the page aligned, only a refused write kills [setup_return]. *)
Lemma setup_return_killed_iff g m sig :
  ret_sequence_page_addr (rsi g) mod page_size g = 0 ->
  setup_return g m = Killed sig <-> store_words (start_addr (rsi g)) return_words m = Killed sig.
Proof.
  intros A. unfold setup_return. rewrite A. cbn [Z.eqb negb].
  destruct (store_words _ _ m) as [m1| |]; cbn; try done. by destruct (os_mprotect _ _ _ _).
Qed.

Lemma store_words_kill_sig ws : forall base m sig,
  store_words base ws m = Killed sig -> sig = SIGSEGV.
Proof.
  induction ws as [|w ws IH]; intros base m sig; cbn [store_words]; [done|].
  destruct (mstore _ _ _ _); [apply IH | congruence].
Qed.

(** The writes that succeed keep the protections. *)
Lemma store_words_prot ws : forall base m m',
  store_words base ws m = Ok m' -> m_prot m' = m_prot m.
Proof.
  induction ws as [|w ws IH]; intros base m m'; cbn [store_words]; [congruence|].
  unfold mstore. destruct (range_prot _ _ _ _); [|discriminate].
  intros H%IH. by rewrite H, mwrite_prot.
Qed.

Lemma prepare_page_not_killed hook g m sig :
  is_u64 hook -> gp_sane (virtual_global_pointer g) ->
  gp_fits (virtual_global_pointer g mod os_pagesize) os_pagesize ->
  prepare_page hook g m <> Killed sig.
Proof.
  intros Hh S [F1 F2] H. unfold prepare_page in H.
  destruct (layout g m) as [[g1 m1]| |] eqn:EL; [|discriminate|by apply layout_not_killed in EL].
  pose proof (layout_spec _ _ _ _ S EL) as (EP & _ & A & _ & _ & EZ & EO & ER & _ & ES & _).
  pose proof (fun x => layout_writable _ _ _ _ x S EL) as W. pose proof pagesize_bounds.
  unfold RET_SEQUENCE_SIZE, TRAMPOLINE_SIZE in *.
  assert (forall x, relocated_gp (rsi g1) - 56 <= x < relocated_gp (rsi g1) + 80 ->
    has_prot PROT_WRITE m1 x = true) as W1.
  { assert (protection_size (rsi g1) = os_pagesize) as EZ' by (rewrite EZ; case_bools; lia).
    intros x Hx. rewrite W, EZ'. rewrite ER in Hx. case_bools; lia || done. }
  cbn [mbind res_bind] in H. unfold setup_shadow_page_trampoline in H.
  destruct (store_words_ok (trampoline_words hook) (relocated_gp (rsi g1)) m1) as (m2 & E2 & _ & _ & Q).
  { rewrite trampoline_words_length. intros x Hx. apply W1. lia. }
  { by apply trampoline_words_range. }
  rewrite E2 in H. cbn [mbind res_bind] in H.
  destruct (setup_return g1 m2) as [m3| |] eqn:E3; cbn [mbind res_bind] in H;
    [discriminate H..|]. apply setup_return_killed_iff in E3; [|by rewrite EP].
  destruct (store_words_ok return_words (start_addr (rsi g1)) m2) as (m3 & E4 & _); [| |congruence].
  - intros x Hx. unfold has_prot. rewrite Q. apply W1. cbn in Hx. lia.
  - repeat constructor; lia.
Qed.

(** ** Properties *)

(** C19: When the global pointer's offset leaves room in its page, building the
    shadow page either succeeds, and then the page holds the trampoline and the
    return sequence, is execute-only and nothing else has changed, or the
    process exits with status 1; no write faults. *)
Theorem prepare_page_total hook g m :
  is_u64 hook -> gp_sane (virtual_global_pointer g) ->
  gp_fits (virtual_global_pointer g mod os_pagesize) os_pagesize ->
  match prepare_page hook g m with
  | Ok (g', m') => page_ready hook g' m m'
  | Exited c => c = 1
  | Killed _ => False
  end.
Proof.
  intros Hh S F. destruct (prepare_page hook g m) as [[g' m']|c|sig] eqn:E.
  - by apply (prepare_page_ready hook g m g' m').
  - unfold prepare_page in E. destruct (layout g m) as [[g1 m1]| |] eqn:EL; cbn [mbind res_bind] in E;
      [|by injection E as <-; apply layout_exit in EL|discriminate E].
    unfold setup_shadow_page_trampoline in E.
    destruct (store_words _ _ m1) as [m2| |] eqn:E2; cbn [mbind res_bind] in E;
      [|by apply store_words_not_exit in E2|discriminate E].
    destruct (setup_return g1 m2) as [m3| |] eqn:E3; cbn [mbind res_bind] in E;
      [discriminate E| |discriminate E]. injection E as <-. by apply setup_return_exit in E3.
  - exact (prepare_page_not_killed hook g m sig Hh S F E).
Qed.

(** C28: When it does not leave that room, and the pages around the shadow region
    are not writable, building the shadow page kills the process: the return
    sequence is written below the region or the trampoline runs past its end. *)
Theorem prepare_page_out_of_region hook g m g1 m1 :
  gp_sane (virtual_global_pointer g) -> layout g m = Ok (g1, m1) ->
  let lo := ret_sequence_page_addr (rsi g1) in
  let hi := lo + protection_size (rsi g1) in
  (forall x, lo - RET_SEQUENCE_SIZE <= x < lo \/ hi <= x < hi + TRAMPOLINE_SIZE ->
     has_prot PROT_WRITE m x = false) ->
  ~ gp_fits (virtual_global_pointer g mod os_pagesize) os_pagesize ->
  prepare_page hook g m = Killed SIGSEGV.
Proof.
  intros S EL lo hi NW NF. subst hi. unfold prepare_page. rewrite EL. cbn [mbind res_bind].
  pose proof (layout_spec _ _ _ _ S EL) as (EP & _ & A & _ & _ & EZ & EO & ER & _ & ES & _).
  pose proof (fun x => layout_writable _ _ _ _ x S EL) as W. pose proof pagesize_bounds.
  unfold gp_fits, RET_SEQUENCE_SIZE, TRAMPOLINE_SIZE in *.
  set (off := _ mod _) in *. fold lo in A, ER, W.
  assert (0 <= off < os_pagesize) as Ho by (apply Z.mod_pos_bound; lia).
  assert (forall x, lo - 56 <= x < lo \/ lo + protection_size (rsi g1) <= x
                    < lo + protection_size (rsi g1) + 80 -> has_prot PROT_WRITE m1 x = false)
    as NW1 by (intros x Hx; rewrite W, NW by done; case_bools; lia || done).
  unfold setup_shadow_page_trampoline.
  destruct (store_words _ (trampoline_words hook) m1) as [m2|c|sig] eqn:E2.
  - cbn [mbind res_bind]. assert (off < 56) as Hoff.
    { destruct (Z.lt_ge_cases off 56); [done|]. assert (protection_size (rsi g1) = os_pagesize) as EZ'
        by (rewrite EZ; case_bools; lia).
      rewrite (store_words_killed _ _ _ (lo + os_pagesize)) in E2; [done| |].
      - rewrite trampoline_words_length, ER. lia.
      - apply NW1. lia. }
    rewrite (proj2 (setup_return_killed_iff g1 m2 SIGSEGV ltac:(by rewrite EP))); [done|].
    apply (store_words_killed _ _ _ (start_addr (rsi g1))); [cbn; lia|].
    unfold has_prot. rewrite (store_words_prot _ _ _ _ E2). apply NW1. lia.
  - by apply store_words_not_exit in E2.
  - by rewrite (store_words_kill_sig _ _ _ _ E2).
Qed.
End Prepare.

(** ** Concrete processes *)

(** Text, the shadow page, a stack and a page of data. *)
Definition ex_prot (x : Z) : option Z :=
  if (0x1000 <=? x) && (x <? 0x2000) then Some 5
  else if (0x200000 <=? x) && (x <? 0x201000) then Some PROT_EXEC
  else if (0x300000 <=? x) && (x <? 0x310000) then Some 3
  else if (0x400000 <=? x) && (x <? 0x401000) then Some 3
  else None.

Fixpoint put_words (base : Z) (ws : list Z) (m : memory) : memory :=
  match ws with [] => m | w :: ws' => put_words (base + 4) ws' (mwrite 4 m base w) end.

(** About to enter the trampoline at 0x200800, with sp at 0x310000. *)
Definition tr_machine : machine :=
  Mach 0x200800 (fun r => if r =? sp then 0x310000 else 1000 + r) (fun _ => 7)
    (put_words 0x200800 (trampoline_words 0x123456789abcdef0) (Mem ∅ ex_prot)) [].

Section Witnesses.
#[local] Existing Instance linear_os.
#[local] Existing Instance linear_os_laws.
#[local] Instance tr_kernel : Kernel := fun _ _ m => (0, m).
#[local] Instance tr_routines : Routines := fun _ => None.

Lemma trampoline_reaches_hook_witness :
  exists s', run 20 tr_machine = Next s' /\ pc s' = 0x123456789abcdef0 /\
    xr s' sp = 0x310000 - 304 /\ mread 8 (mem s') (xr s' sp + 24) = 1028.
Proof.
  destruct (trampoline_reaches_hook 0x123456789abcdef0 tr_machine)
    as (s' & E & P & _ & _ & SP & T0 & _).
  - auto with vp.
  - reflexivity.
  - split; [vm_compute; reflexivity|]. intros x Hx. rewrite trampoline_words_length in Hx. cbn in Hx.
    unfold has_prot. change (m_prot (mem tr_machine) x) with (ex_prot x). unfold ex_prot.
    case_bools; lia || done.
  - cbn. lia.
  - cbn. unfold TRAMPOLINE_SIZE. lia.
  - unfold frame_ok, stack_rw. cbn [xr tr_machine]. change (sp =? sp) with true.
    unfold FRAME_SIZE, TRAMPOLINE_SIZE. cbn [pc tr_machine]. split_and!; [lia..| |right; lia].
    intros x Hx. unfold has_prot. change (m_prot (mem tr_machine) x) with (ex_prot x).
    unfold ex_prot. case_bools; lia || done.
  - done.
  - apply Forall_forall. repeat constructor; vm_compute; discriminate.
  - exists s'. split_and!; [exact E | exact P | exact SP | exact (T0 3%nat t3 eq_refl)].
Defined.

Lemma prepare_page_total_witness :
  match prepare_page 0x500000 (ex_g 0x12800) ex_m with
  | Ok (g, m) => m_prot m (relocated_gp (rsi g)) = Some PROT_EXEC
  | _ => False
  end.
Proof.
  assert (match prepare_page 0x500000 (ex_g 0x12800) ex_m with
          | Ok (g, m) => bool_decide (relocated_gp (rsi g) = 2 ^ 32 + 0x800 /\
              ret_sequence_page_addr (rsi g) = 2 ^ 32 /\ protection_size (rsi g) = 4096)
          | _ => false end = true) as E by (vm_compute; reflexivity).
  pose proof (prepare_page_total 0x500000 (ex_g 0x12800) ex_m ltac:(u64_lia)
    ltac:(unfold gp_sane; cbn; lia) ltac:(split; vm_compute; discriminate)) as H.
  destruct (prepare_page 0x500000 (ex_g 0x12800) ex_m) as [[g m]| |]; [|discriminate..].
  apply bool_decide_eq_true in E as (E1 & E2 & E3). apply (pr_xom _ _ _ _ H). lia.
Defined.

(** 16 bytes into its page; 64 bytes before its end. *)
Lemma prepare_page_out_of_region_witness :
  prepare_page 0x500000 (ex_g 0x12010) ex_m = Killed SIGSEGV /\
  prepare_page 0x500000 (ex_g 0x12fc0) ex_m = Killed SIGSEGV.
Proof.
  split.
  - apply (prepare_page_out_of_region _ _ _ (ex_laid 0x12010).1 (ex_laid 0x12010).2).
    + unfold gp_sane. cbn. lia.
    + apply ex_laid_ok. vm_compute. reflexivity.
    + change (ret_sequence_page_addr (rsi (ex_laid 0x12010).1)) with (2 ^ 32).
      change (protection_size (rsi (ex_laid 0x12010).1)) with 8192.
      unfold RET_SEQUENCE_SIZE, TRAMPOLINE_SIZE. intros x Hx. unfold has_prot, ex_m. cbn [m_prot].
      case_bools; lia || done.
    + vm_compute. intros [H _]. by apply H.
  - apply (prepare_page_out_of_region _ _ _ (ex_laid 0x12fc0).1 (ex_laid 0x12fc0).2).
    + unfold gp_sane. cbn. lia.
    + apply ex_laid_ok. vm_compute. reflexivity.
    + change (ret_sequence_page_addr (rsi (ex_laid 0x12fc0).1)) with (2 ^ 32).
      change (protection_size (rsi (ex_laid 0x12fc0).1)) with 4096.
      unfold RET_SEQUENCE_SIZE, TRAMPOLINE_SIZE. intros x Hx. unfold has_prot, ex_m. cbn [m_prot].
      case_bools; lia || done.
    + vm_compute. intros [_ H]. by apply H.
Defined.
End Witnesses.
