(* ===== verification/AsmHook.v ===== *)
(** * The assembly entry point and the dispatcher: main.c

    [____asm_impl] holds the labels [syscall_no_intercept], [setup_ecall] and
    [asm_syscall_hook]; [asm_text] (with its end, [asm_return_text]) and
    [no_intercept_text] are those listings, item by item, and [arun] runs a listing
    from an item on.  Inside the listing the position is an index; control
    leaves it by [jalr] (to an address), by [ret] or at [ebreak].

    [syscall_hook] is the C function the listing calls.  The user's hook is a
    parameter: from the arguments and the memory it gives its return code, what
    it stored through [result], the memory it leaves and the system calls it
    made itself (with [syscall_no_intercept]).  The compiled call may clobber
    every caller-saved register and the stack below sp, as the psABI allows. *)

From stdpp Require Import base gmap list.
From Stdlib Require Import ZArith Lia Bool.
From S2P Require Import Prelude Memory Isa.

(** ** [syscall_hook] *)

Record wrapper_ret := { wr_a0 : Z; wr_a1 : Z }.

Record hook_outcome := {
  ho_code : Z;              (** the [int] the hook returns *)
  ho_result : option Z;     (** what it stored in [*result], if anything *)
  ho_mem : memory;
  ho_events : list event
}.

(** [hook_fn_t]: system call number, six arguments. *)
Definition hook_fn_t := Z -> Z -> Z -> Z -> Z -> Z -> Z -> memory -> hook_outcome.

(** [result0] is the indeterminate initial value of the local [result]. *)
Definition syscall_hook (hook_fn : option hook_fn_t) (result0 : Z)
  (a0 a1 a2 a3 a4 a5 a6_ra a7 : Z) (m : memory) : wrapper_ret * memory * list event :=
  match hook_fn with
  | None => ({| wr_a0 := a0; wr_a1 := 0 |}, m, [])
  | Some hook =>
    let o := hook a7 a0 a1 a2 a3 a4 a5 m in
    let forward_to_kernel := negb (ho_code o =? 0) in
    if forward_to_kernel then
      ({| wr_a0 := a0; wr_a1 := 0 |}, ho_mem o, ho_events o)
    else
      ({| wr_a0 := default result0 (ho_result o); wr_a1 := 1 |}, ho_mem o, ho_events o)
  end.

(** ** Listings *)

Inductive label :=
| L_syscall_no_intercept | L_setup_ecall
| L_asm_syscall_hook | L_handled_ecall | L_return_prelude | L_do_clone | L_do_rt_sigreturn.
#[export] Instance label_eq_dec : EqDecision label.
Proof. solve_decision. Defined.

Inductive asm :=
| ALabel (l : label)
| AMv (rd rs : Z)
| ALi (rd imm : Z)
| ALa (rd : Z)                 (** la rd, relocated_global_pointer *)
| AI (i : instr)
| ABeq (rs1 rs2 : Z) (l : label)
| ABeqz (rs : Z) (l : label)
| AJ (l : label)
| ACall                        (** call syscall_hook@plt *)
| ARet.

Definition ASd (rs2 off : Z) : asm := AI (IMem (IStore WD rs2 sp off)).
Definition ALd (rd off rs1 : Z) : asm := AI (IMem (ILoad WD true rd rs1 off)).
Definition AFsd (rs2 off : Z) : asm := AI (IMem (IFStore WD rs2 sp off)).
Definition AFld (rd off : Z) : asm := AI (IMem (IFLoad WD rd sp off)).

(** Floating-point registers by their ABI names. *)
Definition fa (n : Z) : Z := 10 + n.
Definition ft (n : Z) : Z := if n <? 8 then n else 20 + n.

Definition no_intercept_text : list asm :=
  [ ALabel L_syscall_no_intercept;
    AMv a7 a0; AMv a0 a1; AMv a1 a2; AMv a2 a3; AMv a3 a4; AMv a4 a5; AMv a5 a6;
    ALabel L_setup_ecall;
    AI IEcall;
    ARet ].

(** From the test of the answer on: the jumps to the three return paths. *)
Definition asm_return_text : list asm :=
  [ ABeqz t0 L_return_prelude;
    AI (ISrli t0 t0 1);
    ABeqz t0 L_handled_ecall;
    AI IEbreak;
    ALabel L_handled_ecall;
    ALa t0; ALd t0 0 t0; AI (IAddi t0 t0 (-56)); AI (IJalr zero t0 0);
    ALabel L_return_prelude;
    ALi t0 220;                          (* __NR_clone *)
    ABeq a7 t0 L_do_clone;
    ALi t0 435;                          (* __NR_clone3 *)
    ABeq a7 t0 L_do_clone;
    ALa t0; ALd t0 0 t0; AI (IAddi t0 t0 (-40)); AI (IJalr zero t0 0);
    ALabel L_do_clone;
    ALa t0; ALd t0 0 t0; AI (IAddi t0 t0 (-20)); AI (IJalr zero t0 0);
    ALabel L_do_rt_sigreturn;
    ALd t1 8 sp; ALd t2 16 sp; ALd t3 24 sp;
    AJ L_return_prelude ].

Definition asm_text : list asm :=
  [ ALabel L_asm_syscall_hook;
    ASd gp 288;
    AMv t1 gp;
    ALa t0;
    ALd gp 0 t0;
    ALi t0 139;                          (* __NR_rt_sigreturn *)
    ABeq a7 t0 L_do_rt_sigreturn;
    ASd ra 32; ASd a1 40; ASd a2 48; ASd a3 56; ASd a4 64; ASd a5 72; ASd a6 80; ASd a7 88;
    ASd t4 96; ASd t5 104; ASd t6 112;
    AFsd (fa 0) 120; AFsd (fa 1) 128; AFsd (fa 2) 136; AFsd (fa 3) 144;
    AFsd (fa 4) 152; AFsd (fa 5) 160; AFsd (fa 6) 168; AFsd (fa 7) 176;
    AFsd (ft 0) 184; AFsd (ft 1) 192; AFsd (ft 2) 200; AFsd (ft 3) 208;
    AFsd (ft 4) 216; AFsd (ft 5) 224; AFsd (ft 6) 232; AFsd (ft 7) 240;
    AFsd (ft 8) 248; AFsd (ft 9) 256; AFsd (ft 10) 264; AFsd (ft 11) 272;
    AMv a6 t1;
    ACall;
    AMv t0 a1;
    ALd t1 8 sp; ALd t2 16 sp; ALd t3 24 sp;
    ALd ra 32 sp; ALd a1 40 sp; ALd a2 48 sp; ALd a3 56 sp; ALd a4 64 sp; ALd a5 72 sp;
    ALd a6 80 sp; ALd a7 88 sp; ALd t4 96 sp; ALd t5 104 sp; ALd t6 112 sp;
    AFld (fa 0) 120; AFld (fa 1) 128; AFld (fa 2) 136; AFld (fa 3) 144;
    AFld (fa 4) 152; AFld (fa 5) 160; AFld (fa 6) 168; AFld (fa 7) 176;
    AFld (ft 0) 184; AFld (ft 1) 192; AFld (ft 2) 200; AFld (ft 3) 208;
    AFld (ft 4) 216; AFld (ft 5) 224; AFld (ft 6) 232; AFld (ft 7) 240;
    AFld (ft 8) 248; AFld (ft 9) 256; AFld (ft 10) 264; AFld (ft 11) 272 ]
  ++ asm_return_text.

(** Index of a label in a listing. *)
Fixpoint find_label (l : label) (prog : list asm) : option nat :=
  match prog with
  | [] => None
  | ALabel l' :: rest => if decide (l = l') then Some 0%nat else S <$> find_label l rest
  | _ :: rest => S <$> find_label l rest
  end.

(** ** Calls *)

(** Caller-saved registers of the psABI. *)
Definition caller_saved_x (r : Z) : bool :=
  (r =? 1) || ((5 <=? r) && (r <=? 7)) || ((10 <=? r) && (r <=? 17)) || ((28 <=? r) && (r <=? 31)).
Definition caller_saved_f (r : Z) : bool :=
  ((0 <=? r) && (r <=? 7)) || ((10 <=? r) && (r <=? 17)) || ((28 <=? r) && (r <=? 31)).

(** What the compiled [syscall_hook] and its linkage add to the C function:
    the hook that is installed, where [relocated_global_pointer] is stored, what
    is left in the clobbered registers and in the stack below sp. *)
Record cenv := {
  ce_hook_fn : option hook_fn_t;
  ce_result0 : Z;
  ce_rgp_var : Z;
  ce_clob_x : machine -> Z -> Z;
  ce_clob_f : machine -> Z -> Z;
  ce_scratch : Z -> memory -> memory
}.

Definition call_syscall_hook (e : cenv) (s : machine) : machine :=
  let x := getx s in
  let '(w, m, evs) :=
    syscall_hook (ce_hook_fn e) (ce_result0 e) (x a0) (x a1) (x a2) (x a3) (x a4) (x a5)
      (x a6) (x a7) (mem s) in
  Mach (pc s)
    (fun r => if r =? a0 then wr_a0 w else if r =? a1 then wr_a1 w
              else if caller_saved_x r then ce_clob_x e s r else xr s r)
    (fun r => if caller_saved_f r then ce_clob_f e s r else fr s r)
    (ce_scratch e (x sp) m) (trace s ++ evs).

(** ** Running a listing *)

Inductive ares :=
| AExit (s : machine)        (** control left the listing; pc is the target *)
| ABreak (s : machine)       (** [ebreak] *)
| AFault (addr : Z)
| AStuck                     (** past the end, or an unknown label *)
| AOutOfFuel.

Section Arun.
Context {K : Kernel} (e : cenv) (prog : list asm).

Fixpoint arun (fuel : nat) (i : nat) (s : machine) : ares :=
  match fuel with
  | O => AOutOfFuel
  | S n =>
    let goto l := match find_label l prog with Some j => arun n j s | None => AStuck end in
    match prog !! i with
    | None => AStuck
    | Some (ALabel _) => arun n (S i) s
    | Some (AMv rd rs) => arun n (S i) (setx rd (getx s rs) s)
    | Some (ALi rd imm) => arun n (S i) (setx rd imm s)
    | Some (ALa rd) => arun n (S i) (setx rd (ce_rgp_var e) s)
    | Some (ABeq rs1 rs2 l) => if getx s rs1 =? getx s rs2 then goto l else arun n (S i) s
    | Some (ABeqz rs l) => if getx s rs =? 0 then goto l else arun n (S i) s
    | Some (AJ l) => goto l
    | Some ACall => arun n (S i) (call_syscall_hook e s)
    | Some ARet => AExit (setpc (2 * (getx s ra / 2)) s)
    | Some (AI (IJalr rd rs1 imm)) =>
      match exec (IJalr rd rs1 imm) 4 s with
      | Next s' => AExit s' | Fault a => AFault a | Illegal => AStuck | Breakpoint s' => ABreak s'
      end
    | Some (AI ins) =>
      match exec ins 4 s with
      | Next s' => arun n (S i) (setpc (pc s) s')
      | Fault a => AFault a | Illegal => AStuck | Breakpoint s' => ABreak s'
      end
    end
  end.
End Arun.

(** ** One item at a time *)

Section Items.
Context {K : Kernel} (e : cenv) (prog : list asm).
Local Abbreviation arun := (arun e prog).

Lemma arun_label n i s l : prog !! i = Some (ALabel l) -> arun (S n) i s = arun n (S i) s.
Proof. intros H. cbn [AsmHook.arun]. by rewrite H. Qed.
Lemma arun_mv n i s rd rs : prog !! i = Some (AMv rd rs) ->
  arun (S n) i s = arun n (S i) (setx rd (getx s rs) s).
Proof. intros H. cbn [AsmHook.arun]. by rewrite H. Qed.
Lemma arun_li n i s rd imm : prog !! i = Some (ALi rd imm) ->
  arun (S n) i s = arun n (S i) (setx rd imm s).
Proof. intros H. cbn [AsmHook.arun]. by rewrite H. Qed.
Lemma arun_la n i s rd : prog !! i = Some (ALa rd) ->
  arun (S n) i s = arun n (S i) (setx rd (ce_rgp_var e) s).
Proof. intros H. cbn [AsmHook.arun]. by rewrite H. Qed.
Lemma arun_call n i s : prog !! i = Some ACall ->
  arun (S n) i s = arun n (S i) (call_syscall_hook e s).
Proof. intros H. cbn [AsmHook.arun]. by rewrite H. Qed.
Lemma arun_j n i s l j : prog !! i = Some (AJ l) -> find_label l prog = Some j ->
  arun (S n) i s = arun n j s.
Proof. intros H F. cbn [AsmHook.arun]. by rewrite H, F. Qed.
Lemma arun_beq_taken n i s rs1 rs2 l j : prog !! i = Some (ABeq rs1 rs2 l) ->
  find_label l prog = Some j -> getx s rs1 = getx s rs2 -> arun (S n) i s = arun n j s.
Proof. intros H F E. cbn [AsmHook.arun]. by rewrite H, F, E, Z.eqb_refl. Qed.
Lemma arun_beq_not n i s rs1 rs2 l : prog !! i = Some (ABeq rs1 rs2 l) ->
  getx s rs1 <> getx s rs2 -> arun (S n) i s = arun n (S i) s.
Proof. intros H E. cbn [AsmHook.arun]. rewrite H. by case_bools. Qed.
Lemma arun_beqz_taken n i s rs l j : prog !! i = Some (ABeqz rs l) ->
  find_label l prog = Some j -> getx s rs = 0 -> arun (S n) i s = arun n j s.
Proof. intros H F E. cbn [AsmHook.arun]. by rewrite H, F, E. Qed.
Lemma arun_beqz_not n i s rs l : prog !! i = Some (ABeqz rs l) ->
  getx s rs <> 0 -> arun (S n) i s = arun n (S i) s.
Proof. intros H E. cbn [AsmHook.arun]. rewrite H. by case_bools. Qed.
Lemma arun_instr n i s ins s' : prog !! i = Some (AI ins) ->
  (forall rd rs1 imm, ins <> IJalr rd rs1 imm) -> exec ins 4 s = Next s' ->
  arun (S n) i s = arun n (S i) (setpc (pc s) s').
Proof.
  intros H J E. cbn [AsmHook.arun]. rewrite H. destruct ins; try by rewrite E.
  by destruct (J rd rs1 imm).
Qed.
Lemma arun_jalr n i s rd rs1 imm s' : prog !! i = Some (AI (IJalr rd rs1 imm)) ->
  exec (IJalr rd rs1 imm) 4 s = Next s' -> arun (S n) i s = AExit s'.
Proof. intros H E. cbn [AsmHook.arun]. by rewrite H, E. Qed.
End Items.

(** ** Saving and restoring registers in the frame *)

Inductive sreg := SX (r : Z) | SF (r : Z).
#[export] Instance sreg_eq_dec : EqDecision sreg.
Proof. solve_decision. Defined.

Definition slot_val (s : machine) (r : sreg) : Z :=
  match r with SX r => getx s r | SF r => fr s r end.

Definition slot_save (sl : sreg * Z) : asm :=
  match sl.1 with SX r => ASd r sl.2 | SF r => AFsd r sl.2 end.
Definition slot_load (sl : sreg * Z) : asm :=
  match sl.1 with SX r => ALd r sl.2 sp | SF r => AFld r sl.2 end.

Definition save_slots : list (sreg * Z) :=
  [ (SX ra, 32); (SX a1, 40); (SX a2, 48); (SX a3, 56); (SX a4, 64); (SX a5, 72); (SX a6, 80);
    (SX a7, 88); (SX t4, 96); (SX t5, 104); (SX t6, 112);
    (SF (fa 0), 120); (SF (fa 1), 128); (SF (fa 2), 136); (SF (fa 3), 144);
    (SF (fa 4), 152); (SF (fa 5), 160); (SF (fa 6), 168); (SF (fa 7), 176);
    (SF (ft 0), 184); (SF (ft 1), 192); (SF (ft 2), 200); (SF (ft 3), 208);
    (SF (ft 4), 216); (SF (ft 5), 224); (SF (ft 6), 232); (SF (ft 7), 240);
    (SF (ft 8), 248); (SF (ft 9), 256); (SF (ft 10), 264); (SF (ft 11), 272) ].
Definition tmp_slots : list (sreg * Z) := [ (SX t1, 8); (SX t2, 16); (SX t3, 24) ].
Definition restore_slots : list (sreg * Z) := tmp_slots ++ save_slots.

(** The slots are inside the frame, and offsets and registers are distinct. *)
Definition slot_in_frame (sl : sreg * Z) : bool :=
  (0 <=? sl.2) && (sl.2 + 8 <=? 304) && (sl.2 mod 8 =? 0)
  && (match sl.1 with SX r => (0 <? r) && negb (r =? 2) | SF _ => true end).
Definition slots_ok (slots : list (sreg * Z)) : bool :=
  forallb slot_in_frame slots && bool_decide (NoDup slots.*1) && bool_decide (NoDup slots.*2).

Fixpoint save_all (f : Z) (slots : list (sreg * Z)) (s : machine) (m : memory) : memory :=
  match slots with
  | [] => m
  | (r, off) :: rest => save_all f rest s (mwrite 8 m (f + off) (slot_val s r))
  end.

Definition restore_one (f : Z) (s : machine) (sl : sreg * Z) : machine :=
  match sl.1 with
  | SX r => setx r (mread 8 (mem s) (f + sl.2)) s
  | SF r => setf r (mread 8 (mem s) (f + sl.2)) s
  end.
Definition restore_all (f : Z) (slots : list (sreg * Z)) (s : machine) : machine :=
  fold_left (restore_one f) slots s.

Lemma slots_ok_cons sl slots : slots_ok (sl :: slots) = true ->
  slot_in_frame sl = true /\ slots_ok slots = true /\ (sl.1 ∉ slots.*1) /\ (sl.2 ∉ slots.*2).
Proof.
  unfold slots_ok. cbn [forallb fmap list_fmap]. rewrite !andb_true_iff, !bool_decide_eq_true.
  rewrite !NoDup_cons. tauto.
Qed.

Lemma slot_in_frame_spec sl : slot_in_frame sl = true ->
  0 <= sl.2 /\ sl.2 + 8 <= 304 /\ sl.2 mod 8 = 0 /\
  match sl.1 with SX r => 0 < r /\ r <> 2 | SF _ => True end.
Proof.
  unfold slot_in_frame. rewrite !andb_true_iff. intros [[[H1 H2] H3] H4].
  apply Z.leb_le in H1, H2. apply Z.eqb_eq in H3. split_and!; try done.
  destruct sl.1; [|done]. apply andb_true_iff in H4 as [H4 H5].
  apply Z.ltb_lt in H4. destruct (Z.eqb_spec r 2); [done|]. lia.
Qed.

Lemma save_all_prot f slots s : forall m, m_prot (save_all f slots s m) = m_prot m.
Proof. induction slots as [|[r off] rest IH]; intros; simpl; [done|]. rewrite IH. apply (mwrite_prot 8). Qed.

Lemma save_all_vals f slots s s' : (forall r, r ∈ slots.*1 -> slot_val s r = slot_val s' r) ->
  forall m, save_all f slots s m = save_all f slots s' m.
Proof.
  induction slots as [|[r off] rest IH]; intros H m; [done|]. cbn [save_all].
  rewrite IH by (intros; apply H; cbn [fmap list_fmap]; by right).
  f_equal. f_equal. apply H. cbn [fmap list_fmap]. left.
Qed.

(** A byte that is in no slot keeps its value. *)
Lemma save_all_mbyte f slots s : forall m x,
  (forall off, off ∈ slots.*2 -> ~ (f + off <= x < f + off + 8)) ->
  mbyte (save_all f slots s m) x = mbyte m x.
Proof.
  induction slots as [|[r off] rest IH]; intros m x H; [done|]. cbn [save_all].
  rewrite IH; [apply mbyte_mwrite_out; apply (H off); simpl; left|].
  intros o Ho. apply H. simpl. by right.
Qed.

Lemma slots_ok_in slots sl : slots_ok slots = true -> sl ∈ slots -> slot_in_frame sl = true.
Proof.
  unfold slots_ok. rewrite !andb_true_iff. intros [[Ok _] _] H.
  rewrite forallb_forall in Ok. by apply Ok, list_elem_of_In.
Qed.

Lemma slots_ok_offset slots off : slots_ok slots = true -> off ∈ slots.*2 ->
  0 <= off /\ off + 8 <= 304 /\ off mod 8 = 0.
Proof.
  intros Ok Hoff. apply list_elem_of_fmap in Hoff as ([r o] & -> & Hin).
  apply (slots_ok_in _ _ Ok), slot_in_frame_spec in Hin. simpl in *. tauto.
Qed.

Lemma save_all_agree_off f slots s m : slots_ok slots = true ->
  agree_off f (f + 304) (save_all f slots s m) m.
Proof.
  intros Ok x Hx. apply save_all_mbyte. intros off Hoff.
  pose proof (slots_ok_offset _ _ Ok Hoff). lia.
Qed.

(** A doubleword of the frame that is not one of the slots keeps its value. *)
Lemma save_all_other f slots s m o : slots_ok slots = true -> o mod 8 = 0 -> o ∉ slots.*2 ->
  mread 8 (save_all f slots s m) (f + o) = mread 8 m (f + o).
Proof.
  intros Ok Ho Hn. apply mread_ext. intros x Hx. apply save_all_mbyte. intros off Hoff.
  pose proof (slots_ok_offset _ _ Ok Hoff) as (? & ? & ?).
  assert (o <> off) by (intros ->; done). intros C.
  Z.div_mod_to_equations. lia.
Qed.

Lemma save_all_read f slots s : forall m r off, slots_ok slots = true ->
  (r, off) ∈ slots -> is_u64 (slot_val s r) ->
  mread 8 (save_all f slots s m) (f + off) = slot_val s r.
Proof.
  induction slots as [|[r' off'] rest IH]; intros m r off Ok Hin Hv; [by apply elem_of_nil in Hin|].
  apply slots_ok_cons in Ok as (F & Ok & N1 & N2). simpl in N1, N2.
  apply slot_in_frame_spec in F. simpl in F.
  apply elem_of_cons in Hin as [[= -> ->]|Hin]; cbn [save_all]; [|by apply IH].
  rewrite save_all_other by (done || tauto). by apply mread8_mwrite.
Qed.

(** What a restore does to the state. *)
Lemma restore_one_frame f s sl : slot_in_frame sl = true ->
  mem (restore_one f s sl) = mem s /\ trace (restore_one f s sl) = trace s /\
  pc (restore_one f s sl) = pc s /\ xr (restore_one f s sl) sp = xr s sp.
Proof.
  intros F%slot_in_frame_spec. unfold restore_one, setx, setf.
  destruct sl.1; [|done]. case_bools; [done|]. cbn [mem trace pc xr].
  rewrite upd_ne; [done|]. unfold sp. lia.
Qed.

Lemma restore_all_frame f slots : forall s, slots_ok slots = true ->
  mem (restore_all f slots s) = mem s /\ trace (restore_all f slots s) = trace s /\
  pc (restore_all f slots s) = pc s /\ xr (restore_all f slots s) sp = xr s sp.
Proof.
  induction slots as [|sl rest IH]; intros s Ok; [done|].
  apply slots_ok_cons in Ok as (F & Ok & _). cbn [restore_all fold_left].
  change (fold_left (restore_one f) rest) with (restore_all f rest).
  destruct (restore_one_frame f s sl F) as (<- & <- & <- & <-). by apply IH.
Qed.

(** A register that is in no slot. *)
Lemma restore_all_other f slots : forall s r, slots_ok slots = true -> r ∉ slots.*1 ->
  match r with
  | SX r => xr (restore_all f slots s) r = xr s r
  | SF r => fr (restore_all f slots s) r = fr s r
  end.
Proof.
  induction slots as [|[r' off] rest IH]; intros s r Ok N; [by destruct r|].
  apply slots_ok_cons in Ok as (F%slot_in_frame_spec & Ok & _).
  cbn [fmap list_fmap] in N. apply not_elem_of_cons in N as [N1 N2].
  cbn [restore_all fold_left]. change (fold_left (restore_one f) rest) with (restore_all f rest).
  specialize (IH (restore_one f s (r', off)) r Ok N2).
  destruct r as [r|r]; rewrite IH; unfold restore_one, setx, setf; simpl in N1; simpl in F;
    destruct r' as [r'|r']; cbn [fst snd xr fr]; case_bools; try done; cbn [xr fr];
    apply upd_ne; congruence.
Qed.

(** A register that is in a slot gets the doubleword of the slot. *)
Lemma restore_all_slot f slots : forall s r off, slots_ok slots = true -> (r, off) ∈ slots ->
  match r with
  | SX r => xr (restore_all f slots s) r
  | SF r => fr (restore_all f slots s) r
  end = mread 8 (mem s) (f + off).
Proof.
  induction slots as [|[r' off'] rest IH]; intros s r off Ok Hin; [by apply elem_of_nil in Hin|].
  apply slots_ok_cons in Ok as (F & Ok & N & _). simpl in N.
  pose proof (restore_one_frame f s _ F) as (M & _). apply slot_in_frame_spec in F. simpl in F.
  cbn [restore_all fold_left]. change (fold_left (restore_one f) rest) with (restore_all f rest).
  apply elem_of_cons in Hin as [[= -> ->]|Hin]; [|by rewrite (IH _ _ _ Ok Hin), M].
  pose proof (restore_all_other f rest (restore_one f s (r', off')) r' Ok N) as E.
  destruct r'; rewrite E; unfold restore_one, setx, setf; cbn [fst snd].
  - case_bools; [lia|]. apply upd_eq.
  - apply upd_eq.
Qed.

(** ** Running blocks of saves and restores *)

(** The frame at [f]: sp points to it and it is readable and writable. *)
Definition at_frame (f : Z) (s : machine) : Prop :=
  xr s sp = f /\ 0 <= f /\ f + 304 < 2 ^ 63 /\
  forall x, f <= x < f + 304 ->
    has_prot PROT_READ (mem s) x = true /\ has_prot PROT_WRITE (mem s) x = true.

Lemma at_frame_ext f s s' : xr s' sp = xr s sp -> m_prot (mem s') = m_prot (mem s) ->
  at_frame f s -> at_frame f s'.
Proof.
  intros E P (A & B & C & D). unfold at_frame, has_prot in *. rewrite E, P. done.
Qed.

Section Blocks.
Context {K : Kernel} (e : cenv) (prog : list asm).

Lemma exec_slot_save f s sl : at_frame f s -> slot_in_frame sl = true ->
  exists ins, slot_save sl = AI ins /\ (forall rd rs1 imm, ins <> IJalr rd rs1 imm) /\
    exec ins 4 s = Next (setpc (pc s ⊞ 4)
      (setmem (mwrite 8 (mem s) (f + sl.2) (slot_val s sl.1)) s)).
Proof.
  intros (E & F1 & F2 & RW) F%slot_in_frame_spec. destruct sl as [[r|r] off]; cbn [fst snd] in *.
  - eexists. split; [reflexivity|]. split; [done|]. apply exec_sd.
    + change (getx s sp) with (xr s sp). rewrite E. apply u64_small. unfold is_u64. lia.
    + intros. apply RW. lia.
  - eexists. split; [reflexivity|]. split; [done|].
    unfold exec, exec_mem_at, eff_addr. cbn [base_imm nbytes]. cbn [fst snd]. change (getx s sp) with (xr s sp).
    rewrite E, (u64_small (f + off)) by u64_lia. unfold mstore.
    by rewrite (proj2 (range_prot_spec _ 8 _ _)) by (intros; apply RW; lia).
Qed.

Lemma exec_slot_load f s sl : at_frame f s -> slot_in_frame sl = true ->
  exists ins, slot_load sl = AI ins /\ (forall rd rs1 imm, ins <> IJalr rd rs1 imm) /\
    exec ins 4 s = Next (setpc (pc s ⊞ 4) (restore_one f s sl)).
Proof.
  intros (E & F1 & F2 & RW) F%slot_in_frame_spec. destruct sl as [[r|r] off]; cbn [fst snd] in *.
  - eexists. split; [reflexivity|]. split; [done|]. cbn [slot_load restore_one fst snd]. apply exec_ld.
    + change (getx s sp) with (xr s sp). rewrite E. cbn [fst snd]. apply u64_small. unfold is_u64. lia.
    + cbn [fst snd]. intros. apply RW. lia.
  - eexists. split; [reflexivity|]. split; [done|].
    unfold exec, exec_mem_at, eff_addr. cbn [base_imm nbytes]. cbn [fst snd]. change (getx s sp) with (xr s sp).
    rewrite E, (u64_small (f + off)) by u64_lia. unfold mload.
    by rewrite (proj2 (range_prot_spec _ 8 _ _)) by (intros; apply RW; lia).
Qed.

(** The items from [i] on are the block [items]. *)
Definition block (i : nat) (items : list asm) : Prop :=
  take (length items) (drop i prog) = items.

Lemma block_cons i a items : block i (a :: items) -> prog !! i = Some a /\ block (S i) items.
Proof.
  unfold block. cbn [length]. intros H. destruct (drop i prog) as [|b rest] eqn:E; [done|].
  cbn [take] in H. inversion H; subst. split.
  - rewrite <- (Nat.add_0_r i), <- lookup_drop, E. done.
  - assert (drop (S i) prog = rest) as ->; [|by rewrite !H2].
    rewrite <- Nat.add_1_r, <- drop_drop, E. done.
Qed.

Lemma arun_saves f slots : forall n i s,
  slots_ok slots = true -> at_frame f s -> block i (map slot_save slots) ->
  arun e prog (length slots + n) i s =
    arun e prog n (i + length slots) (setmem (save_all f slots s (mem s)) s).
Proof.
  induction slots as [|sl rest IH]; intros n i s Ok F B.
  { rewrite Nat.add_0_r. by destruct s. }
  apply slots_ok_cons in Ok as (Fsl & Ok & _). cbn [map] in B. apply block_cons in B as [Hi B].
  destruct (exec_slot_save f s sl F Fsl) as (ins & Ei & NJ & Ex). rewrite Ei in Hi.
  cbn [length Nat.add]. erewrite arun_instr by eassumption.
  rewrite IH; [| done | | done].
  - rewrite Nat.add_succ_r. destruct s as [p x fx m tr], sl as [r off]. cbn [save_all]. f_equal.
    unfold setmem, setpc. cbn [pc xr fr mem trace]. f_equal.
    by apply save_all_vals.
  - revert F. apply at_frame_ext; [done|]. apply (mwrite_prot 8).
Qed.

Lemma arun_restores f slots : forall n i s,
  slots_ok slots = true -> at_frame f s -> block i (map slot_load slots) ->
  arun e prog (length slots + n) i s =
    arun e prog n (i + length slots) (restore_all f slots s).
Proof.
  induction slots as [|sl rest IH]; intros n i s Ok F B.
  { by rewrite Nat.add_0_r. }
  apply slots_ok_cons in Ok as (Fsl & Ok & _). cbn [map] in B. apply block_cons in B as [Hi B].
  destruct (exec_slot_load f s sl F Fsl) as (ins & Ei & NJ & Ex). rewrite Ei in Hi.
  cbn [length Nat.add]. erewrite arun_instr by eassumption.
  destruct (restore_one_frame f s sl Fsl) as (M & _ & P & X).
  assert (setpc (pc s) (setpc (pc s ⊞ 4) (restore_one f s sl)) = restore_one f s sl) as ->.
  { rewrite <- P. by destruct (restore_one f s sl). }
  rewrite IH; [| done | | done].
  - by rewrite Nat.add_succ_r.
  - revert F. apply at_frame_ext; [done | by rewrite M].
Qed.
End Blocks.

(** ** The path through the hook *)

(** [m'] has the bytes and the protections of [m] on [lo, hi). *)
Definition keeps (lo hi : Z) (m m' : memory) : Prop :=
  forall x, lo <= x < hi -> mbyte m' x = mbyte m x /\ m_prot m' x = m_prot m x.

(** [relocated_global_pointer] holds [rgp]. *)
Definition rgp_var_ok (e : cenv) (rgp : Z) (m : memory) : Prop :=
  0 <= ce_rgp_var e /\ ce_rgp_var e + 8 < 2 ^ 63 /\ mread 8 m (ce_rgp_var e) = rgp /\
  forall x, ce_rgp_var e <= x < ce_rgp_var e + 8 -> has_prot PROT_READ m x = true.

Lemma rgp_var_ok_keeps e rgp m m' :
  keeps (ce_rgp_var e) (ce_rgp_var e + 8) m m' -> rgp_var_ok e rgp m -> rgp_var_ok e rgp m'.
Proof.
  intros H (A & B & C & D). split_and!; try done.
  - rewrite <- C. apply mread_ext. intros x Hx. by apply H.
  - intros x Hx. unfold has_prot. rewrite (proj2 (H x Hx)). by apply D.
Qed.

Lemma keeps_of_agree lo hi a b m m' :
  agree_off a b m' m -> m_prot m' = m_prot m -> hi <= a \/ b <= lo -> keeps lo hi m m'.
Proof. intros A P D x Hx. rewrite P. split; [apply A; lia | done]. Qed.

(** The memory when [syscall_hook] is called: the return address and the
    caller-saved registers are in the frame. *)
Definition frame_mem (f : Z) (s : machine) : memory :=
  save_all f save_slots s (mwrite 8 (mem s) (f + 288) (xr s gp)).

(** What the hook answers for the state [s] at [asm_syscall_hook]. *)
Definition hook_answer (e : cenv) (f : Z) (s : machine) : wrapper_ret * memory * list event :=
  syscall_hook (ce_hook_fn e) (ce_result0 e) (xr s a0) (xr s a1) (xr s a2) (xr s a3) (xr s a4)
    (xr s a5) (xr s gp) (xr s a7) (frame_mem f s).

Lemma tmp_slots_in r off :
  (r = t1 /\ off = 8) \/ (r = t2 /\ off = 16) \/ (r = t3 /\ off = 24) -> (SX r, off) ∈ tmp_slots.
Proof. unfold tmp_slots. rewrite !elem_of_cons. intros [[-> ->]|[[-> ->]|[-> ->]]]; tauto. Qed.
Lemma save_slots_ok : slots_ok save_slots = true.
Proof. vm_compute. reflexivity. Qed.
Lemma restore_slots_ok : slots_ok restore_slots = true.
Proof. vm_compute. reflexivity. Qed.

Lemma frame_mem_prot f s : m_prot (frame_mem f s) = m_prot (mem s).
Proof. unfold frame_mem. rewrite save_all_prot. apply (mwrite_prot 8). Qed.

Lemma frame_mem_agree f s : agree_off f (f + 304) (frame_mem f s) (mem s).
Proof.
  unfold frame_mem. etransitivity; [apply save_all_agree_off, save_slots_ok|].
  apply (mwrite_agree_off f (f + 304) 8); lia.
Qed.

(** The registers of [s'] when the return paths are reached, those of [s] being
    the registers at [asm_syscall_hook]: t0 is scratch, a0 is [v]. *)
Record left_regs (f rgp v : Z) (s s' : machine) : Prop := {
  d_a0 : xr s' a0 = v;
  d_gp : xr s' gp = rgp;
  d_t1 : xr s' t1 = mread 8 (mem s) (f + 8);
  d_t2 : xr s' t2 = mread 8 (mem s) (f + 16);
  d_t3 : xr s' t3 = mread 8 (mem s) (f + 24);
  d_x : forall r, r ∉ [t0; a0; gp; t1; t2; t3] -> xr s' r = xr s r;
  d_f : forall r, fr s' r = fr s r
}.

Lemma left_regs_t0 f rgp v s s' s'' :
  (forall r, r <> t0 -> xr s'' r = xr s' r) -> (forall r, fr s'' r = fr s' r) ->
  left_regs f rgp v s s' -> left_regs f rgp v s s''.
Proof.
  intros X F []. constructor; try (rewrite X; done).
  - intros r Hr. rewrite X; [auto|]. set_solver.
  - intros r. rewrite F. auto.
Qed.

(** Register values are 64-bit. *)
Definition regs_u64 (s : machine) : Prop := forall r, is_u64 (xr s r) /\ is_u64 (fr s r).

Section Path.
Context {K : Kernel} (e : cenv) (f rgp : Z).

(** Load through [relocated_global_pointer]: [la rd; ld rd', 0(rd)]. *)
Lemma exec_ld_rgp rd s : rgp_var_ok e rgp (mem s) -> xr s t0 = ce_rgp_var e ->
  exec (IMem (ILoad WD true rd t0 0)) 4 s = Next (setpc (pc s ⊞ 4) (setx rd rgp s)).
Proof.
  intros (A & B & C & D) E. rewrite <- C. apply exec_ld; [|done].
  change (getx s t0) with (xr s t0). rewrite E, Z.add_0_r. apply u64_small. unfold is_u64. lia.
Qed.

(** The four items every exit ends with. *)
Lemma arun_exit n i s off :
  block asm_text i [ALa t0; ALd t0 0 t0; AI (IAddi t0 t0 off); AI (IJalr zero t0 0)] ->
  rgp_var_ok e rgp (mem s) ->
  0 <= rgp + off < 2 ^ 64 -> (rgp + off) mod 2 = 0 ->
  arun e asm_text (4 + n) i s =
    AExit (Mach (rgp + off) (upd (upd (upd (xr s) t0 (ce_rgp_var e)) t0 rgp) t0 (rgp + off))
             (fr s) (mem s) (trace s)).
Proof.
  intros B V R Ev.
  apply block_cons in B as [H1 B]. apply block_cons in B as [H2 B].
  apply block_cons in B as [H3 B]. apply block_cons in B as [H4 _].
  cbn [Nat.add]. rewrite (arun_la _ _ _ _ _ _ H1).
  destruct s as [p x fx m tr]. reg_simpl. cbn [mem] in V.
  erewrite arun_instr; [|exact H2|done|by apply exec_ld_rgp]. reg_simpl.
  erewrite arun_instr; [|exact H3|done|reflexivity]. reg_simpl.
  erewrite arun_jalr; [|exact H4|reflexivity]. reg_simpl.
  rewrite (u64_small (rgp + off)) by done. rewrite Z.add_0_r, (u64_small (rgp + off)) by done.
  do 2 f_equal. Z.div_mod_to_equations. lia.
Qed.

(** The state at the test for rt_sigreturn. *)
Definition entered (s : machine) : machine :=
  Mach (pc s) (upd (upd (upd (upd (xr s) t1 (xr s gp)) t0 (ce_rgp_var e)) gp rgp) t0 139)
    (fr s) (mwrite 8 (mem s) (f + 288) (xr s gp)) (trace s).

Lemma arun_entry n s : at_frame f s -> rgp_var_ok e rgp (mem s) ->
  ce_rgp_var e + 8 <= f \/ f + 304 <= ce_rgp_var e ->
  arun e asm_text (6 + n) 0 s = arun e asm_text n 6 (entered s).
Proof.
  intros F V D. cbn [Nat.add].
  rewrite (arun_label _ _ _ _ _ L_asm_syscall_hook) by reflexivity.
  destruct (exec_slot_save f s (SX gp, 288) F eq_refl) as (ins & [= <-] & NJ & Ex).
  erewrite arun_instr; [|reflexivity|exact NJ|exact Ex]. clear Ex NJ.
  erewrite arun_mv by reflexivity. erewrite arun_la by reflexivity.
  destruct s as [p x fx m tr]. cbn [slot_val fst snd]. reg_simpl. cbn [mem] in V.
  erewrite arun_instr; [|reflexivity|done|apply exec_ld_rgp].
  - reg_simpl. by erewrite arun_li by reflexivity.
  - cbn [mem]. revert V. apply rgp_var_ok_keeps.
    apply (keeps_of_agree _ _ f (f + 304)); [|apply (mwrite_prot 8) | lia].
    apply (mwrite_agree_off f (f + 304) 8); lia.
  - reflexivity.
Qed.

(** The state in which [syscall_hook] is called. *)
Definition calling (s : machine) : machine :=
  Mach (pc s) (upd (xr (entered s)) a6 (xr s gp)) (fr s) (frame_mem f s) (trace s).

Lemma entered_slot s r : r ∈ save_slots.*1 -> slot_val (entered s) r = slot_val s r.
Proof.
  intros Hr. unfold entered, slot_val, getx. destruct r as [r|r]; [|done]. cbn [xr].
  assert (r <> t0 /\ r <> t1 /\ r <> gp) as (? & ? & ?).
  { assert (forall q, bool_decide (SX q ∈ save_slots.*1) = false -> r <> q) as Q
      by (intros q Hq ->; apply bool_decide_eq_false in Hq; done).
    split_and!; apply Q; vm_compute; reflexivity. }
  by rewrite !upd_ne.
Qed.

Lemma arun_to_call n s : at_frame f s -> rgp_var_ok e rgp (mem s) ->
  ce_rgp_var e + 8 <= f \/ f + 304 <= ce_rgp_var e -> xr s a7 <> 139 ->
  arun e asm_text (40 + n) 0 s = arun e asm_text n 40 (call_syscall_hook e (calling s)).
Proof.
  intros F V D N. change (40 + n)%nat with (6 + (34 + n))%nat. rewrite arun_entry by done.
  change (34 + n)%nat with (S (31 + (2 + n))).
  rewrite (arun_beq_not _ _ _ _ _ a7 t0 L_do_rt_sigreturn) by (reflexivity || exact N).
  change 31%nat with (length save_slots).
  rewrite (arun_saves _ _ f); [|exact save_slots_ok| |reflexivity].
  2: { revert F. apply at_frame_ext; [reflexivity|]. apply (mwrite_prot 8). }
  rewrite (save_all_vals _ _ _ s) by apply entered_slot.
  change (mem (entered s)) with (mwrite 8 (mem s) (f + 288) (xr s gp)). fold (frame_mem f s).
  cbn [Nat.add length save_slots].
  erewrite arun_mv by reflexivity. erewrite arun_call by reflexivity. reflexivity.
Qed.

Lemma call_calling s : xr s sp = f ->
  let '(w, m, evs) := hook_answer e f s in
  call_syscall_hook e (calling s) =
    Mach (pc s)
      (fun r => if r =? a0 then wr_a0 w else if r =? a1 then wr_a1 w
                else if caller_saved_x r then ce_clob_x e (calling s) r else xr (calling s) r)
      (fun r => if caller_saved_f r then ce_clob_f e (calling s) r else fr s r)
      (ce_scratch e f m) (trace s ++ evs).
Proof.
  intros F. unfold call_syscall_hook.
  change (syscall_hook _ _ _ _ _ _ _ _ _ _ _) with (hook_answer e f s) at 1.
  destruct (hook_answer e f s) as [[w m] evs].
  change (getx (calling s) sp) with (xr s sp). by rewrite F.
Qed.

(** The values in the frame survive the call. *)
Lemma frame_slot s r off : regs_u64 s -> (r, off) ∈ save_slots ->
  mread 8 (frame_mem f s) (f + off) = slot_val s r.
Proof.
  intros U H. apply save_all_read; [exact save_slots_ok | done |].
  unfold slot_val, getx. destruct r as [r|r]; [|apply U]. case_bools; [unfold is_u64; lia|]. apply U.
Qed.

Lemma frame_unslot s o : o mod 8 = 0 -> o ∉ save_slots.*2 -> 0 <= o <= 280 ->
  mread 8 (frame_mem f s) (f + o) = mread 8 (mem s) (f + o).
Proof.
  intros M N R. unfold frame_mem. rewrite save_all_other by (done || exact save_slots_ok).
  apply mread_mwrite_out. lia.
Qed.

Lemma frame_gp s : regs_u64 s -> mread 8 (frame_mem f s) (f + 288) = xr s gp.
Proof.
  intros U. unfold frame_mem. rewrite save_all_other.
  - apply mread8_mwrite, U.
  - exact save_slots_ok.
  - reflexivity.
  - apply (bool_decide_eq_false_1 _). vm_compute. reflexivity.
Qed.
End Path.

(** Every caller-saved register is restored from the frame, but for t0 and a0. *)
Lemma caller_saved_x_slot r : caller_saved_x r = true ->
  r = t0 \/ r = a0 \/ SX r ∈ restore_slots.*1.
Proof.
  unfold caller_saved_x. intros H.
  assert (r = 1 \/ r = 5 \/ r = 6 \/ r = 7 \/ r = 10 \/ r = 11 \/ r = 12 \/ r = 13 \/ r = 14 \/
    r = 15 \/ r = 16 \/ r = 17 \/ r = 28 \/ r = 29 \/ r = 30 \/ r = 31) as C by lia.
  repeat (destruct C as [->|C]; [first [by left | by right; left
    | right; right; apply (bool_decide_eq_true_1 _); vm_compute; reflexivity]|]).
  subst. right; right; apply (bool_decide_eq_true_1 _); vm_compute; reflexivity.
Qed.

Lemma caller_saved_f_slot r : caller_saved_f r = true -> SF r ∈ restore_slots.*1.
Proof.
  unfold caller_saved_f. intros H.
  assert (r = 0 \/ r = 1 \/ r = 2 \/ r = 3 \/ r = 4 \/ r = 5 \/ r = 6 \/ r = 7 \/ r = 10 \/ r = 11 \/
    r = 12 \/ r = 13 \/ r = 14 \/ r = 15 \/ r = 16 \/ r = 17 \/ r = 28 \/ r = 29 \/ r = 30 \/ r = 31)
    as C by lia.
  repeat (destruct C as [->|C]; [apply (bool_decide_eq_true_1 _); vm_compute; reflexivity|]).
  subst. apply (bool_decide_eq_true_1 _); vm_compute; reflexivity.
Qed.

Section Dispatch.
Context {K : Kernel} (e : cenv) (f rgp : Z).

(** The memory when the call has returned. *)
Definition called_mem (s : machine) : memory := ce_scratch e f (hook_answer e f s).1.2.

Lemma mem_call_calling s : xr s sp = f ->
  mem (call_syscall_hook e (calling e f rgp s)) = called_mem s.
Proof.
  intros F. pose proof (call_calling e f rgp s F) as C. unfold called_mem.
  destruct (hook_answer e f s) as [[w m] evs]. by rewrite C.
Qed.

(** The assumptions under which the listing is entered.  The hook may write
    wherever it likes, but not to the frame of this call, nor to
    [relocated_global_pointer]. *)
Record entry_ok (s : machine) : Prop := {
  eo_frame : at_frame f s;
  eo_var : rgp_var_ok e rgp (mem s);
  eo_disj : ce_rgp_var e + 8 <= f \/ f + 304 <= ce_rgp_var e;
  eo_regs : regs_u64 s;
  eo_call_frame : keeps f (f + 304) (frame_mem f s) (called_mem s);
  eo_call_var : keeps (ce_rgp_var e) (ce_rgp_var e + 8) (frame_mem f s) (called_mem s)
}.

(** The slots read after the call hold what was there before it. *)
Lemma slot_after_call s off : entry_ok s -> 0 <= off -> off + 8 <= 304 ->
  mread 8 (mem (call_syscall_hook e (calling e f rgp s))) (f + off) =
  mread 8 (frame_mem f s) (f + off).
Proof.
  intros E L H. rewrite mem_call_calling by apply (eo_frame s E).
  apply mread_ext. intros x Hx. apply (eo_call_frame s E). lia.
Qed.

Lemma at_frame_after_call s : entry_ok s ->
  at_frame f (call_syscall_hook e (calling e f rgp s)).
Proof.
  intros E. destruct (eo_frame s E) as (F0 & F1 & F2 & RW).
  pose proof (eo_call_frame s E) as KF. rewrite <- mem_call_calling in KF by done.
  split_and!; try done.
  - pose proof (call_calling e f rgp s F0) as C. destruct (hook_answer e f s) as [[w m] evs].
    rewrite C. exact F0.
  - intros x Hx. unfold has_prot. rewrite (proj2 (KF x Hx)).
    rewrite frame_mem_prot. by apply RW.
Qed.

Lemma restored_x s s2 r : entry_ok s -> mem s2 = mem (call_syscall_hook e (calling e f rgp s)) ->
  r <> t1 -> r <> t2 -> r <> t3 -> SX r ∈ restore_slots.*1 ->
  xr (restore_all f restore_slots s2) r = xr s r.
Proof.
  intros E M N1 N2 N3 H. apply list_elem_of_fmap in H as ([q off] & Hq & Hin). simpl in Hq. subst q.
  rewrite (restore_all_slot f restore_slots s2 (SX r) off restore_slots_ok Hin), M.
  pose proof (slots_ok_in _ _ restore_slots_ok Hin) as IF%slot_in_frame_spec.
  simpl in IF. rewrite slot_after_call by (done || lia).
  unfold restore_slots in Hin. apply elem_of_app in Hin as [Hin|Hin].
  - unfold tmp_slots in Hin. rewrite !elem_of_cons in Hin.
    destruct Hin as [[= -> ->]|[[= -> ->]|[[= -> ->]|Hin]]]; try done. by apply elem_of_nil in Hin.
  - rewrite (frame_slot f s (SX r) off) by (done || apply (eo_regs s E)). simpl.
    apply getx_pos. lia.
Qed.

Lemma restored_f s s2 r : entry_ok s -> mem s2 = mem (call_syscall_hook e (calling e f rgp s)) ->
  SF r ∈ restore_slots.*1 -> fr (restore_all f restore_slots s2) r = fr s r.
Proof.
  intros E M H. apply list_elem_of_fmap in H as ([q off] & Hq & Hin). simpl in Hq. subst q.
  rewrite (restore_all_slot f restore_slots s2 (SF r) off restore_slots_ok Hin), M.
  pose proof (slots_ok_in _ _ restore_slots_ok Hin) as IF%slot_in_frame_spec.
  simpl in IF. rewrite slot_after_call by (done || lia).
  unfold restore_slots in Hin. apply elem_of_app in Hin as [Hin|Hin].
  - unfold tmp_slots in Hin. rewrite !elem_of_cons in Hin.
    destruct Hin as [[= ->]|[[= ->]|[[= ->]|Hin]]]; try done. by apply elem_of_nil in Hin.
  - by rewrite (frame_slot f s (SF r) off) by (done || apply (eo_regs s E)).
Qed.

Lemma restored_tmp s s2 r off : entry_ok s ->
  mem s2 = mem (call_syscall_hook e (calling e f rgp s)) -> (SX r, off) ∈ tmp_slots ->
  xr (restore_all f restore_slots s2) r = mread 8 (mem s) (f + off).
Proof.
  intros E M Hin.
  rewrite (restore_all_slot f restore_slots s2 (SX r) off restore_slots_ok), M
    by (apply elem_of_app; by left).
  assert (0 <= off <= 24 /\ off mod 8 = 0 /\ off ∉ save_slots.*2) as (R & A & N).
  { unfold tmp_slots in Hin. rewrite !elem_of_cons in Hin.
    destruct Hin as [[= -> ->]|[[= -> ->]|[[= -> ->]|Hin]]]; [..|by apply elem_of_nil in Hin];
      (split; [lia|]; split; [reflexivity|]; apply (bool_decide_eq_false_1 _); vm_compute; reflexivity). }
  rewrite slot_after_call by (done || lia). apply frame_unslot; done || lia.
Qed.

(** The state in which the registers are restored: the call has returned and
    its flag is in t0. *)
Definition answered (s : machine) : machine :=
  let sC := call_syscall_hook e (calling e f rgp s) in setx t0 (getx sC a1) sC.

(** A register that is not restored is what the call left. *)
Lemma restored_other s r : SX r ∉ restore_slots.*1 -> r <> t0 ->
  xr (restore_all f restore_slots (answered s)) r = xr (call_syscall_hook e (calling e f rgp s)) r.
Proof.
  intros Hr Ht.
  pose proof (restore_all_other f restore_slots (answered s) (SX r) restore_slots_ok Hr) as ->.
  by apply upd_ne.
Qed.

Lemma not_restored r : bool_decide (SX r ∈ restore_slots.*1) = false -> SX r ∉ restore_slots.*1.
Proof. apply bool_decide_eq_false_1. Qed.

(** The registers once they are restored. *)
Lemma restored_left_regs s : entry_ok s ->
  left_regs f rgp (wr_a0 (hook_answer e f s).1.1) s (restore_all f restore_slots (answered s)).
Proof.
  intros E. destruct (eo_frame s E) as (F0 & _). pose proof (call_calling e f rgp s F0) as C.
  assert (mem (answered s) = mem (call_syscall_hook e (calling e f rgp s))) as M2 by done.
  destruct (hook_answer e f s) as [[w m] evs] eqn:HA. cbn [fst snd]. constructor.
  - rewrite restored_other; [by rewrite C| |done]. apply not_restored. vm_compute. reflexivity.
  - rewrite restored_other; [by rewrite C| |done]. apply not_restored. vm_compute. reflexivity.
  - apply (restored_tmp s _ t1 8 E M2), tmp_slots_in; tauto.
  - apply (restored_tmp s _ t2 16 E M2), tmp_slots_in; tauto.
  - apply (restored_tmp s _ t3 24 E M2), tmp_slots_in; tauto.
  - intros r Hr. rewrite !not_elem_of_cons in Hr. destruct Hr as (R1 & R2 & R3 & R4 & R5 & R6 & _).
    destruct (decide (SX r ∈ restore_slots.*1)) as [Hin|Hn]; [by apply restored_x|].
    rewrite restored_other, C by done. cbn [xr]. destruct (Z.eqb_spec r a0); [done|].
    destruct (Z.eqb_spec r a1) as [->|].
    { exfalso. apply Hn, (bool_decide_eq_true_1 _). vm_compute. reflexivity. }
    destruct (caller_saved_x r) eqn:CS.
    { apply caller_saved_x_slot in CS as [?|[?|?]]; done. }
    assert (r <> a6) by (intros ->; discriminate).
    unfold calling, entered. cbn [xr]. by rewrite !upd_ne.
  - intros r. destruct (decide (SF r ∈ restore_slots.*1)) as [Hin|Hn]; [by apply (restored_f s _)|].
    pose proof (restore_all_other f restore_slots (answered s) (SF r) restore_slots_ok Hn) as ->.
    unfold answered. rewrite C. cbn.
    destruct (caller_saved_f r) eqn:CS; [by apply caller_saved_f_slot in CS|done].
Qed.

(** From the entry to the test of the answer: everything but t0, a0 and gp is
    as it was, or, for t1-t3, as the trampoline saved it. *)
Lemma arun_to_dispatch n s : entry_ok s -> xr s a7 <> 139 ->
  exists s3, arun e asm_text (75 + n) 0 s = arun e asm_text n 75 s3 /\
    xr s3 t0 = wr_a1 (hook_answer e f s).1.1 /\
    left_regs f rgp (wr_a0 (hook_answer e f s).1.1) s s3 /\
    mem s3 = ce_scratch e f (hook_answer e f s).1.2 /\
    trace s3 = trace s ++ (hook_answer e f s).2 /\ xr s3 sp = f /\
    keeps f (f + 304) (frame_mem f s) (mem s3) /\ rgp_var_ok e rgp (mem s3).
Proof.
  intros E N. pose proof (at_frame_after_call s E) as AF.
  destruct (eo_frame s E) as (F0 & F1 & F2 & RW).
  pose proof (call_calling e f rgp s F0) as C. pose proof (restored_left_regs s E) as LR.
  destruct (hook_answer e f s) as [[w m] evs] eqn:HA. cbn [fst snd] in *.
  change (75 + n)%nat with (40 + (35 + n))%nat.
  rewrite (arun_to_call e f rgp); [|apply (eo_frame s E)|apply (eo_var s E)|apply (eo_disj s E)|done].
  change (35 + n)%nat with (S (34 + n)). erewrite arun_mv by reflexivity.
  fold (answered s). change 34%nat with (length restore_slots).
  rewrite (arun_restores _ _ f); [|exact restore_slots_ok| |reflexivity].
  2: { revert AF. apply at_frame_ext; reflexivity. }
  exists (restore_all f restore_slots (answered s)).
  destruct (restore_all_frame f restore_slots (answered s) restore_slots_ok) as (M & T & _ & X).
  split; [reflexivity|]. split.
  { pose proof (restore_all_other f restore_slots (answered s) (SX t0) restore_slots_ok) as ->;
      [|apply not_restored; vm_compute; reflexivity].
    unfold answered. rewrite C. reflexivity. }
  split; [exact LR|]. rewrite M, T, X. unfold answered. split_and!.
  - by rewrite C.
  - cbn. by rewrite C.
  - apply AF.
  - change (keeps f (f + 304) (frame_mem f s) (mem (call_syscall_hook e (calling e f rgp s)))).
    rewrite mem_call_calling by done. apply (eo_call_frame s E).
  - change (rgp_var_ok e rgp (mem (call_syscall_hook e (calling e f rgp s)))).
    rewrite mem_call_calling by done. eapply rgp_var_ok_keeps; [exact (eo_call_var s E)|].
    eapply rgp_var_ok_keeps; [|apply (eo_var s E)].
    apply (keeps_of_agree _ _ f (f + 304)); [apply frame_mem_agree | apply frame_mem_prot |].
    pose proof (eo_disj s E). lia.
Qed.

(** ** Leaving the listing *)

Hypothesis rgp_even : rgp mod 2 = 0.
Hypothesis rgp_range : 64 <= rgp < 2 ^ 63.

(** The last four items, from the test or the label before them. *)
Lemma leave n i s s3 v off :
  block asm_text i [ALa t0; ALd t0 0 t0; AI (IAddi t0 t0 off); AI (IJalr zero t0 0)] ->
  off = -56 \/ off = -40 \/ off = -20 ->
  rgp_var_ok e rgp (mem s3) -> left_regs f rgp v s s3 ->
  exists s', arun e asm_text (4 + n) i s3 = AExit s' /\ pc s' = rgp + off /\
    left_regs f rgp v s s' /\ xr s' sp = xr s3 sp /\ mem s' = mem s3 /\ trace s' = trace s3.
Proof.
  intros B O V D. erewrite arun_exit; [|exact B|exact V|lia|].
  - eexists. split; [reflexivity|]. split_and!; try done.
    revert D. apply left_regs_t0; [|done]. intros r Hr. cbn [xr]. by rewrite !upd_ne.
  - Z.div_mod_to_equations. lia.
Qed.

(** From [return_prelude]: clone and clone3 take the third path, the other
    system calls the second. *)
Lemma return_prelude_run n s s3 v :
  rgp_var_ok e rgp (mem s3) -> left_regs f rgp v s s3 ->
  exists s', arun e asm_text (10 + n) 84 s3 = AExit s' /\
    pc s' = rgp + (if decide (xr s a7 = 220 \/ xr s a7 = 435) then -20 else -40) /\
    left_regs f rgp v s s' /\ xr s' sp = xr s3 sp /\ mem s' = mem s3 /\ trace s' = trace s3.
Proof.
  intros V D. assert (xr s3 a7 = xr s a7) as E7 by (apply (d_x _ _ _ _ _ D), (bool_decide_eq_false_1 _); vm_compute; reflexivity).
  change (10 + n)%nat with (S (S (8 + n))).
  erewrite arun_label, arun_li by reflexivity.
  assert (forall k, left_regs f rgp v s (setx t0 k s3)) as D'.
  { intros k. revert D. apply left_regs_t0; [|done]. intros r Hr. by apply upd_ne. }
  assert (forall s4 n', rgp_var_ok e rgp (mem s4) -> left_regs f rgp v s s4 ->
    exists s', arun e asm_text (S (4 + n')) 93 s4 = AExit s' /\ pc s' = rgp + -20 /\
    left_regs f rgp v s s' /\ xr s' sp = xr s4 sp /\ mem s' = mem s4 /\ trace s' = trace s4) as Clone.
  { intros s4 n' V4 D4. erewrite arun_label by reflexivity. apply leave; try done. lia. }
  destruct (decide (xr s a7 = 220)) as [E|N1].
  { rewrite decide_True by by left. change (8 + n)%nat with (S (S (4 + (2 + n)))).
    rewrite (arun_beq_taken _ _ _ _ _ a7 t0 L_do_clone 93) by (reflexivity || exact (eq_trans E7 E)).
    destruct (Clone (setx t0 220 s3) (2 + n)%nat V (D' _)) as (s' & ? & ?). by exists s'. }
  change (8 + n)%nat with (S (S (6 + n))).
  rewrite (arun_beq_not _ _ _ _ _ a7 t0 L_do_clone)
    by (reflexivity || (change (xr s3 a7 <> 220); congruence)).
  erewrite arun_li by reflexivity. change (setx t0 435 (setx t0 220 s3)) with (setx t0 435 (setx t0 220 s3)).
  assert (left_regs f rgp v s (setx t0 435 (setx t0 220 s3))) as D''.
  { generalize (D' 220). apply left_regs_t0; [|done]. intros r Hr. by apply upd_ne. }
  destruct (decide (xr s a7 = 435)) as [E|N2].
  { rewrite decide_True by by right. change (6 + n)%nat with (S (S (4 + n))).
    rewrite (arun_beq_taken _ _ _ _ _ a7 t0 L_do_clone 93) by (reflexivity || exact (eq_trans E7 E)).
    destruct (Clone (setx t0 435 (setx t0 220 s3)) n V D'') as (s' & ? & ?). by exists s'. }
  rewrite decide_False by tauto. change (6 + n)%nat with (S (4 + S n)).
  rewrite (arun_beq_not _ _ _ _ _ a7 t0 L_do_clone)
    by (reflexivity || (change (xr s3 a7 <> 435); congruence)).
  destruct (leave (S n) 89 s (setx t0 435 (setx t0 220 s3)) v (-40)) as (s' & ? & ?); try done; try lia.
  by exists s'.
Qed.

(** The offset of the return path that the answer and the number select. *)
Definition return_path (w : wrapper_ret) (nr : Z) : Z :=
  if decide (wr_a1 w = 0) then
    if decide (nr = 220 \/ nr = 435) then -20 else -40
  else -56.

Lemma asm_syscall_hook_run s : entry_ok s -> xr s a7 <> 139 ->
  let w := (hook_answer e f s).1.1 in
  wr_a1 w = 0 \/ wr_a1 w = 1 ->
  exists s', arun e asm_text 100 0 s = AExit s' /\
    pc s' = rgp + return_path w (xr s a7) /\ left_regs f rgp (wr_a0 w) s s' /\ xr s' sp = f /\
    mem s' = ce_scratch e f (hook_answer e f s).1.2 /\
    trace s' = trace s ++ (hook_answer e f s).2 /\
    keeps f (f + 304) (frame_mem f s) (mem s').
Proof.
  intros E N w Hw. change 100%nat with (75 + 25)%nat.
  destruct (arun_to_dispatch 25 s E N) as (s3 & -> & T0 & D & M & T & X & KF & V). fold w in T0, D.
  unfold return_path. destruct Hw as [Hw|Hw]; rewrite Hw in *.
  - rewrite decide_True by done. change 25%nat with (S (10 + 14)).
    rewrite (arun_beqz_taken _ _ _ _ _ t0 L_return_prelude 84) by (reflexivity || exact T0).
    destruct (return_prelude_run 14 s s3 _ V D) as (s' & -> & P & D' & X' & M' & T').
    exists s'. rewrite X', M', T'. split_and!; done.
  - rewrite decide_False by done. change 25%nat with (S (S (S (S (4 + 17))))).
    rewrite (arun_beqz_not _ _ _ _ _ t0 L_return_prelude)
      by (reflexivity || (change (xr s3 t0 <> 0); by rewrite T0)).
    erewrite arun_instr; [|reflexivity|done|reflexivity].
    change (getx s3 t0) with (xr s3 t0). rewrite T0. change (Z.shiftr 1 1) with 0.
    set (s4 := setpc _ _).
    assert (left_regs f rgp (wr_a0 w) s s4) as D4.
    { revert D. apply left_regs_t0; [|done]. intros r Hr. by apply upd_ne. }
    rewrite (arun_beqz_taken _ _ _ _ _ t0 L_handled_ecall 79) by reflexivity.
    erewrite arun_label by reflexivity.
    destruct (leave 17 80 s s4 (wr_a0 w) (-56)) as (s' & -> & P & D' & X' & M' & T'); try done; [lia|].
    exists s'. rewrite X', M', T'. split_and!; done.
Qed.

(** rt_sigreturn is not shown to the hook. *)
Lemma asm_sigreturn_run s : at_frame f s -> rgp_var_ok e rgp (mem s) ->
  ce_rgp_var e + 8 <= f \/ f + 304 <= ce_rgp_var e -> xr s a7 = 139 ->
  exists s', arun e asm_text 100 0 s = AExit s' /\
    pc s' = rgp + -40 /\ left_regs f rgp (xr s a0) s s' /\ xr s' sp = f /\
    mem s' = mwrite 8 (mem s) (f + 288) (xr s gp) /\ trace s' = trace s.
Proof.
  intros F V D N. change 100%nat with (6 + 94)%nat. rewrite (arun_entry e f rgp) by done.
  change 94%nat with (S (S (length tmp_slots + 89))).
  rewrite (arun_beq_taken _ _ _ _ _ a7 t0 L_do_rt_sigreturn 98) by (reflexivity || exact N).
  erewrite arun_label by reflexivity.
  set (sA := entered e f rgp s).
  assert (at_frame f sA) as FA by (revert F; apply at_frame_ext; [done|]; apply (mwrite_prot 8)).
  assert (slots_ok tmp_slots = true) as OkT by (vm_compute; reflexivity).
  assert (forall o, 0 <= o <= 280 -> mread 8 (mem sA) (f + o) = mread 8 (mem s) (f + o)) as MA
    by (intros; apply mread_mwrite_out; lia).
  rewrite (arun_restores _ _ f); [|done|done|reflexivity].
  destruct (restore_all_frame f tmp_slots sA OkT) as (M & T & _ & X).
  set (s3 := restore_all f tmp_slots sA) in *.
  change 89%nat with (S (10 + 78)).
  rewrite (arun_j _ _ _ _ _ L_return_prelude 84) by reflexivity.
  destruct (return_prelude_run 78 s s3 (xr s a0)) as (s' & -> & P & D' & X' & M' & T').
  - rewrite M. revert V. apply rgp_var_ok_keeps.
    apply (keeps_of_agree _ _ f (f + 304)); [|apply (mwrite_prot 8)|lia].
    apply (mwrite_agree_off f (f + 304) 8); lia.
  - constructor; try reflexivity.
    + rewrite <- MA by lia. apply (restore_all_slot f tmp_slots sA (SX t1) 8 OkT), tmp_slots_in; tauto.
    + rewrite <- MA by lia. apply (restore_all_slot f tmp_slots sA (SX t2) 16 OkT), tmp_slots_in; tauto.
    + rewrite <- MA by lia. apply (restore_all_slot f tmp_slots sA (SX t3) 24 OkT), tmp_slots_in; tauto.
    + intros r Hr. rewrite !not_elem_of_cons in Hr. destruct Hr as (? & ? & ? & ? & ? & ? & _).
      unfold s3. pose proof (restore_all_other f tmp_slots sA (SX r) OkT) as ->;
        [|cbn; rewrite !not_elem_of_cons; split_and!; try congruence; apply not_elem_of_nil].
      unfold sA, entered. cbn [xr]. by rewrite !upd_ne.
  - exists s'. rewrite X', M', T', X, M, T. rewrite decide_False in P by lia.
    split_and!; try done. apply F.
Qed.
End Dispatch.

(** The dispatcher answers 0 or 1 in the second word. *)
Lemma syscall_hook_flag h r x0 x1 x2 x3 x4 x5 ret nr m :
  wr_a1 (syscall_hook h r x0 x1 x2 x3 x4 x5 ret nr m).1.1 = 0 \/
  wr_a1 (syscall_hook h r x0 x1 x2 x3 x4 x5 ret nr m).1.1 = 1.
Proof. unfold syscall_hook. destruct h; [|by left]. case_match; simpl; tauto. Qed.

(** ** [syscall_no_intercept] *)

(** [syscall_no_intercept(nr, a, b, c, d, e, f)] makes exactly one system
    call, number [nr] with the six arguments, returns the kernel's answer to its
    caller and changes no register but a0-a5 and a7; it does not go through the
    hook. *)
Theorem syscall_no_intercept_passes_args `{Kernel} (e : cenv) s :
  let args := map (xr s) [a1; a2; a3; a4; a5; a6] in
  let r := k_syscall (xr s a0) args (mem s) in
  exists s' ev, arun e no_intercept_text (length no_intercept_text) 0 s = AExit s' /\
    pc s' = 2 * (xr s ra / 2) /\ xr s' a0 = u64 r.1 /\ mem s' = r.2 /\ fr s' = fr s /\
    trace s' = trace s ++ [ev] /\ ev_nr ev = xr s a0 /\ ev_args ev = args /\
    forall q, q ∉ [a0; a1; a2; a3; a4; a5; a7] -> xr s' q = xr s q.
Proof.
  destruct s as [p x f m tr]. cbn [length no_intercept_text].
  rewrite (arun_label _ _ _ _ _ L_syscall_no_intercept) by done.
  do 7 (erewrite arun_mv by reflexivity; reg_simpl).
  rewrite (arun_label _ _ _ _ _ L_setup_ecall) by done.
  erewrite (arun_instr _ _ _ _ _ IEcall); [|reflexivity|discriminate|reflexivity].
  rewrite do_ecall_eq. eexists _, _. split; [reflexivity|].
  reg_simpl. split_and!; try done.
  intros q Hq. rewrite !not_elem_of_cons in Hq. change a0 with 10 in *. change a1 with 11 in *.
  change a2 with 12 in *. change a3 with 13 in *. change a4 with 14 in *. change a5 with 15 in *.
  change a7 with 17 in *. destruct Hq as (? & ? & ? & ? & ? & ? & ? & _).
  case_bools; done.
Qed.
