(* ===== verification/Intercept.v ===== *)
(** * An intercepted system call, end to end

    From a patched call site ([jalr gp, gp, 0] in place of [ecall]) through the
    trampoline (patcher.c), [asm_syscall_hook] and [syscall_hook] (main.c) and
    one of the three return paths (patcher.c) back to the instruction after the
    site.  The theorems compare the outcome with the [ecall] that the site had:
    the caller sees its registers unchanged except a0, and the kernel gets the
    system call it would have got, or none when the hook handled it. *)

From stdpp Require Import base gmap list.
From Stdlib Require Import ZArith Lia Bool.
From S2P Require Import Prelude Memory Isa Os RetSeq Patcher AsmHook.

(** The listing as a routine of the machine; a hundred items are more than any
    path through it has. *)
Definition asm_routine `{Kernel} (e : cenv) (s : machine) : step_result :=
  match arun e asm_text 100 0 s with
  | AExit s' => Next s'
  | ABreak s' => Breakpoint s'
  | AFault a => Fault a
  | AStuck | AOutOfFuel => Illegal
  end.

(** The word a patched site holds. *)
Definition JALR_GP : Z := 0x000181e7.

Definition same_context (s s' : machine) : Prop :=
  pc s' = pc s + 4 /\ (forall r, r <> a0 -> xr s' r = xr s r) /\ (forall r, fr s' r = fr s r).

Section Intercept.
Context {K : Kernel} {R : Routines} (e : cenv) (hk rgp : Z).

(** The frame of an interception at [s]. *)
Definition frame_of (s : machine) : Z := xr s sp - FRAME_SIZE.

(** The memory [syscall_hook] sees: the caller's, with the frame filled. *)
Definition intercept_mem (s : machine) : memory :=
  save_all (frame_of s) save_slots s
    (mwrite 8 (save_tmps s) (frame_of s + 288) (pc s + 4)).

(** The answer of the dispatcher to the system call of [s]. *)
Definition intercept_answer (s : machine) : wrapper_ret * memory * list event :=
  syscall_hook (ce_hook_fn e) (ce_result0 e) (xr s a0) (xr s a1) (xr s a2) (xr s a3) (xr s a4)
    (xr s a5) (pc s + 4) (xr s a7) (intercept_mem s).

(** The memory when the dispatcher has returned. *)
Definition answered_mem (s : machine) : memory :=
  ce_scratch e (frame_of s) (intercept_answer s).1.2.

(** A machine about to execute a patched site of a process in which vpoline
    is initialised, with room for the frame on the stack.  The frame, the
    patched page and the variable [relocated_global_pointer] are apart, and
    this call of the hook leaves them as they are; the rest of the memory is
    the hook's to change. *)
Record site_shape (s : machine) : Prop := {
  so_site : code_at (mem s) (pc s) [JALR_GP];
  so_pc : 0 <= pc s /\ pc s + 4 < 2 ^ 63 /\ pc s mod 2 = 0;
  so_gp : xr s gp = rgp;
  so_rgp : 64 <= rgp /\ rgp + TRAMPOLINE_SIZE <= 2 ^ 63 /\ rgp mod 2 = 0;
  so_tramp : code_at (mem s) rgp (trampoline_words hk);
  so_ret : code_at (mem s) (rgp - RET_SEQUENCE_SIZE) return_words;
  so_hk : is_u64 hk /\ hk mod 2 = 0;
  so_mem : in_memory (pc s) (pc s + 4) /\
           in_memory (rgp - RET_SEQUENCE_SIZE) (rgp + TRAMPOLINE_SIZE);
  so_stack : FRAME_SIZE <= xr s sp < 2 ^ 63 /\ stack_rw (mem s) (frame_of s) (xr s sp);
  so_apart : xr s sp <= rgp - RET_SEQUENCE_SIZE \/ rgp + TRAMPOLINE_SIZE <= frame_of s;
  so_var : rgp_var_ok e rgp (mem s);
  so_var_apart : ce_rgp_var e + 8 <= frame_of s \/ xr s sp <= ce_rgp_var e;
  so_regs : regs_u64 s;
  so_call_frame : keeps (frame_of s) (xr s sp) (intercept_mem s) (answered_mem s);
  so_call_var : keeps (ce_rgp_var e) (ce_rgp_var e + 8) (intercept_mem s) (answered_mem s);
  so_call_code : keeps (rgp - RET_SEQUENCE_SIZE) (rgp + TRAMPOLINE_SIZE)
                   (intercept_mem s) (answered_mem s)
}.

(** In a process where [asm_syscall_hook] is the listing. *)
Record site_ok (s : machine) : Prop := {
  so_shape :> site_shape s;
  so_routine : routine_at hk = Some (asm_routine e)
}.

(** ** The way in *)

Lemma save_tmps_agree s : agree_off (frame_of s) (xr s sp) (save_tmps s) (mem s).
Proof.
  intros x Hx. unfold save_tmps. cbv zeta. unfold frame_of, FRAME_SIZE in *.
  rewrite !(mbyte_mwrite_out 8) by lia. done.
Qed.

Lemma save_tmps_prot s : m_prot (save_tmps s) = m_prot (mem s).
Proof. unfold save_tmps. cbv zeta. by rewrite !(mwrite_prot 8). Qed.

(** The four registers the trampoline saves can be read back. *)
Lemma save_tmps_read s : regs_u64 s ->
  mread 8 (save_tmps s) (frame_of s) = xr s t0 /\
  mread 8 (save_tmps s) (frame_of s + 8) = xr s t1 /\
  mread 8 (save_tmps s) (frame_of s + 16) = xr s t2 /\
  mread 8 (save_tmps s) (frame_of s + 24) = xr s t3.
Proof.
  intros U. unfold save_tmps, frame_of. cbv zeta.
  split_and!; repeat (rewrite (mread_mwrite_out 8 8) by lia); apply mread8_mwrite, U.
Qed.

(** The state at [asm_syscall_hook]. *)
Lemma way_in s : site_shape s ->
  exists s1, run 21 s = Next s1 /\ pc s1 = hk /\ xr s1 sp = frame_of s /\ xr s1 gp = pc s + 4 /\
    (forall r, r ∉ [sp; gp; t0; t1; t2; t3] -> xr s1 r = xr s r) /\
    (forall r, fr s1 r = fr s r) /\ mem s1 = save_tmps s /\ trace s1 = trace s /\ regs_u64 s1.
Proof.
  intros []. destruct so_pc0 as (P1 & P2 & P3). destruct so_rgp0 as (G1 & G2 & G3).
  destruct so_hk0 as (H1 & H2). destruct so_stack0 as (S1 & S2). destruct so_mem0 as (M1 & M2).
  unfold TRAMPOLINE_SIZE, RET_SEQUENCE_SIZE, frame_of, FRAME_SIZE in *.
  change 21%nat with (1 + 20)%nat.
  set (s0 := Mach rgp (upd (xr s) gp (pc s + 4)) (fr s) (mem s) (trace s)).
  rewrite (run_app 1 20 s s0).
  2: { change 1%nat with (S 0) at 1. erewrite (run_code _ _ 0); [reflexivity|exact so_site0| | |reflexivity|reflexivity| |].
       - apply M1. lia.
       - lia.
       - vm_compute. reflexivity.
       - unfold exec. cbn [getx]. change (getx s 3) with (xr s gp). rewrite so_gp0, Z.add_0_r.
         rewrite (u64_small rgp), (u64_small (pc s + 4)) by u64_lia.
         replace (2 * (rgp / 2)) with rgp by (Z.div_mod_to_equations; lia). reflexivity. }
  destruct (trampoline_run hk s0) as (x' & E & X1 & X2 & X3 & X4 & X5 & X6); try done.
  { cbn. lia. }
  { split_and!; cbn; unfold FRAME_SIZE, TRAMPOLINE_SIZE; try lia. exact S2. }
  { intros x Hx. apply M2. cbn in Hx. unfold TRAMPOLINE_SIZE in Hx. lia. }
  exists (Mach hk x' (fr s) (save_tmps s0) (trace s)). cbn [pc xr fr mem trace].
  assert (forall r, r ∉ [sp; gp; t0; t1; t2; t3] -> x' r = xr s r) as X7.
  { intros r Hr. rewrite !not_elem_of_cons in Hr. destruct Hr as (? & ? & ? & ? & ? & ? & _).
    rewrite X6; [|rewrite !not_elem_of_cons; split_and!; try done; apply not_elem_of_nil].
    cbn. by apply upd_ne. }
  assert (x' gp = pc s + 4) as Xg
    by (rewrite X6; [reflexivity | apply (bool_decide_eq_false_1 _); vm_compute; reflexivity]).
  split_and!; try done.
  intros r. split; [|apply so_regs0].
  destruct (decide (r ∈ [sp; gp; t0; t1; t2; t3])) as [Hr|Hr]; [|cbn; rewrite X7 by done; apply so_regs0].
  rewrite !elem_of_cons in Hr. unfold is_u64 in *. cbn in X1 |- *. unfold FRAME_SIZE in X1.
  destruct Hr as [->|[->|[->|[->|[->|[->|Hr]]]]]]; [..|by apply elem_of_nil in Hr];
    rewrite ?X1, ?Xg, ?X2, ?X3, ?X4, ?X5; try lia.
  pose proof (Z.mod_pos_bound hk (2 ^ 32)). lia.
Qed.

(** The state [way_in] describes. *)
Record arrived (s s1 : machine) : Prop := {
  ar_pc : pc s1 = hk;
  ar_sp : xr s1 sp = frame_of s;
  ar_gp : xr s1 gp = pc s + 4;
  ar_x : forall r, r ∉ [sp; gp; t0; t1; t2; t3] -> xr s1 r = xr s r;
  ar_f : forall r, fr s1 r = fr s r;
  ar_mem : mem s1 = save_tmps s;
  ar_trace : trace s1 = trace s;
  ar_regs : regs_u64 s1
}.

Lemma arrived_frame_mem s s1 : arrived s s1 -> frame_mem (frame_of s) s1 = intercept_mem s.
Proof.
  intros []. unfold frame_mem, intercept_mem. rewrite ar_mem0, ar_gp0.
  apply save_all_vals. intros [r|r] Hr; [|apply ar_f0]. unfold slot_val, getx.
  rewrite ar_x0; [done|]. intros Hn.
  assert (forall q, bool_decide (SX q ∈ save_slots.*1) = false -> r <> q) as Q
    by (intros q Hq ->; apply bool_decide_eq_false in Hq; done).
  rewrite !elem_of_cons in Hn. destruct Hn as [Hn|[Hn|[Hn|[Hn|[Hn|[Hn|Hn]]]]]];
    [..|by apply elem_of_nil in Hn]; revert Hn; apply Q; vm_compute; reflexivity.
Qed.

Ltac not_in := apply (bool_decide_eq_false_1 _); vm_compute; reflexivity.

Lemma arrived_answer s s1 : arrived s s1 -> hook_answer e (frame_of s) s1 = intercept_answer s.
Proof.
  intros A. unfold hook_answer, intercept_answer. rewrite (arrived_frame_mem _ _ A).
  destruct A. rewrite ar_gp0, !ar_x0 by not_in. done.
Qed.

Lemma arrived_called_mem s s1 : arrived s s1 -> called_mem e (frame_of s) s1 = answered_mem s.
Proof. intros A. unfold called_mem, answered_mem. by rewrite (arrived_answer _ _ A). Qed.

Lemma frame_top s : frame_of s + 304 = xr s sp.
Proof. unfold frame_of, FRAME_SIZE. lia. Qed.

Lemma arrived_entry s s1 : site_shape s -> arrived s s1 -> entry_ok e (frame_of s) rgp s1.
Proof.
  intros S A. destruct (so_stack s S) as (S1 & S2). unfold FRAME_SIZE in S1.
  constructor; rewrite ?frame_top.
  - split_and!; [apply (ar_sp _ _ A) | unfold frame_of, FRAME_SIZE; lia
      | rewrite frame_top; lia |].
    intros x Hx. rewrite frame_top in Hx. unfold has_prot.
    rewrite (ar_mem _ _ A), save_tmps_prot. by apply S2.
  - rewrite (ar_mem _ _ A). generalize (so_var s S). apply rgp_var_ok_keeps.
    apply (keeps_of_agree _ _ (frame_of s) (xr s sp)).
    + apply save_tmps_agree.
    + apply save_tmps_prot.
    + apply (so_var_apart s S).
  - apply (so_var_apart s S).
  - apply (ar_regs _ _ A).
  - rewrite (arrived_frame_mem _ _ A), (arrived_called_mem _ _ A). apply (so_call_frame s S).
  - rewrite (arrived_frame_mem _ _ A), (arrived_called_mem _ _ A). apply (so_call_var s S).
Qed.

(** ** Through the hook *)

Lemma intercept_mem_agree s : agree_off (frame_of s) (xr s sp) (intercept_mem s) (mem s).
Proof.
  unfold intercept_mem. rewrite <- frame_top.
  etransitivity; [apply save_all_agree_off, save_slots_ok|].
  etransitivity; [apply (mwrite_agree_off _ _ 8); lia|]. rewrite frame_top. apply save_tmps_agree.
Qed.

Lemma intercept_mem_prot s : m_prot (intercept_mem s) = m_prot (mem s).
Proof. unfold intercept_mem. rewrite save_all_prot, (mwrite_prot 8). apply save_tmps_prot. Qed.

Lemma keeps_trans lo hi m1 m2 m3 : keeps lo hi m1 m2 -> keeps lo hi m2 m3 -> keeps lo hi m1 m3.
Proof. intros H1 H2 x Hx. destruct (H1 x Hx) as [<- <-]. by apply H2. Qed.

Lemma code_at_keeps m m' base ws : keeps base (base + 4 * Z.of_nat (length ws)) m m' ->
  code_at m base ws -> code_at m' base ws.
Proof.
  intros KP [C X]. split.
  - rewrite <- C at 2. apply mwords_ext. intros x Hx. by apply KP.
  - intros x Hx. unfold has_prot. rewrite (proj2 (KP x Hx)). by apply X.
Qed.

Lemma answered_keeps_mem s lo hi : keeps lo hi (intercept_mem s) (answered_mem s) ->
  hi <= frame_of s \/ xr s sp <= lo -> keeps lo hi (mem s) (answered_mem s).
Proof.
  intros CK D. eapply keeps_trans; [|exact CK].
  apply (keeps_of_agree _ _ (frame_of s) (xr s sp)); [apply intercept_mem_agree | apply intercept_mem_prot | done].
Qed.

(** The state at one of the return paths. *)
Record dispatched (s s2 : machine) : Prop := {
  di_pc : pc s2 = rgp + return_path (intercept_answer s).1.1 (xr s a7);
  di_sp : xr s2 sp = frame_of s;
  di_a0 : xr s2 a0 = wr_a0 (intercept_answer s).1.1;
  di_gp : xr s2 gp = rgp;
  di_x : forall r, r ∉ [t0; a0; sp; gp] -> xr s2 r = xr s r;
  di_f : forall r, fr s2 r = fr s r;
  di_mem : mem s2 = answered_mem s;
  di_trace : trace s2 = trace s ++ (intercept_answer s).2;
  di_t0 : mread 8 (mem s2) (frame_of s) = xr s t0;
  di_ra : mread 8 (mem s2) (frame_of s + 288) = pc s + 4;
  di_ready : return_ready (rgp - RET_SEQUENCE_SIZE) s2 (mem s2)
}.

(** The slots of t0-t3 when the hook is called. *)
Lemma intercept_mem_tmp s o : 0 <= o <= 24 -> o mod 8 = 0 ->
  mread 8 (intercept_mem s) (frame_of s + o) = mread 8 (save_tmps s) (frame_of s + o).
Proof.
  intros Ho Hm. unfold intercept_mem. rewrite save_all_other; [|exact save_slots_ok|done|].
  - apply mread_mwrite_out. lia.
  - intros Hin. assert (o = 0 \/ o = 8 \/ o = 16 \/ o = 24) as C
      by (Z.div_mod_to_equations; lia).
    destruct C as [->|[->|[->| ->]]]; revert Hin; not_in.
Qed.

(** The return sequence and the frame survive the hook. *)
Lemma answered_ready s s2 : site_shape s -> xr s2 sp = frame_of s -> mem s2 = answered_mem s ->
  keeps (frame_of s) (frame_of s + 304) (intercept_mem s) (mem s2) ->
  return_ready (rgp - RET_SEQUENCE_SIZE) s2 (mem s2).
Proof.
  intros S X M KF. destruct (so_rgp s S) as (G1 & G2 & G3). unfold TRAMPOLINE_SIZE in *.
  destruct (so_stack s S) as (S1 & S2). unfold FRAME_SIZE in S1. pose proof (frame_top s) as FT.
  unfold return_ready. rewrite X, M. unfold RET_SEQUENCE_SIZE, FRAME_SIZE in *.
  split_and!; try (unfold frame_of, FRAME_SIZE in *; lia).
  - apply (code_at_keeps (mem s)); [|exact (so_ret s S)].
    change (4 * Z.of_nat (length return_words)) with 56.
    intros x Hx. apply (answered_keeps_mem s (rgp - 56) (rgp + 80)); try done; try lia.
    + apply (so_call_code s S).
    + pose proof (so_apart s S) as AP. unfold RET_SEQUENCE_SIZE, TRAMPOLINE_SIZE in AP. lia.
  - intros x Hx. unfold has_prot. rewrite <- M, (proj2 (KF x Hx)), intercept_mem_prot.
    apply S2. lia.
  - intros x Hx. apply (proj2 (so_mem s S)). unfold RET_SEQUENCE_SIZE, TRAMPOLINE_SIZE. lia.
Qed.

(** The listing, from [asm_syscall_hook] to the return path. *)
Lemma listing_run s s1 : site_shape s -> arrived s s1 -> xr s a7 <> 139 ->
  exists s2, arun e asm_text 100 0 s1 = AExit s2 /\ dispatched s s2.
Proof.
  intros S A N. pose proof A as [A1 A2 A3 A4 A5 A6 A7 A8].
  pose proof (arrived_entry _ _ S A) as EN. pose proof (arrived_answer _ _ A) as HA.
  destruct (so_rgp s S) as (G1 & G2 & G3). unfold TRAMPOLINE_SIZE in *.
  destruct (asm_syscall_hook_run e (frame_of s) rgp G3 ltac:(lia) s1 EN)
    as (s2 & E2 & P & D & X & M & T & KF).
  { rewrite A4 by not_in. done. }
  { rewrite HA. apply syscall_hook_flag. }
  rewrite HA, (A4 a7) in * by not_in. rewrite (arrived_frame_mem _ _ A) in KF.
  exists s2. split; [exact E2|].
  destruct (save_tmps_read s (so_regs s S)) as (T0 & T1 & T2 & T3).
  assert (forall o, 0 <= o -> o + 8 <= 304 ->
    mread 8 (mem s2) (frame_of s + o) = mread 8 (intercept_mem s) (frame_of s + o)) as RM.
  { intros o H1 H2. apply mread_ext. intros x Hx. apply KF. lia. }
  constructor; try done.
  - apply (d_a0 _ _ _ _ _ D).
  - apply (d_gp _ _ _ _ _ D).
  - intros r Hr. rewrite !not_elem_of_cons in Hr. destruct Hr as (R1 & R2 & R3 & R4 & _).
    destruct (decide (r = t1)) as [->|]; [by rewrite (d_t1 _ _ _ _ _ D), A6|].
    destruct (decide (r = t2)) as [->|]; [by rewrite (d_t2 _ _ _ _ _ D), A6|].
    destruct (decide (r = t3)) as [->|]; [by rewrite (d_t3 _ _ _ _ _ D), A6|].
    rewrite (d_x _ _ _ _ _ D), A4; [done|..];
      rewrite !not_elem_of_cons; split_and!; try done; apply not_elem_of_nil.
  - intros r. by rewrite (d_f _ _ _ _ _ D), A5.
  - by rewrite A7 in T.
  - rewrite <- (Z.add_0_r (frame_of s)), RM, intercept_mem_tmp, Z.add_0_r by (done || lia). done.
  - rewrite RM by lia. rewrite <- (arrived_frame_mem _ _ A), frame_gp by done. done.
  - by apply (answered_ready s).
Qed.

Lemma through_hook s : site_ok s -> xr s a7 <> 139 ->
  exists s2, run 22 s = Next s2 /\ dispatched s s2.
Proof.
  intros S N. destruct (way_in s S) as (s1 & E1 & A1 & A2 & A3 & A4 & A5 & A6 & A7 & A8).
  assert (arrived s s1) as A by done. destruct (listing_run s s1 S A N) as (s2 & E2 & D).
  exists s2. split; [|done]. change 22%nat with (21 + 1)%nat. rewrite (run_app _ _ _ _ E1).
  apply run_step. unfold step. rewrite A1, (so_routine s S). unfold asm_routine. by rewrite E2.
Qed.

(** ** The way back *)

Lemma returned_same s s3 m : site_shape s -> xr s3 sp = frame_of s ->
  (forall r, r ∉ [t0; a0; sp; gp] -> xr s3 r = xr s r) -> (forall r, fr s3 r = fr s r) ->
  mread 8 m (frame_of s) = xr s t0 -> mread 8 m (frame_of s + 288) = pc s + 4 ->
  same_context s (returned (rgp - RET_SEQUENCE_SIZE) s3 m) /\
  xr (returned (rgp - RET_SEQUENCE_SIZE) s3 m) a0 = xr s3 a0.
Proof.
  intros S X XR F T0 RA. destruct (so_pc s S) as (P1 & P2 & P3).
  unfold returned. cbv zeta. rewrite X, T0, RA. split; [|reflexivity].
  split_and!; cbn [pc xr fr]; [Z.div_mod_to_equations; lia | | done].
  intros r Hr. unfold upd. rewrite <- (so_gp s S).
  destruct (Z.eqb_spec r gp) as [->|]; [lia|].
  destruct (Z.eqb_spec r sp) as [->|]; [unfold frame_of; lia|].
  destruct (Z.eqb_spec r t0) as [->|]; [done|].
  apply XR. rewrite !not_elem_of_cons. split_and!; try done. apply not_elem_of_nil.
Qed.

(** The three return paths, from the state the listing leaves. *)
Lemma back_handled s s2 : site_shape s -> dispatched s s2 -> wr_a1 (intercept_answer s).1.1 = 1 ->
  exists s', run 5 s2 = Next s' /\ same_context s s' /\
    xr s' a0 = wr_a0 (intercept_answer s).1.1 /\
    mem s' = answered_mem s /\ trace s' = trace s ++ (intercept_answer s).2.
Proof.
  intros S [] W. eexists. split; [apply return_handled; [exact di_ready0|]|].
  { rewrite di_pc0. unfold return_path, RET_SEQUENCE_SIZE. rewrite W, decide_False by lia. lia. }
  destruct (returned_same s s2 (mem s2) S di_sp0 di_x0 di_f0 di_t1 di_ra0) as [C A].
  rewrite A. split_and!; done.
Qed.

Lemma run_handled s : site_ok s -> xr s a7 <> 139 -> wr_a1 (intercept_answer s).1.1 = 1 ->
  exists s', run 27 s = Next s' /\ same_context s s' /\
    xr s' a0 = wr_a0 (intercept_answer s).1.1 /\
    mem s' = answered_mem s /\ trace s' = trace s ++ (intercept_answer s).2.
Proof.
  intros S N W. destruct (through_hook s S N) as (s2 & E & D).
  change 27%nat with (22 + 5)%nat. rewrite (run_app _ _ _ _ E). exact (back_handled s s2 S D W).
Qed.

(** The system call the site makes. *)
Definition site_args (s : machine) : list Z := map (xr s) [a0; a1; a2; a3; a4; a5].

(** When the answer is to forward, a0 still holds the first argument. *)
Lemma answer_forward s : wr_a1 (intercept_answer s).1.1 = 0 ->
  wr_a0 (intercept_answer s).1.1 = xr s a0.
Proof. unfold intercept_answer, syscall_hook. destruct (ce_hook_fn e); [|done]. by case_match. Qed.

Lemma back_forwarded s s2 : site_shape s -> xr s a7 ∉ [139; 220; 435] ->
  wr_a1 (intercept_answer s).1.1 = 0 -> dispatched s s2 ->
  let r := k_syscall (xr s a7) (site_args s) (answered_mem s) in
  keeps (frame_of s) (xr s sp) (answered_mem s) r.2 ->
  keeps (rgp - RET_SEQUENCE_SIZE) rgp (answered_mem s) r.2 ->
  exists s' ev, run 6 s2 = Next s' /\ same_context s s' /\ xr s' a0 = u64 r.1 /\ mem s' = r.2 /\
    trace s' = trace s ++ (intercept_answer s).2 ++ [ev] /\ ev_nr ev = xr s a7 /\
    ev_args ev = (site_args s).
Proof.
  intros S N W D r KF KC. rewrite !not_elem_of_cons in N. destruct N as (N1 & N2 & N3 & _).
  pose proof D as [].
  assert (getx s2 a7 = xr s a7) as E7 by (change (xr s2 a7 = xr s a7); apply di_x0; not_in).
  assert (sys_args s2 = (site_args s)) as EA.
  { change (sys_args s2) with [xr s2 a0; xr s2 a1; xr s2 a2; xr s2 a3; xr s2 a4; xr s2 a5].
    rewrite di_a1, (answer_forward s W), !di_x0 by not_in. done. }
  assert (sys_memory s2 = r.2) as EM by (unfold sys_memory; by rewrite E7, EA, di_mem0).
  assert (sys_result s2 = u64 r.1) as ER by (unfold sys_result; by rewrite E7, EA, di_mem0).
  pose proof di_ready0 as (C & Q1 & Q2 & Q3 & Q4 & Q5 & Q6).
  rewrite (return_normal (rgp - RET_SEQUENCE_SIZE)); [|done| |].
  - eexists _, (sys_event s2). split; [reflexivity|]. rewrite EM, ER.
    set (s3 := Mach (pc s2) (upd (xr s2) a0 (u64 r.1)) (fr s2) r.2 (trace s2 ++ [sys_event s2])).
    assert (same_context s (returned (rgp - RET_SEQUENCE_SIZE) s3 r.2) /\
      xr (returned (rgp - RET_SEQUENCE_SIZE) s3 r.2) a0 = xr s3 a0) as [CX A].
    { apply returned_same; try done.
      - intros q Hq. cbn [xr s3]. rewrite upd_ne; [auto|]. rewrite !not_elem_of_cons in Hq. tauto.
      - rewrite <- di_t1, di_mem0. apply mread_ext. intros x Hx. apply KF. rewrite <- frame_top. lia.
      - rewrite <- di_ra0, di_mem0. apply mread_ext. intros x Hx. apply KF. rewrite <- frame_top. lia. }
    split; [exact CX|]. rewrite A. split_and!; try done.
    cbn [trace returned s3]. by rewrite di_trace0, <- app_assoc.
  - rewrite EM. split_and!; try done.
    + apply (code_at_keeps (mem s2)); [|done]. rewrite di_mem0.
      intros x Hx. apply KC. unfold RET_SEQUENCE_SIZE in *. cbn in Hx. lia.
    + intros x Hx. unfold has_prot. rewrite di_sp0 in Hx. rewrite (proj2 (KF x ltac:(rewrite <- frame_top; exact Hx))).
      rewrite <- di_mem0. apply Q5. by rewrite di_sp0.
  - rewrite di_pc0. unfold return_path, RET_SEQUENCE_SIZE. rewrite W.
    rewrite decide_True, decide_False by tauto. lia.
Qed.

Lemma run_forwarded s : site_ok s -> xr s a7 ∉ [139; 220; 435] ->
  wr_a1 (intercept_answer s).1.1 = 0 ->
  let r := k_syscall (xr s a7) (site_args s) (answered_mem s) in
  keeps (frame_of s) (xr s sp) (answered_mem s) r.2 ->
  keeps (rgp - RET_SEQUENCE_SIZE) rgp (answered_mem s) r.2 ->
  exists s' ev, run 28 s = Next s' /\ same_context s s' /\ xr s' a0 = u64 r.1 /\ mem s' = r.2 /\
    trace s' = trace s ++ (intercept_answer s).2 ++ [ev] /\ ev_nr ev = xr s a7 /\
    ev_args ev = (site_args s).
Proof.
  intros S N W r KF KC. assert (xr s a7 <> 139) as N1 by (rewrite !not_elem_of_cons in N; tauto).
  destruct (through_hook s S N1) as (s2 & E & D).
  change 28%nat with (22 + 6)%nat. rewrite (run_app _ _ _ _ E). exact (back_forwarded s s2 S N W D KF KC).
Qed.

(** The clone path makes its system call in the context of the caller. *)
Lemma restored_context s s2 : dispatched s s2 -> wr_a1 (intercept_answer s).1.1 = 0 ->
  let s3 := restored (rgp - RET_SEQUENCE_SIZE) s2 in
  (forall q, q <> gp -> xr s3 q = xr s q) /\ xr s3 gp = pc s + 4 /\ (forall q, fr s3 q = fr s q) /\
  mem s3 = answered_mem s.
Proof.
  intros [] W. cbn [restored xr fr mem]. rewrite di_sp0, di_ra0, di_t1. split_and!; try done.
  intros q Hq. unfold upd. destruct (Z.eqb_spec q sp) as [->|]; [unfold frame_of; lia|].
  destruct (Z.eqb_spec q t0) as [->|]; [done|]. destruct (Z.eqb_spec q gp) as [->|]; [done|].
  destruct (decide (q = a0)) as [->|]; [by rewrite di_a1, answer_forward|].
  apply di_x0. rewrite !not_elem_of_cons. split_and!; try done. apply not_elem_of_nil.
Qed.

Lemma clone_path s s2 : dispatched s s2 -> xr s a7 = 220 \/ xr s a7 = 435 ->
  wr_a1 (intercept_answer s).1.1 = 0 -> pc s2 = rgp - RET_SEQUENCE_SIZE + 36.
Proof.
  intros [] N W. rewrite di_pc0. unfold return_path, RET_SEQUENCE_SIZE. rewrite W.
  rewrite !decide_True by tauto. lia.
Qed.

Lemma back_clone s s2 : site_shape s -> xr s a7 = 220 \/ xr s a7 = 435 ->
  wr_a1 (intercept_answer s).1.1 = 0 -> dispatched s s2 ->
  let r := k_syscall (xr s a7) (site_args s) (answered_mem s) in
  keeps (rgp - RET_SEQUENCE_SIZE) rgp (answered_mem s) r.2 ->
  exists s' ev, run 5 s2 = Next s' /\ same_context s s' /\ xr s' a0 = u64 r.1 /\ mem s' = r.2 /\
    trace s' = trace s ++ (intercept_answer s).2 ++ [ev] /\ ev_nr ev = xr s a7 /\
    ev_args ev = site_args s /\ forall q, q <> gp -> ev_x ev q = xr s q.
Proof.
  intros S N W D r KC. pose proof D as [].
  set (base := rgp - RET_SEQUENCE_SIZE) in *. set (s3 := restored base s2).
  destruct (restored_context s s2 D W) as (X3 & _). fold base s3 in X3.
  assert (getx s3 a7 = xr s a7) as E7 by (change (xr s3 a7 = xr s a7); by apply X3).
  assert (sys_args s3 = site_args s) as EA.
  { change (sys_args s3) with [xr s3 a0; xr s3 a1; xr s3 a2; xr s3 a3; xr s3 a4; xr s3 a5].
    by rewrite !X3. }
  assert (mem s3 = answered_mem s) as M3 by done.
  assert (sys_memory s3 = r.2) as EM by (unfold sys_memory; by rewrite E7, EA, M3).
  assert (sys_result s3 = u64 r.1) as ER by (unfold sys_result; by rewrite E7, EA, M3).
  rewrite (return_clone base); [|done| |].
  - fold s3. rewrite EM, ER, di_sp0, di_ra0. eexists _, (sys_event s3). split; [reflexivity|].
    destruct (so_pc s S) as (P1 & P2 & P3).
    assert (forall q, q <> a0 ->
      upd (upd (xr s3) a0 (u64 r.1)) gp (base + RET_SEQUENCE_SIZE) q = xr s q) as XF.
    { intros q Hq. unfold upd. destruct (Z.eqb_spec q gp) as [->|].
      - rewrite (so_gp s S). unfold base. lia.
      - destruct (Z.eqb_spec q a0); [done|]. by apply X3. }
    split; [split_and!; cbn [pc xr fr]; [Z.div_mod_to_equations; lia | exact XF | exact di_f0]|].
    cbn [pc xr fr mem trace]. split_and!; try done. by rewrite di_trace0, <- app_assoc.
  - by apply clone_path with s.
  - fold s3. rewrite EM. apply (code_at_keeps (mem s2)); [|apply di_ready0]. rewrite di_mem0.
    intros x Hx. apply KC. unfold base, RET_SEQUENCE_SIZE in *. cbn in Hx. lia.
Qed.

Lemma run_clone s : site_ok s -> xr s a7 = 220 \/ xr s a7 = 435 ->
  wr_a1 (intercept_answer s).1.1 = 0 ->
  let r := k_syscall (xr s a7) (site_args s) (answered_mem s) in
  keeps (rgp - RET_SEQUENCE_SIZE) rgp (answered_mem s) r.2 ->
  exists s' ev, run 27 s = Next s' /\ same_context s s' /\ xr s' a0 = u64 r.1 /\ mem s' = r.2 /\
    trace s' = trace s ++ (intercept_answer s).2 ++ [ev] /\ ev_nr ev = xr s a7 /\
    ev_args ev = site_args s /\ forall q, q <> gp -> ev_x ev q = xr s q.
Proof.
  intros S N W r KC. destruct (through_hook s S ltac:(lia)) as (s2 & E & D).
  change 27%nat with (22 + 5)%nat. rewrite (run_app _ _ _ _ E). exact (back_clone s s2 S N W D KC).
Qed.

(** C9: clone and clone3 reach the kernel with the caller's whole register file
    restored, sp and t0 included (gp alone holds the return address), so that
    the child starts in the caller's context; the parent resumes after the
    site.  Nothing is asked of the kernel but that it leaves the code in
    place. *)
Theorem clone_restores_context s : site_ok s -> xr s a7 = 220 \/ xr s a7 = 435 ->
  wr_a1 (intercept_answer s).1.1 = 0 ->
  let r := k_syscall (xr s a7) (site_args s) (answered_mem s) in
  keeps (rgp - RET_SEQUENCE_SIZE) rgp (answered_mem s) r.2 ->
  exists s' ev, run 27 s = Next s' /\ same_context s s' /\ xr s' a0 = u64 r.1 /\ mem s' = r.2 /\
    trace s' = trace s ++ (intercept_answer s).2 ++ [ev] /\ ev_nr ev = xr s a7 /\
    ev_args ev = site_args s /\ forall q, q <> gp -> ev_x ev q = xr s q.
Proof. apply run_clone. Qed.

(** C30: rt_sigreturn is forwarded without calling the hook, but the [ecall] is
    executed with the interception frame still on the stack: the kernel sees sp
    304 bytes below the caller's. *)
Theorem sigreturn_sees_lowered_sp s : site_ok s -> xr s a7 = 139 ->
  exists s' ev, run 23 s = Next s' /\ trace s' = trace s ++ [ev] /\ ev_nr ev = 139 /\
    ev_x ev sp = xr s sp - FRAME_SIZE /\ forall q, q ∉ [sp; gp; t0] -> ev_x ev q = xr s q.
Proof.
  intros S N. destruct (way_in s S) as (s1 & E1 & A1 & A2 & A3 & A4 & A5 & A6 & A7 & A8).
  assert (arrived s s1) as A by done. destruct (arrived_entry _ _ S A) as [F V VA _ _ _].
  destruct (so_rgp s S) as (G1 & G2 & G3). unfold TRAMPOLINE_SIZE in *.
  assert (xr s1 a7 = xr s a7) as E7 by (apply A4; not_in).
  destruct (asm_sigreturn_run e (frame_of s) rgp G3 ltac:(lia) s1 F V VA ltac:(congruence))
    as (s2 & E2 & P & D & X & M & T).
  assert (run 22 s = Next s2) as ER.
  { change 22%nat with (21 + 1)%nat. rewrite (run_app _ _ _ _ E1).
    apply run_step. unfold step. rewrite A1, (so_routine s S). unfold asm_routine. by rewrite E2. }
  assert (code_at (mem s2) (rgp - RET_SEQUENCE_SIZE) return_words) as C.
  { rewrite M. apply code_at_mwrite.
    - cbn. pose proof (so_apart s S) as AP. unfold RET_SEQUENCE_SIZE, TRAMPOLINE_SIZE, frame_of, FRAME_SIZE in *. lia.
    - rewrite A6. apply (code_at_ext (mem s)); [|symmetry; apply save_tmps_prot|apply (so_ret s S)].
      intros x Hx. symmetry. apply save_tmps_agree. cbn in Hx. pose proof (so_apart s S) as AP.
      unfold RET_SEQUENCE_SIZE, TRAMPOLINE_SIZE in *. lia. }
  change 23%nat with (22 + 1)%nat. rewrite (run_app _ _ _ _ ER).
  erewrite (run_code _ _ 4 _ IEcall); [|exact C| | |reflexivity|reflexivity| |reflexivity].
  - rewrite do_ecall_eq. eexists _, (sys_event s2). split; [reflexivity|].
    cbn [trace setpc sys_event ev_nr ev_x]. rewrite T, A7. split_and!; try done.
    + change (xr s2 a7 = 139). rewrite (d_x _ _ _ _ _ D) by not_in. congruence.
    + intros q Hq. rewrite !not_elem_of_cons in Hq. destruct Hq as (Q1 & Q2 & Q3 & _).
      destruct (save_tmps_read s (so_regs s S)) as (_ & T1 & T2 & T3).
      destruct (decide (q = a0)) as [->|]; [rewrite (d_a0 _ _ _ _ _ D); apply A4; not_in|].
      destruct (decide (q = t1)) as [->|]; [by rewrite (d_t1 _ _ _ _ _ D), A6|].
      destruct (decide (q = t2)) as [->|]; [by rewrite (d_t2 _ _ _ _ _ D), A6|].
      destruct (decide (q = t3)) as [->|]; [by rewrite (d_t3 _ _ _ _ _ D), A6|].
      rewrite (d_x _ _ _ _ _ D), A4; [done|..];
        rewrite !not_elem_of_cons; split_and!; try done; apply not_elem_of_nil.
  - apply (proj2 (so_mem s S)). rewrite P. unfold RET_SEQUENCE_SIZE, TRAMPOLINE_SIZE. lia.
  - rewrite P. unfold RET_SEQUENCE_SIZE. lia.
  - vm_compute. reflexivity.
Qed.

(** ** Properties *)

(** What the installed hook answers to the system call of [s]. *)
Definition user_answer (h : hook_fn_t) (s : machine) : hook_outcome :=
  h (xr s a7) (xr s a0) (xr s a1) (xr s a2) (xr s a3) (xr s a4) (xr s a5) (intercept_mem s).

Lemma answer_none s : ce_hook_fn e = None ->
  intercept_answer s = ({| wr_a0 := xr s a0; wr_a1 := 0 |}, intercept_mem s, []).
Proof. unfold intercept_answer. by intros ->. Qed.

Lemma answer_some h s : ce_hook_fn e = Some h ->
  intercept_answer s =
    (if ho_code (user_answer h s) =? 0
     then {| wr_a0 := default (ce_result0 e) (ho_result (user_answer h s)); wr_a1 := 1 |}
     else {| wr_a0 := xr s a0; wr_a1 := 0 |},
     ho_mem (user_answer h s), ho_events (user_answer h s)).
Proof.
  unfold intercept_answer. intros ->. unfold syscall_hook. fold (user_answer h s). by case_bools.
Qed.

(** With no hook installed a patched site behaves as the [ecall] it
    replaced: the kernel gets exactly one system call, with the caller's number
    and arguments; its answer is in a0; every other register, floating-point
    registers included, is unchanged and control is after the site. *)
Theorem null_hook_transparent s :
  site_ok s -> ce_hook_fn e = None -> xr s a7 ∉ [139; 220; 435] ->
  let mk := ce_scratch e (frame_of s) (intercept_mem s) in
  let r := k_syscall (xr s a7) (site_args s) mk in
  keeps (frame_of s) (xr s sp) mk r.2 -> keeps (rgp - RET_SEQUENCE_SIZE) rgp mk r.2 ->
  agree_off (frame_of s) (xr s sp) (intercept_mem s) (mem s) /\
  exists s' ev, run 28 s = Next s' /\ same_context s s' /\ xr s' a0 = u64 r.1 /\ mem s' = r.2 /\
    trace s' = trace s ++ [ev] /\ ev_nr ev = xr s a7 /\ ev_args ev = site_args s.
Proof.
  intros S H N mk r KF KC. split; [apply intercept_mem_agree|].
  pose proof (answer_none s H) as A. pose proof (run_forwarded s S N) as F.
  unfold answered_mem in F. rewrite A in F. by apply F.
Qed.

(** C7: A hook that returns a non-zero code has the system call forwarded:
    after the hook's own system calls the kernel gets the caller's, and the
    caller sees only a0 changed. *)
Theorem forwarding_hook_transparent h s :
  site_ok s -> ce_hook_fn e = Some h -> xr s a7 ∉ [139; 220; 435] ->
  ho_code (user_answer h s) <> 0 ->
  let mk := ce_scratch e (frame_of s) (ho_mem (user_answer h s)) in
  let r := k_syscall (xr s a7) (site_args s) mk in
  keeps (frame_of s) (xr s sp) mk r.2 -> keeps (rgp - RET_SEQUENCE_SIZE) rgp mk r.2 ->
  exists s' ev, run 28 s = Next s' /\ same_context s s' /\ xr s' a0 = u64 r.1 /\ mem s' = r.2 /\
    trace s' = trace s ++ ho_events (user_answer h s) ++ [ev] /\
    ev_nr ev = xr s a7 /\ ev_args ev = site_args s.
Proof.
  intros S H N C mk r KF KC. pose proof (answer_some h s H) as A.
  rewrite (proj2 (Z.eqb_neq _ _) C) in A. pose proof (run_forwarded s S N) as F.
  unfold answered_mem in F. rewrite A in F. by apply F.
Qed.

(** C8: A hook that returns 0 has handled the system call: no system call
    reaches the kernel but the hook's own, and the caller gets the value the
    hook stored as the result. *)
Theorem handling_hook_no_syscall h s :
  site_ok s -> ce_hook_fn e = Some h -> xr s a7 <> 139 -> ho_code (user_answer h s) = 0 ->
  exists s', run 27 s = Next s' /\ same_context s s' /\
    xr s' a0 = default (ce_result0 e) (ho_result (user_answer h s)) /\
    mem s' = ce_scratch e (frame_of s) (ho_mem (user_answer h s)) /\
    trace s' = trace s ++ ho_events (user_answer h s).
Proof.
  intros S H N C. pose proof (answer_some h s H) as A. rewrite C in A. cbn [Z.eqb] in A.
  pose proof (run_handled s S N) as F. unfold answered_mem in F. rewrite A in F. by apply F.
Qed.

End Intercept.

(** ** A concrete process

    One patched site at 0x1000, the relocated global pointer at 0x200800, a
    stack below 0x310000, the variable at 0x400000 and [asm_syscall_hook] at
    0x500000; the kernel answers 42 and leaves the memory alone. *)
Section Example.
Definition ex_mem : memory :=
  mwrite 8 (put_words 0x200800 (trampoline_words 0x500000)
    (put_words (0x200800 - RET_SEQUENCE_SIZE) return_words
      (put_words 0x1000 [JALR_GP] (Mem ∅ ex_prot)))) 0x400000 0x200800.

Definition ex_x (nr : Z) (r : Z) : Z :=
  if r =? sp then 0x310000 else if r =? gp then 0x200800 else if r =? a7 then nr
  else if (0 <=? r) && (r <? 32) then 1000 + r else 0.

Definition ex_machine (nr : Z) : machine := Mach 0x1000 (ex_x nr) (fun _ => 7) ex_mem [].

(** A hook that answers [code] and stores [result], or no hook. *)
Definition ex_env (o : option (Z * option Z)) : cenv := {|
  ce_hook_fn := (fun '(code, result) _ _ _ _ _ _ _ m =>
                   {| ho_code := code; ho_result := result; ho_mem := m; ho_events := [] |}) <$> o;
  ce_result0 := 99;
  ce_rgp_var := 0x400000;
  ce_clob_x := fun _ _ => 0xdead;
  ce_clob_f := fun _ _ => 0xbeef;
  ce_scratch := fun _ m => m |}.

#[local] Instance ex_kernel : Kernel := fun _ _ m => (42, m).
#[local] Instance ex_routines (o : option (Z * option Z)) : Routines :=
  fun a => if a =? 0x500000 then Some (asm_routine (ex_env o)) else None.

Lemma ex_answered o s : answered_mem (ex_env o) s = intercept_mem s.
Proof.
  unfold answered_mem, intercept_answer, syscall_hook.
  destruct o as [[code result]|]; [|done]. cbn [ex_env ce_hook_fn fmap option_fmap option_map].
  cbn. by destruct (code =? 0).
Qed.

Ltac ex_ranges := intros x Hx;
  repeat match type of Hx with context [4 * Z.of_nat ?n] =>
    let v := eval vm_compute in (4 * Z.of_nat n) in change (4 * Z.of_nat n) with v in Hx end;
  cbn in Hx; unfold RET_SEQUENCE_SIZE in Hx; unfold has_prot; cbn [m_prot mem ex_machine];
  change (m_prot ex_mem x) with (ex_prot x); unfold ex_prot; case_bools; lia || done.

Lemma ex_site_ok o nr : is_u64 nr -> site_ok (R := ex_routines o) (ex_env o) 0x500000 0x200800 (ex_machine nr).
Proof.
  intros Hn. split; [|done]. constructor; try (by rewrite ex_answered); try done.
  - split; [vm_compute; reflexivity | ex_ranges].
  - split; [vm_compute; reflexivity | ex_ranges].
  - split; [vm_compute; reflexivity | ex_ranges].
  - split; intros x Hx; unfold routine_at, ex_routines; cbn in Hx;
      unfold RET_SEQUENCE_SIZE, TRAMPOLINE_SIZE in Hx; case_bools; lia || done.
  - split; [cbn; unfold FRAME_SIZE; lia|]. intros x Hx.
    change (frame_of (ex_machine nr)) with 0x30fed0 in Hx.
    split; revert x Hx; ex_ranges.
  - right. cbn. unfold TRAMPOLINE_SIZE, frame_of, FRAME_SIZE. cbn. lia.
  - split_and!; [cbn; lia | cbn; lia | vm_compute; reflexivity | ex_ranges].
  - right. cbn. lia.
  - intros r. split; [|done]. cbn. unfold ex_x. unfold is_u64 in *. case_bools; lia.
Qed.
Lemma ex_keeps lo hi m : keeps lo hi m m.
Proof. done. Qed.

Lemma ex_nr_u64 nr : (0 <=? nr) && (nr <? 1000) = true -> is_u64 nr.
Proof. unfold is_u64. case_bools; lia || done. Qed.

(** A write (64) with no hook. *)
Lemma null_hook_transparent_witness :
  exists s' ev, @run _ (ex_routines None) 28 (ex_machine 64) = Next s' /\
    xr s' a0 = 42 /\ pc s' = 0x1004 /\ trace s' = [ev] /\ ev_nr ev = 64.
Proof.
  destruct (null_hook_transparent (R := ex_routines None) (ex_env None) 0x500000 0x200800
              (ex_machine 64)) as (_ & s' & ev & E & (P & _) & A & _ & T & N & _).
  - apply ex_site_ok, ex_nr_u64. reflexivity.
  - reflexivity.
  - apply (bool_decide_unpack _). vm_compute. exact I.
  - apply ex_keeps.
  - apply ex_keeps.
  - exists s', ev. split_and!; [exact E | exact A | exact P | exact T | exact N].
Defined.

(** A write (64) with a hook that declines it. *)
Lemma forwarding_hook_transparent_witness :
  exists s' ev, @run _ (ex_routines (Some (1, None))) 28 (ex_machine 64) = Next s' /\
    xr s' a0 = 42 /\ trace s' = [ev] /\ ev_args ev = [1010; 1011; 1012; 1013; 1014; 1015].
Proof.
  destruct (forwarding_hook_transparent (R := ex_routines (Some (1, None))) (ex_env (Some (1, None)))
              0x500000 0x200800 (fun _ _ _ _ _ _ _ m =>
                {| ho_code := 1; ho_result := None; ho_mem := m; ho_events := [] |})
              (ex_machine 64)) as (s' & ev & E & _ & A & _ & T & _ & G).
  - apply ex_site_ok, ex_nr_u64. reflexivity.
  - reflexivity.
  - apply (bool_decide_unpack _). vm_compute. exact I.
  - discriminate.
  - apply ex_keeps.
  - apply ex_keeps.
  - exists s', ev. split_and!; [exact E | exact A | exact T | exact G].
Defined.

(** A write (64) with a hook that answers 17. *)
Lemma handling_hook_no_syscall_witness :
  exists s', @run _ (ex_routines (Some (0, Some 17))) 27 (ex_machine 64) = Next s' /\
    xr s' a0 = 17 /\ pc s' = 0x1004 /\ trace s' = [].
Proof.
  destruct (handling_hook_no_syscall (R := ex_routines (Some (0, Some 17))) (ex_env (Some (0, Some 17)))
              0x500000 0x200800 (fun _ _ _ _ _ _ _ m =>
                {| ho_code := 0; ho_result := Some 17; ho_mem := m; ho_events := [] |})
              (ex_machine 64)) as (s' & E & (P & _) & A & _ & T).
  - apply ex_site_ok, ex_nr_u64. reflexivity.
  - reflexivity.
  - discriminate.
  - reflexivity.
  - exists s'. split_and!; [exact E | exact A | exact P | exact T].
Defined.

(** A clone (220) with no hook: the kernel sees the caller's sp and t0. *)
Lemma clone_restores_context_witness :
  exists s' ev, @run _ (ex_routines None) 27 (ex_machine 220) = Next s' /\
    trace s' = [ev] /\ ev_nr ev = 220 /\ ev_x ev sp = 0x310000 /\ ev_x ev t0 = 1005.
Proof.
  destruct (clone_restores_context (R := ex_routines None) (ex_env None) 0x500000 0x200800
              (ex_machine 220)) as (s' & ev & E & _ & _ & _ & T & N & _ & X).
  - apply ex_site_ok, ex_nr_u64. reflexivity.
  - left. reflexivity.
  - reflexivity.
  - apply ex_keeps.
  - exists s', ev. split_and!; [exact E | exact T | exact N | | ]; rewrite X; done.
Defined.

(** An rt_sigreturn (139). *)
Lemma sigreturn_sees_lowered_sp_witness :
  exists s' ev, @run _ (ex_routines None) 23 (ex_machine 139) = Next s' /\
    trace s' = [ev] /\ ev_x ev sp = 0x310000 - 304.
Proof.
  destruct (sigreturn_sees_lowered_sp (R := ex_routines None) (ex_env None) 0x500000 0x200800
              (ex_machine 139)) as (s' & ev & E & T & _ & X & _).
  - apply ex_site_ok, ex_nr_u64. reflexivity.
  - reflexivity.
  - exists s', ev. split_and!; [exact E | exact T | exact X].
Defined.
End Example.
