(* ===== verification/Sigsegv.v ===== *)
(** * Accesses to the execute-only page: sigsegv_handler.c, rv_opcodes.h

    The shadow page is execute-only, and the program's global pointer points
    into it: a load or a store through gp faults, and [segfault_handler] performs
    it on the original page instead.  The machine context of the handler
    ([ucontext_t]) has the program counter where x0 would be.  [deliver] is the
    kernel's part: it builds the context, runs the handler and resumes. *)

From stdpp Require Import base gmap list.
From Stdlib Require Import ZArith Lia Bool.
From S2P Require Import Prelude Memory Isa Os RetSeq Patcher.

(** ** rv_opcodes.h *)

Definition LOAD_OPCODE : Z := 0x03.
Definition LB_FUNCT3 : Z := 0x0.
Definition LH_FUNCT3 : Z := 0x1.
Definition LW_FUNCT3 : Z := 0x2.
Definition LD_FUNCT3 : Z := 0x3.
Definition LBU_FUNCT3 : Z := 0x4.
Definition LHU_FUNCT3 : Z := 0x5.
Definition LWU_FUNCT3 : Z := 0x6.
Definition FLOAD_OPCODE : Z := 0x07.
Definition FLW_FUNCT3 : Z := 0x2.
Definition FLD_FUNCT3 : Z := 0x3.
Definition STORE_OPCODE : Z := 0x23.
Definition SB_FUNCT3 : Z := 0x0.
Definition SH_FUNCT3 : Z := 0x1.
Definition SW_FUNCT3 : Z := 0x2.
Definition SD_FUNCT3 : Z := 0x3.
Definition FSTORE_OPCODE : Z := 0x27.
Definition FSW_FUNCT3 : Z := 0x2.
Definition FSD_FUNCT3 : Z := 0x3.
Definition C0_OPCODE : Z := 0x00.
Definition C_FLD_FUNCT3 : Z := 0x1.
Definition C_LW_FUNCT3 : Z := 0x2.
Definition C_LD_FUNCT3 : Z := 0x3.
Definition C_FSD_FUNCT3 : Z := 0x5.
Definition C_SW_FUNCT3 : Z := 0x6.
Definition C_SD_FUNCT3 : Z := 0x7.
Definition C2_OPCODE : Z := 0x02.
Definition C_FLDSP_FUNCT3 : Z := 0x1.
Definition C_LWSP_FUNCT3 : Z := 0x2.
Definition C_LDSP_FUNCT3 : Z := 0x3.
Definition C_FSDSP_FUNCT3 : Z := 0x5.
Definition C_SWSP_FUNCT3 : Z := 0x6.
Definition C_SDSP_FUNCT3 : Z := 0x7.

Definition rvc_reg_map : list Z := [8; 9; 10; 11; 12; 13; 14; 15].

(** ** The handler's state and results *)

Definition REG_PC : Z := 0.

(** [uc_mcontext]: [__gregs] (the program counter at index 0) and [__fpregs]. *)
Record ucontext := Uctx {
  gregs : Z -> Z;
  fpregs : Z -> Z
}.

Definition set_greg (r v : Z) (c : ucontext) : ucontext := Uctx (upd (gregs c) r v) (fpregs c).
Definition set_freg (r v : Z) (c : ucontext) : ucontext := Uctx (gregs c) (upd (fpregs c) r v).

(** [HFault a] is an access of the handler itself that is refused at [a];
    [HRaised] is the re-raised signal, with its default action. *)
Inductive hres (A : Type) : Type :=
| HOk (x : A)
| HExit (code : Z)
| HRaised (sig : Z)
| HFault (addr : Z).
Arguments HOk {A} _.
Arguments HExit {A} _.
Arguments HRaised {A} _.
Arguments HFault {A} _.

#[export] Instance hres_ret : MRet hres := fun A x => HOk x.
#[export] Instance hres_bind : MBind hres := fun A B k r =>
  match r with
  | HOk x => k x
  | HExit c => HExit c
  | HRaised s => HRaised s
  | HFault a => HFault a
  end.

(** Reading and writing through a pointer to an [n]-byte integer. *)
Definition deref (n : nat) (m : memory) (a : Z) : hres Z :=
  match mload n m a with Some v => HOk v | None => HFault a end.
Definition assign (n : nat) (m : memory) (a v : Z) : hres memory :=
  match mstore n m a v with Some m' => HOk m' | None => HFault a end.

(** ** The emulated instructions *)

Definition get_field (instr start len : Z) : Z :=
  u8 (Z.land (Z.shiftr instr start) (Z.shiftl 1 len - 1)).

Definition emulate_load_instruction (ctx : ucontext) (m : memory) (funct3 rd backup_addr : Z)
  : hres (ucontext * memory) :=
  if rd =? 0 then HOk (ctx, m)
  else if funct3 =? LB_FUNCT3 then
    v ← deref 1 m backup_addr; HOk (set_greg rd (u64 (sext 8 v)) ctx, m)
  else if funct3 =? LH_FUNCT3 then
    v ← deref 2 m backup_addr; HOk (set_greg rd (u64 (sext 16 v)) ctx, m)
  else if funct3 =? LW_FUNCT3 then
    v ← deref 4 m backup_addr; HOk (set_greg rd (u64 (sext 32 v)) ctx, m)
  else if funct3 =? LD_FUNCT3 then
    v ← deref 8 m backup_addr; HOk (set_greg rd (u64 (sext 64 v)) ctx, m)
  else if funct3 =? LBU_FUNCT3 then
    v ← deref 1 m backup_addr; HOk (set_greg rd v ctx, m)
  else if funct3 =? LHU_FUNCT3 then
    v ← deref 2 m backup_addr; HOk (set_greg rd v ctx, m)
  else if funct3 =? LWU_FUNCT3 then
    v ← deref 4 m backup_addr; HOk (set_greg rd v ctx, m)
  else HExit 1.

Definition emulate_fload_instruction (ctx : ucontext) (m : memory) (funct3 rd backup_addr : Z)
  : hres (ucontext * memory) :=
  if funct3 =? FLW_FUNCT3 then
    v ← deref 4 m backup_addr; HOk (set_freg rd (Z.lor 0xFFFFFFFF00000000 v) ctx, m)
  else if funct3 =? FLD_FUNCT3 then
    v ← deref 8 m backup_addr; HOk (set_freg rd v ctx, m)
  else HExit 1.

Definition emulate_store_instruction (ctx : ucontext) (m : memory) (funct3 rs2 backup_addr : Z)
  : hres (ucontext * memory) :=
  if funct3 =? SB_FUNCT3 then
    m' ← assign 1 m backup_addr (if rs2 =? 0 then 0 else sext 8 (gregs ctx rs2)); HOk (ctx, m')
  else if funct3 =? SH_FUNCT3 then
    m' ← assign 2 m backup_addr (if rs2 =? 0 then 0 else sext 16 (gregs ctx rs2)); HOk (ctx, m')
  else if funct3 =? SW_FUNCT3 then
    m' ← assign 4 m backup_addr (if rs2 =? 0 then 0 else sext 32 (gregs ctx rs2)); HOk (ctx, m')
  else if funct3 =? SD_FUNCT3 then
    m' ← assign 8 m backup_addr (if rs2 =? 0 then 0 else sext 64 (gregs ctx rs2)); HOk (ctx, m')
  else HExit 1.

Definition emulate_fstore_instruction (ctx : ucontext) (m : memory) (funct3 rs2 backup_addr : Z)
  : hres (ucontext * memory) :=
  if funct3 =? FSW_FUNCT3 then
    m' ← assign 4 m backup_addr (u32 (fpregs ctx rs2)); HOk (ctx, m')
  else if funct3 =? FSD_FUNCT3 then
    m' ← assign 8 m backup_addr (u64 (fpregs ctx rs2)); HOk (ctx, m')
  else HExit 1.

Definition emulate_c_load_store_instruction (ctx : ucontext) (m : memory)
  (funct3 reg backup_addr : Z) : hres (ucontext * memory) :=
  if funct3 =? C_FLD_FUNCT3 then
    v ← deref 8 m backup_addr; HOk (set_freg reg v ctx, m)
  else if funct3 =? C_LW_FUNCT3 then
    v ← deref 4 m backup_addr; HOk (set_greg reg (u64 (sext 32 v)) ctx, m)
  else if funct3 =? C_LD_FUNCT3 then
    v ← deref 8 m backup_addr; HOk (set_greg reg (u64 (sext 64 v)) ctx, m)
  else if funct3 =? C_FSD_FUNCT3 then
    m' ← assign 8 m backup_addr (fpregs ctx reg); HOk (ctx, m')
  else if funct3 =? C_SW_FUNCT3 then
    m' ← assign 4 m backup_addr (sext 32 (gregs ctx reg)); HOk (ctx, m')
  else if funct3 =? C_SD_FUNCT3 then
    m' ← assign 8 m backup_addr (sext 64 (gregs ctx reg)); HOk (ctx, m')
  else HExit 1.

Definition emulate_sp_rel_c_load_store_instruction (ctx : ucontext) (m : memory)
  (funct3 rd rs2 backup_addr : Z) : hres (ucontext * memory) :=
  if funct3 =? C_FLDSP_FUNCT3 then
    v ← deref 8 m backup_addr; HOk (set_freg rd v ctx, m)
  else if funct3 =? C_LWSP_FUNCT3 then
    if negb (rd =? 0) then
      v ← deref 4 m backup_addr; HOk (set_greg rd (u64 (sext 32 v)) ctx, m)
    else HOk (ctx, m)
  else if funct3 =? C_LDSP_FUNCT3 then
    if negb (rd =? 0) then
      v ← deref 8 m backup_addr; HOk (set_greg rd (u64 (sext 64 v)) ctx, m)
    else HOk (ctx, m)
  else if funct3 =? C_FSDSP_FUNCT3 then
    m' ← assign 8 m backup_addr (fpregs ctx rs2); HOk (ctx, m')
  else if funct3 =? C_SWSP_FUNCT3 then
    m' ← assign 4 m backup_addr (if rs2 =? 0 then 0 else sext 32 (gregs ctx rs2)); HOk (ctx, m')
  else if funct3 =? C_SDSP_FUNCT3 then
    m' ← assign 8 m backup_addr (if rs2 =? 0 then 0 else sext 64 (gregs ctx rs2)); HOk (ctx, m')
  else HExit 1.

(** ** The handler *)

(** The bounds of the execute-only region, both included. *)
Definition xom_start (g : globals) : Z := ret_sequence_page_addr (rsi g).
Definition xom_end (g : globals) : Z := u64 (u64 (xom_start g + protection_size (rsi g)) - 1).

(** Where an access at [fault_addr] of the region is redirected. *)
Definition backup_of (g : globals) (fault_addr : Z) : Z :=
  start_addr_page (rsi g) ⊞ (fault_addr ⊟ xom_start g).

(** The body of the branch for 32-bit instructions. *)
Definition emulate_32bit (ctx : ucontext) (m : memory) (instr backup_addr : Z)
  : hres (ucontext * memory) :=
  let opcode := get_field instr 0 7 in
  let funct3 := get_field instr 12 3 in
  if opcode =? LOAD_OPCODE then
    emulate_load_instruction ctx m funct3 (get_field instr 7 5) backup_addr
  else if opcode =? FLOAD_OPCODE then
    emulate_fload_instruction ctx m funct3 (get_field instr 7 5) backup_addr
  else if opcode =? STORE_OPCODE then
    emulate_store_instruction ctx m funct3 (get_field instr 20 5) backup_addr
  else if opcode =? FSTORE_OPCODE then
    emulate_fstore_instruction ctx m funct3 (get_field instr 20 5) backup_addr
  else HExit 1.

(** The body of the branch for 16-bit instructions. *)
Definition emulate_16bit (ctx : ucontext) (m : memory) (c_instr backup_addr : Z)
  : hres (ucontext * memory) :=
  let opcode := get_field c_instr 0 2 in
  let funct3 := get_field c_instr 13 3 in
  if opcode =? C0_OPCODE then
    let rvc_reg_idx := get_field c_instr 2 3 in
    let reg := nth (Z.to_nat rvc_reg_idx) rvc_reg_map 0 in
    emulate_c_load_store_instruction ctx m funct3 reg backup_addr
  else if opcode =? C2_OPCODE then
    emulate_sp_rel_c_load_store_instruction ctx m funct3
      (get_field c_instr 7 5) (get_field c_instr 2 5) backup_addr
  else HExit 1.

Definition segfault_handler (g : globals) (sig fault_addr : Z) (ctx : ucontext) (m : memory)
  : hres (ucontext * memory) :=
  if (fault_addr <? xom_start g) || (xom_end g <? fault_addr) then HRaised sig
  else
    let backup_addr := backup_of g fault_addr in
    let pc := gregs ctx REG_PC in
    c_instr ← deref 2 m pc;
    let is_32bit := Z.land c_instr 0x3 =? 0x3 in
    '(ctx', m') ← (if is_32bit then
                     instr ← deref 4 m pc; emulate_32bit ctx m instr backup_addr
                   else emulate_16bit ctx m c_instr backup_addr);
    let pc_step := if is_32bit then 4 else 2 in
    HOk (set_greg REG_PC (gregs ctx' REG_PC ⊞ pc_step) ctx', m').

(** ** Installing it *)

Definition SA_SIGINFO : Z := 4.
Definition SA_NODEFER : Z := 0x40000000.

(** What the process does on a signal. *)
Inductive disposition := SIG_DFL | SIG_SEGFAULT_HANDLER (flags : Z).

(** [sigaction_ok] is whether the [sigaction] call succeeds. *)
Definition init_trap_handler (sigaction_ok : bool) (d : Z -> disposition)
  : res (Z -> disposition) :=
  if sigaction_ok then
    Ok (fun s => if s =? SIGSEGV then SIG_SEGFAULT_HANDLER (Z.lor SA_SIGINFO SA_NODEFER) else d s)
  else Exited 1.

(** ** Delivery of SIGSEGV *)

(** The context the kernel saves for a fault of [s], and the machine it resumes. *)
Definition sigframe (s : machine) : ucontext :=
  Uctx (fun r => if r =? 0 then pc s else xr s r) (fr s).
Definition sigreturn (s : machine) (c : ucontext) (m : memory) : machine :=
  Mach (gregs c 0) (fun r => if r =? 0 then 0 else gregs c r) (fpregs c) m (trace s).

(** SIGSEGV is not blocked in the handler (SA_NODEFER), so a fault of the handler
    itself re-enters it: outside the region the second activation re-raises the
    signal and the process is killed; [None] stands for a second fault inside the
    region, whose outcome is left open. *)
Definition deliver (g : globals) (d : disposition) (s : machine) (fault_addr : Z)
  : option (res machine) :=
  match d with
  | SIG_DFL => Some (Killed SIGSEGV)
  | SIG_SEGFAULT_HANDLER _ =>
    match segfault_handler g SIGSEGV fault_addr (sigframe s) (mem s) with
    | HOk (c, m) => Some (Ok (sigreturn s c m))
    | HExit code => Some (Exited code)
    | HRaised sig => Some (Killed sig)
    | HFault a => if (a <? xom_start g) || (xom_end g <? a) then Some (Killed SIGSEGV) else None
    end
  end.

(** ** Machines up to the unused x0 slot *)

Definition meq (s s' : machine) : Prop :=
  pc s = pc s' /\ (forall r, r <> 0 -> xr s r = xr s' r) /\ (forall r, fr s r = fr s' r) /\
  mem s = mem s' /\ trace s = trace s'.
#[export] Instance machine_equiv : Equiv machine := meq.
#[export] Instance meq_equivalence : Equivalence (≡@{machine}).
Proof.
  split.
  - intros s. by repeat split.
  - intros s s' (? & X & F & ? & ?). repeat split; try done; intros; symmetry; auto.
  - intros s s' s'' (? & X & F & ? & ?) (? & X' & F' & ? & ?). unfold equiv, machine_equiv, meq.
    split_and!; [congruence | intros; by rewrite X, X' | intros; by rewrite F | congruence..].
Qed.

#[export] Instance getx_proper : Proper ((≡@{machine}) ==> (=) ==> (=)) getx.
Proof. intros s s' (_ & X & _) r _ <-. unfold getx. case_bools; [done|]. by apply X. Qed.

#[export] Instance eff_addr_proper i : Proper ((≡@{machine}) ==> (=)) (eff_addr i).
Proof. intros s s' H. unfold eff_addr. destruct (base_imm i). by rewrite H. Qed.

(** ** Fields and casts *)

Lemma get_field_slice i s l : 0 <= s -> 0 <= l <= 8 -> get_field i s l = slice i s l.
Proof.
  intros Hs Hl. unfold get_field, slice.
  replace (Z.shiftl 1 l - 1) with (Z.ones l) by (unfold Z.ones; lia).
  rewrite Z.land_ones by lia. apply Z.mod_small.
  pose proof (Z.mod_pos_bound (Z.shiftr i s) (2 ^ l) ltac:(apply Z.pow_pos_nonneg; lia)).
  assert (2 ^ l <= 2 ^ 8) by (apply Z.pow_le_mono_r; lia). lia.
Qed.

Lemma rvc_reg h : nth (Z.to_nat (slice h 2 3)) rvc_reg_map 0 = 8 + slice h 2 3.
Proof.
  pose proof (slice_range h 2 3 ltac:(lia)) as R. change (2 ^ 3) with 8 in R.
  revert R. generalize (slice h 2 3). intros z R.
  assert (z = 0 \/ z = 1 \/ z = 2 \/ z = 3 \/ z = 4 \/ z = 5 \/ z = 6 \/ z = 7) as I by lia.
  by repeat destruct I as [->|I]; [..|subst z].
Qed.

Lemma byte_of_Z_wrap v v' : u8 v = u8 v' -> byte_of_Z v = byte_of_Z v'.
Proof. unfold byte_of_Z. by intros ->. Qed.

(** A store keeps the low bytes only. *)
Lemma mwrite_wrap n : forall m a v v',
  wrap (8 * Z.of_nat n) v = wrap (8 * Z.of_nat n) v' -> mwrite n m a v = mwrite n m a v'.
Proof.
  induction n; intros m a v v' H; [done|]. cbn [mwrite]. unfold wrap in H.
  replace (8 * Z.of_nat (S n)) with (8 + 8 * Z.of_nat n) in H by lia.
  rewrite !mod_split_byte in H by lia. change 256 with (2 ^ 8) in H.
  pose proof (Z.mod_pos_bound v (2 ^ 8) ltac:(lia)). pose proof (Z.mod_pos_bound v' (2 ^ 8) ltac:(lia)).
  rewrite (byte_of_Z_wrap v v') by (unfold u8, wrap; lia). apply IHn. unfold wrap. lia.
Qed.

Lemma assign_cast n m a v v' :
  wrap (8 * Z.of_nat n) v = wrap (8 * Z.of_nat n) v' -> assign n m a v = assign n m a v'.
Proof. intros H. unfold assign, mstore. by rewrite (mwrite_wrap n m a v v' H). Qed.

Lemma assign_sext n m a v : (0 < n)%nat ->
  assign n m a (sext (8 * Z.of_nat n) v) = assign n m a v.
Proof. intros. apply assign_cast, sext_wrap. lia. Qed.

Lemma assign_wrap n m a v : assign n m a (wrap (8 * Z.of_nat n) v) = assign n m a v.
Proof. apply assign_cast. unfold wrap. apply Z.mod_mod, Z.pow_nonzero; lia. Qed.

Lemma assign_u32 m a v : assign 4 m a (u32 v) = assign 4 m a v.
Proof. exact (assign_wrap 4 m a v). Qed.

Lemma assign_u64 m a v : assign 8 m a (u64 v) = assign 8 m a v.
Proof. exact (assign_wrap 8 m a v). Qed.

(** ** Emulating a decoded instruction

    [emulate i] is the reference the handler's switch statements are compared
    with: the effect of [i] on the saved context when its datum is at
    [backup_addr]. *)
Definition emulate (i : minstr) (ctx : ucontext) (m : memory) (backup_addr : Z)
  : hres (ucontext * memory) :=
  let reg r := if r =? 0 then 0 else gregs ctx r in
  match i with
  | ILoad w sg rd _ _ =>
    if rd =? 0 then HOk (ctx, m)
    else v ← deref (nbytes w) m backup_addr; HOk (set_greg rd (extend w sg v) ctx, m)
  | IFLoad w rd _ _ =>
    v ← deref (nbytes w) m backup_addr; HOk (set_freg rd (nan_box w v) ctx, m)
  | IStore w rs2 _ _ =>
    m' ← assign (nbytes w) m backup_addr (reg rs2); HOk (ctx, m')
  | IFStore w rs2 _ _ =>
    m' ← assign (nbytes w) m backup_addr (fpregs ctx rs2); HOk (ctx, m')
  end.

Lemma assign_reg n m a (r v : Z) : (0 < n)%nat ->
  assign n m a (if r =? 0 then 0 else sext (8 * Z.of_nat n) v) =
  assign n m a (if r =? 0 then 0 else v).
Proof. intros. case_bools; [done|]. by apply assign_sext. Qed.

Lemma decode32_mem w i : decode32 w = Some (IMem i) ->
  decode_mem (slice w 0 7) (slice w 12 3) (slice w 7 5) (slice w 15 5) (slice w 20 5)
    (imm_I w) (imm_S w) = Some i.
Proof.
  unfold decode32. generalize (slice w 0 7). intros op H.
  assert (forall o, IMem <$> o = Some (IMem i) -> o = Some i) as Inj
    by (intros [j|]; [by intros [= ->] | discriminate]).
  destruct op as [|p|]; try discriminate H.
  repeat (destruct p as [p|p|]; try discriminate H); try (apply Inj, H);
    repeat match type of H with
    | context [match ?x with _ => _ end] => destruct x; try discriminate H
    end.
Qed.

(** The 32-bit loads and stores. *)
Lemma emulate_32bit_spec ctx m w i ba :
  decode32 w = Some (IMem i) -> emulate_32bit ctx m w ba = emulate i ctx m ba.
Proof.
  intros D%decode32_mem. unfold emulate_32bit. rewrite !get_field_slice by lia.
  revert D. generalize (slice w 0 7) (slice w 12 3). intros op f3 D.
  unfold decode_mem in D.
  repeat case_match; simplify_eq; unfold emulate_load_instruction, emulate_fload_instruction,
    emulate_store_instruction, emulate_fstore_instruction, emulate; cbn [nbytes];
    cbn -[assign deref set_greg set_freg extend u32 u64 sext]; try reflexivity.
  all: try (by rewrite ?(assign_reg 1), ?(assign_reg 2), ?(assign_reg 4), ?(assign_reg 8) by lia).
  all: by rewrite ?assign_u32, ?assign_u64.
Qed.

(** The compressed loads and stores; the registers of the three-bit forms are
    x8-x15. *)
Lemma emulate_16bit_spec ctx m h i ba :
  decode16 h = Some i -> emulate_16bit ctx m h ba = emulate i ctx m ba.
Proof.
  unfold decode16, emulate_16bit. rewrite !get_field_slice, rvc_reg by lia.
  pose proof (slice_range h 2 3 ltac:(lia)) as R3. revert R3.
  generalize (slice h 0 2) (slice h 13 3) (slice h 2 3) (slice h 7 5) (slice h 2 5).
  intros op f3 r rd rs2 R3 D.
  assert ((8 + r =? 0) = false) as R0 by (apply Z.eqb_neq; lia).
  repeat case_match; simplify_eq; unfold emulate_c_load_store_instruction,
    emulate_sp_rel_c_load_store_instruction, emulate; cbn [nbytes];
    cbn -[assign deref set_greg set_freg extend u32 u64 sext Z.add]; rewrite ?R0; try reflexivity.
  all: try (by rewrite ?(assign_reg 4), ?(assign_reg 8), ?(assign_sext 4), ?(assign_sext 8) by lia).
  all: try (by destruct (rd =? 0)).
Qed.

Ltac solve_context :=
  repeat split; intros; cbn -[Z.eqb]; unfold REG_PC; case_bools; first [lia | done | congruence].

(** The emulation is the instruction, executed at [ba]. *)
Lemma emulate_exec i len s s' ba : exec_mem_at ba i len s = Next s' ->
  exists c m, emulate i (sigframe s) (mem s) ba = HOk (c, m) /\
    sigreturn s (set_greg REG_PC (gregs c REG_PC ⊞ len) c) m ≡ s'.
Proof.
  unfold exec_mem_at, emulate, deref, assign. destruct i as [w sg rd ? ?|w rs2 ? ?|w rd ? ?|w rs2 ? ?].
  - destruct (mload _ _ _) as [v|]; [|discriminate]. intros [= <-]. cbn [mbind hres_bind].
    destruct (Z.eqb_spec rd 0) as [->|Hr]; eexists _, _; (split; [reflexivity|]).
    + by solve_context.
    + unfold setx. rewrite (proj2 (Z.eqb_neq rd 0) Hr).
      by solve_context.
  - cbn [gregs sigframe]. unfold getx.
    destruct (mstore _ _ _ _) as [m'|] eqn:E; [|discriminate]. intros [= <-].
    assert (mstore (nbytes w) (mem s) ba
      (if rs2 =? 0 then 0 else if rs2 =? 0 then pc s else xr s rs2) = Some m') as ->
      by (rewrite <- E; f_equal; by case_bools).
    eexists _, _. split; [reflexivity|]. by solve_context.
  - destruct (mload _ _ _) as [v|]; [|discriminate]. intros [= <-]. cbn [mbind hres_bind].
    eexists _, _. split; [reflexivity|]. by solve_context.
  - cbn [fpregs sigframe]. destruct (mstore _ _ _ _) as [m'|] eqn:E; [|discriminate].
    intros [= <-]. cbn [mbind hres_bind].
    eexists _, _. split; [reflexivity|]. by solve_context.
Qed.

(** A refused access, unless it is a load to x0, which the handler skips. *)
Lemma emulate_fault i len s ba : (forall w sg rs1 imm, i <> ILoad w sg 0 rs1 imm) ->
  exec_mem_at ba i len s = Fault ba -> emulate i (sigframe s) (mem s) ba = HFault ba.
Proof.
  unfold exec_mem_at, emulate, deref, assign. destruct i as [w sg rd ? ?|w rs2 ? ?|w rd ? ?|w rs2 ? ?].
  - intros N. destruct (mload _ _ _); [discriminate|].
    destruct (Z.eqb_spec rd 0) as [->|]; [by edestruct N | done].
  - intros _. unfold mstore. by destruct (range_prot _ _ _ _).
  - intros _. by destruct (mload _ _ _).
  - intros _. unfold mstore. by destruct (range_prot _ _ _ _).
Qed.

(** ** The handler on a supported instruction *)

Definition in_xom (g : globals) (a : Z) : Prop := xom_start g <= a <= xom_end g.
#[export] Instance in_xom_dec g a : Decision (in_xom g a).
Proof. unfold in_xom. apply _. Defined.

Lemma in_xom_test g a :
  (a <? xom_start g) || (xom_end g <? a) = negb (bool_decide (in_xom g a)).
Proof. unfold in_xom. case_bool_decide; case_bools; lia || done. Qed.

(** The instruction at [pc s] is the memory access [i] of [len] bytes, and the
    handler can read it. *)
Definition at_access (s : machine) (i : minstr) (len : Z) : Prop :=
  fetch_decode (mem s) (pc s) = Some (Some (IMem i), len) /\
  range_prot PROT_READ (Z.to_nat len) (mem s) (pc s) = true.

Lemma range_prot_le flag n k m a : (k <= n)%nat ->
  range_prot flag n m a = true -> range_prot flag k m a = true.
Proof. rewrite !range_prot_spec. intros L H x Hx. apply H. lia. Qed.

Lemma fetch_decode_inv m a i len : fetch_decode m a = Some (Some (IMem i), len) ->
  (len = 4 /\ Z.land (mread 2 m a) 3 = 3 /\ decode32 (mread 4 m a) = Some (IMem i)) \/
  (len = 2 /\ Z.land (mread 2 m a) 3 <> 3 /\ decode16 (mread 2 m a) = Some i).
Proof.
  unfold fetch_decode, mfetch. destruct (range_prot _ 2 _ _); [|discriminate].
  destruct (Z.eqb_spec (Z.land (mread 2 m a) 3) 3).
  - destruct (range_prot _ 4 _ _); [|discriminate]. intros [= ? <-]. auto.
  - intros [= H <-]. right. destruct (decode16 _); simplify_eq/=. auto.
Qed.

Lemma segfault_handler_access g sig a s i len :
  in_xom g a -> at_access s i len ->
  segfault_handler g sig a (sigframe s) (mem s) =
    ('(c, m) ← emulate i (sigframe s) (mem s) (backup_of g a);
     HOk (set_greg REG_PC (gregs c REG_PC ⊞ len) c, m)).
Proof.
  intros X [F RD]. unfold segfault_handler. rewrite in_xom_test, bool_decide_true by done.
  cbn [negb]. change (gregs (sigframe s) REG_PC) with (pc s). unfold deref, mload.
  apply fetch_decode_inv in F as [(-> & E & D)|(-> & E & D)].
  - rewrite (range_prot_le _ 4 2 _ _ ltac:(lia) RD). cbn [mbind hres_bind].
    rewrite E. change (range_prot PROT_READ (Z.to_nat 4)) with (range_prot PROT_READ 4) in RD.
    rewrite RD. cbn [Z.eqb Pos.eqb mbind hres_bind]. by rewrite (emulate_32bit_spec _ _ _ i).
  - change (range_prot PROT_READ (Z.to_nat 2)) with (range_prot PROT_READ 2) in RD.
    rewrite RD. cbn [mbind hres_bind]. apply Z.eqb_neq in E. rewrite E.
    by rewrite (emulate_16bit_spec _ _ _ i).
Qed.

(** ** The handler on any other instruction *)

(** The encodings with destination x0, which the handler skips whatever the
    rest of the instruction says. *)
Definition skipped_32bit (w : Z) : Prop := slice w 0 7 = LOAD_OPCODE /\ slice w 7 5 = 0.
Definition skipped_16bit (h : Z) : Prop :=
  slice h 0 2 = C2_OPCODE /\ (slice h 13 3 = C_LWSP_FUNCT3 \/ slice h 13 3 = C_LDSP_FUNCT3) /\
  slice h 7 5 = 0.

Ltac switch_cases D :=
  repeat match goal with
  | |- context [Z.eqb ?x ?k] =>
      destruct (Z.eqb_spec x k); [subst x; try (by exfalso; eapply D; reflexivity)|]
  end.

Lemma emulate_32bit_other ctx m w ba :
  (forall i, decode32 w <> Some (IMem i)) -> ~ skipped_32bit w ->
  emulate_32bit ctx m w ba = HExit 1.
Proof.
  intros D N. unfold emulate_32bit. rewrite !get_field_slice by lia.
  unfold skipped_32bit in N. unfold decode32 in D. revert D N.
  generalize (slice w 0 7) (slice w 12 3). intros op f3 D N.
  unfold emulate_load_instruction, emulate_fload_instruction, emulate_store_instruction,
    emulate_fstore_instruction, LOAD_OPCODE, FLOAD_OPCODE, STORE_OPCODE, FSTORE_OPCODE, LB_FUNCT3,
    LH_FUNCT3, LW_FUNCT3, LD_FUNCT3, LBU_FUNCT3, LHU_FUNCT3, LWU_FUNCT3, FLW_FUNCT3, FLD_FUNCT3,
    SB_FUNCT3, SH_FUNCT3, SW_FUNCT3, SD_FUNCT3, FSW_FUNCT3, FSD_FUNCT3 in *.
  destruct (Z.eqb_spec op 3) as [->|].
  { destruct (Z.eqb_spec (slice w 7 5) 0); [by exfalso; apply N|]. switch_cases D. done. }
  destruct (Z.eqb_spec op 7) as [->|]; [switch_cases D; done|].
  destruct (Z.eqb_spec op 35) as [->|]; [switch_cases D; done|].
  destruct (Z.eqb_spec op 39) as [->|]; [switch_cases D; done|]. done.
Qed.

Lemma emulate_16bit_other ctx m h ba :
  decode16 h = None -> ~ skipped_16bit h -> emulate_16bit ctx m h ba = HExit 1.
Proof.
  intros D N. unfold emulate_16bit. rewrite !get_field_slice by lia.
  unfold skipped_16bit in N. unfold decode16 in D. revert D N.
  generalize (slice h 0 2) (slice h 13 3) (slice h 7 5). intros op f3 rd D N.
  unfold emulate_c_load_store_instruction, emulate_sp_rel_c_load_store_instruction,
    C0_OPCODE, C2_OPCODE, C_FLD_FUNCT3, C_LW_FUNCT3, C_LD_FUNCT3, C_FSD_FUNCT3, C_SW_FUNCT3,
    C_SD_FUNCT3, C_FLDSP_FUNCT3, C_LWSP_FUNCT3, C_LDSP_FUNCT3, C_FSDSP_FUNCT3, C_SWSP_FUNCT3,
    C_SDSP_FUNCT3 in *.
  destruct (Z.eqb_spec op 0) as [->|].
  { repeat match goal with |- context [Z.eqb f3 ?k] =>
      destruct (Z.eqb_spec f3 k); [subst f3; discriminate D|] end. done. }
  destruct (Z.eqb_spec op 2) as [->|]; [|done].
  destruct (Z.eqb_spec rd 0) as [->|Hr].
  - repeat match goal with |- context [Z.eqb f3 ?k] =>
      destruct (Z.eqb_spec f3 k); [subst f3; first [discriminate D | exfalso; by auto]|] end. done.
  - apply Z.eqb_neq in Hr.
    repeat match goal with |- context [Z.eqb f3 ?k] =>
      destruct (Z.eqb_spec f3 k); [subst f3; first [discriminate D | by rewrite Hr in D]|] end. done.
Qed.

(** The instruction at [pc s] is readable and is neither a load or store of the
    I, F, D and C extensions nor an encoding with destination x0. *)
Definition at_unsupported (s : machine) : Prop :=
  let h := mread 2 (mem s) (pc s) in
  let w := mread 4 (mem s) (pc s) in
  if decide (Z.land h 3 = 3)
  then range_prot PROT_READ 4 (mem s) (pc s) = true /\
       (forall i, decode32 w <> Some (IMem i)) /\ ~ skipped_32bit w
  else range_prot PROT_READ 2 (mem s) (pc s) = true /\ decode16 h = None /\ ~ skipped_16bit h.

Lemma segfault_handler_other g sig a s :
  in_xom g a -> at_unsupported s -> segfault_handler g sig a (sigframe s) (mem s) = HExit 1.
Proof.
  intros X U. unfold segfault_handler. rewrite in_xom_test, bool_decide_true by done.
  cbn [negb]. change (gregs (sigframe s) REG_PC) with (pc s). unfold deref, mload.
  unfold at_unsupported in U. case_decide as E; destruct U as (RD & U).
  - rewrite (range_prot_le _ 4 2 _ _ ltac:(lia) RD). cbn [mbind hres_bind]. rewrite E, RD.
    cbn [Z.eqb Pos.eqb mbind hres_bind]. destruct U. by rewrite emulate_32bit_other.
  - rewrite RD. cbn [mbind hres_bind]. apply Z.eqb_neq in E. rewrite E.
    destruct U. by rewrite emulate_16bit_other.
Qed.

(** ** Accesses through the global pointer *)

(** [i] neither loads nor stores the integer register gp. *)
Definition spares_gp (i : minstr) : bool :=
  match i with
  | ILoad _ _ r _ _ | IStore _ r _ _ => negb (r =? gp)
  | _ => true
  end.

(** An access at a given address does not depend on gp. *)
Lemma exec_mem_at_gp ba i len v s s' : spares_gp i = true ->
  exec_mem_at ba i len (setx gp v s) = Next s' ->
  exists s1, exec_mem_at ba i len s = Next s1 /\ s1 ≡ setx gp (xr s gp) s'.
Proof.
  unfold exec_mem_at, spares_gp. destruct i as [w sg rd ? ?|w rs2 ? ?|w rd ? ?|w rs2 ? ?];
    intros N; cbn [mem setx gp Z.eqb Pos.eqb fr].
  - destruct (mload _ _ _) as [x|]; [|discriminate]. intros [= <-]. eexists. split; [done|].
    unfold setx. destruct (Z.eqb_spec rd 0) as [->|]; by solve_context.
  - assert (getx (setx gp v s) rs2 = getx s rs2) as E.
    { unfold getx. cbn [xr setx gp Z.eqb Pos.eqb upd]. change gp with 3 in *. destruct (rs2 =? 3); [discriminate|done]. }
    cbn [setx gp Z.eqb Pos.eqb] in E. rewrite E.
    destruct (mstore _ _ _ _) as [x|]; [|discriminate]. intros [= <-]. eexists. split; [done|].
    by solve_context.
  - destruct (mload _ _ _) as [x|]; [|discriminate]. intros [= <-]. eexists. split; [done|].
    by solve_context.
  - destruct (mstore _ _ _ _) as [x|]; [|discriminate]. intros [= <-]. eexists. split; [done|].
    by solve_context.
Qed.

(** A memory access that starts at an address without its permission faults. *)
Lemma exec_mem_at_fault ba i len s :
  m_prot (mem s) ba = Some PROT_EXEC \/ m_prot (mem s) ba = None ->
  exec_mem_at ba i len s = Fault ba.
Proof.
  intros P. unfold exec_mem_at, mload, mstore.
  assert (forall n, range_prot PROT_READ (S n) (mem s) ba = false) as R
    by (intros; cbn [range_prot]; unfold has_prot; by destruct P as [-> | ->]).
  assert (forall n, range_prot PROT_WRITE (S n) (mem s) ba = false) as W
    by (intros; cbn [range_prot]; unfold has_prot; by destruct P as [-> | ->]).
  destruct i as [w|w|w|w], w; cbn [nbytes]; by rewrite ?R, ?W.
Qed.

Lemma u64_add_inj a b k : is_u64 a -> is_u64 b -> a ⊞ k = b ⊞ k -> a = b.
Proof. unfold is_u64, u64, wrap. intros Ha Hb. Z.div_mod_to_equations. lia. Qed.

Section Redirect.
Context {O : Os} {L : OsLaws O}.

Lemma xom_bounds g m g' m' :
  gp_sane (virtual_global_pointer g) -> layout g m = Ok (g', m') ->
  xom_end g' = xom_start g' + protection_size (rsi g') - 1 /\
  0 <= xom_start g' /\ xom_end g' < 2 ^ 63 /\
  os_pagesize <= protection_size (rsi g') <= 2 * os_pagesize /\
  relocated_gp (rsi g') = xom_start g' + virtual_global_pointer g mod os_pagesize.
Proof.
  intros S H. pose proof (layout_spec _ _ _ _ S H)
    as (EP & EV & A & B0 & B1 & EZ & EO & ER & _). pose proof pagesize_bounds.
  assert (os_pagesize <= protection_size (rsi g') <= 2 * os_pagesize)
    by (rewrite EZ; case_bools; lia).
  unfold xom_end, xom_start. rewrite ER.
  rewrite (u64_small (_ + _)), u64_small by u64_lia. split_and!; lia.
Qed.

(** The page the handler redirects to, relative to the original gp. *)
Lemma start_addr_page_cases g m g' m' :
  gp_sane (virtual_global_pointer g) -> layout g m = Ok (g', m') ->
  let off := virtual_global_pointer g mod os_pagesize in
  0 <= start_addr_page (rsi g') /\
  start_addr_page (rsi g') = virtual_global_pointer g - off
    - (if off <? RET_SEQUENCE_SIZE then os_pagesize else 0).
Proof.
  intros S H off. pose proof (layout_spec _ _ _ _ S H)
    as (_ & _ & _ & _ & _ & _ & _ & _ & _ & _ & _ & _ & E & _).
  rewrite E, start_addr_page_define by done. pose proof pagesize_bounds.
  unfold RET_SEQUENCE_SIZE, gp_sane in *. split.
  - pose proof (Z.mod_le (virtual_global_pointer g - 56) os_pagesize). lia.
  - rewrite mod_below by lia. fold off. case_bools; lia.
Qed.

Lemma backup_of_gp g m g' m' k :
  gp_sane (virtual_global_pointer g) -> layout g m = Ok (g', m') ->
  RET_SEQUENCE_SIZE <= gp_offset (rsi g') ->
  backup_of g' (relocated_gp (rsi g') ⊞ k) = virtual_global_pointer g' ⊞ k.
Proof.
  intros S H F. pose proof (start_addr_page_cases _ _ _ _ S H) as [E5 E].
  pose proof (xom_bounds _ _ _ _ S H) as (_ & _ & _ & _ & R).
  pose proof (layout_spec _ _ _ _ S H) as (_ & EV & _ & _ & _ & _ & EO & _).
  rewrite EO in F. destruct (Z.ltb_spec (virtual_global_pointer g mod os_pagesize)
    RET_SEQUENCE_SIZE); [lia|]. unfold backup_of. rewrite E, EV, R.
  autorewrite with vp_word. f_equal. lia.
Qed.
End Redirect.

(** ** Properties *)

Section Properties.
Context {O : Os} {L : OsLaws O} {K : Kernel} {R : Routines}.

Lemma deliver_access g f s a i len s' :
  in_xom g a -> at_access s i len -> exec_mem_at (backup_of g a) i len s = Next s' ->
  exists s1, deliver g (SIG_SEGFAULT_HANDLER f) s a = Some (Ok s1) /\ s1 ≡ s'.
Proof.
  intros X A E. unfold deliver. rewrite (segfault_handler_access _ _ _ _ _ _ X A).
  destruct (emulate_exec _ _ _ _ _ E) as (c & m & -> & Q). cbn [mbind hres_bind]. eauto.
Qed.

(** C11: The handler implements the instruction set: for every load and store
    of the I, F, D and C extensions that faults in the execute-only region, it
    resumes in the state the instruction itself would give at the redirected
    address, past the instruction. *)
Theorem handler_performs_access g f s a i len s' :
  in_xom g a -> at_access s i len -> exec_mem_at (backup_of g a) i len s = Next s' ->
  exists s1, deliver g (SIG_SEGFAULT_HANDLER f) s a = Some (Ok s1) /\ s1 ≡ s'.
Proof. apply deliver_access. Qed.

(** C10: When at least 56 bytes of its page are below the global pointer, an
    access through the relocated one that falls in the execute-only region faults,
    and after the handler the process is in the state the unpatched program, whose
    gp is the original one, would be in, but for gp itself. *)
Theorem gp_access_transparent g m g' m' f s i imm len s0' :
  gp_sane (virtual_global_pointer g) -> layout g m = Ok (g', m') ->
  RET_SEQUENCE_SIZE <= gp_offset (rsi g') ->
  xr s gp = relocated_gp (rsi g') -> routine_at (pc s) = None ->
  at_access s i len -> base_imm i = (gp, imm) -> spares_gp i = true ->
  in_xom g' (eff_addr i s) -> m_prot (mem s) (eff_addr i s) = Some PROT_EXEC ->
  exec (IMem i) len (setx gp (virtual_global_pointer g') s) = Next s0' ->
  step s = Fault (eff_addr i s) /\
  exists s1, deliver g' (SIG_SEGFAULT_HANDLER f) s (eff_addr i s) = Some (Ok s1) /\
    s1 ≡ setx gp (relocated_gp (rsi g')) s0'.
Proof.
  intros S H F G N A B SG X P E. split.
  { unfold step. rewrite N, (proj1 A). cbn [exec]. apply exec_mem_at_fault; auto. }
  cbn [exec] in E. unfold eff_addr in E at 1. rewrite B in E.
  replace (getx (setx gp (virtual_global_pointer g') s) gp) with (virtual_global_pointer g') in E
    by done.
  apply exec_mem_at_gp in E as (s1 & E & Q); [|done].
  rewrite <- (backup_of_gp _ _ _ _ imm S H F) in E.
  assert (eff_addr i s = relocated_gp (rsi g') ⊞ imm) as EA
    by (unfold eff_addr; rewrite B, <- G; done).
  rewrite <- EA in E. destruct (deliver_access g' f s _ i len s1 X A E) as (s2 & D & Q2).
  exists s2. split; [done|]. rewrite Q2, Q. by rewrite G.
Qed.

(** C22: The handler redirects the addresses of the execute-only region to the
    bytes at the same distance from the original global pointer exactly when at
    least 56 bytes of the page lie below it. *)
Theorem backup_mirrors_iff g m g' m' a :
  gp_sane (virtual_global_pointer g) -> layout g m = Ok (g', m') -> in_xom g' a ->
  backup_of g' a = virtual_global_pointer g' + (a - relocated_gp (rsi g')) <->
  RET_SEQUENCE_SIZE <= gp_offset (rsi g').
Proof.
  intros S H X. pose proof (start_addr_page_cases _ _ _ _ S H) as [E5 E].
  pose proof (xom_bounds _ _ _ _ S H) as (E1 & E2 & E3 & E4 & ->).
  pose proof (layout_spec _ _ _ _ S H) as (_ & EV & _ & _ & _ & _ & EO & _).
  pose proof pagesize_bounds. unfold in_xom, gp_sane in *. unfold backup_of.
  set (off := _ mod _) in *.
  rewrite (u64_small (a - _)) by u64_lia.
  assert (0 <= off) by (apply Z.mod_pos_bound; lia).
  rewrite EV, EO. rewrite u64_small by (unfold is_u64; revert E; case_bools; lia).
  rewrite E. unfold RET_SEQUENCE_SIZE. case_bools; lia.
Qed.

(** All addresses a 12-bit offset reaches from the relocated global pointer
    are in the execute-only region exactly when the global pointer is 2048 bytes
    away from both ends of its page. *)
Theorem gp_window_in_xom_iff g m g' m' :
  gp_sane (virtual_global_pointer g) -> layout g m = Ok (g', m') ->
  (forall k, -2048 <= k < 2048 -> in_xom g' (relocated_gp (rsi g') + k)) <->
  2048 <= gp_offset (rsi g') <= page_size g' - 2048.
Proof.
  intros S H. pose proof (xom_bounds _ _ _ _ S H) as (E1 & E2 & E3 & E4 & ER).
  pose proof (layout_spec _ _ _ _ S H) as (EP & EV & _ & _ & _ & EZ & EO & _).
  rewrite EP, EO, ER. unfold in_xom. rewrite E1. pose proof pagesize_bounds.
  set (off := _ mod _) in *. unfold RET_SEQUENCE_SIZE in EZ. split.
  - intros F. pose proof (F (-2048) ltac:(lia)). pose proof (F 2047 ltac:(lia)).
    revert EZ. case_bools; lia.
  - intros ? k Hk. revert EZ. case_bools; lia.
Qed.

(** The relocated global pointer is another address than the original one. *)
Lemma relocated_gp_other g m g' m' : gp_sane (virtual_global_pointer g) -> layout g m = Ok (g', m') ->
  m_prot m (virtual_global_pointer g) <> None ->
  is_u64 (relocated_gp (rsi g')) /\ relocated_gp (rsi g') <> virtual_global_pointer g.
Proof.
  intros S H MP. destruct (xom_bounds _ _ _ _ S H) as (E1 & E2 & E3 & E4 & E5).
  pose proof (layout_spec _ _ _ _ S H) as (_ & _ & _ & _ & _ & _ & _ & _ & _ & _ & _ & _ & _ & FR & _).
  pose proof pagesize_bounds as PB.
  assert (0 <= virtual_global_pointer g mod os_pagesize < os_pagesize) as MB by (apply Z.mod_pos_bound; lia).
  split; [u64_lia|]. intros E. apply MP, FR. unfold xom_start in *. lia.
Qed.

Lemma exec_mem_at_cases ba i len s : exec_mem_at ba i len s = Fault ba \/
  exists s', exec_mem_at ba i len s = Next s'.
Proof. unfold exec_mem_at. destruct i; case_match; eauto. Qed.

(** C29: The handler mirrors the region only.  An access through the relocated
    global pointer at an offset that leads out of it is not redirected, although
    it is not at the address the program means: it is made on whatever memory is
    at the other address, or, where that is refused (as it is when nothing is
    mapped there), it faults and the process is killed by SIGSEGV. *)
Theorem gp_access_outside_region_lost g m g' m' f s i imm len :
  gp_sane (virtual_global_pointer g) -> layout g m = Ok (g', m') ->
  m_prot m (virtual_global_pointer g) <> None ->
  xr s gp = relocated_gp (rsi g') -> routine_at (pc s) = None ->
  at_access s i len -> base_imm i = (gp, imm) -> -2048 <= imm < 2048 ->
  gp_offset (rsi g') + imm < 0 \/ protection_size (rsi g') <= gp_offset (rsi g') + imm ->
  let a := relocated_gp (rsi g') ⊞ imm in
  a <> virtual_global_pointer g ⊞ imm /\ ~ in_xom g' a /\
  (m_prot (mem s) a = None -> exec_mem_at a i len s = Fault a) /\
  match exec_mem_at a i len s with
  | Next s' => step s = Next s'
  | _ => step s = Fault a /\ deliver g' (SIG_SEGFAULT_HANDLER f) s a = Some (Killed SIGSEGV)
  end.
Proof.
  intros S H MP G N A B IM OUT a.
  destruct (relocated_gp_other _ _ _ _ S H MP) as [U NE].
  destruct (xom_bounds _ _ _ _ S H) as (E1 & E2 & E3 & E4 & E5).
  pose proof (layout_spec _ _ _ _ S H) as (_ & _ & _ & _ & _ & _ & EO & _). rewrite EO in OUT.
  assert (~ in_xom g' a) as NX.
  { unfold in_xom, a, u64, wrap, is_u64 in *. rewrite E5, E1 in *. Z.div_mod_to_equations. lia. }
  assert (eff_addr i s = a) as EA by (unfold eff_addr; rewrite B; change (getx s gp) with (xr s gp); by rewrite G).
  assert (step s = exec_mem_at a i len s) as ST
    by (unfold step; rewrite N, (proj1 A); cbn [exec]; by rewrite EA).
  split_and!; try done.
  - intros E. apply NE, (u64_add_inj _ _ imm); [done | unfold gp_sane in S; u64_lia | exact E].
  - intros P. apply exec_mem_at_fault. by right.
  - rewrite ST. destruct (exec_mem_at_cases a i len s) as [-> | [s' ->]]; [|done]. split; [done|].
    unfold deliver, segfault_handler. rewrite in_xom_test. by rewrite bool_decide_false by done.
Qed.

(** When the redirected access is itself refused, outside the region, the
    handler faults and the process is killed by SIGSEGV. *)
Theorem refused_backup_access_kills g f s a i len :
  in_xom g a -> at_access s i len -> (forall w sg rs1 imm, i <> ILoad w sg 0 rs1 imm) ->
  exec_mem_at (backup_of g a) i len s = Fault (backup_of g a) -> ~ in_xom g (backup_of g a) ->
  deliver g (SIG_SEGFAULT_HANDLER f) s a = Some (Killed SIGSEGV).
Proof.
  intros X A N E NB. unfold deliver. rewrite (segfault_handler_access _ _ _ _ _ _ X A).
  rewrite (emulate_fault _ _ _ _ N E). cbn [mbind hres_bind].
  by rewrite in_xom_test, bool_decide_false.
Qed.

(** A fault of the emulation is at the redirected address. *)
Lemma emulate_fault_at ctx m ba w b :
  emulate_32bit ctx m w ba = HFault b \/ emulate_16bit ctx m w ba = HFault b -> b = ba.
Proof.
  assert (forall n (k : Z -> hres (ucontext * memory)), (forall v, k v <> HFault b) ->
    (v ← deref n m ba; k v) = HFault b -> b = ba) as D.
  { intros n k N. unfold deref. destruct (mload n m ba) as [v|]; cbn; [|congruence]. intros H. by destruct (N v). }
  assert (forall n v (k : memory -> hres (ucontext * memory)), (forall m', k m' <> HFault b) ->
    (m' ← assign n m ba v; k m') = HFault b -> b = ba) as A.
  { intros n v k N. unfold assign. destruct (mstore n m ba v) as [m'|]; cbn; [|congruence].
    intros H. by destruct (N m'). }
  unfold emulate_32bit, emulate_16bit, emulate_load_instruction, emulate_fload_instruction,
    emulate_store_instruction, emulate_fstore_instruction, emulate_c_load_store_instruction,
    emulate_sp_rel_c_load_store_instruction.
  intros [H|H]; repeat (case_match; try discriminate H); first [by apply D in H | by apply A in H].
Qed.

(** The outcome of a fault is left open only when the instruction cannot be read
    or the backup page is in the region itself. *)
Theorem fault_decided g f s a : range_prot PROT_READ 4 (mem s) (pc s) = true -> ~ in_xom g (backup_of g a) ->
  deliver g (SIG_SEGFAULT_HANDLER f) s a <> None.
Proof.
  intros RD NX. unfold deliver. destruct (segfault_handler _ _ _ _ _) as [[]| | |b] eqn:E; try done.
  assert (b = backup_of g a) as ->; [|by rewrite in_xom_test, bool_decide_false].
  revert E. unfold segfault_handler. destruct (_ || _); [done|]. change (gregs (sigframe s) REG_PC) with (pc s).
  unfold deref, mload. rewrite (range_prot_le _ 4 2 _ _ ltac:(lia) RD), RD. cbn [mbind hres_bind].
  intros E. destruct (Z.land _ 3 =? 3); cbn [mbind hres_bind] in E.
  - destruct (emulate_32bit _ _ _ _) as [[]| | |b'] eqn:X; try discriminate. injection E as <-.
    by apply (emulate_fault_at (sigframe s) (mem s) _ _ _ (or_introl X)).
  - destruct (emulate_16bit _ _ _ _) as [[]| | |b'] eqn:X; try discriminate. injection E as <-.
    by apply (emulate_fault_at (sigframe s) (mem s) _ _ _ (or_intror X)).
Qed.

(** Any other instruction that faults in the execute-only region (an atomic
    one, for instance) ends the process with status 1. *)
Theorem unsupported_access_exits g f s a :
  in_xom g a -> at_unsupported s ->
  deliver g (SIG_SEGFAULT_HANDLER f) s a = Some (Exited 1).
Proof. intros X U. unfold deliver. by rewrite segfault_handler_other. Qed.
End Properties.

(** ** A concrete process about to access its global data

    The instruction [w] at 0x1000, gp relocated to the shadow page, 77 at
    0x12810. *)
Section Example.
#[local] Existing Instance linear_os.
#[local] Existing Instance linear_os_laws.
#[local] Instance seg_kernel : Kernel := fun _ _ m => (0, m).
#[local] Instance seg_routines : Routines := fun _ => None.

Definition seg_g (vgp : Z) : globals := (ex_laid vgp).1.

Definition seg_state (vgp w : Z) : machine :=
  let i := rsi (seg_g vgp) in
  let m := mwrite 4 (mwrite 8 (ex_laid vgp).2 0x12810 77) 0x1000 w in
  Mach 0x1000
    (fun r => if r =? gp then relocated_gp i else if r =? a1 then ret_sequence_page_addr i + 0x808
              else 1000 + r)
    (fun r => r)
    (reprot (ret_sequence_page_addr i) (ret_sequence_page_addr i + protection_size i) PROT_EXEC m) [].

(** The state after a step, for the steps below. *)
Definition next_of (r : step_result) : machine :=
  match r with Next s => s | _ => seg_state 0 0 end.

Lemma next_of_ok r : match r with Next _ => true | _ => false end = true -> r = Next (next_of r).
Proof. by destruct r. Qed.

(** [ld a0, 16(gp)] *)
Lemma gp_access_transparent_witness :
  exists s1, deliver (seg_g 0x12800) (SIG_SEGFAULT_HANDLER 4) (seg_state 0x12800 0x0101b503)
               (2 ^ 32 + 0x810) = Some (Ok s1) /\ xr s1 a0 = 77 /\ pc s1 = 0x1004.
Proof.
  pose (s := seg_state 0x12800 0x0101b503).
  destruct (gp_access_transparent (ex_g 0x12800) ex_m (seg_g 0x12800) (ex_laid 0x12800).2 4 s
              (ILoad WD true a0 gp 16) 16 4
              (next_of (exec (IMem (ILoad WD true a0 gp 16)) 4 (setx gp 0x12800 s))))
    as (_ & s1 & D & (P & X & _)).
  - unfold gp_sane. cbn. lia.
  - apply ex_laid_ok. vm_compute. reflexivity.
  - vm_compute. discriminate.
  - reflexivity.
  - reflexivity.
  - split; vm_compute; reflexivity.
  - reflexivity.
  - reflexivity.
  - vm_compute. split; discriminate.
  - vm_compute. reflexivity.
  - apply next_of_ok. vm_compute. reflexivity.
  - exists s1. split; [exact D|]. rewrite P, X by done. split; vm_compute; reflexivity.
Defined.

(** [c.ld a0, 8(a1)] *)
Lemma handler_performs_access_witness :
  exists s1, deliver (seg_g 0x12800) (SIG_SEGFAULT_HANDLER 4) (seg_state 0x12800 0x6588)
               (2 ^ 32 + 0x810) = Some (Ok s1) /\ xr s1 a0 = 77 /\ pc s1 = 0x1002.
Proof.
  pose (s := seg_state 0x12800 0x6588).
  destruct (handler_performs_access (seg_g 0x12800) 4 s (2 ^ 32 + 0x810) (ILoad WD true a0 a1 8) 2
              (next_of (exec_mem_at 0x12810 (ILoad WD true a0 a1 8) 2 s))) as (s1 & D & (P & X & _)).
  - vm_compute. split; discriminate.
  - split; vm_compute; reflexivity.
  - change (backup_of (seg_g 0x12800) (2 ^ 32 + 0x810)) with 0x12810.
    apply next_of_ok. vm_compute. reflexivity.
  - exists s1. split; [exact D|]. rewrite P, X by done. split; vm_compute; reflexivity.
Defined.

Lemma backup_mirrors_iff_witness :
  backup_of (seg_g 0x12800) (2 ^ 32 + 0x810) = 0x12810 /\
  backup_of (seg_g 0x12010) (2 ^ 32 + 0x20) <> 0x12020.
Proof.
  split.
  - apply (backup_mirrors_iff (ex_g 0x12800) ex_m (seg_g 0x12800) (ex_laid 0x12800).2).
    + unfold gp_sane. cbn. lia.
    + apply ex_laid_ok. vm_compute. reflexivity.
    + vm_compute. split; discriminate.
    + vm_compute. discriminate.
  - change 0x12020 with (virtual_global_pointer (seg_g 0x12010)
                         + (2 ^ 32 + 0x20 - relocated_gp (rsi (seg_g 0x12010)))).
    rewrite (backup_mirrors_iff (ex_g 0x12010) ex_m (seg_g 0x12010) (ex_laid 0x12010).2).
    + vm_compute. intros H. by apply H.
    + unfold gp_sane. cbn. lia.
    + apply ex_laid_ok. vm_compute. reflexivity.
    + vm_compute. split; discriminate.
Defined.

Lemma gp_window_in_xom_iff_witness :
  (forall k, -2048 <= k < 2048 -> in_xom (seg_g 0x12800) (2 ^ 32 + 0x800 + k)) /\
  ~ (forall k, -2048 <= k < 2048 -> in_xom (seg_g 0x12100) (2 ^ 32 + 0x100 + k)).
Proof.
  split.
  - apply (gp_window_in_xom_iff (ex_g 0x12800) ex_m (seg_g 0x12800) (ex_laid 0x12800).2).
    + unfold gp_sane. cbn. lia.
    + apply ex_laid_ok. vm_compute. reflexivity.
    + vm_compute. split; discriminate.
  - change (2 ^ 32 + 0x100) with (relocated_gp (rsi (seg_g 0x12100))).
    rewrite (gp_window_in_xom_iff (ex_g 0x12100) ex_m (seg_g 0x12100) (ex_laid 0x12100).2).
    + vm_compute. intros [H _]. by apply H.
    + unfold gp_sane. cbn. lia.
    + apply ex_laid_ok. vm_compute. reflexivity.
Defined.

(** [ld a0, -512(gp)] with gp 256 bytes into its page *)
Lemma gp_access_outside_region_lost_witness :
  step (seg_state 0x12100 0xe001b503) = Fault (2 ^ 32 - 0x100) /\
  deliver (seg_g 0x12100) (SIG_SEGFAULT_HANDLER 4) (seg_state 0x12100 0xe001b503)
    (2 ^ 32 - 0x100) = Some (Killed SIGSEGV).
Proof.
  destruct (gp_access_outside_region_lost (ex_g 0x12100) ex_m (seg_g 0x12100) (ex_laid 0x12100).2 4
    (seg_state 0x12100 0xe001b503) (ILoad WD true a0 gp (-512)) (-512) 4) as (_ & _ & F & D).
  - unfold gp_sane. cbn. lia.
  - apply ex_laid_ok. vm_compute. reflexivity.
  - discriminate.
  - reflexivity.
  - reflexivity.
  - split; vm_compute; reflexivity.
  - reflexivity.
  - lia.
  - left. vm_compute. reflexivity.
  - change (relocated_gp (rsi (seg_g 0x12100)) ⊞ -512) with (2 ^ 32 - 0x100) in F, D.
    rewrite F in D by (vm_compute; reflexivity). exact D.
Defined.

(** [sd a0, 0(gp)] with the original page unmapped *)
Lemma refused_backup_access_kills_witness :
  deliver (seg_g 0x22800) (SIG_SEGFAULT_HANDLER 4) (seg_state 0x22800 0x00a1b023)
    (2 ^ 32 + 0x800) = Some (Killed SIGSEGV).
Proof.
  apply (refused_backup_access_kills _ _ _ _ (IStore WD a0 gp 0) 4).
  - vm_compute. split; discriminate.
  - split; vm_compute; reflexivity.
  - discriminate.
  - vm_compute. reflexivity.
  - vm_compute. intros [H _]. by apply H.
Defined.

(** [amoadd.w a0, a0, (gp)] *)
Lemma unsupported_access_exits_witness :
  deliver (seg_g 0x12800) (SIG_SEGFAULT_HANDLER 4) (seg_state 0x12800 0x00a1a52f)
    (2 ^ 32 + 0x800) = Some (Exited 1).
Proof.
  apply unsupported_access_exits.
  - vm_compute. split; discriminate.
  - unfold at_unsupported.
    change (mread 2 _ _) with 0xa52f. change (mread 4 _ _) with 0x00a1a52f.
    rewrite decide_True by reflexivity. split_and!.
    + vm_compute. reflexivity.
    + intros i. vm_compute. discriminate.
    + vm_compute. intros [H _]. discriminate.
Defined.
End Example.
