(* ===== verification/Process.v ===== *)
(** * The running process

    The step relation of a process that vpoline has set up: the machine of
    [Isa], in which [asm_syscall_hook] is a routine, and the kernel's delivery
    of SIGSEGV to [segfault_handler].  Its well-typed states hold 64-bit values
    in the program counter and in every register; the invariant is proved for
    the instructions, the listing of main.c, the handler and so for every step. *)

From stdpp Require Import base gmap list relations.
From Stdlib Require Import ZArith Lia Bool.
From S2P Require Import Prelude Memory Isa Os RetSeq Patcher AsmHook Intercept Sigsegv.

(** ** Steps *)

Section Steps.
Context {K : Kernel} {R : Routines} (g : globals) (flags : Z).

Inductive pstep : machine -> machine -> Prop :=
| ps_run s s' : step s = Next s' -> pstep s s'
| ps_fault s s' a :
    step s = Fault a -> deliver g (SIG_SEGFAULT_HANDLER flags) s a = Some (Ok s') -> pstep s s'.

Lemma pstep_det s s1 s2 : pstep s s1 -> pstep s s2 -> s1 = s2.
Proof. intros [] P2; inversion P2; congruence. Qed.

(** A run of the machine that does not stop is a run of the process. *)
Lemma run_pstep n : forall s s', run n s = Next s' -> rtc pstep s s'.
Proof.
  induction n as [|n IH]; intros s s' E; [injection E as <-; apply rtc_refl|].
  cbn [run] in E. destruct (step s) as [s1| | |] eqn:E1; try discriminate.
  eapply rtc_l; [by apply ps_run | by apply IH].
Qed.

Lemma run_pstep_tc n s s' : run (S n) s = Next s' -> tc pstep s s'.
Proof.
  cbn [run]. destruct (step s) as [s1| | |] eqn:E1; try discriminate. intros E%run_pstep.
  by eapply tc_rtc_r; [apply tc_once, ps_run|].
Qed.
End Steps.

(** ** Words *)

Lemma u64_log2 a : is_u64 a <-> 0 <= a /\ Z.log2 a < 64.
Proof.
  unfold is_u64. destruct (Z.leb_spec a 0) as [L|L].
  - rewrite Z.log2_nonpos by done. lia.
  - rewrite <- Z.log2_lt_pow2 by done. lia.
Qed.

Lemma u64_lor a b : is_u64 a -> is_u64 b -> is_u64 (Z.lor a b).
Proof.
  rewrite !u64_log2. intros [A1 A2] [B1 B2]. rewrite Z.log2_lor by done.
  split; [by apply Z.lor_nonneg | lia].
Qed.

Lemma u64_land a b : is_u64 a -> is_u64 b -> is_u64 (Z.land a b).
Proof.
  rewrite !u64_log2. intros [A1 A2] [B1 B2]. pose proof (Z.log2_land a b A1 B1).
  split; [apply Z.land_nonneg; by left | lia].
Qed.

Lemma u64_shiftr a k : is_u64 a -> 0 <= k -> is_u64 (Z.shiftr a k).
Proof.
  unfold is_u64. intros [A1 A2] Hk. rewrite Z.shiftr_div_pow2 by done.
  assert (0 < 2 ^ k) by (apply Z.pow_pos_nonneg; lia).
  split; [by apply Z.div_pos|]. eapply Z.le_lt_trans; [|exact A2]. apply Z.div_le_upper_bound; nia.
Qed.

Lemma u64_even a : is_u64 a -> is_u64 (2 * (a / 2)).
Proof. unfold is_u64. intros. Z.div_mod_to_equations. lia. Qed.

Lemma u64_mread w m a : is_u64 (mread (nbytes w) m a).
Proof. pose proof (mread_range (nbytes w) m a). unfold is_u64. destruct w; cbn [nbytes] in *; lia. Qed.

#[export] Hint Resolve u64_lor u64_land u64_shiftr u64_even u64_mread : vp.

(** ** Well-typed states *)

Definition typed (s : machine) : Prop := is_u64 (pc s) /\ regs_u64 s.

Lemma typed_getx s r : regs_u64 s -> is_u64 (getx s r).
Proof. intros T. unfold getx. case_bools; [u64_lia | apply T]. Qed.

Lemma typed_setx s r v : regs_u64 s -> is_u64 v -> regs_u64 (setx r v s).
Proof.
  intros T V q. unfold setx. destruct (r =? 0); [apply T|].
  split; [|apply T]. cbn. destruct (q =? r); [done | apply T].
Qed.

Lemma typed_setf s r v : regs_u64 s -> is_u64 v -> regs_u64 (setf r v s).
Proof. intros T V q. split; [apply T|]. cbn. destruct (q =? r); [done | apply T]. Qed.

Lemma typed_setpc s p : regs_u64 s -> regs_u64 (setpc p s).
Proof. done. Qed.

Lemma typed_setmem s m : regs_u64 s -> regs_u64 (setmem m s).
Proof. done. Qed.

Lemma typed_next s p : regs_u64 s -> is_u64 p -> typed (setpc p s).
Proof. done. Qed.

#[export] Hint Resolve typed_getx typed_setx typed_setf typed_setpc typed_setmem typed_next : vp.

(** ** Instructions *)

Lemma u64_extend w sg v : is_u64 v -> is_u64 (extend w sg v).
Proof. unfold extend. destruct sg; auto with vp. Qed.

Lemma u64_nan_box w v : is_u64 v -> is_u64 (nan_box w v).
Proof. destruct w; cbn; auto with vp. Qed.

#[export] Hint Resolve u64_extend u64_nan_box : vp.

(** The shift amounts of decoded instructions are not negative. *)
Definition wf_instr (i : instr) : bool := match i with ISrli _ _ sh => 0 <=? sh | _ => true end.

Lemma decode32_wf w i : decode32 w = Some i -> wf_instr i = true.
Proof.
  destruct i as [| | | | |rd rs1 sh| | | | | | |]; try done. intros H.
  assert (sh = slice w 20 6) as ->.
  { unfold decode32 in H. repeat case_match; try discriminate; try by injection H.
    all: unfold fmap, option_fmap, option_map in H; by destruct (decode_mem _ _ _ _ _ _ _). }
  cbn. pose proof (slice_range w 20 6). lia.
Qed.

Lemma exec_mem_typed ea i len s s' : regs_u64 s -> exec_mem_at ea i len s = Next s' -> typed s'.
Proof.
  intros T. unfold exec_mem_at, mload. destruct i;
    repeat case_match; intros E; try discriminate; injection E as <-; simplify_eq; auto 6 with vp.
Qed.

Lemma do_ecall_typed `{Kernel} s : regs_u64 s -> regs_u64 (do_ecall s).
Proof. intros T. unfold do_ecall. destruct (k_syscall _ _ _). auto with vp. Qed.

#[export] Hint Resolve do_ecall_typed : vp.

Lemma exec_typed `{Kernel} i len s s' : wf_instr i = true -> regs_u64 s ->
  exec i len s = Next s' -> typed s'.
Proof.
  intros W T. destruct i; cbn [exec]; [apply exec_mem_typed; done|..]; intros E;
    try discriminate; injection E as <-; auto 6 with vp.
  apply typed_next; [|auto with vp]. apply typed_setx; [done|]. apply u64_shiftr; auto with vp.
  by apply Z.leb_le.
Qed.

(** ** The listing *)

(** The hook and the compiled code around it deal in 64-bit values. *)
Record env_typed (e : cenv) : Prop := {
  et_rgp_var : is_u64 (ce_rgp_var e);
  et_result0 : is_u64 (ce_result0 e);
  et_clob_x : forall s r, is_u64 (ce_clob_x e s r);
  et_clob_f : forall s r, is_u64 (ce_clob_f e s r);
  et_result : forall h nr x0 x1 x2 x3 x4 x5 m v, ce_hook_fn e = Some h ->
    ho_result (h nr x0 x1 x2 x3 x4 x5 m) = Some v -> is_u64 v
}.

Lemma syscall_hook_typed e x0 x1 x2 x3 x4 x5 x6 x7 m : env_typed e -> is_u64 x0 ->
  is_u64 (wr_a0 (syscall_hook (ce_hook_fn e) (ce_result0 e) x0 x1 x2 x3 x4 x5 x6 x7 m).1.1).
Proof.
  intros E X. unfold syscall_hook. destruct (ce_hook_fn e) as [h|] eqn:H; [|done].
  case_match; [done|]. cbn.
  destruct (ho_result _) as [v|] eqn:V; [by eapply et_result | apply (et_result0 e E)].
Qed.

Lemma call_syscall_hook_typed e s : env_typed e -> regs_u64 s -> regs_u64 (call_syscall_hook e s).
Proof.
  intros E T. unfold call_syscall_hook.
  pose proof (syscall_hook_typed e (getx s a0) (getx s a1) (getx s a2) (getx s a3) (getx s a4)
    (getx s a5) (getx s a6) (getx s a7) (mem s) E ltac:(auto with vp)) as A.
  pose proof (syscall_hook_flag (ce_hook_fn e) (ce_result0 e) (getx s a0) (getx s a1) (getx s a2)
    (getx s a3) (getx s a4) (getx s a5) (getx s a6) (getx s a7) (mem s)) as F.
  destruct (syscall_hook _ _ _ _ _ _ _ _ _ _ _) as [[w m] evs]. cbn [fst] in A, F.
  intros r. cbn [xr fr]. split.
  - destruct (r =? a0); [done|]. destruct (r =? a1); [unfold is_u64; lia|].
    destruct (caller_saved_x r); [by apply et_clob_x | apply T].
  - destruct (caller_saved_f r); [by apply et_clob_f | apply T].
Qed.

Definition asm_wf (a : asm) : bool :=
  match a with ALi _ imm => (0 <=? imm) && (imm <? 2 ^ 64) | AI i => wf_instr i | _ => true end.

Section Listing.
Context {K : Kernel} (e : cenv) (prog : list asm).

Lemma arun_typed n : env_typed e -> forallb asm_wf prog = true ->
  forall i s s', regs_u64 s -> arun e prog n i s = AExit s' -> typed s'.
Proof.
  intros ET W. pose proof (et_rgp_var e ET) as EV. pose proof (call_syscall_hook_typed e) as EC.
  induction n as [|n IH]; intros i s s' T E; [discriminate|].
  cbn [arun] in E. destruct (prog !! i) as [a|] eqn:Ea; [|discriminate].
  assert (asm_wf a = true) as Wa
    by (rewrite forallb_forall in W; by apply W, list_elem_of_In, list_elem_of_lookup_2 with i).
  assert (forall l s0, regs_u64 s0 ->
    match find_label l prog with Some j => arun e prog n j s0 | None => AStuck end = AExit s' ->
    typed s') as G by (intros l s0 T0; destruct (find_label l prog); [by apply IH | discriminate]).
  destruct a as [| | | |ins| | | | |]; cbn [asm_wf] in Wa; try (eapply IH; [|exact E]; auto with vp).
  - assert (forall s1, exec ins 4 s = Next s1 -> typed s1) as X by (intros; by eapply exec_typed).
    destruct ins; destruct (exec _ 4 s) as [s1| | |]; try discriminate;
      (injection E as <-; by apply X) || (eapply IH; [|exact E]; by apply typed_setpc, (X s1)).
  - case_match; [by eapply G | by eapply IH].
  - case_match; [by eapply G | by eapply IH].
  - by eapply G.
  - injection E as <-. auto with vp.
Qed.
End Listing.

Lemma asm_text_wf : forallb asm_wf asm_text = true /\ forallb asm_wf no_intercept_text = true.
Proof. split; vm_compute; reflexivity. Qed.

Lemma asm_routine_typed `{Kernel} e s s' : env_typed e -> regs_u64 s ->
  asm_routine e s = Next s' -> typed s'.
Proof.
  intros ET T. unfold asm_routine. destruct (arun e asm_text 100 0 s) eqn:E; try discriminate.
  intros [= <-]. exact (arun_typed e asm_text 100 ET (proj1 asm_text_wf) _ _ _ T E).
Qed.

(** ** The handler *)

Definition ctx_typed (c : ucontext) : Prop := forall r, is_u64 (gregs c r) /\ is_u64 (fpregs c r).

Lemma ctx_set_greg c r v : ctx_typed c -> is_u64 v -> ctx_typed (set_greg r v c).
Proof. intros T V q. split; [|apply T]. cbn. destruct (q =? r); [done | apply T]. Qed.

Lemma ctx_set_freg c r v : ctx_typed c -> is_u64 v -> ctx_typed (set_freg r v c).
Proof. intros T V q. split; [apply T|]. cbn. destruct (q =? r); [done | apply T]. Qed.

#[export] Hint Resolve ctx_set_greg ctx_set_freg : vp.

Lemma deref_typed n m a v : (n <= 8)%nat -> deref n m a = HOk v -> is_u64 v.
Proof.
  unfold deref, mload. intros L. destruct (range_prot _ _ _ _); [|discriminate]. intros [= <-].
  pose proof (mread_range n m a). unfold is_u64.
  assert (2 ^ (8 * Z.of_nat n) <= 2 ^ 64) by (apply Z.pow_le_mono_r; lia). lia.
Qed.

(** Every result of an emulation that returns. *)
Ltac emulated :=
  repeat match goal with
  | H : context [if ?b then _ else _] |- _ => destruct b
  | H : context [deref ?n ?m ?a] |- _ =>
      let D := fresh "D" in destruct (deref n m a) eqn:D; cbn [mbind hres_bind] in H; try discriminate H;
      apply deref_typed in D; [|lia]
  | H : context [assign ?n ?m ?a ?v] |- _ =>
      destruct (assign n m a v); cbn [mbind hres_bind] in H; try discriminate H
  | H : HOk _ = HOk _ |- _ => injection H as <- <-
  | H : HExit _ = HOk _ |- _ => discriminate H
  end.

Lemma emulate_32bit_typed ctx m w ba c m' : ctx_typed ctx ->
  emulate_32bit ctx m w ba = HOk (c, m') -> ctx_typed c.
Proof.
  intros T E. unfold emulate_32bit in E. cbv zeta in E.
  unfold emulate_load_instruction, emulate_fload_instruction, emulate_store_instruction,
    emulate_fstore_instruction in E.
  emulated; auto with vp.
Qed.

Lemma emulate_16bit_typed ctx m h ba c m' : ctx_typed ctx ->
  emulate_16bit ctx m h ba = HOk (c, m') -> ctx_typed c.
Proof.
  intros T E. unfold emulate_16bit in E. cbv zeta in E.
  unfold emulate_c_load_store_instruction, emulate_sp_rel_c_load_store_instruction in E.
  emulated; auto with vp.
Qed.

Lemma segfault_handler_typed g sig a ctx m c m' : ctx_typed ctx ->
  segfault_handler g sig a ctx m = HOk (c, m') -> ctx_typed c.
Proof.
  intros T E. unfold segfault_handler in E. destruct (_ || _); [discriminate|]. cbv zeta in E.
  destruct (deref 2 m _) as [h| | |]; cbn [mbind hres_bind] in E; try discriminate.
  destruct (_ =? 3).
  - destruct (deref 4 m _) as [w| | |]; cbn [mbind hres_bind] in E; try discriminate.
    destruct (emulate_32bit _ _ _ _) as [[c1 m1]| | |] eqn:X; cbn [mbind hres_bind] in E; try discriminate.
    injection E as <- <-. apply emulate_32bit_typed in X; auto with vp.
  - destruct (emulate_16bit _ _ _ _) as [[c1 m1]| | |] eqn:X; cbn [mbind hres_bind] in E; try discriminate.
    injection E as <- <-. apply emulate_16bit_typed in X; auto with vp.
Qed.

Lemma deliver_typed g f s a s' : typed s ->
  deliver g (SIG_SEGFAULT_HANDLER f) s a = Some (Ok s') -> typed s'.
Proof.
  intros [P T] E. unfold deliver in E.
  destruct (segfault_handler _ _ _ _ _) as [[c m]| | |] eqn:X; try discriminate; [|by case_match].
  injection E as <-. apply segfault_handler_typed in X.
  - split; [apply X|]. intros r. cbn. split; [|apply X]. case_bools; [u64_lia | apply X].
  - intros r. cbn. split; [|apply T]. case_bools; [done | apply T].
Qed.

(** ** The process *)

Section Typed.
Context {K : Kernel} {R : Routines} (g : globals) (flags : Z).

Definition routines_typed : Prop := forall a f s s',
  routine_at a = Some f -> typed s -> f s = Next s' -> typed s'.

Lemma step_typed s s' : routines_typed -> typed s -> step s = Next s' -> typed s'.
Proof.
  intros RT T. unfold step. destruct (routine_at (pc s)) as [f|] eqn:Ra; [by eapply RT|].
  unfold fetch_decode. destruct (mfetch 2 _ _) as [h|]; [|discriminate].
  destruct (_ =? 3).
  - destruct (mfetch 4 _ _) as [w|]; [|discriminate].
    destruct (decode32 w) as [i|] eqn:D; [|discriminate].
    apply exec_typed; [by eapply decode32_wf | apply T].
  - destruct (decode16 h) as [i|]; [|discriminate]. cbn [fmap option_fmap option_map].
    by apply exec_typed, T.
Qed.

Lemma run_typed n : routines_typed -> forall s s', typed s -> run n s = Next s' -> typed s'.
Proof.
  intros RT. induction n as [|n IH]; intros s s' T E; [by injection E as <-|].
  cbn [run] in E. destruct (step s) as [s1| | |] eqn:E1; try discriminate.
  apply (IH s1); [by eapply step_typed | done].
Qed.

Lemma pstep_typed s s' : routines_typed -> typed s -> pstep g flags s s' -> typed s'.
Proof. intros RT T P. inversion P; subst; [by apply (step_typed s) | by eapply deliver_typed]. Qed.
End Typed.

(** ** The record of requests only grows *)

Lemma prefix_snoc {A} (l : list A) x : l `prefix_of` l ++ [x].
Proof. by exists [x]. Qed.

Lemma exec_mem_trace ea i len s s' : exec_mem_at ea i len s = Next s' -> trace s' = trace s.
Proof.
  unfold exec_mem_at, setx. destruct i; repeat case_match; intros E; try discriminate; by injection E as <-.
Qed.

Lemma exec_trace `{Kernel} i len s s' : exec i len s = Next s' -> trace s `prefix_of` trace s'.
Proof.
  destruct i; cbn [exec]; intros E; try discriminate;
    try (apply exec_mem_trace in E as ->; done); injection E as <-; cbn [trace setpc];
    rewrite ?trace_setx; try done.
  rewrite do_ecall_eq. apply prefix_snoc.
Qed.

Lemma call_syscall_hook_trace e s : trace s `prefix_of` trace (call_syscall_hook e s).
Proof.
  unfold call_syscall_hook. destruct (syscall_hook _ _ _ _ _ _ _ _ _ _ _) as [[w m] evs].
  by exists evs.
Qed.

Lemma arun_trace `{Kernel} e prog n : forall i s s', arun e prog n i s = AExit s' ->
  trace s `prefix_of` trace s'.
Proof.
  induction n as [|n IH]; intros i s s' E; [discriminate|].
  cbn [arun] in E. destruct (prog !! i) as [a|]; [|discriminate].
  assert (forall l, match find_label l prog with Some j => arun e prog n j s | None => AStuck end = AExit s' ->
    trace s `prefix_of` trace s') as G by (intros l; destruct (find_label l prog); [by apply IH | discriminate]).
  destruct a as [| | | |ins| | | | |]; try (apply IH in E; by rewrite ?trace_setx in E).
  - assert (forall s1, exec ins 4 s = Next s1 -> trace s `prefix_of` trace s1) as X
      by (intros; by eapply exec_trace).
    destruct ins; destruct (exec _ 4 s) as [s1| | |]; try discriminate;
      (injection E as <-; by apply X) || (etransitivity; [by apply (X s1) | by apply IH in E]).
  - case_match; [by eapply G | by eapply IH].
  - case_match; [by eapply G | by eapply IH].
  - by eapply G.
  - etransitivity; [apply (call_syscall_hook_trace e) | by apply IH in E].
  - by injection E as <-.
Qed.

(** ** Properties *)

(** [asm_syscall_hook] is the only code that is not words in memory. *)
Definition only_asm_hook `{Kernel, Routines} (e : cenv) : Prop :=
  forall a f, routine_at a = Some f -> f = asm_routine e.

Lemma only_asm_hook_typed `{Kernel, Routines} e : env_typed e -> only_asm_hook e -> routines_typed.
Proof. intros ET O a f s s' Ra T. rewrite (O a f Ra). by apply asm_routine_typed, T. Qed.

Lemma rtc_typed `{Kernel, Routines} (g : globals) (flags : Z) e s s' :
  env_typed e -> only_asm_hook e -> typed s -> rtc (pstep g flags) s s' -> typed s'.
Proof.
  intros ET O T P. pose proof (only_asm_hook_typed e ET O) as RT.
  induction P as [|s s1 s' P _ IH]; [done|]. by apply IH, (pstep_typed g flags s).
Qed.

Lemma asm_routine_trace `{Kernel} e s s' : asm_routine e s = Next s' -> trace s `prefix_of` trace s'.
Proof.
  unfold asm_routine. destruct (arun e asm_text 100 0 s) eqn:E; try discriminate.
  intros [= <-]. exact (arun_trace e asm_text 100 0 s s0 E).
Qed.

Lemma pstep_trace `{Kernel, Routines} (g : globals) (flags : Z) e s s' :
  only_asm_hook e -> pstep g flags s s' -> trace s `prefix_of` trace s'.
Proof.
  intros O P. destruct P as [s s' E|s s' a E D].
  - unfold step in E. destruct (routine_at (pc s)) as [f|] eqn:Ra.
    + rewrite (O _ _ Ra) in E. by apply asm_routine_trace in E.
    + destruct (fetch_decode _ _) as [[[i|] len]|]; try discriminate. by eapply exec_trace.
  - unfold deliver in D. destruct (segfault_handler _ _ _ _ _) as [[c m]| | |]; try discriminate.
    + by injection D as <-.
    + by case_match.
Qed.

Lemma nsteps_trace `{Kernel, Routines} (g : globals) (flags : Z) e n s s' :
  only_asm_hook e -> nsteps (pstep g flags) n s s' -> trace s `prefix_of` trace s'.
Proof.
  intros O P. induction P as [|n s s1 s' P _ IH]; [done|].
  etransitivity; [by eapply pstep_trace | exact IH].
Qed.
