(* ===== verification/Threads.v ===== *)
(** * Interceptions under concurrency

    The interception of main.c and patcher.c keeps its state in registers, in a
    frame on the stack of the calling thread and in data that is only read after
    the start-up: the patched page and [relocated_global_pointer].  Here a
    thread takes the interception one instruction at a time (the listing of
    [asm_syscall_hook] item by item, the call of [syscall_hook] and the kernel's
    part of an [ecall] as one step each) while other threads change the memory
    between any two of its steps, everywhere but in what the interception relies
    on.  [leads] is the modality of the proofs: whatever the others do, the
    thread is never stuck and comes to a state of a given kind within a number
    of its own steps. *)

From stdpp Require Import base gmap list relations.
From Stdlib Require Import ZArith Lia Bool.
From S2P Require Import Prelude Memory Isa Os RetSeq Patcher AsmHook Intercept.

Lemma app_same {A} (l k : list A) : l ++ k = l -> k = [].
Proof. intros H. apply (f_equal length) in H. rewrite length_app in H. destruct k; cbn in H; [done | lia]. Qed.

(** ** Steps depend only on the memory they access *)

Definition rwx (flag : Z) : Prop := flag = PROT_READ \/ flag = PROT_WRITE \/ flag = PROT_EXEC.

(** What [sm] allows, [mb] allows too, and there they hold the same bytes. *)
Definition covers (sm mb : memory) : Prop := forall flag x, rwx flag ->
  has_prot flag sm x = true -> has_prot flag mb x = true /\ mbyte mb x = mbyte sm x.

Lemma covers_refl m : covers m m.
Proof. done. Qed.

(** The memories [sm] and [mb] after the same step: the step wrote to bytes
    that [sm] lets be written. *)
Record moved (sm sm' mb mb' : memory) : Prop := {
  mv_covers : covers sm' mb';
  mv_small : m_prot sm' = m_prot sm;
  mv_off : forall x, has_prot PROT_WRITE sm x = false -> mbyte mb' x = mbyte mb x;
  mv_prot : m_prot mb' = m_prot mb
}.

Lemma moved_refl sm mb : covers sm mb -> moved sm sm mb mb.
Proof. by constructor. Qed.

Lemma covers_range flag n sm mb a : rwx flag -> covers sm mb -> range_prot flag n sm a = true ->
  range_prot flag n mb a = true /\ mread n mb a = mread n sm a.
Proof.
  intros F C P. rewrite range_prot_spec in *. split.
  - intros x Hx. by apply (C flag), P.
  - apply mread_ext. intros x Hx. by apply (C flag), P.
Qed.

Lemma rwx_r : rwx PROT_READ. Proof. by left. Qed.
Lemma rwx_w : rwx PROT_WRITE. Proof. by right; left. Qed.
Lemma rwx_x : rwx PROT_EXEC. Proof. by right; right. Qed.
#[export] Hint Resolve rwx_r rwx_w rwx_x moved_refl : vp.

Lemma covers_load n sm mb a v : covers sm mb -> mload n sm a = Some v -> mload n mb a = Some v.
Proof.
  unfold mload. intros C. destruct (range_prot PROT_READ n sm a) eqn:P; [|done]. intros [= <-].
  by destruct (covers_range _ _ _ _ _ rwx_r C P) as [-> ->].
Qed.

Lemma covers_fetch n sm mb a v : covers sm mb -> mfetch n sm a = Some v -> mfetch n mb a = Some v.
Proof.
  unfold mfetch. intros C. destruct (range_prot PROT_EXEC n sm a) eqn:P; [|done]. intros [= <-].
  by destruct (covers_range _ _ _ _ _ rwx_x C P) as [-> ->].
Qed.

Lemma covers_store n sm mb a v sm' : covers sm mb -> mstore n sm a v = Some sm' ->
  exists mb', mstore n mb a v = Some mb' /\ moved sm sm' mb mb'.
Proof.
  unfold mstore. intros C. destruct (range_prot PROT_WRITE n sm a) eqn:P; [|done]. intros [= <-].
  destruct (covers_range _ _ _ _ _ rwx_w C P) as [-> _].
  eexists. split; [done|]. constructor; try apply mwrite_prot.
  - intros flag x F H. rewrite has_prot_mwrite in *. destruct (C flag x F H) as [-> E].
    split; [done|]. rewrite !mbyte_mwrite. by case_match.
  - intros x W. apply mbyte_mwrite_out. intros Hx.
    by rewrite (proj1 (range_prot_spec _ _ _ _) P x Hx) in W.
Qed.

Lemma setx_setmem r v m s : setx r v (setmem m s) = setmem m (setx r v s).
Proof. unfold setx. by case_match. Qed.
Lemma getx_setmem r m s : getx (setmem m s) r = getx s r.
Proof. done. Qed.
Lemma mem_setx r v s : mem (setx r v s) = mem s.
Proof. unfold setx. by case_match. Qed.

Lemma eff_addr_setmem i m s : eff_addr i (setmem m s) = eff_addr i s.
Proof. unfold eff_addr. by destruct (base_imm i). Qed.

(** An instruction other than [ecall] does the same in a memory that covers
    its own, under any kernel. *)
Lemma exec_local (K K' : Kernel) i len s s' mb : i <> IEcall -> covers (mem s) mb ->
  exec (K := K) i len s = Next s' ->
  exists mb', exec (K := K') i len (setmem mb s) = Next (setmem mb' s') /\
    moved (mem s) (mem s') mb mb' /\ trace s' = trace s.
Proof.
  intros N C. destruct i as [mi| | | | | | | | | | | |]; cbn [exec]; try done.
  2-11: intros [= <-]; exists mb;
    split; [by rewrite ?setx_setmem, ?getx_setmem|]; cbn [mem setpc trace];
    rewrite ?mem_setx, ?trace_setx; auto with vp.
  rewrite eff_addr_setmem. unfold exec_mem_at. cbn [mem setmem].
  destruct mi as [w sg rd rs1 imm|w rs2 rs1 imm|w rd rs1 imm|w rs2 rs1 imm].
  - destruct (mload _ (mem s) _) as [v|] eqn:L; [|done]. intros [= <-].
    rewrite (covers_load _ _ _ _ _ C L). exists mb. rewrite setx_setmem.
    cbn [mem setpc trace]. rewrite mem_setx, trace_setx. auto with vp.
  - destruct (mstore _ (mem s) _ _) as [sm'|] eqn:L; [|done]. intros [= <-].
    destruct (covers_store _ _ _ _ _ _ C L) as (mb' & E & M). rewrite getx_setmem, E.
    by exists mb'.
  - destruct (mload _ (mem s) _) as [v|] eqn:L; [|done]. intros [= <-].
    rewrite (covers_load _ _ _ _ _ C L). exists mb. auto with vp.
  - destruct (mstore _ (mem s) _ _) as [sm'|] eqn:L; [|done]. intros [= <-].
    destruct (covers_store _ _ _ _ _ _ C L) as (mb' & E & M). cbn [fr setmem]. rewrite E.
    by exists mb'.
Qed.

Lemma covers_fetch_decode sm mb a r : covers sm mb ->
  fetch_decode sm a = Some r -> fetch_decode mb a = Some r.
Proof.
  intros C. unfold fetch_decode. destruct (mfetch 2 sm a) as [h|] eqn:H; [|done].
  rewrite (covers_fetch _ _ _ _ _ C H). case_match; [|done].
  destruct (mfetch 4 sm a) as [w|] eqn:W; [|done]. by rewrite (covers_fetch _ _ _ _ _ C W).
Qed.

(** ** The listing, one item at a time *)

Section Item.
Context {K : Kernel} (e : cenv).

(** The item at [i] of [asm_text]: the next position ([None] when control
    leaves the listing) and the state; [None] is a fault or [ebreak]. *)
Definition item_step (i : nat) (s : machine) : option (option nat * machine) :=
  let goto l := (fun j => (Some j, s)) <$> find_label l asm_text in
  let on s := Some (Some (S i), s) in
  match asm_text !! i with
  | None => None
  | Some (ALabel _) => on s
  | Some (AMv rd rs) => on (setx rd (getx s rs) s)
  | Some (ALi rd imm) => on (setx rd imm s)
  | Some (ALa rd) => on (setx rd (ce_rgp_var e) s)
  | Some (ABeq rs1 rs2 l) => if getx s rs1 =? getx s rs2 then goto l else on s
  | Some (ABeqz rs l) => if getx s rs =? 0 then goto l else on s
  | Some (AJ l) => goto l
  | Some ACall => on (call_syscall_hook e s)
  | Some ARet => Some (None, setpc (2 * (getx s ra / 2)) s)
  | Some (AI ins) =>
    match exec ins 4 s with
    | Next s' => match ins with IJalr _ _ _ => Some (None, s') | _ => on (setpc (pc s) s') end
    | _ => None
    end
  end.

(** [arun] is the iteration of it. *)
Lemma arun_item n i s s2 : arun e asm_text (S n) i s = AExit s2 ->
  exists l s1, item_step i s = Some (l, s1) /\
    match l with Some j => arun e asm_text n j s1 = AExit s2 | None => s1 = s2 end.
Proof.
  unfold item_step. cbn [arun]. destruct (asm_text !! i) as [a|]; [|done].
  destruct a as [| | | |ins|? ? l|? l|l| |]; intros E; eauto.
  - destruct ins; destruct (exec _ 4 s) as [s'| | |]; try discriminate; eauto.
    injection E as <-. by eexists None, _.
  - case_match; [|eauto]. destruct (find_label l asm_text); [eauto|done].
  - case_match; [|eauto]. destruct (find_label l asm_text); [eauto|done].
  - destruct (find_label l asm_text); [eauto|done].
  - injection E as <-. by eexists None, _.
Qed.
End Item.

(** An item that neither calls the dispatcher nor the kernel. *)
Definition quiet (a : asm) : bool := match a with ACall | AI IEcall => false | _ => true end.

Lemma item_local (K K' : Kernel) e e' i a s l s1 mb : asm_text !! i = Some a -> quiet a = true ->
  ce_rgp_var e' = ce_rgp_var e -> covers (mem s) mb -> item_step (K := K) e i s = Some (l, s1) ->
  exists mb', item_step (K := K') e' i (setmem mb s) = Some (l, setmem mb' s1) /\
    moved (mem s) (mem s1) mb mb' /\ trace s1 = trace s.
Proof.
  intros A Q V C. unfold item_step. rewrite A, V.
  destruct a as [| | | |ins|? ? lb|? lb|lb| |]; try discriminate; rewrite ?getx_setmem.
  5: { destruct (exec (K := K) ins 4 s) as [s'| | |] eqn:E; try discriminate. intros H.
       destruct (exec_local K K' ins 4 s s' mb ltac:(by intros ->) C E) as (mb' & -> & M & T).
       exists mb'. destruct ins; simplify_eq; done. }
  all: repeat match goal with |- context [if ?b then _ else _] => destruct b end;
    try (destruct (find_label lb asm_text); [|discriminate]); cbn [fmap option_fmap option_map];
    intros [= <- <-]; exists mb; rewrite ?setx_setmem; cbn [mem setpc trace];
    rewrite ?mem_setx, ?trace_setx; auto with vp.
Qed.

(** ** Threads *)

(** A thread: its position in the listing, if it is there, its registers with
    the memory it sees, and, for the theorems, the states in which it called
    [syscall_hook] and executed [ecall]. *)
Record thread := Thread {
  th_item : option nat;
  th_mach : machine;
  th_calls : list machine;
  th_ecalls : list machine
}.

Definition th_mem (c : thread) : memory := mem (th_mach c).
(** The others have changed the memory. *)
Definition th_sees (m : memory) (c : thread) : thread :=
  Thread (th_item c) (setmem m (th_mach c)) (th_calls c) (th_ecalls c).

(** The address of the listing, where native steps end. *)
#[local] Instance listing_at (hk : Z) : Routines :=
  fun a => if a =? hk then Some (fun _ => Illegal) else None.

Section Step.
Context {K : Kernel} (e : cenv) (hk : Z).

Definition th_position (c : thread) : option nat :=
  match th_item c with
  | Some i => Some i
  | None => if pc (th_mach c) =? hk then Some 0%nat else None
  end.

Definition at_call (i : nat) : bool :=
  match asm_text !! i with Some ACall => true | _ => false end.

Definition at_ecall (s : machine) : bool :=
  match fetch_decode (mem s) (pc s) with Some (Some IEcall, _) => true | _ => false end.

(** One step of a thread; [None] is a fault. *)
Definition tstep (c : thread) : option thread :=
  let s := th_mach c in
  match th_position c with
  | Some i =>
    '(l, s') ← item_step e i s;
    Some (Thread l s' (if at_call i then th_calls c ++ [s] else th_calls c) (th_ecalls c))
  | None =>
    match step (R := listing_at hk) s with
    | Next s' =>
      Some (Thread None s' (th_calls c) (if at_ecall s then th_ecalls c ++ [s] else th_ecalls c))
    | _ => None
    end
  end.

(** ** Interference *)

(** What the others may do to the memory, and what a step of the thread may. *)
Variables (rely : memory -> memory -> Prop) (guar : thread -> thread -> Prop).

(** Whatever the others do, the thread is not stuck and comes to [Q] in at most
    [n] steps of its own. *)
Fixpoint leads (Q : thread -> Prop) (n : nat) (c : thread) : Prop :=
  Q c \/
  match n with
  | O => False
  | S n => forall m, rely (th_mem c) m -> exists c', tstep (th_sees m c) = Some c' /\
             guar (th_sees m c) c' /\ leads Q n c'
  end.

Lemma leads_now Q n c : Q c -> leads Q n c.
Proof. destruct n; by left. Qed.

Lemma leads_le Q n k c : (n <= k)%nat -> leads Q n c -> leads Q k c.
Proof.
  revert k c. induction n as [|n IH]; intros k c L [H|H]; try done; try by apply leads_now.
  destruct k as [|k]; [lia|]. right. intros m Hm. destruct (H m Hm) as (c' & E & G & I).
  exists c'. split_and!; try done. apply IH; [lia | done].
Qed.

Lemma leads_trans P Q n k c : leads P n c -> (forall c, P c -> leads Q k c) -> leads Q (n + k) c.
Proof.
  intros L H. revert c L. induction n as [|n IH]; intros c [L|L]; try done.
  - by apply H.
  - apply (leads_le _ k); [lia | by apply H].
  - right. intros m Hm. destruct (L m Hm) as (c' & E & G & I). eauto.
Qed.

Lemma leads_impl P Q n c : (forall c, P c -> Q c) -> leads P n c -> leads Q n c.
Proof.
  intros H L. rewrite <- (Nat.add_0_r n). apply (leads_trans P); [done|].
  intros c' Hc. by apply leads_now, H.
Qed.

Hypothesis rely_preorder : PreOrder rely.

Lemma th_sees_same c : th_sees (th_mem c) c = c.
Proof. by destruct c as [? [] ? ?]. Qed.

(** A change by the others does no harm. *)
Lemma leads_sees Q n c m : (forall c, Q c -> Q (th_sees m c)) -> rely (th_mem c) m ->
  leads Q n c -> leads Q n (th_sees m c).
Proof.
  intros H R. destruct n as [|n]; intros [L|L]; try (by left; apply H); try done.
  right. intros m' R'. apply L. by etransitivity.
Qed.

(** A thread that has not come to [Q] can take a step, and each step brings it
    nearer. *)
Lemma leads_cases Q n c : leads Q n c -> Q c \/ (0 < n)%nat /\ exists c', tstep c = Some c'.
Proof.
  destruct n as [|n]; intros [L|L]; try done; try by left. right. split; [lia|].
  destruct (L (th_mem c) ltac:(reflexivity)) as (c' & E & _). rewrite th_sees_same in E. eauto.
Qed.

Lemma leads_own Q n c c' : leads Q n c -> ~ Q c -> tstep c = Some c' ->
  (0 < n)%nat /\ guar c c' /\ leads Q (n - 1) c'.
Proof.
  destruct n as [|n]; intros [L|L] N E; try done. split; [lia|].
  destruct (L (th_mem c) ltac:(reflexivity)) as (c1 & E1 & G & L1). rewrite th_sees_same in E1, G.
  assert (c1 = c') as -> by congruence. cbn [Nat.sub]. by rewrite Nat.sub_0_r.
Qed.
End Step.

(** ** What an interception relies on *)

Section Interception.
Context {K : Kernel} (e : cenv) (hk rgp : Z) (s : machine).

Local Abbreviation tstep := (tstep (K := K) e hk).
Local Abbreviation solo_run r := (@run (fun _ _ m => (r, m)) (listing_at hk)).
Local Abbreviation solo_step r := (@step (fun _ _ m => (r, m)) (listing_at hk)).

Definition in_code (x : Z) : bool :=
  ((pc s <=? x) && (x <? pc s + 4)) ||
  ((rgp - RET_SEQUENCE_SIZE <=? x) && (x <? rgp + TRAMPOLINE_SIZE)).
Definition in_var (x : Z) : bool := (ce_rgp_var e <=? x) && (x <? ce_rgp_var e + 8).
Definition in_frame (x : Z) : bool := (frame_of s <=? x) && (x <? xr s sp).

(** The site, the page, the variable and the frame of the thread. *)
Definition footprint (x : Z) : bool := in_code x || in_var x || in_frame x.

(** The others leave them as they are. *)
Definition spares (m m' : memory) : Prop := forall x, footprint x = true ->
  mbyte m' x = mbyte m x /\ m_prot m' x = m_prot m x.

#[local] Instance spares_preorder : PreOrder spares.
Proof.
  split; [done|]. intros m1 m2 m3 H1 H2 x Hx.
  destruct (H1 x Hx) as [<- <-]. by apply H2.
Qed.

(** The smallest memory the interception can run in. *)
Definition own_prot (x : Z) : option Z :=
  let p := Z.lor (if in_code x then PROT_EXEC else 0)
             (Z.lor (if in_var x then PROT_READ else 0)
                    (if in_frame x then Z.lor PROT_READ PROT_WRITE else 0)) in
  if p =? 0 then None else Some p.
Definition own_mem : memory := Mem (m_bytes (mem s)) own_prot.

(** What it allows. *)
Lemma own_prot_spec m flag x : m_prot m = own_prot -> rwx flag -> has_prot flag m x = true <->
  (flag = PROT_EXEC /\ in_code x = true) \/ (flag = PROT_READ /\ in_var x = true) \/
  ((flag = PROT_READ \/ flag = PROT_WRITE) /\ in_frame x = true).
Proof.
  intros E F. unfold has_prot. rewrite E. unfold own_prot.
  destruct F as [->|[->| ->]]; destruct (in_code x), (in_var x), (in_frame x);
    vm_compute; intuition discriminate.
Qed.

Lemma own_prot_footprint m flag x : m_prot m = own_prot -> rwx flag -> has_prot flag m x = true ->
  footprint x = true.
Proof.
  intros E F H. apply (own_prot_spec m flag x E F) in H. unfold footprint.
  destruct (in_code x), (in_var x), (in_frame x); try done. intuition discriminate.
Qed.

(** The thread [c] is where a run in the smallest memory has come to. *)
Record goes (calls ecalls : list machine) (l : option nat) (ss : machine) (c : thread) : Prop := {
  go_item : th_item c = l;
  go_mach : th_mach c = setmem (th_mem c) ss;
  go_covers : covers (mem ss) (th_mem c);
  go_prot : m_prot (mem ss) = own_prot;
  go_calls : th_calls c = calls;
  go_ecalls : th_ecalls c = ecalls
}.

Lemma covers_spares sm m m' : m_prot sm = own_prot -> covers sm m -> spares m m' -> covers sm m'.
Proof.
  intros E C S flag x F H. destruct (C flag x F H) as [P <-].
  destruct (S x (own_prot_footprint _ _ _ E F H)) as [<- Q]. split; [|done].
  unfold has_prot in *. by rewrite Q.
Qed.

Lemma goes_sees C E l ss c m : goes C E l ss c -> spares (th_mem c) m -> goes C E l ss (th_sees m c).
Proof.
  intros [G1 G2 G3 G4 G5 G6] H. constructor; try done.
  - unfold th_sees, th_mem. cbn [th_mach]. by rewrite G2.
  - by apply (covers_spares _ (th_mem c)).
Qed.

(** The memory the dispatcher leaves to the caller of [s], when it is called in [m]. *)
Definition call_mem (m : memory) : memory :=
  ce_scratch e (frame_of s)
    (syscall_hook (ce_hook_fn e) (ce_result0 e) (xr s a0) (xr s a1) (xr s a2) (xr s a3) (xr s a4)
       (xr s a5) (pc s + 4) (xr s a7) m).1.2.

(** What [syscall_hook] answers in the state [sh]. *)
Definition call_answer (sh : machine) : wrapper_ret * memory * list event :=
  syscall_hook (ce_hook_fn e) (ce_result0 e) (getx sh a0) (getx sh a1) (getx sh a2) (getx sh a3)
    (getx sh a4) (getx sh a5) (getx sh a6) (getx sh a7) (mem sh).

(** The registers that the listing keeps up to the call. *)
Definition arguments : list Z := [sp; a0; a1; a2; a3; a4; a5; a7].
Definition has_arguments (ss : machine) : Prop :=
  xr ss sp = frame_of s /\ forall r, r ∈ [a0; a1; a2; a3; a4; a5; a7] -> xr ss r = xr s r.

(** A step writes to the frame, or it is the call of the dispatcher, which comes
    first, or the system call, which follows when the answer is to forward it. *)
Definition quiet_step (c c' : thread) : Prop :=
  th_calls c' = th_calls c /\ th_ecalls c' = th_ecalls c /\
  agree_off (frame_of s) (xr s sp) (th_mem c') (th_mem c) /\ m_prot (th_mem c') = m_prot (th_mem c).
Definition hook_call (c c' : thread) : Prop :=
  th_calls c = [] /\ th_ecalls c = [] /\ th_calls c' = [th_mach c] /\ th_ecalls c' = [] /\
  has_arguments (th_mach c) /\ th_mem c' = call_mem (th_mem c).
Definition kernel_call (c c' : thread) : Prop :=
  exists sh, th_calls c = [sh] /\ th_ecalls c = [] /\ wr_a1 (call_answer sh).1.1 = 0 /\
    th_calls c' = [sh] /\ th_ecalls c' = [th_mach c] /\
    getx (th_mach c) a7 = xr s a7 /\ sys_args (th_mach c) = site_args s /\
    th_mem c' = (k_syscall (xr s a7) (site_args s) (th_mem c)).2.
Definition acts (c c' : thread) : Prop := quiet_step c c' \/ hook_call c c' \/ kernel_call c c'.

Local Abbreviation leads := (leads (K := K) e hk spares acts).
Local Abbreviation private := acts.

(** One step. *)
Lemma goes_leads P Q n C E l ss c : goes C E l ss c ->
  (forall c, goes C E l ss c -> exists c', tstep c = Some c' /\ private c c' /\ P c') ->
  (forall c', P c' -> leads Q n c') -> leads Q (S n) c.
Proof.
  intros G H L. right. intros m Hm. destruct (H (th_sees m c)) as (c' & E' & PR & Pc).
  { by apply goes_sees. }
  exists c'. auto.
Qed.

(** A step of the small machine that is taken in the large one too. *)
Lemma goes_moved C E l ss ss' c l' m' : goes C E l ss c -> moved (mem ss) (mem ss') (th_mem c) m' ->
  let c' := Thread l' (setmem m' ss') (th_calls c) (th_ecalls c) in
  private c c' /\ goes C E l' ss' c'.
Proof.
  intros [G1 G2 G3 G4 G5 G6] [M1 M2 M3 M4] c'. split.
  - left. split_and!; try done. intros x Hx. apply M3.
    destruct (has_prot PROT_WRITE (mem ss) x) eqn:W; [|done].
    apply (own_prot_spec _ _ x G4 rwx_w) in W. unfold in_frame in W.
    destruct W as [[? _]|[[? _]|[_ W]]]; try done. lia.
  - constructor; try done. by rewrite M2.
Qed.

(** ** Native steps *)

Lemma solo_step_cases r ss ss' : solo_step r ss = Next ss' ->
  (pc ss =? hk) = false /\ exists i len, fetch_decode (mem ss) (pc ss) = Some (Some i, len) /\
    @exec (fun _ _ m => (r, m)) i len ss = Next ss'.
Proof.
  unfold step, routine_at, listing_at. destruct (pc ss =? hk); [done|].
  destruct (fetch_decode _ _) as [[[i|] len]|]; try done. eauto.
Qed.

Lemma solo_step_eq r ss i len : (pc ss =? hk) = false ->
  fetch_decode (mem ss) (pc ss) = Some (Some i, len) ->
  solo_step r ss = @exec (fun _ _ m => (r, m)) i len ss.
Proof. intros N F. unfold step, routine_at, listing_at. by rewrite N, F. Qed.

(** The large machine fetches the same instruction. *)
Lemma goes_fetch C E ss c i len : goes C E None ss c -> (pc ss =? hk) = false ->
  fetch_decode (mem ss) (pc ss) = Some (Some i, len) ->
  tstep c = match exec i len (th_mach c) with
            | Next s' => Some (Thread None s' (th_calls c)
                (if decide (i = IEcall) then th_ecalls c ++ [th_mach c] else th_ecalls c))
            | _ => None
            end.
Proof.
  intros [G1 G2 G3 G4 G5 G6] N F. unfold Threads.tstep, th_position. rewrite G1.
  pose proof (covers_fetch_decode _ _ _ _ G3 F) as F'.
  assert (fetch_decode (mem (th_mach c)) (pc (th_mach c)) = Some (Some i, len)) as F2
    by (rewrite G2 at 2; exact F').
  assert (pc (th_mach c) = pc ss) as P by by rewrite G2.
  unfold step, routine_at, listing_at, at_ecall. rewrite F2, P, N.
  destruct (exec i len (th_mach c)); try done. by destruct i.
Qed.

Lemma native_quiet C E ss c i len r ss' : goes C E None ss c -> (pc ss =? hk) = false ->
  fetch_decode (mem ss) (pc ss) = Some (Some i, len) -> i <> IEcall ->
  @exec (fun _ _ m => (r, m)) i len ss = Next ss' ->
  exists c', tstep c = Some c' /\ private c c' /\ goes C E None ss' c'.
Proof.
  intros G N F NE X. rewrite (goes_fetch _ _ _ _ _ _ G N F), (go_mach _ _ _ _ _ G).
  destruct (exec_local _ K _ _ _ _ _ NE (go_covers _ _ _ _ _ G) X) as (mb' & -> & M & _).
  rewrite decide_False by done. eexists. split; [done|]. by eapply goes_moved.
Qed.

Lemma solo_exec_trace r i len ss ss' : @exec (fun _ _ m => (r, m)) i len ss = Next ss' ->
  trace ss' = trace ss ++ if decide (i = IEcall) then [sys_event ss] else [].
Proof.
  intros X. destruct (decide (i = IEcall)) as [->|N].
  - cbn [exec] in X. injection X as <-. by rewrite do_ecall_eq.
  - rewrite app_nil_r. by destruct (exec_local _ K i len ss ss' (mem ss) N (covers_refl _) X) as (mb' & _ & _ & T).
Qed.

Lemma solo_run_trace r n : forall ss ss', solo_run r n ss = Next ss' ->
  exists l, trace ss' = trace ss ++ l.
Proof.
  induction n as [|n IH]; intros ss ss' X; [injection X as <-; exists []; by rewrite app_nil_r|].
  cbn [run] in X. destruct (solo_step r ss) as [s1| | |] eqn:S1; try discriminate.
  destruct (solo_step_cases _ _ _ S1) as (_ & i & len & _ & X1).
  destruct (IH _ _ X) as (l & ->). rewrite (solo_exec_trace _ _ _ _ _ X1), <- app_assoc. eauto.
Qed.

(** A stretch of native code without system calls. *)
Lemma native_leads r n C E ss' : forall ss c, solo_run r n ss = Next ss' -> trace ss' = trace ss ->
  goes C E None ss c -> leads (goes C E None ss') n c.
Proof.
  induction n as [|n IH]; intros ss c X T G; [injection X as <-; by left|].
  cbn [run] in X. destruct (solo_step r ss) as [s1| | |] eqn:S1; try discriminate.
  destruct (solo_step_cases _ _ _ S1) as (N & i & len & F & X1).
  pose proof (solo_exec_trace _ _ _ _ _ X1) as T1. destruct (solo_run_trace _ _ _ _ X) as (l & T2).
  rewrite T, T1, <- app_assoc in T2. symmetry in T2. apply app_same in T2.
  destruct (decide (i = IEcall)) as [->|NE]; [discriminate|]. cbn in T2. subst l.
  apply (goes_leads (goes C E None s1) _ _ C E None ss); [done|..].
  - intros c1 G1. by apply (native_quiet C E ss c1 i len r).
  - intros c1. apply IH; [done|]. by rewrite T, T1, app_nil_r.
Qed.

(** ** The system call *)

Hypothesis kernel_spares : forall m, spares m (k_syscall (xr s a7) (site_args s) m).2.

Lemma native_ecall sh ss c len : goes [sh] [] None ss c -> wr_a1 (call_answer sh).1.1 = 0 ->
  (pc ss =? hk) = false -> fetch_decode (mem ss) (pc ss) = Some (Some IEcall, len) ->
  getx ss a7 = xr s a7 -> sys_args ss = site_args s ->
  exists c', tstep c = Some c' /\ private c c' /\
    goes [sh] [th_mach c] None
      (setpc (pc ss ⊞ len) (@do_ecall (fun _ _ m => ((k_syscall (xr s a7) (site_args s) (th_mem c)).1, m)) ss)) c'.
Proof.
  intros G W N F E7 EA. rewrite (goes_fetch _ _ _ _ _ _ G N F). cbn [exec].
  rewrite decide_True by done. pose proof G as [G1 G2 G3 G4 G5 G6].
  assert (getx (th_mach c) a7 = xr s a7) as C7 by by rewrite G2.
  assert (sys_args (th_mach c) = site_args s) as CA by by rewrite G2.
  eexists. split; [done|]. rewrite !do_ecall_eq. unfold sys_result, sys_memory.
  rewrite C7, CA, E7, EA, G5, G6. cbn [app]. split; [right; right; exists sh; by split_and!|].
  constructor; try done.
  - unfold th_mem. cbn [th_mach setpc mem pc]. unfold setmem. cbn [pc xr fr trace].
    by rewrite G2.
  - cbn [mem setpc]. apply (covers_spares _ (th_mem c)); [done|done|]. apply kernel_spares.
Qed.

(** A stretch of native code with one system call. *)
Lemma ecall_leads P n sh : wr_a1 (call_answer sh).1.1 = 0 -> forall ss c,
  (forall r, exists ss' ev, solo_run r n ss = Next ss' /\ trace ss' = trace ss ++ [ev] /\
     ev_nr ev = xr s a7 /\ ev_args ev = site_args s /\ P r ss') ->
  goes [sh] [] None ss c ->
  leads (fun c' => exists sk ss', goes [sh] [sk] None ss' c' /\ getx sk a7 = xr s a7 /\
    sys_args sk = site_args s /\ trace ss' = trace ss ++ [sys_event sk] /\
    P (k_syscall (xr s a7) (site_args s) (mem sk)).1 ss') n c.
Proof.
  intros W. induction n as [|n IH]; intros ss c H G.
  { destruct (H 0) as (ss' & ev & [= <-] & T & _). symmetry in T. by apply app_same in T. }
  assert (exists i len, (pc ss =? hk) = false /\ fetch_decode (mem ss) (pc ss) = Some (Some i, len))
    as (i & len & N & F).
  { destruct (H 0) as (ss' & ev & X & _). cbn [run] in X.
    destruct (solo_step 0 ss) as [s1| | |] eqn:S1; try discriminate.
    destruct (solo_step_cases _ _ _ S1) as (N & i & len & F & _). eauto. }
  assert (forall r, exists s1 ss' ev, @exec (fun _ _ m => (r, m)) i len ss = Next s1 /\
    solo_run r n s1 = Next ss' /\ trace ss' = trace ss ++ [ev] /\
    ev_nr ev = xr s a7 /\ ev_args ev = site_args s /\ P r ss') as H1.
  { intros r. destruct (H r) as (ss' & ev & X & HP). cbn [run] in X.
    rewrite (solo_step_eq r _ _ _ N F) in X. destruct (exec _ _ _) as [s1| | |]; try discriminate.
    by exists s1, ss', ev. }
  destruct (decide (i = IEcall)) as [->|NE].
  - assert (getx ss a7 = xr s a7 /\ sys_args ss = site_args s) as [E7 EA].
    { destruct (H1 0) as (s1 & ss' & ev & X1 & X & T & <- & <- & _).
      pose proof (solo_exec_trace _ _ _ _ _ X1) as T1. rewrite decide_True in T1 by done.
      destruct (solo_run_trace _ _ _ _ X) as (l & T2). rewrite T, T1, <- app_assoc in T2.
      apply app_inv_head in T2. by injection T2 as ->. }
    eapply (goes_leads _ _ _ [sh] [] None ss); [done| |].
    { intros c1 G1. destruct (native_ecall sh ss c1 len G1 W N F E7 EA) as (c' & E' & PR & G').
      exists c'. split_and!; [done..|]. exact (ex_intro _ c1 (conj G1 G')). }
    intros c' (c1 & G1 & G'). destruct (H1 (k_syscall (xr s a7) (site_args s) (th_mem c1)).1)
      as (s1 & ss' & ev & X1 & X & T & _ & _ & HP).
    pose proof (solo_exec_trace _ _ _ _ _ X1) as T1. rewrite decide_True in T1 by done.
    cbn [exec] in X1. injection X1 as <-.
    assert (trace ss' = trace ss ++ [sys_event ss]) as T3.
    { destruct (solo_run_trace _ _ _ _ X) as (l & T2). rewrite T, T1, <- app_assoc in T2.
      apply app_inv_head in T2. injection T2 as -> _. done. }
    eapply leads_impl; [|eapply native_leads; [exact X|congruence|exact G']].
    intros c2 G2. exists (th_mach c1), ss'.
    assert (sys_event (th_mach c1) = sys_event ss) as -> by by rewrite (go_mach _ _ _ _ _ G1).
    rewrite (go_mach _ _ _ _ _ G1) at 2 3. split_and!; done.
  - destruct (H1 0) as (s1 & _ & _ & X1 & _).
    pose proof (solo_exec_trace _ _ _ _ _ X1) as T1. rewrite decide_False, app_nil_r in T1 by done.
    apply (goes_leads (goes [sh] [] None s1) _ _ [sh] [] None ss); [done|..].
    + intros c1 G1. by apply (native_quiet [sh] [] ss c1 i len 0).
    + intros c' G'. rewrite <- T1. apply IH; [|done]. rewrite T1. intros r.
      destruct (H1 r) as (s1' & ss' & ev & X1' & HP). exists ss', ev.
      assert (s1' = s1) as ->; [|tauto].
      enough (@exec (fun _ _ m => (r, m)) i len ss = @exec (fun _ _ m => (0, m)) i len ss) by congruence.
      by destruct i.
Qed.

(** ** The listing *)

(** An item after the call: it does not call, and goes on after the call. *)
Definition onward (a : asm) : bool :=
  quiet a &&
  match a with
  | ABeq _ _ l | ABeqz _ l | AJ l =>
    match find_label l asm_text with Some j => (40 <=? j)%nat | None => true end
  | _ => true
  end.

Lemma onward_after i a : (40 <= i)%nat -> asm_text !! i = Some a -> onward a = true.
Proof.
  intros L H. assert (forallb onward (drop 40 asm_text) = true) as F by (vm_compute; reflexivity).
  rewrite forallb_forall in F. apply F, list_elem_of_In, (list_elem_of_lookup_2 _ (i - 40)).
  rewrite lookup_drop, <- H. f_equal. lia.
Qed.

Lemma item_onward (K' : Kernel) e' i a ss j ss' : asm_text !! i = Some a -> (40 <= i)%nat ->
  item_step (K := K') e' i ss = Some (Some j, ss') -> (40 <= j)%nat.
Proof.
  intros A L H. pose proof (onward_after i a L A) as O. unfold item_step in H. rewrite A in H.
  assert (forall lb, match find_label lb asm_text with Some j => (40 <=? j)%nat | None => true end = true ->
    (fun j => (Some j, ss)) <$> find_label lb asm_text = Some (Some j, ss') -> (40 <= j)%nat) as Goto.
  { intros lb. destruct (find_label lb asm_text); [|done]. intros Ol [= -> _]. by apply Nat.leb_le. }
  apply andb_true_iff in O as [_ O].
  destruct a as [| | | |ins|? ? lb|? lb|lb| |]; try discriminate; try (injection H; lia).
  - destruct (exec ins 4 ss); try discriminate. destruct ins; injection H; try lia; done.
  - destruct (_ =? _); [by apply (Goto lb) | injection H; lia].
  - destruct (_ =? _); [by apply (Goto lb) | injection H; lia].
  - by apply (Goto lb).
Qed.

(** One item. *)
Lemma item_quiet (K' : Kernel) e' C E i a ss c l ss' : ce_rgp_var e' = ce_rgp_var e ->
  goes C E (Some i) ss c -> asm_text !! i = Some a -> quiet a = true ->
  item_step (K := K') e' i ss = Some (l, ss') ->
  exists c', tstep c = Some c' /\ private c c' /\ goes C E l ss' c'.
Proof.
  intros V G A Q X. unfold Threads.tstep, th_position. rewrite (go_item _ _ _ _ _ G).
  destruct (item_local K' K e' e i a ss l ss' (th_mem c) A Q (eq_sym V) (go_covers _ _ _ _ _ G) X)
    as (mb' & X' & M & _). rewrite <- (go_mach _ _ _ _ _ G) in X'.
  rewrite X'. cbn [mbind option_bind]. eexists. split; [done|].
  replace (at_call i) with false by (unfold at_call; rewrite A; by destruct a).
  by eapply goes_moved.
Qed.

Lemma listing_after (K' : Kernel) e' C E n s2 : ce_rgp_var e' = ce_rgp_var e -> forall i ss c,
  (40 <= i)%nat -> arun (K := K') e' asm_text n i ss = AExit s2 -> goes C E (Some i) ss c ->
  leads (goes C E None s2) n c.
Proof.
  intros V. induction n as [|n IH]; intros i ss c L X G; [done|].
  destruct (arun_item _ _ _ _ _ X) as (l & s1 & I & X').
  destruct (asm_text !! i) as [a|] eqn:A; [|unfold item_step in I; by rewrite A in I].
  pose proof (onward_after i a L A) as O. apply andb_true_iff in O as [Q _].
  apply (goes_leads (goes C E l s1) _ _ C E (Some i) ss); [done|..].
  - intros c1 G1. by apply (item_quiet K' e' C E i a ss).
  - intros c1 G1. destruct l as [j|]; [|subst; by apply leads_now].
    apply (IH j s1); [|done..]. by apply (item_onward K' e' i a ss j s1).
Qed.

(** ** The call of the dispatcher *)

(** A dispatcher that gives the answer of [sh] and leaves the memory alone. *)
Definition answering (sh : machine) : cenv := {|
  ce_hook_fn := (fun (h : hook_fn_t) _ _ _ _ _ _ _ m =>
    let o := h (getx sh a7) (getx sh a0) (getx sh a1) (getx sh a2) (getx sh a3) (getx sh a4)
               (getx sh a5) (mem sh) in
    {| ho_code := ho_code o; ho_result := ho_result o; ho_mem := m; ho_events := ho_events o |})
    <$> ce_hook_fn e;
  ce_result0 := ce_result0 e;
  ce_rgp_var := ce_rgp_var e;
  ce_clob_x := fun _ => ce_clob_x e sh;
  ce_clob_f := fun _ => ce_clob_f e sh;
  ce_scratch := fun _ m => m |}.

Lemma answering_answer sh x1 x2 x3 x4 x5 x6 x7 m :
  syscall_hook (ce_hook_fn (answering sh)) (ce_result0 (answering sh)) (getx sh a0) x1 x2 x3 x4 x5 x6 x7 m =
  ((call_answer sh).1.1, m, (call_answer sh).2).
Proof.
  unfold call_answer, syscall_hook, answering. cbn [ce_hook_fn ce_result0].
  destruct (ce_hook_fn e) as [h|]; [|done]. cbn. by case_match.
Qed.

Lemma answering_call ss m : let sh := setmem m ss in
  call_syscall_hook e sh =
    setmem (mem (call_syscall_hook e sh)) (call_syscall_hook (answering sh) ss) /\
  mem (call_syscall_hook (answering sh) ss) = mem ss.
Proof.
  intros sh. unfold call_syscall_hook at 3 4. change (getx ss a0) with (getx sh a0).
  rewrite answering_answer. unfold call_syscall_hook. fold (call_answer sh).
  by destruct (call_answer sh) as [[w m'] evs].
Qed.

Hypothesis hook_spares : forall m, spares m (call_mem m).

Lemma call_mem_eq sh : has_arguments sh -> mem (call_syscall_hook e sh) = call_mem (mem sh).
Proof.
  intros [Hsp Ha]. unfold call_syscall_hook, call_mem.
  change (getx sh) with (fun r => if r =? 0 then 0 else xr sh r). cbn beta.
  cbn [Z.eqb Pos.eqb a0 a1 a2 a3 a4 a5 a6 a7 sp]. rewrite Hsp, !Ha, (Ha a7)
    by (apply (bool_decide_unpack _); vm_compute; exact I).
  unfold syscall_hook. destruct (ce_hook_fn e); [|done]. by destruct (negb _).
Qed.

Lemma call_step ss c : goes [] [] (Some 39%nat) ss c -> has_arguments ss ->
  exists c', tstep c = Some c' /\ private c c' /\
    goes [th_mach c] [] (Some 40%nat) (call_syscall_hook (answering (th_mach c)) ss) c'.
Proof.
  intros [G1 G2 G3 G4 G5 G6] HA. unfold Threads.tstep, th_position. rewrite G1.
  change (item_step e 39 (th_mach c)) with (Some (Some 40%nat, call_syscall_hook e (th_mach c))).
  change (at_call 39) with true. cbn [mbind option_bind]. eexists. split; [done|]. split.
  { right; left. rewrite G5. split_and!; try done; [by rewrite G2|].
    unfold th_mem. cbn [th_mach]. apply call_mem_eq. by rewrite G2. }
  destruct (answering_call ss (th_mem c)) as [E1 E2]. cbv zeta in *. rewrite <- G2 in E1, E2.
  constructor; try done; cbn [th_calls th_ecalls]; rewrite ?G5, ?G6; try (done || congruence).
  rewrite E2. apply (covers_spares _ (th_mem c)); [done|done|]. unfold th_mem. cbn [th_mach].
  rewrite call_mem_eq; [apply hook_spares|]. by rewrite G2.
Qed.

(** ** Up to the call *)

(** An item that goes on to the next one and keeps the arguments. *)
Definition calm (a : asm) : bool :=
  match a with
  | ALabel _ | AI (IMem (IStore _ _ _ _)) | AI (IMem (IFStore _ _ _ _)) => true
  | AMv rd _ | ALi rd _ | ALa rd | AI (IMem (ILoad _ _ rd _ _)) => bool_decide (rd ∉ arguments)
  | _ => false
  end.

Lemma calm_before i a : (i < 39)%nat -> i <> 6%nat -> asm_text !! i = Some a -> calm a = true.
Proof.
  intros L N A. do 39 (destruct i as [|i]; [injection A as <-; first [vm_compute; reflexivity | done]|]).
  lia.
Qed.

Lemma item_calm (K' : Kernel) e' i a ss l ss' : asm_text !! i = Some a -> calm a = true ->
  has_arguments ss -> item_step (K := K') e' i ss = Some (l, ss') -> l = Some (S i) /\ has_arguments ss'.
Proof.
  intros A Q H X. assert (forall rd v, bool_decide (rd ∉ arguments) = true -> has_arguments (setx rd v ss)) as S.
  { intros rd v ND%bool_decide_eq_true. unfold setx. case_match; [done|].
    assert (forall r, r ∈ arguments -> r <> rd) as NE by (by intros r Hr ->).
    destruct H as [H1 H2]. split; cbn [xr].
    - rewrite upd_ne; [done|]. apply NE. left.
    - intros r Hr. rewrite upd_ne; [by apply H2|]. apply NE. by right. }
  unfold item_step in X. rewrite A in X.
  destruct a as [| | | |ins| | | | |]; try discriminate; try (injection X as <- <-; auto).
  destruct ins as [mi| | | | | | | | | | | |]; try discriminate. cbn [exec] in X. unfold exec_mem_at in X.
  destruct mi; try discriminate; repeat case_match; try discriminate; simplify_eq; split; try done.
  by apply S.
Qed.

Lemma item_env (K' : Kernel) e1 e2 i a ss : asm_text !! i = Some a -> quiet a = true ->
  ce_rgp_var e1 = ce_rgp_var e2 -> item_step (K := K') e1 i ss = item_step (K := K') e2 i ss.
Proof. intros A Q V. unfold item_step. rewrite A, V. by destruct a. Qed.

Hypothesis not_sigreturn : xr s a7 <> 139.

(** Before the call every item but the branch at 6, which is not taken, is calm. *)
Lemma item_before (K' : Kernel) e' i ss l ss' : (i < 39)%nat -> has_arguments ss ->
  (i = 6%nat -> xr ss t0 = 139) -> item_step (K := K') e' i ss = Some (l, ss') ->
  (exists a, asm_text !! i = Some a /\ quiet a = true) /\
  l = Some (S i) /\ has_arguments ss' /\ (S i = 6%nat -> xr ss' t0 = 139).
Proof.
  intros L H T X. destruct (asm_text !! i) as [a|] eqn:A; [|unfold item_step in X; by rewrite A in X].
  destruct (decide (i = 6%nat)) as [->|N].
  - injection A as <-. split; [by eexists|]. unfold item_step in X.
    change (asm_text !! 6%nat) with (Some (ABeq a7 t0 L_do_rt_sigreturn)) in X. cbv beta iota zeta in X.
    change (getx ss a7) with (xr ss a7) in X. change (getx ss t0) with (xr ss t0) in X.
    rewrite T, (proj2 H) in X by (done || (apply (bool_decide_unpack _); vm_compute; exact I)).
    rewrite (proj2 (Z.eqb_neq _ _) not_sigreturn) in X. by injection X as <- <-.
  - pose proof (calm_before i a L N A) as Q. split.
    { exists a. split; [done|]. destruct a as [| | | |ins| | | | |]; try done. by destruct ins. }
    destruct (item_calm K' e' i a ss l ss' A Q H X) as [-> H']. split_and!; try done.
    intros [= ->]. injection X as <-. done.
Qed.

Lemma listing_before (K' : Kernel) P n : forall i ss c, (i <= 39)%nat -> has_arguments ss ->
  (i = 6%nat -> xr ss t0 = 139) ->
  (forall sh, has_arguments sh ->
     exists s2, arun (K := K') (answering sh) asm_text n i ss = AExit s2 /\ P sh s2) ->
  goes [] [] (Some i) ss c ->
  leads (fun c' => exists sh s2, goes [sh] [] None s2 c' /\ has_arguments sh /\ P sh s2) n c.
Proof.
  induction n as [|n IH]; intros i ss c L H T X G; [by destruct (X ss H) as (? & ? & _)|].
  destruct (decide (i = 39%nat)) as [->|N].
  - eapply (goes_leads _ _ _ [] [] (Some 39%nat) ss); [done| |].
    { intros c1 G1. destruct (call_step ss c1 G1 H) as (c' & E' & PR & G').
      exists c'. split_and!; [done..|]. exact (ex_intro _ c1 (conj G1 G')). }
    intros c' (c1 & G1 & G').
    assert (has_arguments (th_mach c1)) as H1 by by rewrite (go_mach _ _ _ _ _ G1).
    destruct (X (th_mach c1) H1) as (s2 & X2 & HP). rewrite arun_call in X2 by reflexivity.
    eapply leads_impl; [|eapply (listing_after K' (answering (th_mach c1))); [done| |exact X2|exact G']; lia].
    intros c2 G2. by exists (th_mach c1), s2.
  - destruct (X ss H) as (s2 & X2 & _). destruct (arun_item _ _ _ _ _ X2) as (l & s1 & I & _).
    destruct (item_before K' _ i ss l s1 ltac:(lia) H T I) as ((a & A & Q) & -> & H1 & T1).
    apply (goes_leads (goes [] [] (Some (S i)) s1) _ _ [] [] (Some i) ss); [done|..].
    { intros c1 G1. by apply (item_quiet K' (answering ss) [] [] i a ss). }
    intros c1. apply IH; [lia|done|done|]. intros sh Hsh. destruct (X sh Hsh) as (s3 & X3 & HP).
    destruct (arun_item _ _ _ _ _ X3) as (l & s1' & I' & X4).
    rewrite (item_env K' _ (answering ss) i a) in I' by done. rewrite I in I'. injection I' as <- <-.
    by exists s3.
Qed.

(** ** The interception *)

(** The answers of the frozen dispatcher. *)
Lemma answering_mem sh x0 x1 x2 x3 x4 x5 x6 x7 m :
  (syscall_hook (ce_hook_fn (answering sh)) (ce_result0 (answering sh)) x0 x1 x2 x3 x4 x5 x6 x7 m).1.2 = m.
Proof.
  unfold syscall_hook, answering. cbn [ce_hook_fn ce_result0].
  destruct (ce_hook_fn e) as [h|]; [|done]. cbn. by case_match.
Qed.

Lemma answering_intercept sh m : has_arguments sh ->
  let w := intercept_answer (answering sh) (setmem m s) in
  w.1.1 = (call_answer sh).1.1 /\ w.2 = (call_answer sh).2.
Proof.
  intros [_ H]. unfold intercept_answer. change (xr (setmem m s)) with (xr s).
  rewrite <- (H a0) by (apply (bool_decide_unpack _); vm_compute; exact I).
  change (xr sh a0) with (getx sh a0). by rewrite answering_answer.
Qed.

Hypothesis shape : site_shape (R := listing_at hk) e hk rgp s.

Lemma own_code base ws : code_at (mem s) base ws ->
  (forall x, base <= x < base + 4 * Z.of_nat (length ws) -> in_code x = true) -> code_at own_mem base ws.
Proof.
  intros [W _] H. split; [rewrite <- W at 2; by apply mwords_ext|]. intros x Hx.
  apply (own_prot_spec own_mem PROT_EXEC x eq_refl rwx_x). left. auto.
Qed.

(** The site can be run in the smallest memory. *)
Lemma own_shape sh : site_shape (R := listing_at hk) (answering sh) hk rgp (setmem own_mem s).
Proof.
  destruct shape as [S1 S2 S3 S4 S5 S6 S7 S8 S9 S10 S11 S12 S13 _ _ _].
  assert (answered_mem (answering sh) (setmem own_mem s) = intercept_mem (setmem own_mem s)) as AM
    by (unfold answered_mem, intercept_answer; by rewrite answering_mem).
  constructor; try done; try (by rewrite AM).
  - apply own_code; [done|]. intros x Hx. cbn in Hx. unfold in_code. case_bools; lia || done.
  - apply own_code; [done|]. intros x Hx. rewrite trampoline_words_length in Hx.
    unfold in_code, RET_SEQUENCE_SIZE, TRAMPOLINE_SIZE in *. case_bools; lia || done.
  - apply own_code; [done|]. intros x Hx. cbn in Hx.
    unfold in_code, RET_SEQUENCE_SIZE, TRAMPOLINE_SIZE in *. case_bools; lia || done.
  - split; [apply S9|]. intros x Hx. change (frame_of s <= x < xr s sp) in Hx.
    assert (in_frame x = true) by (unfold in_frame; case_bools; lia || done).
    split; apply (own_prot_spec own_mem _ x eq_refl); auto with vp.
  - destruct S11 as (V1 & V2 & V3 & V4). split_and!; try done. intros x Hx.
    change (ce_rgp_var e <= x < ce_rgp_var e + 8) in Hx.
    apply (own_prot_spec own_mem PROT_READ x eq_refl rwx_r). right; left. split; [done|].
    unfold in_var. case_bools; lia || done.
Qed.

(** The smallest memory is part of the memory of the process. *)
Lemma own_covers : covers own_mem (mem s).
Proof.
  intros flag x F H. split; [|done]. apply (own_prot_spec own_mem flag x eq_refl F) in H.
  destruct shape as [[_ S1] _ _ _ [_ S5] [_ S6] _ _ [_ S9] _ (_ & _ & _ & S11) _ _ _ _ _].
  rewrite trampoline_words_length in S5. cbn in S1, S6.
  destruct H as [[-> H]|[[-> H]|[[->| ->] H]]].
  - unfold in_code in H. apply orb_true_iff in H as [H|H]; [apply S1; lia|].
    unfold RET_SEQUENCE_SIZE, TRAMPOLINE_SIZE in *.
    destruct (decide (x < rgp)); [apply S6; lia | apply S5; lia].
  - apply S11. unfold in_var in H. lia.
  - apply S9. unfold in_frame in H. lia.
  - apply S9. unfold in_frame in H. lia.
Qed.

(** The thread is back after the site: it has called the dispatcher once, with
    the arguments of the site, and the kernel once when the answer was to
    forward the call. *)
Definition back (c : thread) : Prop :=
  th_item c = None /\ same_context s (th_mach c) /\
  exists sh, th_calls c = [sh] /\ has_arguments sh /\
    let w := (call_answer sh).1.1 in
    trace (th_mach c) = trace s ++ (call_answer sh).2 ++ (sys_event <$> th_ecalls c) /\
    (wr_a1 w = 1 /\ th_ecalls c = [] /\ xr (th_mach c) a0 = wr_a0 w \/
     wr_a1 w = 0 /\ exists sk, th_ecalls c = [sk] /\ getx sk a7 = xr s a7 /\
       sys_args sk = site_args s /\ xr (th_mach c) a0 = sys_result sk).

Lemma return_leads sh s2 c : has_arguments sh ->
  dispatched (R := listing_at hk) (answering sh) rgp (setmem own_mem s) s2 ->
  goes [sh] [] None s2 c -> leads back 6 c.
Proof.
  intros H D G. destruct (answering_intercept sh own_mem H) as [EW EV]. cbv zeta in EW, EV.
  pose proof (own_shape sh) as SH. set (so := setmem own_mem s) in *.
  pose proof (di_trace _ _ _ _ D) as T. rewrite EV in T. change (trace so) with (trace s) in T.
  assert (wr_a1 (call_answer sh).1.1 = 0 -> forall n, (n <= 6)%nat ->
    (forall r, exists s' ev, solo_run r n s2 = Next s' /\ same_context so s' /\ xr s' a0 = u64 r /\
       trace s' = trace s ++ (call_answer sh).2 ++ [ev] /\ ev_nr ev = xr s a7 /\ ev_args ev = site_args s) ->
    leads back 6 c) as Forward.
  { intros W n Hn X. apply (leads_le _ _ _ _ _ n); [done|].
    eapply leads_impl; [|eapply (ecall_leads (fun r s' => same_context so s' /\ xr s' a0 = u64 r)); [exact W| |exact G]].
    - intros c' (sk & s' & G' & K7 & KA & T' & CX & A0). pose proof G' as [G1 G2 _ _ G5 G6].
      split; [done|]. split; [by rewrite G2|]. exists sh. split; [done|]. split; [done|]. cbv zeta.
      rewrite G6, G2. split; [cbn; by rewrite T', T, <- app_assoc|]. right. split; [done|].
      exists sk. split_and!; try done. cbn. rewrite A0. unfold sys_result. by rewrite K7, KA.
    - intros r. destruct (X r) as (s' & ev & XR & CX & A0 & TX & N & A). exists s', ev.
      rewrite T, <- app_assoc. split_and!; done. }
  assert (wr_a1 (call_answer sh).1.1 = 0 \/ wr_a1 (call_answer sh).1.1 = 1) as [W|W]
    by apply syscall_hook_flag.
  - destruct (decide (xr s a7 = 220 \/ xr s a7 = 435)) as [N|N].
    + apply (Forward W 5%nat); [lia|]. intros r.
      destruct (back_clone (K := fun _ _ m => (r, m)) _ hk rgp so s2 SH N ltac:(by rewrite EW) D ltac:(done))
        as (s' & ev & X & CX & A0 & _ & T' & N' & A & _). exists s', ev. rewrite EV in T'. by split_and!.
    + apply (Forward W 6%nat); [lia|]. intros r.
      destruct (back_forwarded (K := fun _ _ m => (r, m)) _ hk rgp so s2 SH
        ltac:(rewrite !not_elem_of_cons; split_and!; try tauto; apply not_elem_of_nil)
        ltac:(by rewrite EW) D ltac:(done) ltac:(done))
        as (s' & ev & X & CX & A0 & _ & T' & N' & A). exists s', ev. rewrite EV in T'. by split_and!.
  - apply (leads_le _ _ _ _ _ 5); [lia|].
    destruct (back_handled (K := fun _ _ m => (0, m)) _ hk rgp so s2 SH D ltac:(by rewrite EW))
      as (s' & X & CX & A0 & _ & T'). rewrite EW in A0. rewrite EV in T'. change (trace so) with (trace s) in T'.
    eapply leads_impl; [|eapply native_leads; [exact X|congruence|exact G]].
    intros c' [G1 G2 _ _ G5 G6]. split; [done|]. split; [by rewrite G2|].
    exists sh. split; [done|]. split; [done|]. cbv zeta. rewrite G6, G2. cbn [fmap list_fmap].
    rewrite app_nil_r. split; [done|]. by left.
Qed.

(** From the site to the instruction after it: 21 steps to the listing, less
    than a hundred in it, and at most 6 on the return path. *)
Definition interception_steps : nat := 21 + (100 + 6).

Lemma listing_entry C E ss c : goes C E None ss c -> pc ss = hk ->
  exists c', tstep c = Some c' /\ private c c' /\ goes C E (Some 1%nat) ss c'.
Proof.
  intros G P. assert (goes C E (Some 0%nat) ss (Thread (Some 0%nat) (th_mach c) (th_calls c) (th_ecalls c))) as G0
    by (by destruct G).
  destruct (item_quiet (fun _ _ m => (0, m)) e C E 0 (ALabel L_asm_syscall_hook) ss _ _ ss eq_refl G0
    eq_refl eq_refl eq_refl) as (c' & X & PR & G').
  exists c'. split_and!; try done. rewrite <- X. unfold Threads.tstep, th_position.
  rewrite (go_item _ _ _ _ _ G). replace (pc (th_mach c) =? hk) with true; [done|].
  rewrite (go_mach _ _ _ _ _ G). cbn [pc setmem]. by rewrite P, Z.eqb_refl.
Qed.

Lemma interception_leads : leads back interception_steps (Thread None s [] []).
Proof.
  assert (goes [] [] None (setmem own_mem s) (Thread None s [] [])) as G.
  { constructor; try done; [by destruct s | apply own_covers]. }
  destruct (way_in (K := fun _ _ m => (0, m)) (R := listing_at hk) _ hk rgp _ (own_shape s))
    as (s1 & X & A1 & A2 & A3 & A4 & A5 & A6 & A7 & A8).
  assert (arrived hk (setmem own_mem s) s1) as A by done.
  assert (has_arguments s1) as H.
  { split; [exact A2|]. intros r Hr. apply A4. revert r Hr. apply Forall_forall, (bool_decide_unpack _).
    vm_compute. exact I. }
  unfold interception_steps. eapply leads_trans; [eapply native_leads; [exact X|done|exact G]|].
  intros c1 G1. apply (leads_trans _ _ _ _ (fun c => exists sh s2, goes [sh] [] None s2 c /\
    has_arguments sh /\ dispatched (R := listing_at hk) (answering sh) rgp (setmem own_mem s) s2));
    [|intros c2 (sh & s2 & G2 & H2 & D); by apply (return_leads sh s2)].
  apply (goes_leads (goes [] [] (Some 1%nat) s1) _ _ [] [] None s1); [done|..].
  { intros c2 G2. by apply listing_entry. }
  intros c2 G2. refine (listing_before (fun _ _ m => (0, m)) _ 99 1 s1 c2 _ H _ _ G2); [lia|done|].
  intros sh Hsh. destruct (listing_run (K := fun _ _ m => (0, m)) (answering sh) hk rgp _ s1 (own_shape sh) A not_sigreturn)
    as (s2 & X2 & D).
  rewrite (arun_label _ _ _ _ _ L_asm_syscall_hook) in X2 by reflexivity. by exists s2.
Qed.
End Interception.

(** ** Any number of threads *)

Section Crowd.
Context {K : Kernel} (e : cenv) (hk rgp : Z) (ss : list machine).

(** The threads [ss] share the memory; each is at a patched site and has a
    frame of its own.  Neither the hook nor the kernel, called for one of them,
    writes to what another relies on. *)
Record crowd_ok : Prop := {
  cr_mem : forall s s', s ∈ ss -> s' ∈ ss -> mem s = mem s';
  cr_site : forall s, s ∈ ss -> site_shape (R := listing_at hk) e hk rgp s /\ xr s a7 <> 139;
  cr_apart : forall i j s s', i <> j -> ss !! i = Some s -> ss !! j = Some s' ->
    forall x, in_frame s x = true -> footprint e rgp s' x = false;
  cr_hook : forall s s', s ∈ ss -> s' ∈ ss -> forall m, spares e rgp s' m (call_mem e s m);
  cr_kernel : forall s s', s ∈ ss -> s' ∈ ss ->
    forall m, spares e rgp s' m (k_syscall (xr s a7) (site_args s) m).2
}.

(** The threads with the number of steps each has taken. *)
Local Abbreviation crowd := (list (nat * thread)).
Definition all_see (m : memory) (P : crowd) : crowd := (fun nc => (nc.1, th_sees m nc.2)) <$> P.
Definition crowd_start : crowd := (fun s => (0%nat, Thread None s [] [])) <$> ss.

(** A thread that is not back takes a step, or the rest of the process changes
    the memory, which leaves alone what the interceptions that are not over rely
    on: threads that are back, and those that make no system call. *)
Inductive crowd_step : crowd -> crowd -> Prop :=
| crowd_own P i s n c c' : ss !! i = Some s -> P !! i = Some (n, c) -> ~ back e s c ->
    tstep e hk c = Some c' -> crowd_step P (all_see (th_mem c') (<[i := (S n, c')]> P))
| crowd_rest P m :
    (forall i s n c, ss !! i = Some s -> P !! i = Some (n, c) ->
       back e s c \/ spares e rgp s (th_mem c) m) ->
    crowd_step P (all_see m P).

(** The invariant. *)
Record on_the_way (P : crowd) : Prop := {
  ow_mem : forall i j n c n' c', P !! i = Some (n, c) -> P !! j = Some (n', c') -> th_mem c = th_mem c';
  ow_leads : forall i s n c, ss !! i = Some s -> P !! i = Some (n, c) ->
    (n <= interception_steps)%nat /\
    leads e hk (spares e rgp s) (acts e s) (back e s) (interception_steps - n) c
}.

Lemma back_sees s m c : back e s c -> back e s (th_sees m c).
Proof. done. Qed.

Lemma all_see_lookup m P i nc : all_see m P !! i = Some nc ->
  exists n c, P !! i = Some (n, c) /\ nc = (n, th_sees m c).
Proof. unfold all_see. rewrite list_lookup_fmap. intros ([n c] & -> & ->)%fmap_Some. eauto. Qed.

Lemma all_see_mem m P i j n c n' c' :
  all_see m P !! i = Some (n, c) -> all_see m P !! j = Some (n', c') -> th_mem c = th_mem c'.
Proof. by intros (? & ? & _ & [= -> ->])%all_see_lookup (? & ? & _ & [= -> ->])%all_see_lookup. Qed.

(** A step of one thread spares the others. *)
Lemma acts_spares i j s s' c c' : crowd_ok -> i <> j -> ss !! i = Some s -> ss !! j = Some s' ->
  acts e s c c' -> spares e rgp s' (th_mem c) (th_mem c').
Proof.
  intros O N L L' T. pose proof (list_elem_of_lookup_2 _ _ _ L) as E.
  pose proof (list_elem_of_lookup_2 _ _ _ L') as E'.
  destruct T as [(_ & _ & A & P)|[(_ & _ & _ & _ & _ & ->)|(sh & _ & _ & _ & _ & _ & _ & _ & ->)]];
    [|by apply (cr_hook O)|by apply (cr_kernel O)].
  intros x Hx. rewrite P. split; [|done]. apply A. intros Hf.
  enough (footprint e rgp s' x = false) by congruence.
  apply (cr_apart O i j s s'); try done. unfold in_frame. case_bools; lia || done.
Qed.

Lemma on_the_way_start : crowd_ok -> on_the_way crowd_start.
Proof.
  intros O. assert (forall i n c, crowd_start !! i = Some (n, c) ->
    exists s, ss !! i = Some s /\ n = 0%nat /\ c = Thread None s [] []) as L.
  { intros i n c. unfold crowd_start. rewrite list_lookup_fmap.
    intros (s & Hs & [= -> ->])%fmap_Some. eauto. }
  constructor.
  - intros i j n c n' c' (s & Hs & -> & ->)%L (s' & Hs' & -> & ->)%L.
    apply (cr_mem O); by eapply list_elem_of_lookup_2.
  - intros i s n c Hs (s' & Hs' & -> & ->)%L. assert (s' = s) as -> by congruence.
    pose proof (list_elem_of_lookup_2 _ _ _ Hs) as E. destruct (cr_site O s E) as [S N].
    split; [lia|]. rewrite Nat.sub_0_r.
    apply interception_leads; [by apply (cr_kernel O) | by apply (cr_hook O) | done | done].
Qed.

Lemma on_the_way_step P P' : crowd_ok -> on_the_way P -> crowd_step P P' -> on_the_way P'.
Proof.
  intros O [OM OL] H. destruct H as [P i s n c c' Hs HP NB E|P m HR];
    (constructor; [intros *; apply all_see_mem|]); intros j s' n' c1 Hs' (n1 & c2 & L & [= -> ->])%all_see_lookup.
  - destruct (OL i s n c Hs HP) as [Ln Lc].
    destruct (leads_own _ _ _ _ (spares_preorder e rgp s) _ _ _ _ Lc NB E) as (Pos & G & L').
    destruct (decide (i = j)) as [<-|N].
    + assert (s' = s) as -> by congruence.
      rewrite list_lookup_insert_eq in L by (by eapply lookup_lt_Some). injection L as <- <-.
      rewrite th_sees_same. split; [lia|]. by replace (interception_steps - S n)%nat with (interception_steps - n - 1)%nat by lia.
    + rewrite list_lookup_insert_ne in L by done. destruct (OL j s' n1 c2 Hs' L) as [Ln2 L2].
      split; [done|]. apply leads_sees; [apply spares_preorder|apply back_sees| |done].
      rewrite (OM j i _ _ _ _ L HP). by apply (acts_spares i j s s').
  - destruct (OL j s' n1 c2 Hs' L) as [Ln2 L2]. split; [done|].
    destruct (HR j s' n1 c2 Hs' L) as [B|S]; [by apply leads_now, back_sees|].
    by apply leads_sees; [apply spares_preorder|apply back_sees|..].
Qed.
(** C12: Any number of threads may be intercepted at the same time.  In every
    interleaving of their steps, with each other and with the rest of the
    process, no thread faults; within 127 steps of its own each is after its
    site with its context, having called the hook once with its own arguments
    and, when the hook declined, the kernel once; a0 is that answer. *)
Theorem interceptions_interleave P i s n c : crowd_ok -> rtc crowd_step crowd_start P ->
  ss !! i = Some s -> P !! i = Some (n, c) ->
  (n <= interception_steps)%nat /\
  (back e s c \/ (n < interception_steps)%nat /\ exists c', tstep e hk c = Some c').
Proof.
  intros O R Hs HP. assert (on_the_way P) as [_ OL].
  { revert R. apply rtc_ind_r; [by apply on_the_way_start|]. intros P1 P2 _ S I.
    by apply (on_the_way_step P1). }
  destruct (OL i s n c Hs HP) as [Ln L]. split; [done|].
  apply leads_cases in L as [B|[Pos S]]; [by left | right | apply spares_preorder]. split; [lia | done].
Qed.
End Crowd.

(** ** Two threads at the same site

    The process of [Intercept] with a hook that answers 17, two stacks and two
    threads that make a write (64) at the same time. *)
Section Example.
Definition cr_env : cenv := ex_env (Some (0, Some 17)).
Definition cr_machine (top : Z) : machine := Mach 0x1000 (upd (ex_x 64) sp top) (fun _ => 7) ex_mem [].
Definition cr_machines : list machine := [cr_machine 0x310000; cr_machine 0x308000].

#[local] Existing Instance ex_kernel.

Lemma cr_shape top : top = 0x310000 \/ top = 0x308000 ->
  site_shape (R := listing_at 0x500000) cr_env 0x500000 0x200800 (cr_machine top).
Proof.
  intros Ht. assert (is_u64 64) as U by (apply ex_nr_u64; reflexivity).
  destruct (so_shape _ _ _ _ (ex_site_ok (Some (0, Some 17)) 64 U))
    as [S1 S2 S3 S4 S5 S6 S7 S8 S9 S10 S11 S12 S13 _ _ _].
  assert (frame_of (cr_machine top) = top - 304) as F by reflexivity.
  assert (xr (cr_machine top) sp = top) as X by reflexivity.
  constructor; rewrite ?F, ?X; try done.
  - split; intros x Hx; unfold routine_at, listing_at; cbn in Hx;
      unfold RET_SEQUENCE_SIZE, TRAMPOLINE_SIZE in Hx; case_bools; lia || done.
  - split; [unfold FRAME_SIZE; lia|]. intros x Hx. unfold has_prot. cbn [mem cr_machine].
    change (m_prot ex_mem x) with (ex_prot x). unfold ex_prot. case_bools; lia || done.
  - right. unfold TRAMPOLINE_SIZE. lia.
  - right. change (ce_rgp_var cr_env) with 0x400000. lia.
  - intros r. split; [|apply S13]. change (is_u64 (if r =? sp then top else ex_x 64 r)).
    destruct (r =? sp); [u64_lia | apply S13].
Qed.

Lemma cr_crowd_ok : crowd_ok cr_env 0x500000 0x200800 cr_machines.
Proof.
  assert (forall s, s ∈ cr_machines -> exists top, s = cr_machine top /\ (top = 0x310000 \/ top = 0x308000)) as In.
  { unfold cr_machines. intros s. rewrite !elem_of_cons. intros [->|[->|[]%elem_of_nil]]; eauto. }
  assert (forall a b x, a <> b -> a = 0x310000 \/ a = 0x308000 -> b = 0x310000 \/ b = 0x308000 ->
    in_frame (cr_machine a) x = true -> footprint cr_env 0x200800 (cr_machine b) x = false) as Apart.
  { intros a b x N Ha Hb. unfold footprint, in_code, in_var, in_frame.
    change (frame_of (cr_machine a)) with (a - 304). change (frame_of (cr_machine b)) with (b - 304).
    change (xr (cr_machine a) sp) with a. change (xr (cr_machine b) sp) with b.
    change (pc (cr_machine b)) with 0x1000. change (ce_rgp_var cr_env) with 0x400000.
    unfold RET_SEQUENCE_SIZE, TRAMPOLINE_SIZE. intros H. case_bools; lia || done. }
  constructor; try done.
  - by intros s s' (a & -> & _)%In (b & -> & _)%In.
  - intros s (a & -> & Ha)%In. split; [by apply cr_shape | discriminate].
  - intros i j s s' N Hi Hj x.
    destruct i as [|[|]]; destruct j as [|[|]]; try done; cbn in Hi, Hj; simplify_eq;
      apply Apart; auto; discriminate.
Qed.

(** After a step of the first thread, the second can take its first. *)
Lemma interceptions_interleave_witness :
  exists P c0 c1, rtc (crowd_step cr_env 0x500000 0x200800 cr_machines) (crowd_start cr_machines) P /\
    P !! 0%nat = Some (1%nat, c0) /\ P !! 1%nat = Some (0%nat, c1) /\
    exists c', tstep cr_env 0x500000 c1 = Some c'.
Proof.
  destruct (interceptions_interleave cr_env 0x500000 0x200800 cr_machines (crowd_start cr_machines) 0
    (cr_machine 0x310000) 0 (Thread None (cr_machine 0x310000) [] []) cr_crowd_ok (rtc_refl _ _)
    eq_refl eq_refl) as [_ [(_ & _ & sh & [=] & _)|(_ & c & E)]].
  set (P := all_see (th_mem c) (<[0%nat := (1%nat, c)]> (crowd_start cr_machines))).
  assert (rtc (crowd_step cr_env 0x500000 0x200800 cr_machines) (crowd_start cr_machines) P) as R.
  { apply rtc_once. eapply crowd_own; [reflexivity|reflexivity| |exact E].
    by intros (_ & _ & sh & [=] & _). }
  exists P. do 2 eexists. split; [exact R|]. split; [reflexivity|]. split; [reflexivity|].
  destruct (interceptions_interleave cr_env 0x500000 0x200800 cr_machines P 1
    (cr_machine 0x308000) 0 _ cr_crowd_ok R eq_refl eq_refl) as [_ [(_ & _ & sh & [=] & _)|(_ & H)]].
  exact H.
Defined.
End Example.
