(* ===== verification/Faults.v ===== *)
(** * Faults of several threads

    The SIGSEGV handler of src/src/sigsegv_handler.c while other threads run.
    [handler_step] is [segfault_handler] one memory access at a time: the halfword
    at the saved pc, the word there, the redirected access.  [fstep] interleaves
    the threads of a process over a shared memory, in their own code and in the
    handler; [dstep] is the process in which an access to the execute-only region
    is made on the backup page at once.  The handler keeps no state outside its
    context, which is on the stack of its thread, so the first process does what
    the second can do. *)

From stdpp Require Import base gmap list relations.
From Stdlib Require Import ZArith Lia Bool.
From S2P Require Import Prelude Memory Isa Os RetSeq Patcher Sigsegv.

(** ** The handler, one memory access at a time *)

Inductive handler_pc :=
| Entered
| Fetched (c_instr : Z)                  (** the halfword at pc is read *)
| Decoded (instr : Z)                    (** the word at pc is read *)
| Done (c : ucontext).                   (** the context is updated *)

Definition past (pc_step : Z) (ctx : ucontext) : ucontext :=
  set_greg REG_PC (gregs ctx REG_PC ⊞ pc_step) ctx.

Definition handler_step (g : globals) (sig fault_addr : Z) (ctx : ucontext) (p : handler_pc) (m : memory)
  : hres (handler_pc * memory) :=
  let backup_addr := backup_of g fault_addr in
  match p with
  | Entered =>
    if (fault_addr <? xom_start g) || (xom_end g <? fault_addr) then HRaised sig
    else c_instr ← deref 2 m (gregs ctx REG_PC); HOk (Fetched c_instr, m)
  | Fetched c_instr =>
    if Z.land c_instr 0x3 =? 0x3 then instr ← deref 4 m (gregs ctx REG_PC); HOk (Decoded instr, m)
    else '(ctx', m') ← emulate_16bit ctx m c_instr backup_addr; HOk (Done (past 2 ctx'), m')
  | Decoded instr =>
    '(ctx', m') ← emulate_32bit ctx m instr backup_addr; HOk (Done (past 4 ctx'), m')
  | Done c => HOk (Done c, m)
  end.

Fixpoint handler_run (n : nat) g sig fault_addr ctx (p : handler_pc) (m : memory) : hres (handler_pc * memory) :=
  match n with
  | O => HOk (p, m)
  | S n => '(p', m') ← handler_step g sig fault_addr ctx p m; handler_run n g sig fault_addr ctx p' m'
  end.

(** The steps are the handler: with no other thread, three of them give what
    [segfault_handler] gives, its faults, exits and raised signals included. *)
Theorem handler_steps_alone g sig a ctx m :
  handler_run 3 g sig a ctx Entered m =
  ('(c, m') ← segfault_handler g sig a ctx m; HOk (Done c, m')).
Proof.
  assert (forall n p m, handler_run (S n) g sig a ctx p m =
    ('(p', m') ← handler_step g sig a ctx p m; handler_run n g sig a ctx p' m')) as Run by done.
  unfold segfault_handler. rewrite Run. cbn [handler_step].
  destruct ((a <? xom_start g) || (xom_end g <? a)); [done|].
  destruct (deref 2 m (gregs ctx REG_PC)) as [c_instr| | |]; try done. cbn [mbind hres_bind].
  rewrite Run. cbn [handler_step]. destruct (Z.land c_instr 3 =? 3); cbn [mbind hres_bind].
  - destruct (deref 4 m (gregs ctx REG_PC)) as [instr| | |]; try done. cbn [mbind hres_bind].
    rewrite Run. cbn [handler_step]. by destruct (emulate_32bit _ _ _ _) as [[c m']| | |].
  - by destruct (emulate_16bit _ _ _ _) as [[c m']| | |].
Qed.

(** ** Threads over a shared memory *)

(** A thread in its own code, or in the handler after a fault at [a] in [s].  The
    memory of the machines in a thread does not count. *)
Inductive fthread :=
| Running (s : machine)
| Handling (s : machine) (a : Z) (p : handler_pc).

Definition no_mem : memory := Mem ∅ (fun _ => None).
Definition local (s : machine) : machine := setmem no_mem s.

Section Crowd.
Context {K : Kernel} {R : Routines} (g : globals).

(** The text of the program, and the bytes redirected accesses are made at. *)
Context (text backing : Z -> bool).

(** What the threads leave alone: the text and the protection of the backing
    bytes. *)
Record stable (m m' : memory) : Prop := {
  st_byte : forall x, text x = true -> mbyte m' x = mbyte m x;
  st_prot : forall x, text x = true \/ backing x = true -> m_prot m' x = m_prot m x
}.

(** The thread is at an access to the region that would be allowed on the backup
    page, in readable text. *)
Record redirectable (m : memory) (s : machine) (a : Z) (i : minstr) (len : Z) : Prop := {
  rd_access : at_access (setmem m s) i len;
  rd_text : forall x, pc s <= x < pc s + len -> text x = true;
  rd_addr : a = eff_addr i s /\ in_xom g a;
  rd_ready : exists s1, exec_mem_at (backup_of g a) i len (setmem m s) = Next s1
}.

Inductive fstep : memory * list fthread -> memory * list fthread -> Prop :=
| F_native m ts n s s' : ts !! n = Some (Running s) ->
    step (setmem m s) = Next s' -> stable m (mem s') ->
    fstep (m, ts) (mem s', <[n := Running (local s')]> ts)
| F_fault m ts n s a i len : ts !! n = Some (Running s) ->
    step (setmem m s) = Fault a -> redirectable m s a i len ->
    fstep (m, ts) (m, <[n := Handling s a Entered]> ts)
| F_handler m ts n s a p p' m' : ts !! n = Some (Handling s a p) ->
    handler_step g SIGSEGV a (sigframe s) p m = HOk (p', m') ->
    fstep (m, ts) (m', <[n := Handling s a p']> ts)
| F_return m ts n s a c : ts !! n = Some (Handling s a (Done c)) ->
    fstep (m, ts) (m, <[n := Running (local (sigreturn s c m))]> ts).

(** The process with its accesses to the region made on the backup page. *)
Inductive dstep : memory * list machine -> memory * list machine -> Prop :=
| D_native m ss n s s' : ss !! n = Some s ->
    step (setmem m s) = Next s' -> stable m (mem s') ->
    dstep (m, ss) (mem s', <[n := local s']> ss)
| D_access m ss n s i len s1 s2 : ss !! n = Some s -> at_access (setmem m s) i len ->
    in_xom g (eff_addr i s) -> exec_mem_at (backup_of g (eff_addr i s)) i len (setmem m s) = Next s1 ->
    s2 ≡ s1 -> dstep (m, ss) (mem s1, <[n := local s2]> ss).

(** ** What other threads do not change *)

(** Redirected accesses do not reach the text. *)
Definition backed : Prop := forall a, in_xom g a ->
  forall x, backup_of g a <= x < backup_of g a + 8 -> text x = false /\ backing x = true.

Lemma stable_refl m : stable m m.
Proof. by constructor. Qed.

Lemma nbytes_le w : (nbytes w <= 8)%nat.
Proof. destruct w; cbn; lia. Qed.

Lemma fetch_decode_same m m' a i len : fetch_decode m a = Some (Some (IMem i), len) ->
  (forall x, a <= x < a + len -> mbyte m' x = mbyte m x /\ m_prot m' x = m_prot m x) ->
  fetch_decode m' a = Some (Some (IMem i), len).
Proof.
  intros F H. assert (forall n, Z.of_nat n <= len -> mfetch n m' a = mfetch n m a) as E.
  { intros n L. unfold mfetch. rewrite (range_prot_agree PROT_EXEC n m' m) by (intros x Hx; apply H; lia).
    by rewrite (mread_ext n m' m) by (intros x Hx; apply H; lia). }
  assert (2 <= len) as L by (apply fetch_decode_inv in F as [(-> & _)|(-> & _)]; lia).
  revert F. unfold fetch_decode. rewrite (E 2%nat) by lia. destruct (mfetch 2 m a) as [h|]; [|done].
  destruct (Z.land h 3 =? 3); [|done]. destruct (mfetch 4 m a) as [w|] eqn:F4; [|done].
  intros [= D <-]. by rewrite E, F4, D by lia.
Qed.

Lemma exec_mem_at_ready ba i len s m m' s1 :
  (forall x, ba <= x < ba + 8 -> m_prot m' x = m_prot m x) ->
  exec_mem_at ba i len (setmem m s) = Next s1 -> exists s2, exec_mem_at ba i len (setmem m' s) = Next s2.
Proof.
  intros H. assert (forall flag w, range_prot flag (nbytes w) m' ba = range_prot flag (nbytes w) m ba) as E.
  { intros flag w. apply range_prot_agree. intros x Hx. apply H. pose proof (nbytes_le w). lia. }
  unfold exec_mem_at, mload, mstore. cbn [mem setmem].
  destruct i as [w ? ? ? ?|w ? ? ?|w ? ? ?|w ? ? ?]; rewrite E; destruct (range_prot _ _ m ba);
    intros X; try discriminate X; by eexists.
Qed.

Lemma redirectable_stable m m' s a i len : backed -> stable m m' ->
  redirectable m s a i len -> redirectable m' s a i len.
Proof.
  intros B ST [[F RP] T [E X] [s1 RD]]. cbn [mem pc setmem] in F, RP.
  assert (len = 4 \/ len = 2) as L by (apply fetch_decode_inv in F as [(-> & _)|(-> & _)]; auto).
  constructor; try done; [split; cbn [mem pc setmem]|].
  - apply (fetch_decode_same m); [done|]. intros x Hx. split; apply ST; auto.
  - rewrite <- RP. apply range_prot_agree. intros x Hx. apply ST. left. apply T. lia.
  - eapply exec_mem_at_ready; [|exact RD]. intros x Hx. apply ST. right. by apply (B a X).
Qed.

(** An access changes the bytes it is made at only. *)
Lemma access_off ba i len s m s1 : exec_mem_at ba i len (setmem m s) = Next s1 ->
  m_prot (mem s1) = m_prot m /\ forall x, ~ ba <= x < ba + 8 -> mbyte (mem s1) x = mbyte m x.
Proof.
  assert (forall w v, let m' := mwrite (nbytes w) m ba v in
    m_prot m' = m_prot m /\ forall x, ~ ba <= x < ba + 8 -> mbyte m' x = mbyte m x) as W.
  { intros w v m'. split; [apply mwrite_prot|]. intros x Hx. apply mbyte_mwrite_out.
    pose proof (nbytes_le w). lia. }
  unfold exec_mem_at, mload, mstore. cbn [mem setmem].
  destruct i as [w ? rd ? ?|w ? ? ?|w ? ? ?|w ? ? ?]; destruct (range_prot _ _ m _);
    intros [= <-]; cbn [mem setpc setx setf setmem]; try apply W; try done.
  unfold setx. by case_match.
Qed.

Lemma access_stable m s a i len s1 : backed -> in_xom g a ->
  exec_mem_at (backup_of g a) i len (setmem m s) = Next s1 -> stable m (mem s1).
Proof.
  intros B X [P O]%access_off. constructor; intros x Hx; [|by rewrite P].
  apply O. intros Hi. destruct (B a X x Hi) as [N _]. by rewrite N in Hx.
Qed.

(** ** The handler among other threads *)

(** What the handler has read is still there. *)
Definition has_read (m : memory) (s : machine) (len : Z) (p : handler_pc) : Prop :=
  match p with
  | Entered | Done _ => True
  | Fetched c_instr => c_instr = mread 2 m (pc s)
  | Decoded instr => len = 4 /\ instr = mread 4 m (pc s)
  end.

Definition is_done (p : handler_pc) : bool := match p with Done _ => true | _ => false end.

Definition rank (p : handler_pc) : nat :=
  match p with Entered => 3 | Fetched _ => 2 | Decoded _ => 1 | Done _ => 0 end.

Lemma has_read_stable m m' s a i len p : redirectable m s a i len -> stable m m' ->
  has_read m s len p -> has_read m' s len p.
Proof.
  intros [[F _] T _ _] ST. cbn [mem pc setmem] in F. apply fetch_decode_inv in F.
  destruct p; try done; cbn [has_read].
  - intros ->. apply mread_ext. intros x Hx. symmetry. apply ST, T. destruct F as [(-> & _)|(-> & _)]; lia.
  - intros [-> ->]. split; [done|]. apply mread_ext. intros x Hx. symmetry. apply ST, T. lia.
Qed.

(** A step of the handler: it reads, or makes the access of the instruction. *)
Lemma handler_step_spec m s a i len p : redirectable m s a i len -> has_read m s len p -> is_done p = false ->
  exists p' m', handler_step g SIGSEGV a (sigframe s) p m = HOk (p', m') /\ (rank p' < rank p)%nat /\
    ((is_done p' = false /\ m' = m /\ has_read m s len p') \/
     exists c s1, p' = Done c /\ exec_mem_at (backup_of g a) i len (setmem m s) = Next s1 /\
       m' = mem s1 /\ sigreturn s c m' ≡ s1).
Proof.
  intros [[F RP] T [E X] [s1 RD]] HR ND. cbn [mem pc setmem] in F, RP.
  destruct (emulate_exec _ _ _ _ _ RD) as (c & m' & EM & Q).
  change (sigframe (setmem m s)) with (sigframe s) in EM. cbn [mem setmem] in EM.
  assert (m' = mem s1) as EM' by (destruct Q as (_ & _ & _ & <- & _); done).
  change (sigreturn (setmem m s)) with (sigreturn s) in Q.
  apply fetch_decode_inv in F.
  assert (forall n, Z.of_nat n <= len -> deref n m (pc s) = HOk (mread n m (pc s))) as D.
  { intros n L. unfold deref, mload. by rewrite (range_prot_le _ (Z.to_nat len) n _ _ ltac:(lia) RP). }
  destruct p as [|c_instr|instr|]; [..|done]; cbn [handler_step has_read] in *;
    change (gregs (sigframe s) REG_PC) with (pc s).
  - rewrite in_xom_test, bool_decide_true by done. cbn [negb].
    rewrite D by (destruct F as [(-> & _)|(-> & _)]; lia). do 2 eexists. split; [done|]. split; [cbn; lia|].
    left. by split_and!.
  - subst c_instr. destruct F as [(-> & E3 & DE)|(-> & E3 & DE)].
    + rewrite E3, D by lia. do 2 eexists. split; [done|]. split; [cbn; lia|]. left. by split_and!.
    + apply Z.eqb_neq in E3. rewrite E3, (emulate_16bit_spec _ _ _ i) by done. rewrite EM.
      do 2 eexists. split; [done|]. split; [cbn; lia|]. right. eexists _, s1. by split_and!.
  - destruct HR as [-> ->]. destruct F as [(_ & E3 & DE)|(? & _)]; [|done].
    rewrite (emulate_32bit_spec _ _ _ i), EM by done.
    do 2 eexists. split; [done|]. split; [cbn; lia|]. right. eexists _, s1. by split_and!.
Qed.

(** ** Where a thread stands in the direct process *)

Inductive stands (m : memory) : fthread -> machine -> Prop :=
| St_running s : stands m (Running s) s
| St_before s a i len p : redirectable m s a i len -> has_read m s len p -> is_done p = false ->
    stands m (Handling s a p) s
| St_after s a c m' : stands m (Handling s a (Done c)) (local (sigreturn s c m')).

Lemma stands_stable m m' ts ss : backed -> stable m m' -> Forall2 (stands m) ts ss -> Forall2 (stands m') ts ss.
Proof.
  intros B ST F. apply (Forall2_impl _ _ _ _ F). intros t s [s0|s0 a i len p RD HR ND|s0 a c m0]; [constructor|..].
  - apply (St_before _ _ _ i len); [by apply (redirectable_stable m) | by apply (has_read_stable m _ _ a i) | done].
  - constructor.
Qed.

Lemma stands_insert m ts ss n t s : Forall2 (stands m) ts ss -> stands m t s ->
  Forall2 (stands m) (<[n := t]> ts) (<[n := s]> ss).
Proof. intros F S. by apply Forall2_insert. Qed.

Lemma stands_insert_l m ts ss n t s : Forall2 (stands m) ts ss -> ss !! n = Some s -> stands m t s ->
  Forall2 (stands m) (<[n := t]> ts) ss.
Proof. intros F E S. rewrite <- (list_insert_id ss n s E). by apply stands_insert. Qed.

(** Each step of the threads is a step of the direct process or none. *)
Lemma fstep_stands m ts m' ts' ss : backed -> fstep (m, ts) (m', ts') -> Forall2 (stands m) ts ss ->
  exists ss', rtc dstep (m, ss) (m', ss') /\ Forall2 (stands m') ts' ss'.
Proof.
  intros B ST F. inversion ST as
    [? ? n s s' L E S|? ? n s a i len L E RD|? ? n s a p p' ? L E|? ? n s a c L]; subst;
    destruct (Forall2_lookup_l _ _ _ _ _ F L) as (s0 & L0 & S0).
  - inversion S0; subst. exists (<[n := local s']> ss). split; [apply rtc_once; by econstructor|].
    apply stands_insert; [by apply (stands_stable m) | constructor].
  - inversion S0; subst. exists ss. split; [done|].
    apply (stands_insert_l _ _ _ _ _ s0); [done..|]. by apply (St_before _ _ _ i len).
  - inversion S0 as [|? ? i len ? RD HR ND|]; subst.
    + destruct (handler_step_spec m s0 a i len p RD HR ND) as (q & m1 & E1 & _ & C).
      rewrite E1 in E. injection E as -> ->. destruct C as [(NP & -> & HR')|(c & s1 & -> & X & EM & Q)].
      * exists ss. split; [done|]. apply (stands_insert_l _ _ _ _ _ s0); [done..|].
        by apply (St_before _ _ _ i len).
      * pose proof (rd_addr _ _ _ _ _ RD) as [EA IX]. rewrite EM in Q |- *.
        exists (<[n := local (sigreturn s0 c (mem s1))]> ss). split.
        { apply rtc_once. apply (D_access _ _ _ s0 i len); rewrite <- ?EA; try done. apply RD. }
        apply stands_insert; [|constructor]. apply (stands_stable m); [done| |done].
        by apply (access_stable m s0 a i len).
    + injection E as <- <-. exists ss. split; [done|].
      apply (stands_insert_l _ _ _ _ _ _ F L0). constructor.
  - inversion S0; subst; [done|]. exists ss. split; [done|].
    apply (stands_insert_l _ _ _ _ _ _ F L0).
    replace (local (sigreturn s c m')) with (local (sigreturn s c m'0)) by done. constructor.
Qed.

(** In the handler a thread writes to the backing bytes only. *)
Lemma fstep_handler m f m' f' s : backed -> fstep (m, [f]) (m', [f']) -> stands m f s ->
  (forall s0, f <> Running s0) ->
  stable m m' /\ m_prot m' = m_prot m /\ forall x, backing x = false -> mbyte m' x = mbyte m x.
Proof.
  intros B ST S NR. assert (forall n f0, [f] !! n = Some f0 -> f0 = f) as One
    by (intros n f0 [_ ?]%list_lookup_singleton_Some; done).
  inversion ST as [? ? n s1 s' L E ?|? ? n s1 a i len L E RD|? ? n s1 a p p' ? L E|? ? n s1 a c L]; subst;
    apply One in L; subst; try (by destruct (NR s1)); try (split_and!; [apply stable_refl | done..]).
  inversion S as [|? ? i len ? RD HR ND|]; subst; [|injection E as <- <-; split_and!; [apply stable_refl | done..]].
  destruct (handler_step_spec m s a i len p RD HR ND) as (q & m1 & E1 & _ & C).
  rewrite E1 in E. injection E as -> ->.
  destruct C as [(_ & -> & _)|(c & s1 & -> & X & -> & _)]; [split_and!; [apply stable_refl | done..]|].
  pose proof (rd_addr _ _ _ _ _ RD) as [_ IX].
  destruct (access_off _ _ _ _ _ _ X) as [P O]. split_and!; [by apply (access_stable m s a i len)|done|].
  intros x Hx. apply O. intros Hi. destruct (B a IX x Hi) as [_ N]. by rewrite N in Hx.
Qed.

Lemma fsteps_stand ss0 st st' : backed -> rtc fstep st st' ->
  Forall2 (stands st.1) st.2 ss0 ->
  exists ss', rtc dstep (st.1, ss0) (st'.1, ss') /\ Forall2 (stands st'.1) st'.2 ss'.
Proof.
  intros B H. revert ss0. induction H as [[m ts]|[m ts] [m1 ts1] [m2 ts2] S _ IH]; intros ss0 F; [by exists ss0|].
  destruct (fstep_stands _ _ _ _ _ B S F) as (ss1 & D1 & F1).
  destruct (IH ss1 F1) as (ss2 & D2 & F2). exists ss2. split; [by etransitivity | done].
Qed.

Lemma all_running m ss : Forall2 (stands m) (Running <$> ss) ss.
Proof. induction ss; cbn; constructor; [constructor | done]. Qed.

(** Faults of several threads are handled as if each access were made at
    once: whatever the interleaving of the threads, in their own code and in the
    handler, memory and threads are as after some run of the process in which the
    accesses to the execute-only region are single steps on the backup page; a
    thread in the handler is before its access there or, when its context is
    updated, after it. *)
Theorem concurrent_faults_atomic m ss m' ts : backed -> rtc fstep (m, Running <$> ss) (m', ts) ->
  exists ss', rtc dstep (m, ss) (m', ss') /\ Forall2 (stands m') ts ss'.
Proof. intros B H. apply (fsteps_stand ss (m, Running <$> ss) (m', ts) B H), all_running. Qed.

(** No thread is held up in the handler: at every moment its next step there
    succeeds, without a fault, an exit or a raised signal, and takes it closer
    to the return, which is at most three steps away. *)
Theorem concurrent_faults_progress m ss m' ts n s a p : backed ->
  rtc fstep (m, Running <$> ss) (m', ts) -> ts !! n = Some (Handling s a p) ->
  (exists c, p = Done c) \/
  exists p' m'', handler_step g SIGSEGV a (sigframe s) p m' = HOk (p', m'') /\ (rank p' < rank p <= 3)%nat.
Proof.
  intros B H L. destruct (fsteps_stand ss _ _ B H (all_running m ss)) as (ss' & _ & F). cbn [fst snd] in F.
  destruct (Forall2_lookup_l _ _ _ _ _ F L) as (s0 & _ & S0).
  inversion S0 as [|? ? i len ? RD HR ND|]; subst; [right | left; by eexists].
  destruct (handler_step_spec m' s0 a i len p RD HR ND) as (p' & m'' & E & RK & _).
  exists p', m''. split; [done|]. split; [done|]. destruct p; cbn; lia.
Qed.
End Crowd.

(** ** Two threads at [ld a0, 16(gp)]

    In the process of [Sigsegv]; the first has made its access, the second has
    read the halfword. *)
Section Example.
#[local] Existing Instance seg_kernel.
#[local] Existing Instance seg_routines.

Definition fx_g : globals := seg_g 0x12800.
Definition fx_s : machine := local (seg_state 0x12800 0x0101b503).
Definition fx_m : memory := mem (seg_state 0x12800 0x0101b503).
Definition fx_a : Z := 2 ^ 32 + 0x810.
Definition fx_text (x : Z) : bool := (0x1000 <=? x) && (x <? 0x1004).
Definition fx_backing (x : Z) : bool := (0x12000 <=? x) && (x <? 0x13008).
Definition fx_ctx : ucontext := past 4 (set_greg a0 77 (sigframe fx_s)).

Lemma fx_backed : backed fx_g fx_text fx_backing.
Proof.
  intros a X x Hx. unfold in_xom in X. change (xom_start fx_g) with (2 ^ 32) in X.
  change (xom_end fx_g) with (2 ^ 32 + 4095) in X. unfold backup_of in Hx.
  change (start_addr_page (rsi fx_g)) with 0x12000 in Hx. change (xom_start fx_g) with (2 ^ 32) in Hx.
  rewrite (u64_small (a - _)), u64_small in Hx by u64_lia.
  unfold fx_text, fx_backing. split; case_bools; lia || done.
Qed.

Lemma fx_redirectable : redirectable fx_g fx_text fx_m fx_s fx_a (ILoad WD true a0 gp 16) 4.
Proof.
  constructor.
  - split; vm_compute; reflexivity.
  - intros x Hx. change (pc fx_s) with 0x1000 in Hx. unfold fx_text. case_bools; lia || done.
  - split; [vm_compute; reflexivity | vm_compute; split; discriminate].
  - eexists. apply next_of_ok. vm_compute. reflexivity.
Qed.

Lemma fx_handler :
  let at_step p p' := handler_step fx_g SIGSEGV fx_a (sigframe fx_s) p fx_m = HOk (p', fx_m) in
  at_step Entered (Fetched 0xb503) /\ at_step (Fetched 0xb503) (Decoded 0x0101b503) /\
  at_step (Decoded 0x0101b503) (Done fx_ctx).
Proof.
  assert (deref 2 fx_m 0x1000 = HOk 0xb503 /\ deref 4 fx_m 0x1000 = HOk 0x0101b503 /\
    deref 8 fx_m 0x12810 = HOk 77) as (E1 & E2 & E3) by (vm_compute; auto).
  cbv zeta. unfold handler_step. change (gregs (sigframe fx_s) REG_PC) with 0x1000.
  change (backup_of fx_g fx_a) with 0x12810. split_and!.
  - change ((fx_a <? xom_start fx_g) || (xom_end fx_g <? fx_a)) with false. by rewrite E1.
  - change (Z.land 0xb503 3 =? 3) with true. cbv iota. by rewrite E2.
  - rewrite (emulate_32bit_spec _ _ _ (ILoad WD true a0 gp 16)) by (vm_compute; reflexivity).
    unfold emulate. cbn [nbytes]. by rewrite E3.
Qed.

Lemma fx_run : rtc (fstep fx_g fx_text fx_backing) (fx_m, Running <$> [fx_s; fx_s])
  (fx_m, [Handling fx_s fx_a (Done fx_ctx); Handling fx_s fx_a (Fetched 0xb503)]).
Proof.
  assert (step (setmem fx_m fx_s) = Fault fx_a) as E by (vm_compute; reflexivity).
  eapply rtc_l; [apply (F_fault _ _ _ _ _ 0%nat fx_s fx_a (ILoad WD true a0 gp 16) 4); [reflexivity | exact E | exact fx_redirectable]|].
  eapply rtc_l; [apply (F_fault _ _ _ _ _ 1%nat fx_s fx_a (ILoad WD true a0 gp 16) 4); [reflexivity | exact E | exact fx_redirectable]|].
  pose proof fx_handler as (E1 & E2 & E3).
  eapply rtc_l; [eapply (F_handler _ _ _ _ _ 0%nat fx_s fx_a); [reflexivity | exact E1]|].
  eapply rtc_l; [eapply (F_handler _ _ _ _ _ 1%nat fx_s fx_a); [reflexivity | exact E1]|].
  eapply rtc_l; [eapply (F_handler _ _ _ _ _ 0%nat fx_s fx_a); [reflexivity | exact E2]|].
  eapply rtc_l; [eapply (F_handler _ _ _ _ _ 0%nat fx_s fx_a); [reflexivity | exact E3]|].
  apply rtc_refl.
Qed.

Lemma concurrent_faults_atomic_witness :
  exists s1, rtc (dstep fx_g fx_text fx_backing) (fx_m, [fx_s; fx_s]) (fx_m, [s1; fx_s]) /\
    pc s1 = 0x1004 /\ xr s1 a0 = 77.
Proof.
  destruct (concurrent_faults_atomic fx_g fx_text fx_backing fx_m [fx_s; fx_s] _ _ fx_backed fx_run)
    as (ss' & D & F).
  inversion F as [|? s1 ? l S1 F1]; subst. inversion F1 as [|? s2 ? l2 S2 F2]; subst. inversion F2; subst.
  inversion S2; subst. inversion S1 as [| |? ? ? m']; subst; [discriminate|].
  eexists. split; [exact D|]. split; vm_compute; reflexivity.
Defined.

Lemma concurrent_faults_progress_witness :
  exists p' m'', handler_step fx_g SIGSEGV fx_a (sigframe fx_s) (Fetched 0xb503) fx_m = HOk (p', m'') /\
    (rank p' < 2)%nat.
Proof.
  destruct (concurrent_faults_progress fx_g fx_text fx_backing fx_m [fx_s; fx_s] _ _ 1%nat fx_s fx_a
    (Fetched 0xb503) fx_backed fx_run eq_refl) as [[c H]|(p' & m'' & E & L)]; [discriminate H|].
  exists p', m''. split; [exact E | cbn [rank] in L; lia].
Defined.
End Example.
