(* ===== verification/Multi.v ===== *)
(** * Programs with several threads

    The whole process after the start-up: any number of threads over one memory,
    each in its own code, in the SIGSEGV handler of src/src/sigsegv_handler.c or
    in an interception of src/src/main.c, taking turns after every step.  [mstep]
    is this process, from the steps of [Faults] and of [Threads].  [sstep] is what
    the program's author sees: an access to the execute-only region is one step on
    the backup page, a system call is a call of the hook followed, when the hook
    declines, by the system call, and the instruction after it.  The first process
    refines the second, and no thread is held up in the handler or in an
    interception. *)

From stdpp Require Import base gmap list relations.
From Stdlib Require Import ZArith Lia Bool.
From S2P Require Import Prelude Memory Isa Os RetSeq Patcher AsmHook Intercept Sigsegv Threads Faults.

(** A thread in its own code or in the handler, or in the interception of a site
    it entered in [s], [k] steps ago. *)
Inductive mthread :=
| Own (f : fthread)
| Inside (s : machine) (k : nat) (c : thread).

(** The same for its author: in its own code, about to call the hook, about to
    make the system call the hook has declined, or with the result. *)
Inductive sthread :=
| Native (s : machine)
| Calling (s : machine)
| Forwarding (s : machine) (evs : list event)
| Returning (s : machine) (r : Z) (evs : list event).

(** The site of the call a thread is in. *)
Definition call_site (a : sthread) : option machine :=
  match a with
  | Native _ => None
  | Calling s | Forwarding s _ | Returning s _ _ => Some s
  end.

Section Process.
Context {K : Kernel} (g : globals) (e : cenv) (hk rgp : Z).

(** The patched system calls, the text of the program and the bytes redirected
    accesses are made at. *)
Context (sites text backing : Z -> bool).

(** Threads run their own code everywhere but at the patched system calls. *)
#[local] Instance own_code : Routines :=
  fun a => if sites a || (a =? hk) then Some (fun _ => Illegal) else None.

Local Abbreviation stable := (stable text backing).
Local Abbreviation spares := (spares e rgp).
Local Abbreviation fstep := (fstep g text backing).
Local Abbreviation dstep := (dstep g text backing).

(** ** What the threads leave alone *)

(** An interception at [s] leaves the text and the backing bytes alone, and
    redirected accesses leave alone what it relies on. *)
Record tame (s : machine) : Prop := {
  tm_frame : forall x, in_frame s x = true -> text x = false;
  tm_backing : forall x, footprint e rgp s x = true -> backing x = false;
  tm_hook : forall m, stable m (call_mem e s m);
  tm_kernel : forall m, stable m (k_syscall (xr s a7) (site_args s) m).2
}.

(** The interception at [s] leaves alone what the one at [s'] relies on. *)
Record apart (s s' : machine) : Prop := {
  ap_frame : forall x, in_frame s x = true -> footprint e rgp s' x = false;
  ap_hook : forall m, spares s' m (call_mem e s m);
  ap_kernel : forall m, spares s' m (k_syscall (xr s a7) (site_args s) m).2
}.

(** A thread may be intercepted at [s]. *)
Record may_enter (ts : list mthread) (s : machine) : Prop := {
  me_site : site_shape (R := listing_at hk) e hk rgp s /\ xr s a7 <> 139;
  me_hook : forall m, spares s m (call_mem e s m);
  me_kernel : forall m, spares s m (k_syscall (xr s a7) (site_args s) m).2;
  me_tame : tame s;
  me_apart : forall s' k c, Inside s' k c ∈ ts -> apart s s' /\ apart s' s
}.

(** ** The process *)

Definition is_running (f : fthread) : bool := match f with Running _ => true | _ => false end.

Inductive mstep : memory * list mthread -> memory * list mthread -> Prop :=
| M_own m ts n f m' f' : ts !! n = Some (Own f) -> fstep (m, [f]) (m', [f']) ->
    (is_running f = true -> forall s k c, Inside s k c ∈ ts -> spares s m m') ->
    mstep (m, ts) (m', <[n := Own f']> ts)
| M_enter m ts n s : ts !! n = Some (Own (Running s)) -> sites (pc s) = true ->
    may_enter ts (setmem m s) ->
    mstep (m, ts) (m, <[n := Inside (setmem m s) 0 (Thread None (setmem m s) [] [])]> ts)
| M_inside m ts n s k c c' : ts !! n = Some (Inside s k c) -> ~ back e s c ->
    tstep e hk (th_sees m c) = Some c' ->
    mstep (m, ts) (th_mem c', <[n := Inside s (S k) c']> ts)
| M_leave m ts n s k c : ts !! n = Some (Inside s k c) -> back e s c ->
    mstep (m, ts) (m, <[n := Own (Running (local (th_mach c)))]> ts)
| M_new m ts s : mstep (m, ts) (m, ts ++ [Own (Running s)]).

(** ** What its author sees *)

(** The answer of the hook to the call at [s]. *)
Definition hook_answer (s : machine) (m : memory) : wrapper_ret * memory * list event :=
  syscall_hook (ce_hook_fn e) (ce_result0 e) (xr s a0) (xr s a1) (xr s a2) (xr s a3) (xr s a4)
    (xr s a5) (pc s + 4) (xr s a7) m.

Inductive sstep : memory * list sthread -> memory * list sthread -> Prop :=
| S_own m ss n s m' s' : ss !! n = Some (Native s) -> dstep (m, [s]) (m', [s']) ->
    sstep (m, ss) (m', <[n := Native s']> ss)
| S_call m ss n s : ss !! n = Some (Native s) -> sites (pc s) = true ->
    sstep (m, ss) (m, <[n := Calling (setmem m s)]> ss)
| S_stack m ss n a s m' : ss !! n = Some a -> call_site a = Some s ->
    agree_off (frame_of s) (xr s sp) m' m -> m_prot m' = m_prot m ->
    sstep (m, ss) (m', ss)
| S_hook m ss n s : ss !! n = Some (Calling s) ->
    let w := (hook_answer s m).1.1 in let evs := (hook_answer s m).2 in
    sstep (m, ss) (call_mem e s m,
      <[n := if wr_a1 w =? 0 then Forwarding s evs else Returning s (wr_a0 w) evs]> ss)
| S_kernel m ss n s evs ev : ss !! n = Some (Forwarding s evs) ->
    ev_nr ev = xr s a7 -> ev_args ev = site_args s ->
    let r := k_syscall (xr s a7) (site_args s) m in
    sstep (m, ss) (r.2, <[n := Returning s (u64 r.1) (evs ++ [ev])]> ss)
| S_return m ss n s r evs s' : ss !! n = Some (Returning s r evs) ->
    same_context s s' -> xr s' a0 = r -> trace s' = trace s ++ evs ->
    sstep (m, ss) (m, <[n := Native (local s')]> ss)
| S_new m ss s : sstep (m, ss) (m, ss ++ [Native s]).

(** ** Where a thread stands *)

(** How far an interception has come. *)
Inductive phase (s : machine) (c : thread) : sthread -> Prop :=
| Ph_calling : th_calls c = [] -> th_ecalls c = [] -> phase s c (Calling s)
| Ph_forwarding sh : th_calls c = [sh] -> th_ecalls c = [] -> wr_a1 (call_answer e sh).1.1 = 0 ->
    phase s c (Forwarding s (call_answer e sh).2)
| Ph_handled sh : th_calls c = [sh] -> th_ecalls c = [] -> wr_a1 (call_answer e sh).1.1 = 1 ->
    phase s c (Returning s (wr_a0 (call_answer e sh).1.1) (call_answer e sh).2)
| Ph_forwarded sh sk : th_calls c = [sh] -> th_ecalls c = [sk] -> wr_a1 (call_answer e sh).1.1 = 0 ->
    phase s c (Returning s (sys_result sk) ((call_answer e sh).2 ++ [sys_event sk])).

Inductive mirrors (m : memory) : mthread -> sthread -> Prop :=
| Mi_own f s : stands g text m f s -> mirrors m (Own f) (Native s)
| Mi_inside s k c a : phase s c a -> mirrors m (Inside s k c) a.

(** An interception will get to its end. *)
Definition on_course (m : memory) (t : mthread) : Prop :=
  match t with
  | Own _ => True
  | Inside s k c => tame s /\ (k <= interception_steps)%nat /\ spares s (th_mem c) m /\
      leads e hk (spares s) (acts e s) (back e s) (interception_steps - k) c
  end.

Record in_order (m : memory) (ts : list mthread) (ss : list sthread) : Prop := {
  io_mirrors : Forall2 (mirrors m) ts ss;
  io_course : Forall (on_course m) ts;
  io_apart : forall i j s k c s' k' c', i <> j -> ts !! i = Some (Inside s k c) ->
    ts !! j = Some (Inside s' k' c') -> apart s s'
}.

(** ** Changes of the memory *)

(** A change by another thread. *)
Definition harmless (n : nat) (ts : list mthread) (m m' : memory) : Prop :=
  stable m m' /\ forall j s k c, j <> n -> ts !! j = Some (Inside s k c) -> spares s m m'.

Lemma mirrors_stable m m' t a : backed g text backing -> stable m m' -> mirrors m t a -> mirrors m' t a.
Proof.
  intros B S [f s F|s k c p P]; [|by constructor]. constructor.
  assert (Forall2 (stands g text m') [f] [s]) as H
    by (apply (stands_stable g text backing m); [done|done|by repeat constructor]).
  by inversion H.
Qed.

Lemma on_course_sees m m' s k c : spares s m m' -> on_course m (Inside s k c) -> on_course m' (Inside s k c).
Proof.
  intros S (T & L & SP & LD). split_and!; try done. pose proof (spares_preorder e rgp s). by etransitivity.
Qed.

(** The thread [n] has stepped. *)
Lemma in_order_change m m' n ts ss t t' a : backed g text backing -> in_order m ts ss -> ts !! n = Some t ->
  harmless n ts m m' -> mirrors m' t' a -> on_course m' t' ->
  (forall s k c, t' = Inside s k c -> (exists k' c', t = Inside s k' c') \/
     forall s' k' c', Inside s' k' c' ∈ ts -> apart s s' /\ apart s' s) ->
  in_order m' (<[n := t']> ts) (<[n := a]> ss).
Proof.
  intros B [M C A] Lt [ST SP] Mt Ct At. constructor.
  - apply Forall2_insert; [|done]. apply (Forall2_impl _ _ _ _ M). intros ? ?. by apply mirrors_stable.
  - apply Forall_lookup. intros j tj. destruct (decide (j = n)) as [->|N].
    + rewrite list_lookup_insert_eq by (by eapply lookup_lt_Some). by intros [= <-].
    + rewrite list_lookup_insert_ne by done. intros Lj. pose proof (Forall_lookup_1 _ _ _ _ C Lj) as Cj.
      destruct tj as [|s k c]; [done|]. apply (on_course_sees m); [|done]. by apply (SP j s k c).
  - assert (forall j s k c, j <> n -> <[n := t']> ts !! j = Some (Inside s k c) -> ts !! j = Some (Inside s k c)) as E
      by (intros j s k c N; by rewrite list_lookup_insert_ne).
    assert (forall s k c, <[n := t']> ts !! n = Some (Inside s k c) -> t' = Inside s k c) as E'.
    { intros s k c. rewrite list_lookup_insert_eq by (by eapply lookup_lt_Some). by intros [= <-]. }
    intros i j s k c s' k' c' N Li Lj.
    destruct (decide (i = n)) as [->|Ni]; [|destruct (decide (j = n)) as [->|Nj]].
    + apply E in Lj; [|done]. destruct (At _ _ _ (E' _ _ _ Li)) as [(k1 & c1 & ->)|H].
      * by apply (A n j s k1 c1 s' k' c').
      * apply (H s' k' c'). by eapply list_elem_of_lookup_2.
    + apply E in Li; [|done]. destruct (At _ _ _ (E' _ _ _ Lj)) as [(k1 & c1 & ->)|H].
      * by apply (A i n s k c s' k1 c1).
      * apply (H s k c). by eapply list_elem_of_lookup_2.
    + apply E in Li, Lj; [|done..]. by apply (A i j s k c s' k' c').
Qed.

(** The step of an interception spares the other threads. *)
Lemma acts_harmless m ts ss n s k c c' : in_order m ts ss -> ts !! n = Some (Inside s k c) ->
  acts e s (th_sees m c) c' -> harmless n ts m (th_mem c').
Proof.
  intros [_ C A] L H. destruct (Forall_lookup_1 _ _ _ _ C L) as ([T1 T2 T3 T4] & _).
  assert (forall x, ~ frame_of s <= x < xr s sp \/ in_frame s x = true) as D.
  { intros x. unfold in_frame. case_bools; lia || auto. }
  split.
  - destruct H as [(_ & _ & Q & P)|[(_ & _ & _ & _ & _ & ->)|(sh & _ & _ & _ & _ & _ & _ & _ & ->)]];
      [|apply T3|apply T4]. constructor; intros x Hx; [|by rewrite P].
    apply Q. destruct (D x) as [|F]; [done|]. apply T1 in F. congruence.
  - intros j s' k' c1 N Lj. assert (apart s s') as [A1 A2 A3] by by apply (A n j s k c s' k' c1).
    destruct H as [(_ & _ & Q & P)|[(_ & _ & _ & _ & _ & ->)|(sh & _ & _ & _ & _ & _ & _ & _ & ->)]];
      [|apply A2|apply A3]. intros x Hx. rewrite P. split; [|done].
    apply Q. destruct (D x) as [|F]; [done|]. apply A1 in F. congruence.
Qed.

(** ** The steps *)

Lemma hook_answer_call s sh : has_arguments s sh -> call_answer e sh = hook_answer s (mem sh).
Proof.
  intros [_ H]. unfold call_answer, hook_answer, syscall_hook.
  change (getx sh) with (fun r => if r =? 0 then 0 else xr sh r). cbn beta.
  cbn [Z.eqb Pos.eqb a0 a1 a2 a3 a4 a5 a7].
  by rewrite !H by (apply (bool_decide_unpack _); vm_compute; exact I).
Qed.

(** A thread of the second process alone. *)
Lemma dstep_alone m s m' ss' : dstep (m, [s]) (m', ss') -> exists s', ss' = [s'].
Proof.
  intros H. inversion H as [? ? n ? ? L|? ? n ? ? ? ? ? L]; subst;
    apply list_lookup_singleton_Some in L as [-> _]; cbn; eauto.
Qed.

Lemma dsteps_own m s m' s' ss n : rtc dstep (m, [s]) (m', [s']) -> ss !! n = Some (Native s) ->
  rtc sstep (m, ss) (m', <[n := Native s']> ss).
Proof.
  intros H. remember (m, [s]) as st eqn:E. remember (m', [s']) as st' eqn:E'.
  revert m s ss E. induction H as [st|st [m1 l] st' S _ IH]; intros m s ss -> L.
  - injection E' as -> ->. rewrite list_insert_id; done.
  - destruct (dstep_alone _ _ _ _ S) as [s1 ->].
    eapply rtc_l; [by apply (S_own _ _ n s m1 s1)|].
    rewrite <- (list_insert_insert_eq ss n (Native s') (Native s1)). apply (IH E' m1 s1); [done|].
    apply list_lookup_insert_eq. by eapply lookup_lt_Some.
Qed.

(** A step in its own code or in the handler. *)
Lemma own_simulates m ts n f m' f' ss : backed g text backing -> in_order m ts ss ->
  ts !! n = Some (Own f) -> fstep (m, [f]) (m', [f']) ->
  (is_running f = true -> forall s k c, Inside s k c ∈ ts -> spares s m m') ->
  exists ss', rtc sstep (m, ss) (m', ss') /\ in_order m' (<[n := Own f']> ts) ss'.
Proof.
  intros B I L ST SP. destruct (Forall2_lookup_l _ _ _ _ _ (io_mirrors _ _ _ I) L) as (a & La & M).
  inversion M as [? s S|]; subst.
  destruct (fstep_stands g text backing m [f] m' [f'] [s] B ST) as (l & D & F); [by repeat constructor|].
  inversion F as [|? s' ? l' S' F']; subst. inversion F'; subst.
  exists (<[n := Native s']> ss). split; [by apply (dsteps_own m s)|].
  apply (in_order_change m _ _ _ _ (Own f)); try done; [|by constructor].
  destruct (is_running f) eqn:R.
  - split; [|intros j s0 k c _ Lj; apply (SP eq_refl s0 k c); by eapply list_elem_of_lookup_2].
    destruct f; [|done]. inversion ST as [? ? n0 ? ? L0 E0 ST0|? ? n0 ? ? ? ? L0|? ? n0 ? ? ? ? ? L0|? ? n0 ? ? ? L0];
      subst; apply list_lookup_singleton_Some in L0 as [_ ?]; done.
  - destruct (fstep_handler g text backing m f m' f' s B ST S) as (STB & P & O); [by intros s0 ->|].
    split; [done|]. intros j s0 k c _ Lj x Hx. rewrite P. split; [|done]. apply O.
    by apply (tm_backing _ (proj1 (Forall_lookup_1 _ _ _ _ (io_course _ _ _ I) Lj))).
Qed.

Lemma call_site_phase s c a : phase s c a -> call_site a = Some s.
Proof. by intros []. Qed.

(** A step of an interception. *)
Lemma inside_acts m ss n s c c' a : phase s c a -> ss !! n = Some a -> acts e s (th_sees m c) c' ->
  exists a', rtc sstep (m, ss) (th_mem c', <[n := a']> ss) /\ phase s c' a'.
Proof.
  intros P L [(C1 & C2 & Q1 & Q2)|[(C1 & C2 & C3 & C4 & HA & ->)|(sh & C1 & C2 & W & C3 & C4 & N & A & ->)]].
  - exists a. rewrite (list_insert_id ss n a L). cbn [th_calls th_ecalls th_sees] in C1, C2. split.
    + apply rtc_once, (S_stack _ _ n a s); try done. by apply (call_site_phase s c).
    + destruct P; econstructor; congruence.
  - cbn [th_calls th_ecalls th_sees] in C1, C2. destruct P; try congruence.
    set (sh := th_mach (th_sees m c)) in *. pose proof (hook_answer_call s sh HA) as E. change (mem sh) with m in E.
    exists (if wr_a1 (call_answer e sh).1.1 =? 0 then Forwarding s (call_answer e sh).2
            else Returning s (wr_a0 (call_answer e sh).1.1) (call_answer e sh).2).
    split; [rewrite E; apply rtc_once; by apply S_hook|].
    destruct (syscall_hook_flag (ce_hook_fn e) (ce_result0 e) (getx sh a0) (getx sh a1) (getx sh a2) (getx sh a3)
      (getx sh a4) (getx sh a5) (getx sh a6) (getx sh a7) (mem sh)) as [F|F];
      fold (call_answer e sh) in F; rewrite F; cbn [Z.eqb].
    + by apply Ph_forwarding.
    + by apply Ph_handled.
  - cbn [th_calls th_ecalls th_sees] in C1, C2. destruct P as [|sh0 E1 E2 W'| |]; simplify_eq; try congruence.
    assert (sh0 = sh) as -> by congruence.
    set (sk := th_mach (th_sees m c)) in *.
    assert (u64 (k_syscall (xr s a7) (site_args s) m).1 = sys_result sk) as R
      by (unfold sys_result; by rewrite N, A).
    eexists. split; [|by apply Ph_forwarded]. rewrite <- R.
    by apply rtc_once, (S_kernel m ss n s (call_answer e sh).2 (sys_event sk)).
Qed.

Lemma inside_course m s k c c' : on_course m (Inside s k c) -> ~ back e s c ->
  tstep e hk (th_sees m c) = Some c' ->
  (k < interception_steps)%nat /\ acts e s (th_sees m c) c' /\ on_course (th_mem c') (Inside s (S k) c').
Proof.
  intros (T & Lk & SP & LD) NB E. pose proof (spares_preorder e rgp s) as PO.
  assert (leads e hk (spares s) (acts e s) (back e s) (interception_steps - k) (th_sees m c)) as LS
    by (apply leads_sees; [exact PO|apply back_sees|exact SP|exact LD]).
  destruct (leads_own _ _ _ _ PO _ _ _ _ LS NB E) as (Pos & A & LD').
  cbn [on_course]. split_and!; try (done || lia).
  by replace (interception_steps - S k)%nat with (interception_steps - k - 1)%nat by lia.
Qed.

Lemma inside_simulates m ts n s k c c' ss : backed g text backing -> in_order m ts ss ->
  ts !! n = Some (Inside s k c) -> ~ back e s c -> tstep e hk (th_sees m c) = Some c' ->
  exists ss', rtc sstep (m, ss) (th_mem c', ss') /\ in_order (th_mem c') (<[n := Inside s (S k) c']> ts) ss'.
Proof.
  intros B I L NB E. destruct (Forall2_lookup_l _ _ _ _ _ (io_mirrors _ _ _ I) L) as (a & La & M).
  inversion M as [|? ? ? ? P]; subst.
  destruct (inside_course m s k c c' (Forall_lookup_1 _ _ _ _ (io_course _ _ _ I) L) NB E) as (_ & A & C).
  destruct (inside_acts m ss n s c c' a P La A) as (a' & R & P').
  exists (<[n := a']> ss). split; [done|].
  apply (in_order_change m _ _ _ _ (Inside s k c)); try done.
  - by apply (acts_harmless m ts ss n s k c).
  - by constructor.
  - intros s' k' c1 [= <- _ _]. left. by exists k, c.
Qed.

(** The first step of an interception. *)
Lemma enter_simulates m ts n s ss : backed g text backing -> in_order m ts ss ->
  ts !! n = Some (Own (Running s)) -> sites (pc s) = true -> may_enter ts (setmem m s) ->
  exists ss', rtc sstep (m, ss) (m, ss') /\
    in_order m (<[n := Inside (setmem m s) 0 (Thread None (setmem m s) [] [])]> ts) ss'.
Proof.
  intros B I L S [[M1 M2] M3 M4 M5 M6].
  destruct (Forall2_lookup_l _ _ _ _ _ (io_mirrors _ _ _ I) L) as (a & La & M).
  inversion M as [? s0 S0|]; subst. inversion S0; subst.
  exists (<[n := Calling (setmem m s0)]> ss). split; [by apply rtc_once, S_call|].
  apply (in_order_change m _ _ _ _ (Own (Running s0))); try done.
  - by constructor; constructor.
  - cbn [on_course]. split_and!; [done|lia|done|]. rewrite Nat.sub_0_r. by apply interception_leads.
  - intros s' k' c' [= <- _ _]. by right.
Qed.

(** The end of an interception. *)
Lemma leave_simulates m ts n s k c ss : backed g text backing -> in_order m ts ss ->
  ts !! n = Some (Inside s k c) -> back e s c ->
  exists ss', rtc sstep (m, ss) (m, ss') /\ in_order m (<[n := Own (Running (local (th_mach c)))]> ts) ss'.
Proof.
  intros B I L (_ & CX & sh & C & _ & T & A).
  destruct (Forall2_lookup_l _ _ _ _ _ (io_mirrors _ _ _ I) L) as (a & La & M).
  inversion M as [|? ? ? ? P]; subst.
  assert (exists r evs, a = Returning s r evs /\ xr (th_mach c) a0 = r /\
    trace (th_mach c) = trace s ++ evs) as (r & evs & -> & A0 & T').
  { destruct A as [(W & E & A)|(W & sk & E & _ & _ & A)]; rewrite E in T;
      destruct P as [? ?|sh0 ? ? W0|sh0 ? ? W0|sh0 sk0 ? ? W0]; try congruence;
      (assert (sh0 = sh) as -> by congruence); do 2 eexists; (split; [done|]);
      cbn [fmap list_fmap] in T; rewrite ?app_nil_r in T; split; congruence. }
  exists (<[n := Native (local (th_mach c))]> ss). split; [by eapply rtc_once, S_return|].
  apply (in_order_change m _ _ _ _ (Inside s k c)); try done. by constructor; constructor.
Qed.

(** Each step of the process is none, one or several for its author. *)
Lemma mstep_simulates m ts m' ts' ss : backed g text backing -> mstep (m, ts) (m', ts') -> in_order m ts ss ->
  exists ss', rtc sstep (m, ss) (m', ss') /\ in_order m' ts' ss'.
Proof.
  intros B ST I. inversion ST; subst; eauto using own_simulates, enter_simulates, inside_simulates, leave_simulates.
  exists (ss ++ [Native s]). split; [apply rtc_once, S_new|]. destruct I as [I1 I2 I3]. constructor.
  - apply Forall2_app; [done|]. by repeat constructor.
  - apply Forall_app. split; [done|]. by repeat constructor.
  - intros i j s1 k c s' k' c' N Li Lj. apply lookup_snoc_Some in Li, Lj.
    destruct Li as [[_ Li]|[_ [=]]], Lj as [[_ Lj]|[_ [=]]]. by apply (I3 i j s1 k c s' k' c').
Qed.

Definition start (ss : list machine) : list mthread := (fun s => Own (Running s)) <$> ss.

Lemma in_order_start m ss : in_order m (start ss) (Native <$> ss).
Proof.
  constructor.
  - induction ss; cbn; constructor; [by constructor; constructor|done].
  - apply Forall_fmap, Forall_true. done.
  - intros i j s k c s' k' c' _ Li. unfold start in Li.
    rewrite list_lookup_fmap in Li. by destruct (ss !! i).
Qed.

Lemma msteps_simulate m ss m' ts : backed g text backing -> rtc mstep (m, start ss) (m', ts) ->
  exists as', rtc sstep (m, Native <$> ss) (m', as') /\ in_order m' ts as'.
Proof.
  intros B. set (P := fun st : memory * list mthread =>
    exists as', rtc sstep (m, Native <$> ss) (st.1, as') /\ in_order st.1 st.2 as').
  apply (rtc_ind_r P); [exists (Native <$> ss); split; [done | apply in_order_start]|].
  intros [m1 ts1] [m2 ts2] _ S (as1 & R1 & I1).
  destruct (mstep_simulates _ _ _ _ _ B S I1) as (as2 & R2 & I2). exists as2. split; [by etransitivity | done].
Qed.

(** C13: A program with several threads runs under the library as its author sees
    it.  Whatever the interleaving of the threads in their own code, in the
    SIGSEGV handler and in interceptions, new threads included, the memory and
    the threads are as after some run in which an access to the execute-only
    region is one step on the backup page, and a system call at a patched site is
    one call of the hook with the arguments of the site, when the hook declines
    one system call with them, and the return with the context of the site and
    the result in a0; in between, the thread writes below its stack pointer
    only. *)
Theorem threads_refine_atomic m ss m' ts : backed g text backing -> rtc mstep (m, start ss) (m', ts) ->
  exists as', rtc sstep (m, Native <$> ss) (m', as') /\ Forall2 (mirrors m') ts as'.
Proof. intros B H. destruct (msteps_simulate m ss m' ts B H) as (as' & R & []). eauto. Qed.

(** A thread in the handler or in an interception can take its next step, and
    is a bounded number of steps from its own code. *)
Definition moves (m : memory) (t : mthread) : Prop :=
  match t with
  | Own (Running _) => True
  | Own (Handling s a p) => (exists c, p = Done c) \/
      exists p' m', handler_step g SIGSEGV a (sigframe s) p m = HOk (p', m') /\ (rank p' < rank p <= 3)%nat
  | Inside s k c => (k <= interception_steps)%nat /\
      (back e s c \/ (k < interception_steps)%nat /\ exists c', tstep e hk (th_sees m c) = Some c')
  end.

(** C14: No thread is held up.  At every moment of every interleaving, a thread in
    the SIGSEGV handler succeeds in its next step and is at most three steps from
    the return; a thread in an interception is at its end or succeeds in its
    next instruction, and is at its end after at most 127 of its own steps,
    whatever the others do. *)
Theorem threads_never_stuck m ss m' ts n t : backed g text backing -> rtc mstep (m, start ss) (m', ts) ->
  ts !! n = Some t -> moves m' t.
Proof.
  intros B H L. destruct (msteps_simulate m ss m' ts B H) as (as' & _ & [M C _]).
  destruct (Forall2_lookup_l _ _ _ _ _ M L) as (a & _ & Mt). pose proof (Forall_lookup_1 _ _ _ _ C L) as Ct.
  destruct Mt as [f s S|s k c a P].
  - destruct S as [s|s a i len p RD HR ND|s a c m0]; cbn [moves]; [done| |left; by eexists].
    right. destruct (handler_step_spec g text m' s a i len p RD HR ND) as (p' & m'' & E & RK & _).
    exists p', m''. split_and!; try done. destruct p; cbn; lia.
  - destruct Ct as (_ & Lk & SP & LD). split; [done|]. pose proof (spares_preorder e rgp s) as PO.
    assert (leads e hk (spares s) (acts e s) (back e s) (interception_steps - k) (th_sees m' c)) as LS
      by (apply leads_sees; [exact PO|apply back_sees|exact SP|exact LD]).
    apply leads_cases in LS as [BK|[Pos ST]]; [by left|right; split; [lia|done]|done].
Qed.
End Process.

(** ** Two threads at the same site

    The threads of [Threads], with the relocated page of [Faults]; the first has
    been intercepted, the second is at the site. *)
Section Example.
#[local] Existing Instance ex_kernel.

Definition mt_sites (x : Z) : bool := x =? 0x1000.
Definition mt_first : machine := cr_machine 0x310000.
Definition mt_second : machine := cr_machine 0x308000.
Definition mt_inside (k : nat) (c : thread) : list mthread := [Inside mt_first k c; Own (Running mt_second)].
Local Abbreviation mt_step := (mstep fx_g cr_env 0x500000 0x200800 mt_sites fx_text fx_backing).
Local Abbreviation mt_spec := (sstep fx_g cr_env 0x500000 mt_sites fx_text fx_backing).
Definition mt_thread : thread := Thread None mt_first [] [].

Lemma mt_may_enter :
  may_enter cr_env 0x500000 0x200800 fx_text fx_backing (start [mt_first; mt_second]) mt_first.
Proof.
  pose proof cr_crowd_ok as [_ S _ H K].
  assert (mt_first ∈ cr_machines) as E by (by left).
  constructor; [by apply S | by apply H | by apply K | |].
  - constructor; [| |done..]; intros x; unfold footprint, in_code, in_var, in_frame, fx_text, fx_backing;
      change (frame_of mt_first) with (0x310000 - 304); change (xr mt_first sp) with 0x310000;
      change (pc mt_first) with 0x1000; change (ce_rgp_var cr_env) with 0x400000;
      unfold RET_SEQUENCE_SIZE, TRAMPOLINE_SIZE; intros Hx; case_bools; lia || done.
  - intros s' k c. cbn. rewrite !elem_of_cons, elem_of_nil. by intros [[=]|[[=]|[]]].
Qed.

Lemma mt_run : rtc mt_step (ex_mem, start [mt_first; mt_second]) (ex_mem, mt_inside 0 mt_thread).
Proof.
  apply rtc_once. change (mt_inside 0 mt_thread) with (<[0%nat := Inside (setmem ex_mem mt_first) 0
    (Thread None (setmem ex_mem mt_first) [] [])]> (start [mt_first; mt_second])).
  by apply M_enter; [| |exact mt_may_enter].
Qed.

Lemma threads_refine_atomic_witness :
  rtc mt_spec (ex_mem, Native <$> [mt_first; mt_second]) (ex_mem, [Calling mt_first; Native mt_second]).
Proof.
  destruct (threads_refine_atomic fx_g cr_env 0x500000 0x200800 mt_sites fx_text fx_backing ex_mem
    [mt_first; mt_second] _ _ fx_backed mt_run) as (as' & R & F).
  inversion F as [|? b1 ? l M1 F1]; subst. inversion F1 as [|? b2 ? l2 M2 F2]; subst. inversion F2; subst.
  inversion M1 as [|? ? ? ? P]; subst. inversion P; subst; try discriminate.
  inversion M2 as [? ? S|]; subst. inversion S; subst. exact R.
Defined.

Lemma threads_never_stuck_witness :
  exists c', tstep cr_env 0x500000 (th_sees ex_mem mt_thread) = Some c'.
Proof.
  destruct (threads_never_stuck fx_g cr_env 0x500000 0x200800 mt_sites fx_text fx_backing ex_mem
    [mt_first; mt_second] _ _ 0%nat _ fx_backed mt_run eq_refl) as (_ & [(_ & _ & sh & E & _)|(_ & H)]);
    [discriminate E | exact H].
Defined.
End Example.
