(* ===== verification/Rewriter.v ===== *)
(** * Replacing the system calls of libc: the disassembly loop of main.c

    [intercept_disasm_init], [intercept_disasm_next_instruction],
    [intercept_disasm_destroy] and [disassemble_and_rewrite].  Capstone, the
    disassembler, is a parameter: [Capstone] has the calls the sources make and
    [CapstoneLaws] what its documentation promises about them.  [length_decoder]
    at the end is an instance, used to run the code. *)

From stdpp Require Import base gmap list.
From Stdlib Require Import ZArith Lia Bool.
From S2P Require Import Prelude Memory Isa Os RetSeq Patcher Intercept.

(** ** Capstone *)

Class Capstone := {
  (** [CS_ERR_OK] is 0 *)
  cs_open : Z;
  cs_option_detail : Z;
  cs_option_mem : Z;
  (** [cs_malloc]: whether it returned an instruction buffer *)
  cs_malloc : bool;
  RISCV_INS_ECALL : Z;
  (** [cs_disasm_iter(handle, &code, &size, &address, insn)]: [insn->id] and
      [insn->size] when an instruction is decoded *)
  cs_disasm_iter : memory -> Z -> Z -> option (Z * Z)
}.

Definition EXIT_FAILURE : Z := 1.

(** [jalr gp, gp, 0]: the word [JALR_GP] of a patched site, and the one it
    replaces. *)
Definition ECALL : Z := 0x00000073.

Class CapstoneLaws (C : Capstone) := {
  (** an instruction is not empty and lies in the buffer *)
  cs_size : forall m code size id n,
    cs_disasm_iter m code size = Some (id, n) -> 0 < n <= size;
  (** the id of an ecall is given to its encoding and to nothing else *)
  cs_ecall_sound : forall m code size n,
    cs_disasm_iter m code size = Some (RISCV_INS_ECALL, n) ->
    n = 4 /\ mread 4 m code = ECALL;
  cs_ecall_complete : forall m code size,
    4 <= size -> mread 4 m code = ECALL ->
    cs_disasm_iter m code size = Some (RISCV_INS_ECALL, 4);
  (** a jalr is a four-byte instruction *)
  cs_jalr : forall m code size,
    4 <= size -> mread 4 m code = JALR_GP ->
    exists id, cs_disasm_iter m code size = Some (id, 4) /\ id <> RISCV_INS_ECALL;
  (** an instruction is decoded from its own bytes *)
  cs_own : forall m1 m2 code size id n,
    cs_disasm_iter m1 code size = Some (id, n) -> agree_on code (code + n) m1 m2 ->
    cs_disasm_iter m2 code size = Some (id, n);
  (** the buffer is all that is read *)
  cs_local : forall m1 m2 code size,
    agree_on code (code + size) m1 m2 ->
    cs_disasm_iter m1 code size = cs_disasm_iter m2 code size
}.

(** ** The disassembly context *)

(** [struct intercept_disasm_context]: its address and the bounds it holds. *)
Record intercept_disasm_context := {
  ctx_addr : Z;
  begin_ : Z;
  end_ : Z
}.

(** [sizeof(struct intercept_disasm_context)]: four words. *)
Definition sizeof_context : Z := 32.

Record intercept_disasm_result := {
  address : Z;
  is_syscall : bool;
  length_ : Z
}.

Section Rewriter.
Context {OS : Os} {C : Capstone}.

(** The pointer [mmap] returns is not checked: the first store through
    [MAP_FAILED] is a fault at an address where nothing is mapped. *)
Definition intercept_disasm_init (begin_ end_ : Z) (m : memory)
  : res (intercept_disasm_context * memory) :=
  match os_mmap m sizeof_context (Z.lor PROT_READ PROT_WRITE) with
  | None => Killed SIGSEGV
  | Some (context, m') =>
    if negb (cs_open =? 0) then Exited EXIT_FAILURE
    else if negb (cs_option_detail =? 0) then Exited EXIT_FAILURE
    else if negb (cs_option_mem =? 0) then Exited EXIT_FAILURE
    else if negb cs_malloc then Exited EXIT_FAILURE
    else Ok ({| ctx_addr := context; begin_ := begin_; end_ := end_ |}, m')
  end.

(** The value of [munmap] is ignored. *)
Definition intercept_disasm_destroy (context : intercept_disasm_context) (m : memory) : memory :=
  default m (os_munmap m (ctx_addr context) sizeof_context).

Definition intercept_disasm_next_instruction (context : intercept_disasm_context)
  (m : memory) (code : Z) : res intercept_disasm_result :=
  let size := u64 (end_ context - code + 1) in
  match cs_disasm_iter m code size with
  | None => Ok {| address := code; is_syscall := false; length_ := 0 |}
  | Some (id, n) =>
    if n =? 0 then Exited EXIT_FAILURE
    else Ok {| address := code; is_syscall := id =? RISCV_INS_ECALL; length_ := n |}
  end.

(** The [while (code <= end)] loop; [None] when [fuel] iterations were not
    enough. *)
Fixpoint rewrite_loop (fuel : nat) (context : intercept_disasm_context) (code : Z) (m : memory)
  : option (res memory) :=
  match fuel with
  | O => None
  | S fuel' =>
    if code <=? end_ context then
      match intercept_disasm_next_instruction context m code with
      | Ok result =>
        if length_ result =? 0 then rewrite_loop fuel' context (code + 1) m
        else if is_syscall result then
          match mstore 4 m (address result) 0x000181e7 with
          | Some m' => rewrite_loop fuel' context (code + length_ result) m'
          | None => Some (Killed SIGSEGV)
          end
        else rewrite_loop fuel' context (code + length_ result) m
      | Exited c => Some (Exited c)
      | Killed s => Some (Killed s)
      end
    else Some (Ok m)
  end.

(** Enough iterations: the code pointer moves on in each. *)
Definition loop_fuel (code_size : Z) : nat := S (Z.to_nat code_size).

Definition disassemble_and_rewrite (code code_size mem_prot : Z) (m : memory)
  : option (res memory) :=
  match os_mprotect m code code_size (Z.lor (Z.lor PROT_WRITE PROT_READ) PROT_EXEC) with
  | None => Some (Exited EXIT_FAILURE)
  | Some m1 =>
    let end_ := code + code_size - 1 in
    match intercept_disasm_init code end_ m1 with
    | Exited c => Some (Exited c)
    | Killed s => Some (Killed s)
    | Ok (context, m2) =>
      match rewrite_loop (loop_fuel code_size) context code m2 with
      | Some (Ok m3) =>
        let m4 := intercept_disasm_destroy context m3 in
        match os_mprotect m4 code code_size mem_prot with
        | None => Some (Exited EXIT_FAILURE)
        | Some m5 => Some (Ok m5)
        end
      | r => r
      end
    end
  end.
End Rewriter.

(** ** What is replaced

    The addresses the sweep finds an ecall at, on the memory before any is
    replaced. *)
Fixpoint ecall_sites `{Capstone} (fuel : nat) (m : memory) (code last : Z) : list Z :=
  match fuel with
  | O => []
  | S fuel' =>
    if code <=? last then
      match cs_disasm_iter m code (last - code + 1) with
      | None => ecall_sites fuel' m (code + 1) last
      | Some (id, n) =>
        if id =? RISCV_INS_ECALL then code :: ecall_sites fuel' m (code + n) last
        else ecall_sites fuel' m (code + n) last
      end
    else []
  end.

(** The memory with the [jalr] at each of [sites]. *)
Definition patched (sites : list Z) (m : memory) : memory :=
  foldl (fun m a => mwrite 4 m a JALR_GP) m sites.

Lemma patched_cons a l m : patched (a :: l) m = patched l (mwrite 4 m a JALR_GP).
Proof. done. Qed.

Lemma patched_prot sites : forall m, m_prot (patched sites m) = m_prot m.
Proof. induction sites as [|a l IH]; intros m; [done|]. by rewrite patched_cons, IH, mwrite_prot. Qed.

Lemma mbyte_patched_out sites : forall m x,
  (forall a, a ∈ sites -> ~ (a <= x < a + 4)) -> mbyte (patched sites m) x = mbyte m x.
Proof.
  induction sites as [|a l IH]; intros m x H; [done|].
  rewrite patched_cons, IH by (intros b Hb; apply H; by right). apply mbyte_mwrite_out. apply H. by left.
Qed.

(** Sites in ascending order, one instruction apart, between [lo] and [hi]. *)
Inductive spaced (lo hi : Z) : list Z -> Prop :=
| spaced_nil : spaced lo hi []
| spaced_cons a l : lo <= a -> a + 4 <= hi -> spaced (a + 4) hi l -> spaced lo hi (a :: l).

Lemma spaced_weaken lo lo' hi l : spaced lo hi l -> lo' <= lo -> spaced lo' hi l.
Proof. intros [|a k H1 H2 H3] ?; constructor; auto; lia. Qed.

Lemma spaced_in lo hi l a : spaced lo hi l -> a ∈ l -> lo <= a /\ a + 4 <= hi.
Proof.
  induction 1 as [lo hi|lo hi b l H1 H2 H3 IH]; [by intros ?%not_elem_of_nil|].
  intros [->|E]%elem_of_cons; [lia|]. specialize (IH E). lia.
Qed.

(** Every site reads back as the [jalr]. *)
Lemma mread_patched lo hi l : spaced lo hi l ->
  forall m a, a ∈ l -> mread 4 (patched l m) a = JALR_GP.
Proof.
  induction 1 as [lo hi|lo hi b l H1 H2 H3 IH]; intros m a; [by intros ?%not_elem_of_nil|].
  rewrite patched_cons. intros [->|E]%elem_of_cons; [|by apply IH].
  transitivity (mread 4 (mwrite 4 m b JALR_GP) b); [|by rewrite mread_mwrite].
  apply mread_ext. intros x Hx. apply mbyte_patched_out. intros c Hc.
  pose proof (spaced_in _ _ _ _ H3 Hc). lia.
Qed.

(** Two memories that agree at a byte agree there after the same patches. *)
Lemma patched_agree l : forall m m' x,
  mbyte m x = mbyte m' x -> mbyte (patched l m) x = mbyte (patched l m') x.
Proof.
  induction l as [|b l IH]; intros m m' x E; [done|].
  rewrite !patched_cons. apply IH. rewrite !mbyte_mwrite. by rewrite E.
Qed.

(** ** The loop *)

(** The addresses the sweep visits, and whether all of them decode. *)
Fixpoint swept `{Capstone} (fuel : nat) (m : memory) (code last : Z) : list Z :=
  match fuel with
  | O => []
  | S fuel' =>
    if code <=? last then
      code :: swept fuel' m (code + default 1 (snd <$> cs_disasm_iter m code (last - code + 1))) last
    else []
  end.

Definition all_decode `{Capstone} (fuel : nat) (m : memory) (code last : Z) : Prop :=
  forall a, a ∈ swept fuel m code last -> is_Some (cs_disasm_iter m a (last - a + 1)).

Section Loop.
Context {OS : Os} {LOS : OsLaws OS} {C : Capstone} {LC : CapstoneLaws C}.

Lemma ecall_sites_spaced fuel : forall m code last,
  spaced code (last + 1) (ecall_sites fuel m code last).
Proof.
  induction fuel as [|fuel IH]; intros m code last; cbn [ecall_sites]; [constructor|].
  destruct (Z.leb_spec code last); [|constructor].
  destruct (cs_disasm_iter _ _ _) as [[id n]|] eqn:E.
  - pose proof (cs_size _ _ _ _ _ E). destruct (Z.eqb_spec id RISCV_INS_ECALL) as [->|].
    + apply cs_ecall_sound in E as [-> _]. constructor; [lia..|]. apply IH.
    + eapply spaced_weaken; [apply IH|]. lia.
  - eapply spaced_weaken; [apply IH|]. lia.
Qed.

(** Only ecalls are replaced. *)
Lemma ecall_sites_sound fuel : forall m code last a,
  a ∈ ecall_sites fuel m code last -> mread 4 m a = ECALL.
Proof.
  induction fuel as [|fuel IH]; intros m code last a; cbn [ecall_sites]; [by intros ?%not_elem_of_nil|].
  destruct (Z.leb_spec code last); [|by intros ?%not_elem_of_nil].
  destruct (cs_disasm_iter _ _ _) as [[id n]|] eqn:E; [|apply IH].
  destruct (Z.eqb_spec id RISCV_INS_ECALL) as [->|]; [|apply IH].
  intros [->|Ha]%elem_of_cons; [by apply cs_ecall_sound in E as [_ ?] | by eapply IH].
Qed.

(** Every ecall the sweep visits is replaced. *)
Lemma ecall_sites_complete fuel : forall m code last a,
  a ∈ swept fuel m code last -> a + 4 <= last + 1 -> mread 4 m a = ECALL ->
  a ∈ ecall_sites fuel m code last.
Proof.
  induction fuel as [|fuel IH]; intros m code last a; cbn [swept ecall_sites];
    [by intros ?%not_elem_of_nil|].
  destruct (Z.leb_spec code last); [|by intros ?%not_elem_of_nil].
  intros [->|Ha]%elem_of_cons Hl R.
  - rewrite (cs_ecall_complete m code) by (done || lia). rewrite Z.eqb_refl. by left.
  - destruct (cs_disasm_iter _ _ _) as [[id n]|]; cbn in Ha; [|by apply IH].
    destruct (id =? RISCV_INS_ECALL); [right|]; by apply IH.
Qed.

(** The loop ends within [last - code + 2] iterations and leaves the memory with
    the sites of the unmodified code replaced. *)
Lemma rewrite_loop_spec fuel ctx m0 : forall code m,
  0 <= code -> end_ ctx < 2 ^ 63 -> (Z.to_nat (end_ ctx - code + 1) < fuel)%nat ->
  agree_on code (end_ ctx + 1) m m0 ->
  (forall x, code <= x <= end_ ctx -> has_prot PROT_WRITE m x = true) ->
  rewrite_loop fuel ctx code m = Some (Ok (patched (ecall_sites fuel m0 code (end_ ctx)) m)).
Proof.
  induction fuel as [|fuel IH]; intros code m H0 He Hf A W; [lia|].
  cbn [rewrite_loop ecall_sites]. destruct (Z.leb_spec code (end_ ctx)); [|done].
  unfold intercept_disasm_next_instruction.
  rewrite (u64_small (end_ ctx - code + 1)) by u64_lia.
  rewrite (cs_local m m0) by (intros x Hx; apply A; lia).
  destruct (cs_disasm_iter m0 code _) as [[id n]|] eqn:E; cbn [length_ is_syscall address].
  - pose proof (cs_size _ _ _ _ _ E). destruct (Z.eqb_spec n 0); [lia|].
    destruct (Z.eqb_spec id RISCV_INS_ECALL) as [->|]; cbn [length_ is_syscall address].
    + apply cs_ecall_sound in E as [-> _]. cbn [Z.eqb]. unfold mstore.
      rewrite (proj2 (range_prot_spec _ 4 _ _)) by (intros; apply W; lia).
      rewrite patched_cons. apply IH; try lia.
      * intros x Hx. rewrite mbyte_mwrite_out by lia. apply A. lia.
      * intros x Hx. rewrite has_prot_mwrite. apply W. lia.
    + rewrite (proj2 (Z.eqb_neq n 0)) by lia. apply IH; try lia;
        intros x Hx; [apply A | apply W]; lia.
  - cbn [Z.eqb]. apply IH; try lia; intros x Hx; [apply A | apply W]; lia.
Qed.

(** A region all of whose instructions decode has no ecall left. *)
Lemma ecall_sites_patched fuel m0 last : forall code m,
  all_decode fuel m0 code last -> agree_on code (last + 1) m (patched (ecall_sites fuel m0 code last) m0) ->
  ecall_sites fuel m code last = [].
Proof.
  induction fuel as [|fuel IH]; intros code m D A; cbn [ecall_sites]; [done|].
  cbn [ecall_sites] in A. destruct (Z.leb_spec code last); [|done].
  assert (is_Some (cs_disasm_iter m0 code (last - code + 1))) as [[id n] E]
    by (apply D; cbn [swept]; rewrite (proj2 (Z.leb_le code last)) by lia; by left).
  rewrite E in A. pose proof (cs_size _ _ _ _ _ E) as Hn.
  assert (all_decode fuel m0 (code + n) last) as D'.
  { intros a Ha. apply D. cbn [swept]. rewrite (proj2 (Z.leb_le code last)) by lia.
    rewrite E. by right. }
  pose proof (ecall_sites_spaced fuel m0 (code + n) last) as SP.
  destruct (Z.eqb_spec id RISCV_INS_ECALL) as [->|N].
  - apply cs_ecall_sound in E as [-> _]. rewrite patched_cons in A.
    destruct (cs_jalr m code (last - code + 1)) as (id & -> & NI); [lia| |].
    + erewrite mread_ext; [|intros x Hx; apply A; lia].
      rewrite <- patched_cons. apply (mread_patched code (last + 1)); [|by left].
      constructor; [lia..|exact SP].
    + rewrite (proj2 (Z.eqb_neq _ _) NI). apply IH; [done|].
      intros x Hx. rewrite A by lia. apply patched_agree. apply mbyte_mwrite_out. lia.
  - rewrite (cs_own m0 m _ _ id n E).
    + rewrite (proj2 (Z.eqb_neq _ _) N). apply IH; [done|]. intros x Hx. apply A. lia.
    + intros x Hx. rewrite A by lia. symmetry. apply mbyte_patched_out.
      intros a Ha. pose proof (spaced_in _ _ _ _ SP Ha). lia.
Qed.
Lemma ecall_sites_swept fuel : forall m code last a,
  a ∈ ecall_sites fuel m code last -> a ∈ swept fuel m code last.
Proof.
  induction fuel as [|fuel IH]; intros m code last a; cbn [swept ecall_sites]; [done|].
  destruct (Z.leb_spec code last); [|done].
  destruct (cs_disasm_iter _ _ _) as [[id n]|]; cbn; [|right; by apply IH].
  destruct (id =? RISCV_INS_ECALL); [|right; by apply IH].
  intros [->|Ha]%elem_of_cons; [by left | right; by apply IH].
Qed.

(** What the sweep finds depends on the region alone. *)
Lemma ecall_sites_ext fuel m1 m2 last : forall code,
  agree_on code (last + 1) m1 m2 -> ecall_sites fuel m1 code last = ecall_sites fuel m2 code last.
Proof.
  induction fuel as [|fuel IH]; intros code A; cbn [ecall_sites]; [done|].
  destruct (Z.leb_spec code last); [|done].
  rewrite (cs_local m1 m2) by (intros x Hx; apply A; lia).
  destruct (cs_disasm_iter m2 _ _) as [[id n]|] eqn:E.
  - pose proof (cs_size _ _ _ _ _ E). rewrite (IH (code + n)) by (intros x Hx; apply A; lia). done.
  - apply IH. intros x Hx. apply A. lia.
Qed.

(** ** A whole region *)

(** A region of user space. *)
Definition region_ok (code code_size : Z) : Prop :=
  0 <= code /\ 0 <= code_size /\ code + code_size <= 2 ^ 63.

(** The sites of a region. *)
Definition region_sites (code code_size : Z) (m : memory) : list Z :=
  ecall_sites (loop_fuel code_size) m code (code + code_size - 1).

(** The memory when the context is set up: the region is writable and the
    context is elsewhere. *)
Lemma before_loop code code_size m m1 ctx m2 :
  region_ok code code_size ->
  os_mprotect m code code_size (Z.lor (Z.lor PROT_WRITE PROT_READ) PROT_EXEC) = Some m1 ->
  intercept_disasm_init code (code + code_size - 1) m1 = Ok (ctx, m2) ->
  let hi := code + page_up os_pagesize code_size in
  let c := ctx_addr ctx in
  end_ ctx = code + code_size - 1 /\ c mod os_pagesize = 0 /\
  (c + os_pagesize <= code \/ hi <= c \/ hi <= code) /\
  (forall x, c <= x < c + os_pagesize -> m_prot m x = None) /\
  reprotected c (c + os_pagesize) 3 m1 m2 /\ reprotected code hi 7 m m1 /\
  agree_off c (c + os_pagesize) m2 m.
Proof.
  intros (H0 & H1 & H2) E1 E2 hi c. apply mprotect_spec in E1 as [B1 P1].
  unfold intercept_disasm_init in E2. destruct (os_mmap m1 _ _) as [[a mm]|] eqn:EM; [|discriminate].
  repeat match type of E2 with (if ?b then _ else _) = _ => destruct b; [discriminate E2|] end.
  injection E2 as <- <-. subst c. cbn [end_ ctx_addr].
  destruct pagesize_pow2 as (k & Hk & Ek).
  assert (sizeof_context <= os_pagesize) as HS
    by (rewrite Ek; unfold sizeof_context; change 32 with (2 ^ 5); apply Z.pow_le_mono_r; lia).
  apply mmap_spec in EM; [|unfold sizeof_context; lia].
  rewrite page_up_one in EM by (unfold sizeof_context in *; lia).
  destruct EM as (A & G1 & G2 & F & RP & AG).
  assert (forall x, a <= x < a + os_pagesize -> ~ (code <= x < hi) /\ m_prot m x = None) as D.
  { intros x Hx. specialize (F x Hx). rewrite P1 in F. fold hi in F.
    revert F. case_bools; intros F; try discriminate; split; lia || done. }
  split_and!; try done.
  - destruct (Z.lt_ge_cases code (a + os_pagesize)); [|by left].
    destruct (Z.lt_ge_cases a hi); [|by right; left]. right. right.
    destruct (Z.le_gt_cases hi code); [done|]. unfold sizeof_context in *.
    destruct (Z.le_gt_cases a code); [destruct (D code) | destruct (D a)]; lia.
  - intros x Hx. by apply D.
  - intros x Hx. rewrite AG by done. by apply mbyte_ext.
Qed.

(** The loop runs to its end. *)
Lemma loop_runs code code_size m m1 ctx m2 :
  region_ok code code_size ->
  os_mprotect m code code_size (Z.lor (Z.lor PROT_WRITE PROT_READ) PROT_EXEC) = Some m1 ->
  intercept_disasm_init code (code + code_size - 1) m1 = Ok (ctx, m2) ->
  rewrite_loop (loop_fuel code_size) ctx code m2 =
    Some (Ok (patched (region_sites code code_size m) m2)) /\
  forall x, code <= x < code + code_size -> ~ (ctx_addr ctx <= x < ctx_addr ctx + os_pagesize).
Proof.
  intros RO E1 E2. destruct (before_loop _ _ _ _ _ _ RO E1 E2) as (EE & A & D & F & R2 & R1 & AG).
  destruct RO as (H0 & H1 & H2). destruct pagesize_pow2 as (k & Hk & Ek).
  assert (0 < os_pagesize) as HP by (rewrite Ek; apply Z.pow_pos_nonneg; lia).
  pose proof (page_up_ge os_pagesize code_size HP) as PG.
  assert (forall x, code <= x < code + code_size ->
    ~ (ctx_addr ctx <= x < ctx_addr ctx + os_pagesize)) as OUT by (intros; lia).
  split; [|done]. unfold region_sites. rewrite <- EE. apply rewrite_loop_spec; try lia.
  - unfold loop_fuel. rewrite EE. lia.
  - intros x Hx. apply AG, OUT. lia.
  - intros x Hx. unfold has_prot. rewrite R2, R1.
    destruct ((ctx_addr ctx <=? x) && _) eqn:EX; [exfalso; apply (OUT x); lia|].
    rewrite (proj2 (Z.leb_le code x)), (proj2 (Z.ltb_lt x (code + page_up os_pagesize code_size))) by lia.
    done.
Qed.

Lemma init_exit b e m c : intercept_disasm_init b e m = Exited c -> c = EXIT_FAILURE.
Proof. unfold intercept_disasm_init. repeat case_match; congruence. Qed.

Lemma init_killed b e m sig : intercept_disasm_init b e m = Killed sig ->
  sig = SIGSEGV /\ os_mmap m sizeof_context 3 = None.
Proof.
  unfold intercept_disasm_init. change (Z.lor PROT_READ PROT_WRITE) with 3.
  destruct (os_mmap m _ _) as [[a mm]|]; [repeat case_match; discriminate | by intros [= <-]].
Qed.

(** After the loop, the context is unmapped and the protection restored. *)
Lemma disassemble_and_rewrite_ok code code_size mem_prot m m' :
  region_ok code code_size ->
  disassemble_and_rewrite code code_size mem_prot m = Some (Ok m') ->
  reprotected code (code + page_up os_pagesize code_size) mem_prot m m' /\
  forall x, m_prot m x <> None \/ code <= x < code + code_size ->
    mbyte m' x = mbyte (patched (region_sites code code_size m) m) x.
Proof.
  intros RO H. unfold disassemble_and_rewrite in H.
  destruct (os_mprotect m _ _ _) as [m1|] eqn:E1; [|discriminate].
  destruct (intercept_disasm_init _ _ m1) as [[ctx m2]| |] eqn:E2; [|discriminate..].
  destruct (before_loop _ _ _ _ _ _ RO E1 E2) as (EE & A & D & F & R2 & R1 & AG).
  destruct (loop_runs _ _ _ _ _ _ RO E1 E2) as [EL OUT]. rewrite EL in H.
  destruct pagesize_pow2 as (k & Hk & Ek).
  destruct (munmap_spec (patched (region_sites code code_size m) m2)
    (ctx_addr ctx) sizeof_context A ltac:(unfold sizeof_context; lia)) as (m4 & E4 & U & AU).
  unfold intercept_disasm_destroy in H. rewrite E4 in H. cbn [from_option id] in H.
  rewrite page_up_one in U, AU
    by (unfold sizeof_context; rewrite Ek; change 32 with (2 ^ 5); split; [lia|];
        apply Z.pow_le_mono_r; lia).
  destruct (os_mprotect m4 _ _ _) as [m5|] eqn:E5; [|discriminate]. injection H as <-.
  apply mprotect_spec in E5 as [B5 P5]. split.
  - intros x. rewrite P5, U, patched_prot, R2, R1.
    destruct ((code <=? x) && _); [done|].
    destruct ((ctx_addr ctx <=? x) && (x <? ctx_addr ctx + os_pagesize)) eqn:EX; [|done].
    symmetry. apply F. lia.
  - intros x Hx. assert (~ (ctx_addr ctx <= x < ctx_addr ctx + os_pagesize)) as NX
      by (destruct Hx as [Hx|Hx]; [intros Hc; by apply Hx, F | by apply OUT]).
    rewrite (mbyte_ext m4), AU by done. apply patched_agree. by apply AG.
Qed.
End Loop.

(** ** Properties *)

Section Properties.
Context {OS : Os} {LOS : OsLaws OS} {C : Capstone} {LC : CapstoneLaws C}.

Lemma disassemble_and_rewrite_ends code code_size mem_prot m :
  region_ok code code_size ->
  exists r, disassemble_and_rewrite code code_size mem_prot m = Some r /\
    match r with
    | Ok _ => True
    | Exited c => c = EXIT_FAILURE
    | Killed s => s = SIGSEGV /\ exists m1, os_mprotect m code code_size 7 = Some m1 /\
        os_mmap m1 sizeof_context 3 = None
    end.
Proof.
  intros RO. unfold disassemble_and_rewrite.
  destruct (os_mprotect m _ _ _) as [m1|] eqn:E1; [|by eexists].
  destruct (intercept_disasm_init _ _ m1) as [[ctx m2]|c|sig] eqn:E2.
  - destruct (loop_runs _ _ _ _ _ _ RO E1 E2) as [-> _].
    destruct (os_mprotect _ _ _ mem_prot); by eexists.
  - eexists. split; [done|]. by apply init_exit in E2.
  - eexists. split; [done|]. apply init_killed in E2 as [-> ?]. split; [done|]. by exists m1.
Qed.

(** C25: The rewriting of a region always ends: it succeeds, or the process
    exits with status 1, or it is killed by SIGSEGV.  The last happens only when
    the kernel refuses to map the disassembly context, in the memory in which the
    region has just been made readable, writable and executable; in particular the
    stores over the ecalls do not fault. *)
Theorem rewrite_terminates code code_size mem_prot m :
  region_ok code code_size ->
  exists r, disassemble_and_rewrite code code_size mem_prot m = Some r /\
    match r with
    | Ok _ => True
    | Exited c => c = EXIT_FAILURE
    | Killed s => s = SIGSEGV /\ exists m1, os_mprotect m code code_size 7 = Some m1 /\
        os_mmap m1 sizeof_context 3 = None
    end.
Proof. apply disassemble_and_rewrite_ends. Qed.

(** C16: A successful rewriting replaces with [jalr gp, gp, 0] exactly the ecalls
    that the linear sweep of the region meets; every other mapped byte is
    unchanged, the region has the protection it is given and every other
    protection is unchanged. *)
Theorem rewrite_replaces_swept_ecalls code code_size mem_prot m m' :
  region_ok code code_size ->
  disassemble_and_rewrite code code_size mem_prot m = Some (Ok m') ->
  let last := code + code_size - 1 in
  let visited := swept (loop_fuel code_size) m code last in
  let replaced a := a ∈ visited /\ a + 4 <= code + code_size /\ mread 4 m a = ECALL in
  (forall a, replaced a -> mread 4 m' a = JALR_GP) /\
  (forall x, m_prot m x <> None -> (forall a, replaced a -> ~ (a <= x < a + 4)) ->
     mbyte m' x = mbyte m x) /\
  reprotected code (code + page_up os_pagesize code_size) mem_prot m m'.
Proof.
  intros RO H last visited replaced. destruct (disassemble_and_rewrite_ok _ _ _ _ _ RO H) as [P B].
  assert (forall a, replaced a <-> a ∈ region_sites code code_size m) as RS.
  { intros a. unfold region_sites. split.
    - intros (Ha & Hl & E). apply ecall_sites_complete; [done | lia | done].
    - intros Ha. pose proof (spaced_in _ _ _ _ (ecall_sites_spaced _ _ _ _) Ha). split_and!; [|lia|].
      + by apply ecall_sites_swept.
      + by eapply ecall_sites_sound. }
  split_and!; [| |done].
  - intros a Ha%RS.
    pose proof (spaced_in _ _ _ _ (ecall_sites_spaced _ _ _ _) Ha) as Hr.
    erewrite mread_ext; [eapply mread_patched; [apply ecall_sites_spaced | exact Ha]|].
    intros x Hx. apply B. lia.
  - intros x Hx N. rewrite B by auto. apply mbyte_patched_out. intros a Ha. by apply N, RS.
Qed.

(** C21: When every address the sweep meets decodes, a rewritten region has no
    system call left: a second sweep finds no ecall. *)
Theorem rewrite_leaves_no_ecall code code_size mem_prot m m' :
  region_ok code code_size ->
  all_decode (loop_fuel code_size) m code (code + code_size - 1) ->
  disassemble_and_rewrite code code_size mem_prot m = Some (Ok m') ->
  region_sites code code_size m' = [].
Proof.
  intros RO D H. destruct (disassemble_and_rewrite_ok _ _ _ _ _ RO H) as [_ B].
  apply (ecall_sites_patched _ m); [done|]. intros x Hx. apply B. lia.
Qed.
End Properties.

(** ** An instance: instructions by their length *)

Definition length_decoder : Capstone := {|
  cs_open := 0;
  cs_option_detail := 0;
  cs_option_mem := 0;
  cs_malloc := true;
  RISCV_INS_ECALL := 1;
  cs_disasm_iter := fun m code size =>
    if Z.land (mread 2 m code) 3 =? 3 then
      if 4 <=? size then Some (if mread 4 m code =? ECALL then 1 else 0, 4) else None
    else if 2 <=? size then Some (0, 2) else None
|}.

Lemma length_decoder_laws : CapstoneLaws length_decoder.
Proof.
  assert (forall m1 m2 a n k, agree_on a (a + n) m1 m2 -> Z.of_nat k <= n -> mread k m1 a = mread k m2 a)
    as RD by (intros m1 m2 a n k A ?; apply mread_ext; intros x Hx; apply A; lia).
  assert (forall m a w, mread 4 m a = w -> w mod 4 = 3 -> (Z.land (mread 2 m a) 3 =? 3) = true) as W3.
  { intros m a w <- E. rewrite mread_2_of_4. change 3 with (Z.ones 2) at 1.
    rewrite Z.land_ones by lia. apply Z.eqb_eq. Z.div_mod_to_equations. lia. }
  constructor; cbn [cs_disasm_iter RISCV_INS_ECALL length_decoder].
  - intros m code size id n. case_bools; intros [= <- <-]; lia.
  - intros m code size n. case_bools; intros [= <-]; done.
  - intros m code size L E. rewrite (W3 _ _ _ E), E by done. rewrite (proj2 (Z.leb_le 4 size) L). done.
  - intros m code size L E. rewrite (W3 _ _ _ E), E by done. exists 0. rewrite (proj2 (Z.leb_le 4 size) L). done.
  - intros m1 m2 code size id n H A. destruct (Z.eqb_spec (Z.land (mread 2 m1 code) 3) 3) as [E|E].
    + destruct (4 <=? size) eqn:L; [|discriminate]. injection H as <- <-.
      rewrite <- (RD _ _ _ _ 2%nat A), <- (RD _ _ _ _ 4%nat A) by lia. by rewrite E.
    + destruct (2 <=? size) eqn:L; [|discriminate]. injection H as <- <-.
      rewrite <- (RD _ _ _ _ 2%nat A) by lia. by rewrite (proj2 (Z.eqb_neq _ _) E).
  - intros m1 m2 code size A. destruct (Z.lt_ge_cases size 2) as [|].
    { case_bools; lia || done. }
    rewrite (RD m1 m2 code size 2%nat A) by lia.
    destruct (Z.lt_ge_cases size 4); [case_bools; lia || done|].
    by rewrite (RD m1 m2 code size 4%nat A) by lia.
Qed.

(** ** A concrete region: sd, ecall, c.nop, c.nop, ecall *)
Section Witnesses.
#[local] Existing Instance linear_os.
#[local] Existing Instance linear_os_laws.
#[local] Existing Instance length_decoder.
#[local] Existing Instance length_decoder_laws.

Definition rw_mem : memory := put_words 0x1000 [0x00513023; ECALL; 0x00010001; ECALL] ex_m.

Definition rw_result : memory :=
  match disassemble_and_rewrite 0x1000 16 5 rw_mem with Some (Ok m) => m | _ => rw_mem end.

Lemma rw_result_ok : disassemble_and_rewrite 0x1000 16 5 rw_mem = Some (Ok rw_result).
Proof.
  assert (match disassemble_and_rewrite 0x1000 16 5 rw_mem with Some (Ok _) => true | _ => false end
          = true) as E by (vm_compute; reflexivity).
  unfold rw_result. by destruct (disassemble_and_rewrite _ _ _ _) as [[| |]|].
Qed.

Lemma rw_region_ok : region_ok 0x1000 16.
Proof. unfold region_ok. lia. Qed.

Lemma rewrite_terminates_witness :
  exists r, disassemble_and_rewrite 0x1000 16 5 rw_mem = Some r.
Proof. destruct (rewrite_terminates 0x1000 16 5 rw_mem rw_region_ok) as (r & E & _). by exists r. Defined.

Lemma rewrite_replaces_swept_ecalls_witness :
  mread 4 rw_result 0x1004 = JALR_GP /\ mread 4 rw_result 0x100c = JALR_GP /\
  m_prot rw_result 0x1004 = Some 5.
Proof.
  destruct (rewrite_replaces_swept_ecalls 0x1000 16 5 rw_mem rw_result rw_region_ok rw_result_ok)
    as (R & _ & P).
  split_and!; [apply R | apply R | rewrite P; vm_compute; reflexivity].
  all: split_and!; [apply (bool_decide_unpack _); vm_compute; exact I | lia | vm_compute; reflexivity].
Defined.

Lemma rewrite_leaves_no_ecall_witness : region_sites 0x1000 16 rw_result = [].
Proof.
  apply (rewrite_leaves_no_ecall 0x1000 16 5 rw_mem).
  - exact rw_region_ok.
  - intros a Ha. revert a Ha. apply Forall_forall. apply (bool_decide_unpack _). vm_compute. exact I.
  - exact rw_result_ok.
Defined.
End Witnesses.
