(* ===== verification/Spawn.v ===== *)
(** * New threads and processes: the child of clone and clone3

    The return sequence of src/src/patcher.c has a path of its own for clone and
    clone3: it pops the frame before the [ecall], so that what is left to do
    after it, the last [jalr], needs no stack.  [Intercept] follows the parent;
    here is the child, which starts after the [ecall] with a0 = 0, on a stack of
    its own or a copy of the parent's, in a memory that is shared or copied. *)

From stdpp Require Import base gmap list.
From Stdlib Require Import ZArith Lia Bool.
From S2P Require Import Prelude Memory Isa Os RetSeq Patcher AsmHook Intercept Rewriter.

Definition tp : Z := 4.

(** The child the kernel starts for the [ecall] of [s]: the registers of the
    parent but for the result, the stack pointer and the thread pointer when
    they are given, and its memory. *)
Definition clone_child (s : machine) (stack tls : option Z) (m : memory) : machine :=
  Mach (pc s + 4)
    (upd (upd (upd (xr s) sp (default (xr s sp) stack)) tp (default (xr s tp) tls)) a0 0)
    (fr s) m [].

Section Run.
Context {K : Kernel} {R : Routines}.

(** The clone path up to its [ecall]. *)
Lemma clone_entry base s : return_ready base s (mem s) -> pc s = base + 36 ->
  run 3 s = Next (restored base s).
Proof.
  intros (C & B1 & B2 & F1 & F2 & RW & NR) P. destruct s as [p x f m tr].
  unfold restored, FRAME_SIZE, RET_SEQUENCE_SIZE, sp, stack_rw in *. cbn [mem pc xr fr trace] in *.
  subst p. rv_ld 9%nat (x 2 + 288). rv_ld 10%nat (x 2). rv_at 11%nat.
  rewrite (u64_small (x 2 + 304)) by u64_lia. cbn [run]. repeat (lia || f_equal).
Qed.

(** The last instruction of the sequence. *)
Lemma last_jalr base s : code_at (mem s) base return_words -> 0 <= base -> base + RET_SEQUENCE_SIZE < 2 ^ 63 ->
  in_memory base (base + RET_SEQUENCE_SIZE) -> pc s = base + 52 -> is_u64 (xr s gp) -> xr s gp mod 2 = 0 ->
  run 1 s = Next (Mach (xr s gp) (upd (xr s) gp (base + RET_SEQUENCE_SIZE)) (fr s) (mem s) (trace s)).
Proof.
  intros C B1 B2 NR P U E. destruct s as [p x f m tr].
  unfold RET_SEQUENCE_SIZE, gp in *. cbn [mem pc xr fr trace] in *. subst p.
  rv_at 13%nat. rewrite Z.add_0_r, (u64_small (x 3)) by done. cbn [run].
  replace (2 * (x 3 / 2)) with (x 3) by (Z.div_mod_to_equations; lia). repeat (lia || f_equal).
Qed.
End Run.

Section Child.
Context {K : Kernel} {R : Routines} (e : cenv) (hk rgp : Z).

(** C15: The child of an intercepted clone or clone3 gets out of the interception:
    the system call is made in the caller's context, with the frame already
    popped, and whatever stack, thread pointer and memory the kernel gives the
    child, its first instruction takes it after the site of the parent with gp
    the relocated global pointer again, a0 = 0 and all other registers the
    caller's. *)
Theorem clone_child_returns s stack tls m : site_ok e hk rgp s -> xr s a7 = 220 \/ xr s a7 = 435 ->
  wr_a1 (intercept_answer e s).1.1 = 0 ->
  keeps (rgp - RET_SEQUENCE_SIZE) rgp (answered_mem e s) m ->
  exists sc c, run 25 s = Next sc /\ mread 4 (mem sc) (pc sc) = ECALL /\
    xr sc sp = xr s sp /\ xr sc a7 = xr s a7 /\ site_args sc = site_args s /\
    run 1 (clone_child sc stack tls m) = Next c /\
    pc c = pc s + 4 /\ xr c gp = xr s gp /\ xr c a0 = 0 /\
    xr c sp = default (xr s sp) stack /\ xr c tp = default (xr s tp) tls /\
    (forall q, q ∉ [a0; sp; tp] -> xr c q = xr s q) /\ (forall q, fr c q = fr s q) /\ mem c = m.
Proof.
  intros S N W KC. pose proof S as [SH _]. destruct (through_hook e hk rgp s S ltac:(lia)) as (s2 & E & D).
  pose proof (di_ready _ _ _ _ D) as RR. pose proof RR as (C & B1 & B2 & _ & _ & _ & NR).
  destruct (restored_context _ _ _ _ D W) as (X & G & F & M).
  set (base := rgp - RET_SEQUENCE_SIZE) in *. set (sc := restored base s2) in *.
  pose proof (clone_entry base s2 RR (clone_path _ _ _ _ D N W)) as E3.
  destruct (so_pc _ _ _ _ SH) as (P1 & P2 & P3).
  assert (code_at m base return_words) as CM.
  { apply (code_at_keeps (mem s2)); [|done]. rewrite (di_mem _ _ _ _ D). intros x Hx. apply KC.
    unfold base, RET_SEQUENCE_SIZE in *. cbn in Hx. lia. }
  assert (xr (clone_child sc stack tls m) gp = pc s + 4) as EG by exact G.
  eexists sc, _. split; [change 25%nat with (22 + 3)%nat; by rewrite (run_app _ _ _ _ E)|].
  split; [by apply (code_at_mread (mem s2) base return_words 12 ECALL C)|].
  split_and!; try (apply X; done).
  { unfold site_args. cbn [map]. by rewrite !X. }
  { apply (last_jalr base); try done; [cbn [pc clone_child sc restored]; lia | rewrite EG; u64_lia |].
    rewrite EG. Z.div_mod_to_equations. lia. }
  all: cbn [pc xr fr mem clone_child]; try done.
  - rewrite upd_eq. rewrite (so_gp _ _ _ _ SH). unfold base. lia.
  - rewrite upd_ne, upd_ne, upd_ne, upd_eq by done. by rewrite X.
  - rewrite upd_ne, upd_ne, upd_eq by done. by rewrite X.
  - intros q Hq. rewrite !not_elem_of_cons in Hq. destruct Hq as (Q1 & Q2 & Q3 & _).
    unfold upd at 1. destruct (Z.eqb_spec q gp) as [->|]; [rewrite (so_gp _ _ _ _ SH); unfold base; lia|].
    rewrite !upd_ne by done. by apply X.
Qed.
End Child.

(** A clone (220) with a stack for the child and no hook, in the process of
    [Intercept]. *)
Section Example.
#[local] Existing Instance ex_kernel.

Lemma clone_child_returns_witness :
  exists sc c, @run _ (ex_routines None) 25 (ex_machine 220) = Next sc /\
    @run _ (ex_routines None) 1 (clone_child sc (Some 0x320000) None (intercept_mem (ex_machine 220))) = Next c /\
    pc c = 0x1004 /\ xr c gp = 0x200800 /\ xr c a0 = 0 /\ xr c sp = 0x320000 /\ xr c t0 = 1005.
Proof.
  destruct (clone_child_returns (R := ex_routines None) (ex_env None) 0x500000 0x200800 (ex_machine 220)
    (Some 0x320000) None (intercept_mem (ex_machine 220)) (ex_site_ok None 220 ltac:(u64_lia)) (or_introl eq_refl))
    as (sc & c & E & _ & _ & _ & _ & E1 & P & G & A & SP & _ & X & _).
  - reflexivity.
  - rewrite ex_answered. apply ex_keeps.
  - exists sc, c. split; [exact E|]. split; [exact E1|]. split; [exact P|]. split; [exact G|]. split; [exact A|].
    split; [exact SP|]. apply X. apply (bool_decide_unpack _). vm_compute. exact I.
Defined.
End Example.
