(* ===== verification/Maps.v ===== *)
(** * Finding libc in /proc/self/maps: rewrite_code of main.c

    The string functions [rewrite_code] uses ([fgets], [strstr], [strtok],
    [strncpy], [strtol]) on lists of characters, the reading of one line of the
    file and the loop over the lines.  The content of the file is a parameter: it
    is what it was when it was opened. *)

From stdpp Require Import base gmap list strings.
From Stdlib Require Import ZArith Lia Bool.
From Stdlib.Strings Require Import Ascii String.
From S2P Require Import Prelude Memory Isa Os RetSeq Patcher Intercept Rewriter.

(** ** The string functions of libc *)

Definition chars (s : string) : list ascii := list_ascii_of_string s.
Definition code_of (c : ascii) : Z := Z.of_N (N_of_ascii c).

Definition newline : ascii := ascii_of_nat 10.
Definition space : ascii := " "%char.

(** Up to [room] characters, a newline being the last. *)
Fixpoint read_line (room : nat) (input : list ascii) : list ascii * list ascii :=
  match room, input with
  | S room', c :: rest =>
    if decide (c = newline) then ([c], rest)
    else let '(l, r) := read_line room' rest in (c :: l, r)
  | _, _ => ([], input)
  end.

(** [fgets(buf, n, fp)]: the line and the rest of the file, [None] at its end. *)
Definition fgets (n : nat) (input : list ascii) : option (list ascii * list ascii) :=
  match input with [] => None | _ => Some (read_line (n - 1) input) end.

Fixpoint prefixb (p s : list ascii) : bool :=
  match p, s with
  | [], _ => true
  | c :: p', d :: s' => bool_decide (c = d) && prefixb p' s'
  | _ :: _, [] => false
  end.

(** [strstr(haystack, needle) != NULL] *)
Fixpoint strstr (haystack needle : list ascii) : bool :=
  prefixb needle haystack ||
  match haystack with [] => false | _ :: rest => strstr rest needle end.

(** Characters up to the first that satisfies [stop], and from it on. *)
Fixpoint span (stop : ascii -> bool) (s : list ascii) : list ascii * list ascii :=
  match s with
  | [] => ([], [])
  | c :: rest =>
    if stop c then ([], s) else let '(t, r) := span stop rest in (c :: t, r)
  end.

(** [strtok(s, d)] with one delimiter: the token and where the next call goes
    on. *)
Fixpoint strtok (s : list ascii) (d : ascii) : option (list ascii * list ascii) :=
  match s with
  | [] => None
  | c :: rest =>
    if decide (c = d) then strtok rest d
    else let '(t, r) := span (fun x => bool_decide (x = d)) s in Some (t, tail r)
  end.

Definition isspace (c : ascii) : bool :=
  let z := code_of c in (z =? 32) || ((9 <=? z) && (z <=? 13)).

Definition hex_value (c : ascii) : option Z :=
  let z := code_of c in
  if (48 <=? z) && (z <=? 57) then Some (z - 48)
  else if (97 <=? z) && (z <=? 102) then Some (z - 87)
  else if (65 <=? z) && (z <=? 70) then Some (z - 55)
  else None.

Fixpoint hex_digits (acc : Z) (s : list ascii) : Z :=
  match s with
  | [] => acc
  | c :: rest =>
    match hex_value c with Some v => hex_digits (16 * acc + v) rest | None => acc end
  end.

Fixpoint skip_spaces (s : list ascii) : list ascii :=
  match s with
  | c :: rest => if isspace c then skip_spaces rest else s
  | [] => []
  end.

(** The optional 0x, when a digit follows it. *)
Definition skip_0x (s : list ascii) : list ascii :=
  match s with
  | z :: x :: d :: rest =>
    if (code_of z =? 48) && ((code_of x =? 120) || (code_of x =? 88))
       && bool_decide (is_Some (hex_value d))
    then d :: rest else s
  | _ => s
  end.

Definition LONG_MAX : Z := 2 ^ 63 - 1.
Definition LONG_MIN : Z := - 2 ^ 63.

(** [strtol(s, NULL, 16)]; out of range it saturates. *)
Definition strtol16 (s : list ascii) : Z :=
  let s1 := skip_spaces s in
  let '(sign, s2) :=
    match s1 with
    | c :: rest => if code_of c =? 45 then (-1, rest) else if code_of c =? 43 then (1, rest) else (1, s1)
    | [] => (1, s1)
    end in
  Z.max LONG_MIN (Z.min LONG_MAX (sign * hex_digits 0 (skip_0x s2))).

(** ** One line *)

(** The flags in the permission field. *)
Fixpoint mem_prot_of (mem_prot : Z) (c : list ascii) : Z :=
  match c with
  | [] => mem_prot
  | x :: rest =>
    let p := if decide (x = "r"%char) then Z.lor mem_prot PROT_READ else mem_prot in
    let p := if decide (x = "w"%char) then Z.lor p PROT_WRITE else p in
    let p := if decide (x = "x"%char) then Z.lor p PROT_EXEC else p in
    mem_prot_of p rest
  end.

(** What is done for a line: nothing, a region to rewrite, or a read past the
    end of the array [addr]. *)
Inductive line_action :=
| Skip
| Rewrite (from size mem_prot : Z)
| Undefined.

(** The body of the loop over the lines.  [addr] has 65 characters, the last
    ones zero: the string in it is the first 64 characters of the first field. *)
Definition line_of (buf : list ascii) : line_action :=
  if strstr buf (chars "libc.so.6") then
    match strtok buf space with
    | None => Skip
    | Some (c0, rest) =>
      let addr := take 64 c0 in
      match strtok rest space with
      | None => Skip
      | Some (c1, _) =>
        let mem_prot := mem_prot_of 0 c1 in
        if negb (Z.land mem_prot PROT_EXEC =? 0) then
          let '(lo, hi) := span (fun x => bool_decide (x = "-"%char)) addr in
          let k := List.length lo in
          let from := strtol16 lo in
          if from =? 0 then Skip
          else if decide (65 <= k + 1)%nat then Undefined
          else
            let to := strtol16 (tail hi) in
            Rewrite from (u64 (to - from)) mem_prot
        else Skip
      end
    end
  else Skip.

(** ** The file *)

Section RewriteCode.
Context {OS : Os} {C : Capstone}.

Definition BUF_SIZE : nat := 4096.

(** The [while (fgets(...))] loop; [None] when [fuel] lines were not enough or a
    line is read out of bounds. *)
Fixpoint rewrite_lines (fuel : nat) (input : list ascii) (m : memory) : option (res memory) :=
  match fuel with
  | O => None
  | S fuel' =>
    match fgets BUF_SIZE input with
    | None => Some (Ok m)
    | Some (buf, rest) =>
      match line_of buf with
      | Skip => rewrite_lines fuel' rest m
      | Undefined => None
      | Rewrite from size mem_prot =>
        match disassemble_and_rewrite from size mem_prot m with
        | Some (Ok m') => rewrite_lines fuel' rest m'
        | r => r
        end
      end
    end
  end.

(** [maps] is the content of /proc/self/maps, [None] when it cannot be opened. *)
Definition rewrite_code (maps : option (list ascii)) (m : memory) : option (res memory) :=
  match maps with
  | None => Some (Exited EXIT_FAILURE)
  | Some input => rewrite_lines (S (List.length input)) input m
  end.
End RewriteCode.

Example line_of_example :
  line_of (chars "3fb4e21000-3fb4f31000 r-xp 00000000 fd:00 1234 /lib/libc.so.6")
  = Rewrite 0x3fb4e21000 0x110000 5.
Proof. vm_compute. reflexivity. Qed.

(** ** The format of a line

    [%08lx-%08lx rwxp ...] as the kernel prints it: addresses in hexadecimal,
    padded with zeros to some width, then the permissions. *)

Definition hex_char (v : Z) : ascii := ascii_of_N (Z.to_N (if v <? 10 then 48 + v else 87 + v)).

(** [z] in [d] digits. *)
Fixpoint base16 (digit : Z -> ascii) (d : nat) (z : Z) : list ascii :=
  match d with O => [] | S d' => base16 digit d' (z / 16) ++ [digit (z mod 16)] end.
Abbreviation hex_fixed := (base16 hex_char).

Record perms := { p_read : bool; p_write : bool; p_exec : bool; p_shared : bool }.

Definition perm_chars (p : perms) : list ascii :=
  [if p_read p then "r" else "-"; if p_write p then "w" else "-";
   if p_exec p then "x" else "-"; if p_shared p then "s" else "p"]%char.

Definition perm_prot (p : perms) : Z :=
  (if p_read p then PROT_READ else 0) + (if p_write p then PROT_WRITE else 0)
  + (if p_exec p then PROT_EXEC else 0).

(** As many digits as [%08lx] prints. *)
Definition hex_width (z : Z) : nat := Nat.max 8 (S (Z.to_nat (Z.log2 z / 4))).
Definition hex_print (z : Z) : list ascii := hex_fixed (hex_width z) z.

(** A mapping: its bounds, its permissions and what is printed after them. *)
Record mapping := {
  mp_from : Z;
  mp_to : Z;
  mp_perms : perms;
  mp_rest : list ascii
}.

Definition mapping_ok (mp : mapping) : Prop :=
  0 < mp_from mp /\ mp_from mp <= mp_to mp /\ mp_to mp < 2 ^ 63 /\
  (newline ∉ mp_rest mp) /\ (List.length (mp_rest mp) <= 4000)%nat.

(** An executable mapping of libc. *)
Definition libc_exec (mp : mapping) : bool :=
  strstr (mp_rest mp) (chars "libc.so.6") && p_exec (mp_perms mp).

Definition maps_line (mp : mapping) : list ascii :=
  (hex_print (mp_from mp) ++ "-"%char :: hex_print (mp_to mp))
  ++ space :: perm_chars (mp_perms mp) ++ space :: mp_rest mp.

Definition maps_file (mps : list mapping) : list ascii :=
  List.concat (map (fun mp => maps_line mp ++ [newline]) mps).

(** ** Lemmas *)

Lemma hex_char_cases v : 0 <= v < 16 ->
  hex_value (hex_char v) = Some v /\ hex_char v <> space /\ hex_char v <> "-"%char /\
  hex_char v <> "l"%char /\ hex_char v <> newline /\ isspace (hex_char v) = false /\ code_of (hex_char v) <> 45 /\ code_of (hex_char v) <> 43 /\
  code_of (hex_char v) <> 120 /\ code_of (hex_char v) <> 88.
Proof.
  intros H.
  assert (exists n : nat, v = Z.of_nat n /\ (n < 16)%nat) as (n & -> & Hn) by (exists (Z.to_nat v); lia).
  clear H. do 16 (destruct n as [|n]; [by split_and!|]). lia.
Qed.

Lemma base16_length digit d : forall z, List.length (base16 digit d z) = d.
Proof. induction d; intros z; [done|]. cbn. rewrite length_app, IHd. cbn. lia. Qed.

(** Every character of a printed number is a digit. *)
Definition hex_digit (c : ascii) : Prop := exists v, 0 <= v < 16 /\ c = hex_char v.

Lemma hex_fixed_digits d : forall z, Forall hex_digit (hex_fixed d z).
Proof.
  induction d; intros z; cbn; [constructor|]. apply Forall_app. split; [apply IHd|].
  constructor; [|constructor]. exists (z mod 16). split; [apply Z.mod_pos_bound; lia | done].
Qed.

(** Reading back the digits. *)
Lemma hex_digits_base16 digit d : (forall v, 0 <= v < 16 -> hex_value (digit v) = Some v) ->
  forall z acc rest, 0 <= z < 16 ^ Z.of_nat d ->
  hex_digits acc (base16 digit d z ++ rest) = hex_digits (acc * 16 ^ Z.of_nat d + z) rest.
Proof.
  intros D. induction d as [|d IH]; intros z acc rest Hz; cbn [base16 app].
  { change (16 ^ Z.of_nat 0) with 1 in *. f_equal. lia. }
  rewrite Nat2Z.inj_succ, Z.pow_succ_r in * by lia.
  rewrite <- app_assoc, IH by (split; [apply Z.div_pos; lia | apply Z.div_lt_upper_bound; lia]).
  cbn [app hex_digits]. rewrite D by (apply Z.mod_pos_bound; lia).
  f_equal. pose proof (Z.div_mod z 16). lia.
Qed.

Lemma hex_digits_fixed d z acc rest : 0 <= z < 16 ^ Z.of_nat d ->
  hex_digits acc (hex_fixed d z ++ rest) = hex_digits (acc * 16 ^ Z.of_nat d + z) rest.
Proof. apply hex_digits_base16. intros v Hv. by destruct (hex_char_cases v Hv). Qed.

Lemma skip_0x_digits s : Forall hex_digit s -> skip_0x s = s.
Proof.
  intros F. destruct s as [|a [|b [|c s]]]; try done. cbn [skip_0x].
  inversion F as [|? ? _ F']; subst. inversion F' as [|? ? (v & Hv & ->) _]; subst.
  destruct (hex_char_cases v Hv) as (_ & _ & _ & _ & _ & _ & _ & _ & N1 & N2).
  rewrite (proj2 (Z.eqb_neq _ _) N1), (proj2 (Z.eqb_neq _ _) N2). by rewrite andb_false_r.
Qed.

(** Reading back a printed number. *)
Lemma strtol16_hex d z : 0 <= z < 16 ^ Z.of_nat d -> z <= LONG_MAX -> strtol16 (hex_fixed d z) = z.
Proof.
  intros Hz Hm. unfold strtol16.
  assert (skip_spaces (hex_fixed d z) = hex_fixed d z) as ->.
  { pose proof (hex_fixed_digits d z) as F. destruct (hex_fixed d z) as [|c s]; [done|].
    inversion F as [|? ? (v & Hv & ->) _]; subst. cbn.
    by destruct (hex_char_cases v Hv) as (_ & _ & _ & _ & _ & -> & _). }
  assert (match hex_fixed d z with
    | c :: rest => if code_of c =? 45 then (-1, rest) else if code_of c =? 43 then (1, rest) else (1, hex_fixed d z)
    | [] => (1, hex_fixed d z) end = (1, hex_fixed d z)) as ->.
  { pose proof (hex_fixed_digits d z) as F. destruct (hex_fixed d z) as [|c s]; [done|].
    inversion F as [|? ? (v & Hv & ->) _]; subst.
    destruct (hex_char_cases v Hv) as (_ & _ & _ & _ & _ & _ & N1 & N2 & _).
    by rewrite (proj2 (Z.eqb_neq _ _) N1), (proj2 (Z.eqb_neq _ _) N2). }
  rewrite skip_0x_digits by apply hex_fixed_digits.
  rewrite <- (app_nil_r (hex_fixed d z)), hex_digits_fixed by done. cbn [hex_digits].
  unfold LONG_MAX, LONG_MIN in *. lia.
Qed.

Lemma span_app stop s t : Forall (fun c => stop c = false) s ->
  span stop (s ++ t) = (s ++ (span stop t).1, (span stop t).2).
Proof.
  induction 1 as [|c s H F IH]; cbn; [by destruct (span stop t)|]. by rewrite H, IH.
Qed.

(** A token ends at the delimiter. *)
Lemma strtok_token d c s t : Forall (fun x => x <> d) (c :: s) ->
  strtok ((c :: s) ++ d :: t) d = Some (c :: s, t).
Proof.
  intros F. inversion F as [|? ? Hc F']; subst. cbn [strtok app]. rewrite decide_False by done.
  change (c :: s ++ d :: t) with ((c :: s) ++ d :: t).
  rewrite span_app by (eapply Forall_impl; [exact F | intros x ?; by apply bool_decide_eq_false]).
  cbn [span]. rewrite bool_decide_true by done. cbn. by rewrite app_nil_r.
Qed.

Lemma strstr_app s t n : strstr t n = true -> strstr (s ++ t) n = true.
Proof. intros H. induction s as [|c s IH]; [done|]. cbn. rewrite IH. apply orb_true_r. Qed.

Lemma mem_prot_perms p : mem_prot_of 0 (perm_chars p) = perm_prot p.
Proof. by destruct p as [[] [] [] []]. Qed.

Lemma perm_exec p : negb (Z.land (perm_prot p) PROT_EXEC =? 0) = p_exec p.
Proof. by destruct p as [[] [] [] []]. Qed.

Lemma hex_width_enough z : 0 < z -> 0 <= z < 16 ^ Z.of_nat (hex_width z).
Proof.
  intros Hz. split; [lia|]. pose proof (Z.log2_spec z Hz) as [_ H].
  eapply Z.lt_le_trans; [exact H|]. change 16 with (2 ^ 4). rewrite <- Z.pow_mul_r by lia.
  apply Z.pow_le_mono_r; [lia|]. unfold hex_width. pose proof (Z.log2_nonneg z).
  Z.div_mod_to_equations. lia.
Qed.

Lemma hex_width_small z : 0 < z < 2 ^ 63 -> (hex_width z <= 16)%nat.
Proof.
  intros Hz. assert (Z.log2 z < 63) by (apply Z.log2_lt_pow2; lia). pose proof (Z.log2_nonneg z).
  unfold hex_width. Z.div_mod_to_equations. lia.
Qed.

Lemma strtol16_print z : 0 < z < 2 ^ 63 -> strtol16 (hex_print z) = z.
Proof. intros. apply strtol16_hex; [apply hex_width_enough | unfold LONG_MAX]; lia. Qed.

(** A property of the characters of numbers and of the dash holds in the first
    field. *)
Lemma field_forall (P : ascii -> Prop) a b :
  (forall c, hex_digit c -> P c) -> P "-"%char -> Forall P (hex_print a ++ "-"%char :: hex_print b).
Proof.
  intros H D. apply Forall_app. split; [|constructor; [done|]];
    (eapply Forall_impl; [apply hex_fixed_digits | done]).
Qed.

Lemma prefixb_snoc n : forall s c, c ∉ n -> prefixb n (s ++ [c]) = prefixb n s.
Proof.
  induction n as [|a n IH]; intros s c Hc; [done|]. rewrite not_elem_of_cons in Hc. destruct Hc.
  destruct s as [|b s]; cbn; [by rewrite bool_decide_false | by rewrite IH].
Qed.

Lemma strstr_snoc n c : n <> [] -> c ∉ n -> forall s, strstr (s ++ [c]) n = strstr s n.
Proof.
  intros NN Hc. induction s as [|b s IH].
  - change ([] ++ [c]) with ([] ++ [c] : list ascii). cbn [strstr app].
    pose proof (prefixb_snoc n [] c Hc) as E. cbn [app] in E. rewrite E. by destruct n.
  - cbn [strstr app]. rewrite IH. f_equal. apply (prefixb_snoc n (b :: s) c Hc).
Qed.

(** A match does not start where its first character does not occur. *)
Lemma strstr_skip a n s t : Forall (fun c => c <> a) s -> strstr (s ++ t) (a :: n) = strstr t (a :: n).
Proof.
  induction 1 as [|c s H F IH]; [done|]. cbn [strstr app prefixb].
  rewrite bool_decide_false by done. cbn [andb orb]. done.
Qed.

(** ** Lines *)

Lemma strstr_line mp :
  strstr (maps_line mp ++ [newline]) (chars "libc.so.6") = strstr (mp_rest mp) (chars "libc.so.6").
Proof.
  rewrite strstr_snoc; [|done|apply (bool_decide_unpack _); vm_compute; exact I].
  unfold maps_line. change (chars "libc.so.6") with ("l"%char :: chars "ibc.so.6").
  change (space :: perm_chars (mp_perms mp) ++ space :: mp_rest mp)
    with ((space :: perm_chars (mp_perms mp) ++ [space]) ++ mp_rest mp).
  rewrite !strstr_skip; [done| |].
  - by destruct (mp_perms mp) as [[] [] [] []]; repeat constructor.
  - apply field_forall; [|done]. intros c (v & Hv & ->). by apply hex_char_cases.
Qed.

Lemma hex_print_cons z : exists c s, hex_print z = c :: s.
Proof.
  pose proof ((base16_length hex_char) (hex_width z) z) as L. unfold hex_print.
  destruct (hex_fixed _ _) as [|c s]; [|eauto]. cbn in L. unfold hex_width in L. lia.
Qed.

(** What is done for a printed line. *)
Lemma line_of_line mp : mapping_ok mp ->
  line_of (maps_line mp ++ [newline]) =
    (if libc_exec mp then Rewrite (mp_from mp) (mp_to mp - mp_from mp) (perm_prot (mp_perms mp))
     else Skip).
Proof.
  intros (H0 & H1 & H2 & H3 & H4). unfold line_of, libc_exec. rewrite strstr_line.
  destruct (strstr (mp_rest mp) _); [|done]. cbn [andb].
  set (f := hex_print (mp_from mp) ++ "-"%char :: hex_print (mp_to mp)).
  assert (Forall (fun c => c <> space) f) as F
    by (apply field_forall; [|done]; intros c (v & Hv & ->); by apply hex_char_cases).
  assert (exists c s, f = c :: s) as (c & s & Ef)
    by (destruct (hex_print_cons (mp_from mp)) as (c & s & E); unfold f; rewrite E; by eexists _, _).
  unfold maps_line. fold f. rewrite <- app_assoc. cbn [app]. rewrite <- app_assoc. cbn [app].
  rewrite Ef in F |- *. rewrite strtok_token by done. rewrite <- Ef in *.
  assert (exists p1 p, perm_chars (mp_perms mp) = p1 :: p) as (p1 & p & Ep) by (by eexists _, _).
  assert (Forall (fun x => x <> space) (perm_chars (mp_perms mp))) as FP
    by (by destruct (mp_perms mp) as [[] [] [] []]; repeat constructor).
  rewrite Ep in FP |- *. rewrite strtok_token by done. rewrite <- Ep.
  rewrite mem_prot_perms, perm_exec. destruct (p_exec (mp_perms mp)); [|done].
  pose proof (hex_width_small (mp_from mp) ltac:(lia)) as W1.
  pose proof (hex_width_small (mp_to mp) ltac:(lia)) as W2.
  rewrite take_ge by (unfold f; rewrite length_app; cbn [List.length]; unfold hex_print;
    rewrite !(base16_length hex_char); lia).
  unfold f. rewrite span_app.
  - cbn [span]. rewrite bool_decide_true by done. cbn [fst snd tail].
    rewrite app_nil_r, !strtol16_print by lia.
    destruct (Z.eqb_spec (mp_from mp) 0); [lia|].
    rewrite decide_False by (unfold hex_print; rewrite (base16_length hex_char); lia).
    rewrite u64_small by u64_lia. done.
  - eapply Forall_impl; [apply hex_fixed_digits|]. intros x (v & Hv & ->).
    apply bool_decide_eq_false. by apply hex_char_cases.
Qed.

(** ** The file *)

Lemma read_line_line l : forall room rest, newline ∉ l -> (List.length l < room)%nat ->
  read_line room (l ++ newline :: rest) = (l ++ [newline], rest).
Proof.
  induction l as [|c l IH]; intros room rest N L; destruct room as [|room]; cbn in L; try lia.
  - cbn. by rewrite decide_True.
  - rewrite not_elem_of_cons in N. destruct N as [N1 N2]. cbn [app read_line].
    rewrite decide_False by done. rewrite IH by (done || lia). done.
Qed.

Lemma maps_line_fits mp : mapping_ok mp ->
  (newline ∉ maps_line mp) /\ (List.length (maps_line mp) < BUF_SIZE - 1)%nat.
Proof.
  intros (H0 & H1 & H2 & H3 & H4). unfold maps_line. split.
  - intros E. refine (proj1 (Forall_forall (fun c => c <> newline) _) _ _ E eq_refl).
    apply Forall_app. split.
    { apply field_forall; [|done]. intros c (v & Hv & ->). by apply hex_char_cases. }
    constructor; [done|]. apply Forall_app. split.
    { by destruct (mp_perms mp) as [[] [] [] []]; repeat constructor. }
    constructor; [done|]. apply Forall_forall. by intros c Hc ->.
  - pose proof (hex_width_small (mp_from mp) ltac:(lia)) as W1.
    pose proof (hex_width_small (mp_to mp) ltac:(lia)) as W2.
    rewrite !length_app. cbn [List.length]. rewrite length_app. cbn [List.length perm_chars].
    unfold hex_print. rewrite !(base16_length hex_char). unfold BUF_SIZE. lia.
Qed.

Section File.
Context {OS : Os} {LOS : OsLaws OS} {C : Capstone} {LC : CapstoneLaws C}.

(** The specification: rewrite the given mappings, in order. *)
Fixpoint rewrite_mappings (mps : list mapping) (m : memory) : option (res memory) :=
  match mps with
  | [] => Some (Ok m)
  | mp :: rest =>
    match disassemble_and_rewrite (mp_from mp) (mp_to mp - mp_from mp) (perm_prot (mp_perms mp)) m with
    | Some (Ok m') => rewrite_mappings rest m'
    | r => r
    end
  end.

Lemma rewrite_lines_file mps : forall fuel m, Forall mapping_ok mps -> (List.length mps < fuel)%nat ->
  rewrite_lines fuel (maps_file mps) m = rewrite_mappings (List.filter libc_exec mps) m.
Proof.
  induction mps as [|mp mps IH]; intros fuel m F L; destruct fuel as [|fuel]; cbn in L; try lia; [done|].
  inversion F as [|? ? OKm F']; subst. destruct (maps_line_fits mp OKm) as [N LL].
  unfold maps_file. cbn [map List.concat]. fold (maps_file mps).
  cbn [rewrite_lines]. rewrite <- app_assoc. change ([newline] ++ maps_file mps) with (newline :: maps_file mps).
  assert (fgets BUF_SIZE (maps_line mp ++ newline :: maps_file mps)
          = Some (maps_line mp ++ [newline], maps_file mps)) as ->.
  { unfold fgets. rewrite read_line_line by done.
    destruct (maps_line mp ++ newline :: maps_file mps) eqn:E; [|done].
    by apply app_eq_nil in E as [_ ?]. }
  rewrite line_of_line by done. cbn [List.filter].
  destruct (libc_exec mp); [|apply IH; [done | lia]]. cbn [rewrite_mappings].
  destruct (disassemble_and_rewrite _ _ _ m) as [[m'| |]|]; try done. apply IH; [done | lia].
Qed.

Lemma maps_file_length mps : (List.length mps <= List.length (maps_file mps))%nat.
Proof.
  induction mps as [|mp mps IH]; [done|]. unfold maps_file in *. cbn [map List.concat List.length].
  rewrite !length_app. cbn [List.length]. lia.
Qed.

(** Rewriting a list of mappings always ends. *)
Lemma rewrite_mappings_ends mps : forall m, Forall mapping_ok mps ->
  exists r, rewrite_mappings mps m = Some r /\
    match r with Ok _ => True | Exited c => c = 1 | Killed s => s = SIGSEGV end.
Proof.
  induction mps as [|mp mps IH]; intros m F; [by eexists|]. inversion F as [|? ? OKm F']; subst.
  cbn [rewrite_mappings].
  destruct (disassemble_and_rewrite_ends (mp_from mp) (mp_to mp - mp_from mp) (perm_prot (mp_perms mp)) m)
    as (r & -> & R); [destruct OKm as (? & ? & ? & _); unfold region_ok; lia|].
  destruct r as [m'|c|sig]; [by apply IH | by eexists | exists (Killed sig); by destruct R].
Qed.

(** ** Properties *)

(** C23: Reading back a line the kernel prints: an executable mapping of libc is
    rewritten with exactly its bounds and permissions, and every other mapping
    is skipped. *)
Theorem line_of_maps_line mp : mapping_ok mp ->
  line_of (maps_line mp ++ [newline]) =
    (if libc_exec mp then Rewrite (mp_from mp) (mp_to mp - mp_from mp) (perm_prot (mp_perms mp))
     else Skip).
Proof. apply line_of_line. Qed.

(** C20: On the printed list of mappings [rewrite_code] rewrites the executable
    mappings of libc and no other, in their order, and always ends. *)
Theorem rewrite_code_rewrites_libc mps m : Forall mapping_ok mps ->
  rewrite_code (Some (maps_file mps)) m = rewrite_mappings (List.filter libc_exec mps) m /\
  exists r, rewrite_code (Some (maps_file mps)) m = Some r.
Proof.
  intros F. assert (rewrite_code (Some (maps_file mps)) m
    = rewrite_mappings (List.filter libc_exec mps) m) as ->.
  { apply rewrite_lines_file; [done|]. pose proof (maps_file_length mps). lia. }
  split; [done|].
  cut (Forall mapping_ok (List.filter libc_exec mps)).
  { intros FF. destruct (rewrite_mappings_ends _ m FF) as (r & E & _). eauto. }
  apply Forall_forall. intros mp Hmp. apply list_elem_of_In, filter_In in Hmp as [Hmp _].
  apply (proj1 (Forall_forall _ _) F). by apply list_elem_of_In.
Qed.
End File.

(** ** A concrete file *)
Section Witnesses.
#[local] Existing Instance linear_os.
#[local] Existing Instance linear_os_laws.
#[local] Existing Instance length_decoder.
#[local] Existing Instance length_decoder_laws.

Definition ex_mapping (from to : Z) (x : bool) : mapping := {|
  mp_from := from;
  mp_to := to;
  mp_perms := {| p_read := true; p_write := negb x; p_exec := x; p_shared := false |};
  mp_rest := chars "00000000 fd:00 1234   /lib/riscv64-linux-gnu/libc.so.6"
|}.

Lemma ex_mapping_ok from to x : 0 < from -> from <= to -> to < 2 ^ 63 -> mapping_ok (ex_mapping from to x).
Proof.
  intros. split_and!; try done; cbn [mp_rest ex_mapping].
  - apply (bool_decide_unpack _). vm_compute. exact I.
  - apply (bool_decide_unpack _). vm_compute. exact I.
Qed.

Lemma line_of_maps_line_witness :
  line_of (maps_line (ex_mapping 0x3fb4e21000 0x3fb4f31000 true) ++ [newline])
  = Rewrite 0x3fb4e21000 0x110000 5.
Proof.
  rewrite line_of_maps_line by (apply ex_mapping_ok; lia). vm_compute. reflexivity.
Defined.

Lemma rewrite_code_rewrites_libc_witness :
  rewrite_code (Some (maps_file [ex_mapping 0x1000 0x1010 true; ex_mapping 0x12000 0x13000 false])) rw_mem
  = Some (Ok rw_result).
Proof.
  destruct (rewrite_code_rewrites_libc
    [ex_mapping 0x1000 0x1010 true; ex_mapping 0x12000 0x13000 false] rw_mem) as [E _].
  - apply Forall_cons; split; [apply ex_mapping_ok; lia|].
    apply Forall_cons; split; [apply ex_mapping_ok; lia | apply Forall_nil; exact I].
  - rewrite E.
    replace (List.filter libc_exec _) with [ex_mapping 0x1000 0x1010 true]
      by (vm_compute; reflexivity).
    cbn [rewrite_mappings mp_from mp_to ex_mapping]. change (0x1010 - 0x1000) with 16.
    change (perm_prot _) with 5. rewrite rw_result_ok. reflexivity.
Defined.
End Witnesses.
