(* ===== verification/Simulation.v ===== *)
(** * Whole executions: the patched process and the program it runs

    The abstract program is the one before vpoline: its text has [ecall] where
    the patched text has [jalr gp, gp, 0], gp is the original global pointer,
    and an [ecall] of libc is answered by the hook's contract ([spec_call]).
    The patched process runs with the relocated global pointer, through
    trampoline, listing, return sequence and SIGSEGV handler ([pstep]).

    The two memories differ where the program must not look: the [hidden]
    bytes (the shadow region, the patched sites, [relocated_global_pointer],
    the hook library) and the dirty bytes, which the interception left below
    sp (the psABI has no red zone: bytes below sp are indeterminate).  A state of the
    abstract program carries the set of dirty bytes; its rules say what a
    program may do: read neither hidden nor dirty bytes, keep stack for the
    frame, use gp as the base of loads and stores only.  A forward simulation
    then gives the whole runs: what the program does, the patched process does. *)

From stdpp Require Import base gmap list relations.
From Stdlib Require Import ZArith Lia Bool.
From S2P Require Import Prelude Memory Isa Os RetSeq Patcher AsmHook Intercept Sigsegv Process Rewriter.

(** Requests the kernel cannot tell apart by number and arguments. *)
Definition ev_eq (e1 e2 : event) : Prop := ev_nr e1 = ev_nr e2 /\ ev_args e1 = ev_args e2.

#[export] Instance ev_eq_equivalence : Equivalence ev_eq.
Proof.
  split; unfold ev_eq.
  - done.
  - intros e1 e2 []. by split.
  - intros e1 e2 e3 [H1 H2] [H3 H4]. by rewrite H1, H2.
Qed.

(** Sets of addresses. *)
Definition dirty (D : Z -> Prop) (lo hi : Z) : Z -> Prop := fun x => D x \/ lo <= x < hi.
Definition clean (D : Z -> Prop) (lo hi : Z) : Z -> Prop := fun x => D x /\ ~ (lo <= x < hi).

(** ** The hook's contract *)

Section Contract.
Context {K : Kernel} (e : cenv).

(** What the hook does with the system call of [s] in memory [m]: [Some v], it
    has handled it and the result is [v]; [None], it is for the kernel. *)
Definition hook_spec (s : machine) (m : memory) : (option Z * list event) * memory :=
  match ce_hook_fn e with
  | None => ((None, []), m)
  | Some h =>
    let o := h (xr s a7) (xr s a0) (xr s a1) (xr s a2) (xr s a3) (xr s a4) (xr s a5) m in
    ((if ho_code o =? 0 then Some (default (ce_result0 e) (ho_result o)) else None, ho_events o),
     ho_mem o)
  end.

(** The system call of [s] in memory [m]. *)
Definition kernel_spec (s : machine) (m : memory) : Z * memory := k_syscall (xr s a7) (site_args s) m.

(** An [ecall] of libc, as vpoline promises it. *)
Definition spec_call (s : machine) : machine :=
  let '((v, evs), m) := hook_spec s (mem s) in
  match v with
  | Some v => Mach (pc s + 4) (upd (xr s) a0 v) (fr s) m (trace s ++ evs)
  | None =>
    let '(r, m') := kernel_spec s m in
    Mach (pc s + 4) (upd (xr s) a0 (u64 r)) (fr s) m'
      (trace s ++ evs ++ [Event (xr s a7) (site_args s) (xr s)])
  end.

(** Handler and dispatcher agree with the contract. *)
Lemma intercept_answer_spec s :
  intercept_answer e s =
    (match (hook_spec s (intercept_mem s)).1.1 with
     | Some v => {| wr_a0 := v; wr_a1 := 1 |}
     | None => {| wr_a0 := xr s a0; wr_a1 := 0 |}
     end, (hook_spec s (intercept_mem s)).2, (hook_spec s (intercept_mem s)).1.2).
Proof.
  unfold hook_spec. destruct (ce_hook_fn e) as [h|] eqn:H; [|by rewrite (answer_none e s H)].
  rewrite (answer_some e h s H). fold (user_answer h s). cbn. by destruct (ho_code _ =? 0).
Qed.

Lemma hook_spec_ext s sc m : (forall r, r <> gp -> r <> 0 -> xr sc r = xr s r) ->
  hook_spec sc m = hook_spec s m.
Proof. intros X. unfold hook_spec. by rewrite !X. Qed.

Lemma kernel_spec_ext s sc m : (forall r, r <> gp -> r <> 0 -> xr sc r = xr s r) ->
  kernel_spec sc m = kernel_spec s m /\ site_args sc = site_args s.
Proof. intros X. unfold kernel_spec, site_args. cbn [map]. by rewrite !X. Qed.
End Contract.

(** ** Memories that agree where the program looks *)

Section Visible.
Variable hidden : Z -> Prop.

Definition msim (D : Z -> Prop) (mc m : memory) : Prop := forall x, ~ hidden x ->
  m_prot mc x = m_prot m x /\ (~ D x -> mbyte mc x = mbyte m x).

Definition visible (D : Z -> Prop) (lo hi : Z) : Prop :=
  forall x, lo <= x < hi -> ~ hidden x /\ ~ D x.

(** What changes only inside [lo, hi). *)
Lemma msim_dirty D lo hi mc mc' m :
  agree_off lo hi mc' mc -> (forall x, m_prot mc' x = m_prot mc x) ->
  msim D mc m -> msim (dirty D lo hi) mc' m.
Proof.
  intros A P M x Hx. destruct (M x Hx) as [P1 B1]. split; [by rewrite P|].
  unfold dirty. intros N. rewrite A by tauto. apply B1. tauto.
Qed.

Section Accesses.
Variables (D : Z -> Prop) (mc m : memory) (M : msim D mc m).

Lemma msim_range_prot flag n a : (forall x, a <= x < a + Z.of_nat n -> ~ hidden x) ->
  range_prot flag n mc a = range_prot flag n m a.
Proof using M. intros H. apply range_prot_agree. intros x Hx. by apply M, H. Qed.

Lemma msim_mread n a : visible D a (a + Z.of_nat n) -> mread n mc a = mread n m a.
Proof using M. intros V. apply mread_ext. intros x Hx. by apply M; apply V. Qed.

Lemma msim_mload n a : visible D a (a + Z.of_nat n) -> mload n mc a = mload n m a.
Proof using M.
  intros V. unfold mload. rewrite msim_mread by done. by rewrite msim_range_prot by (intros; by apply V).
Qed.

Lemma msim_mfetch n a : visible D a (a + Z.of_nat n) -> mfetch n mc a = mfetch n m a.
Proof using M.
  intros V. unfold mfetch. rewrite msim_mread by done. by rewrite msim_range_prot by (intros; by apply V).
Qed.

Lemma msim_fetch_decode a i len : fetch_decode m a = Some (i, len) -> visible D a (a + len) ->
  fetch_decode mc a = Some (i, len).
Proof using M.
  unfold fetch_decode. destruct (mfetch 2 m a) as [h|] eqn:H2; [|discriminate].
  destruct (Z.land h 3 =? 3) eqn:E.
  - destruct (mfetch 4 m a) as [w|] eqn:H4; [|discriminate]. intros [= <- <-] V.
    rewrite msim_mfetch by (intros x Hx; apply V; lia). rewrite H2, E.
    rewrite msim_mfetch by done. by rewrite H4.
  - intros [= <- <-] V. rewrite msim_mfetch by done. by rewrite H2, E.
Qed.

(** A store of the same value cleans its bytes. *)
Lemma msim_mwrite n a v : msim (clean D a (a + Z.of_nat n)) (mwrite n mc a v) (mwrite n m a v).
Proof using M.
  intros x Hx. rewrite !mwrite_prot. destruct (M x Hx) as [P B]. split; [done|].
  intros N. rewrite !mbyte_mwrite. unfold clean in N. case_bools; try done; apply B; intros Dx;
    apply N; (split; [done|lia]).
Qed.
End Accesses.
End Visible.

(** ** The patched process and the abstract program *)

Section Sim.
Context {K : Kernel} {R : Routines} (e : cenv) (g : globals) (flags hk : Z).

(** The hidden bytes, the patched sites, the bytes of stack the compiled hook
    may use and the memory when vpoline had started up. *)
Variables (hidden site : Z -> Prop) (scratch : Z) (m0 : memory).

Abbreviation rgp := (relocated_gp (rsi g)).
Abbreviation vgp := (virtual_global_pointer g).
Abbreviation msim := (msim hidden).
Abbreviation visible := (visible hidden).

(** What the start-up has put in place. *)
Record installed : Prop := {
  ins_tramp : code_at m0 rgp (trampoline_words hk);
  ins_ret : code_at m0 (rgp - RET_SEQUENCE_SIZE) return_words;
  ins_rgp : 64 <= rgp /\ rgp + TRAMPOLINE_SIZE <= 2 ^ 63 /\ rgp mod 2 = 0;
  ins_code : in_memory (rgp - RET_SEQUENCE_SIZE) (rgp + TRAMPOLINE_SIZE);
  ins_code_hidden : forall x, rgp - RET_SEQUENCE_SIZE <= x < rgp + TRAMPOLINE_SIZE -> hidden x;
  ins_hk : is_u64 hk /\ hk mod 2 = 0;
  ins_routine : routine_at hk = Some (asm_routine e);
  ins_only : only_asm_hook e;
  ins_env : env_typed e;
  ins_var : rgp_var_ok e rgp m0;
  ins_var_hidden : forall x, ce_rgp_var e <= x < ce_rgp_var e + 8 -> hidden x;
  ins_site : forall a, site a -> code_at m0 a [JALR_GP] /\ 0 <= a /\ a + 4 < 2 ^ 63 /\ a mod 2 = 0 /\
    in_memory a (a + 4) /\ forall x, a <= x < a + 4 -> hidden x;
  ins_xom : forall x, in_xom g x -> hidden x /\ m_prot m0 x = Some PROT_EXEC;
  ins_backup : forall k, in_xom g (rgp ⊞ k) -> backup_of g (rgp ⊞ k) = vgp ⊞ k;
  ins_scratch : 0 <= scratch /\ forall f m, agree_off (f - scratch) f (ce_scratch e f m) m /\
    forall x, m_prot (ce_scratch e f m) x = m_prot m x
}.

(** The hidden bytes are as the start-up left them. *)
Definition same_hidden (mc : memory) : Prop :=
  forall x, hidden x -> mbyte mc x = mbyte m0 x /\ m_prot mc x = m_prot m0 x.

(** [s] is a state of the abstract program, [sc] one of the patched process. *)
Record sim (D : Z -> Prop) (s sc : machine) : Prop := {
  sm_pc : pc sc = pc s;
  sm_x : forall r, r <> gp -> r <> 0 -> xr sc r = xr s r;
  sm_gp : xr sc gp = rgp /\ xr s gp = vgp;
  sm_f : forall r, fr sc r = fr s r;
  sm_mem : msim D (mem sc) (mem s);
  sm_hidden : same_hidden (mem sc);
  sm_trace : Forall2 ev_eq (trace sc) (trace s)
}.

(** ** What the abstract program does *)

(** An operation on memory (of the hook, of the kernel) whose answer does not
    depend on the hidden and dirty bytes, and which keeps the hidden bytes and
    those in [lo, hi). *)
Definition blind {A} (RA : A -> A -> Prop) (D D' : Z -> Prop) (lo hi : Z)
  (op : memory -> A * memory) (m : memory) : Prop :=
  forall mc, msim D mc m -> same_hidden mc ->
    RA (op mc).1 (op m).1 /\ msim D' (op mc).2 (op m).2 /\ same_hidden (op mc).2 /\
    keeps lo hi mc (op mc).2.

(** An operation that leaves the memory alone. *)
Lemma blind_id {A} (RA : A -> A -> Prop) D lo hi op m a : RA a a -> (forall m, op m = (a, m)) ->
  blind RA D D lo hi op m.
Proof. intros RR E mc M S. by rewrite !E. Qed.

Definition answer_eq (p q : option Z * list event) : Prop := p.1 = q.1 /\ Forall2 ev_eq p.2 q.2.

(** The instruction [i] is at the program counter, in visible bytes. *)
Definition fetched (D : Z -> Prop) (s : machine) (i : instr) (len : Z) : Prop :=
  routine_at (pc s) = None /\ fetch_decode (mem s) (pc s) = Some (Some i, len) /\
  visible D (pc s) (pc s + len).

(** Instructions that neither access memory nor use gp. *)
Definition plain (i : instr) : bool :=
  let ok r := negb (r =? gp) in
  match i with
  | IMem _ | IEcall | IEbreak => false
  | ILui rd _ | IJal rd _ => ok rd
  | IAddi rd rs _ | IOri rd rs _ | ISlli rd rs _ | ISrli rd rs _ | IJalr rd rs _ => ok rd && ok rs
  | IOr rd rs1 rs2 | IAnd rd rs1 rs2 => ok rd && ok rs1 && ok rs2
  | IBeq rs1 rs2 _ => ok rs1 && ok rs2
  end.

Definition access_width (i : minstr) : width :=
  match i with ILoad w _ _ _ _ | IStore w _ _ _ | IFLoad w _ _ _ | IFStore w _ _ _ => w end.
Definition is_load (i : minstr) : bool :=
  match i with ILoad _ _ _ _ _ | IFLoad _ _ _ _ => true | _ => false end.
Definition access_end (i : minstr) (ea : Z) : Z := ea + Z.of_nat (nbytes (access_width i)).

(** Loads read visible bytes; stores avoid the hidden ones and leave their
    bytes clean. *)
Definition access_ok (D : Z -> Prop) (i : minstr) (ea : Z) : Prop :=
  visible (if is_load i then D else fun _ => False) ea (access_end i ea).
Definition after_access (D : Z -> Prop) (i : minstr) (ea : Z) : Z -> Prop :=
  if is_load i then D else clean D ea (access_end i ea).

(** An access through gp stays in the shadow region, and the handler can read
    the instruction. *)
Definition gp_access_ok (s : machine) (i : minstr) (len : Z) : Prop :=
  (base_imm i).1 = gp -> in_xom g (rgp ⊞ (base_imm i).2) /\
  range_prot PROT_READ (Z.to_nat len) (mem s) (pc s) = true.

(** There is stack for the interception. *)
Definition stack_ok (s : machine) : Prop :=
  FRAME_SIZE <= xr s sp < 2 ^ 63 /\ stack_rw (mem s) (frame_of s) (xr s sp) /\
  forall x, frame_of s - scratch <= x < xr s sp -> ~ hidden x.

Definition is_clone (nr : Z) : bool := (nr =? 220) || (nr =? 435).

(** The dirty bytes after an [ecall] of libc: the interception's frame and what
    the hook's own frames left below it; the hook and the kernel may clean
    some.  The frame is in use until the kernel has returned, except for
    clone. *)
Definition call_ok (D D' : Z -> Prop) (s : machine) : Prop :=
  exists D2, blind answer_eq (dirty D (frame_of s) (xr s sp)) D2 (frame_of s) (xr s sp)
               (hook_spec e s) (mem s) /\
    let D3 := dirty D2 (frame_of s - scratch) (frame_of s) in
    match (hook_spec e s (mem s)).1.1 with
    | Some _ => D' = D3
    | None => blind eq D3 D' (frame_of s) (if is_clone (xr s a7) then frame_of s else xr s sp)
                (kernel_spec s) (hook_spec e s (mem s)).2
    end.

Abbreviation astate := ((Z -> Prop) * machine)%type.

Inductive astep : astate -> astate -> Prop :=
| as_plain D s i len s' :
    fetched D s i len -> plain i = true -> exec i len s = Next s' -> astep (D, s) (D, s')
| as_access D s i len s' :
    fetched D s (IMem i) len -> spares_gp i = true -> access_ok D i (eff_addr i s) ->
    gp_access_ok s i len -> exec (IMem i) len s = Next s' ->
    astep (D, s) (after_access D i (eff_addr i s), s')
| as_ecall D D' s s' :                          (* an ecall that is not patched *)
    fetched D s IEcall 4 -> blind eq D D' 0 0 (kernel_spec s) (mem s) ->
    exec IEcall 4 s = Next s' -> astep (D, s) (D', s')
| as_site D D' s :
    site (pc s) -> code_at (mem s) (pc s) [ECALL] -> xr s a7 <> 139 -> stack_ok s ->
    call_ok D D' s -> astep (D, s) (D', spec_call e s).

(** ** Instruction by instruction *)

Lemma sim_getx D s sc r : sim D s sc -> r <> gp -> getx sc r = getx s r.
Proof. intros S N. unfold getx. destruct (Z.eqb_spec r 0); [done|]. by apply (sm_x _ _ _ S). Qed.

Lemma sim_setx D s sc r v : sim D s sc -> r <> gp -> sim D (setx r v s) (setx r v sc).
Proof.
  intros S N. unfold setx. destruct (Z.eqb_spec r 0); [done|]. destruct S. constructor; try done.
  - intros q Hq Hq0. cbn. destruct (q =? r); [done | by apply sm_x0].
  - cbn [xr]. by rewrite !upd_ne by done.
Qed.

Lemma sim_setf D s sc r v : sim D s sc -> sim D (setf r v s) (setf r v sc).
Proof. intros []. constructor; try done. intros q. cbn. by destruct (q =? r). Qed.

Lemma sim_setpc D s sc p : sim D s sc -> sim D (setpc p s) (setpc p sc).
Proof. intros []. by constructor. Qed.

Lemma sim_setmem D D' s sc m mc : sim D s sc -> msim D' mc m -> same_hidden mc ->
  sim D' (setmem m s) (setmem mc sc).
Proof. intros [] M H. by constructor. Qed.

Hint Resolve sim_setx sim_setf sim_setpc : vp.

Lemma not_gp r : negb (r =? gp) = true -> r <> gp.
Proof. by case_bools. Qed.

Lemma sim_step D s sc i len : sim D s sc -> fetched D s i len -> step sc = exec i len sc.
Proof.
  intros S (N & F & V). unfold step. rewrite (sm_pc _ _ _ S), N.
  by rewrite (msim_fetch_decode hidden D (mem sc) (mem s) (sm_mem _ _ _ S) _ _ _ F V).
Qed.

Lemma exec_plain_sim D s sc i len s' : sim D s sc -> plain i = true -> exec i len s = Next s' ->
  exists sc', exec i len sc = Next sc' /\ sim D s' sc'.
Proof.
  intros S P. pose proof (fun r N => sim_getx D s sc r S N) as X. pose proof (sm_pc _ _ _ S) as EP.
  destruct i; cbn [plain] in P; try discriminate; rewrite ?andb_true_iff in P;
    destruct_and?; repeat match goal with H : negb _ = true |- _ => apply not_gp in H end;
    cbn [exec]; intros [= <-]; rewrite EP, ?X by done; eexists; (split; [reflexivity|]); auto with vp.
Qed.

(** A store keeps the hidden bytes. *)
Lemma same_hidden_mwrite mc n a v :
  (forall x, a <= x < a + Z.of_nat n -> ~ hidden x) -> same_hidden mc -> same_hidden (mwrite n mc a v).
Proof.
  intros N S x Hx. rewrite mwrite_prot, mbyte_mwrite_out; [by apply S|]. intros Hr. by apply (N x).
Qed.

Lemma store_sim D s sc n ea v s' len : sim D s sc ->
  visible (fun _ => False) ea (ea + Z.of_nat n) ->
  match mstore n (mem s) ea v with
  | Some m => Next (setpc (pc s ⊞ len) (setmem m s)) | None => Fault ea end = Next s' ->
  exists sc', match mstore n (mem sc) ea v with
  | Some m => Next (setpc (pc sc ⊞ len) (setmem m sc)) | None => Fault ea end = Next sc' /\
    sim (clean D ea (ea + Z.of_nat n)) s' sc'.
Proof.
  intros S V. pose proof (sm_mem _ _ _ S) as M. unfold mstore.
  rewrite (msim_range_prot hidden D _ _ M) by (intros; by apply V).
  destruct (range_prot _ _ _ _); [|discriminate]. intros [= <-]. rewrite (sm_pc _ _ _ S).
  eexists. split; [reflexivity|]. apply sim_setpc. eapply sim_setmem; [exact S|by apply msim_mwrite|].
  apply same_hidden_mwrite; [intros; by apply V | apply (sm_hidden _ _ _ S)].
Qed.

Lemma exec_mem_sim D s sc i len ea s' : sim D s sc -> spares_gp i = true -> access_ok D i ea ->
  exec_mem_at ea i len s = Next s' ->
  exists sc', exec_mem_at ea i len sc = Next sc' /\ sim (after_access D i ea) s' sc'.
Proof.
  intros S SG A. pose proof (sm_mem _ _ _ S) as M. pose proof (sm_pc _ _ _ S) as EP.
  unfold access_ok, after_access, access_end, exec_mem_at, spares_gp in *.
  destruct i as [w sg rd ? ?|w rs2 ? ?|w rd ? ?|w rs2 ? ?]; cbn [is_load access_width] in *.
  - rewrite (msim_mload hidden D _ _ M) by done. destruct (mload _ _ _); [|discriminate].
    intros [= <-]. rewrite EP. apply not_gp in SG. eauto with vp.
  - rewrite (sim_getx D s sc) by (done || by apply not_gp). by apply store_sim.
  - rewrite (msim_mload hidden D _ _ M) by done. destruct (mload _ _ _); [|discriminate].
    intros [= <-]. rewrite EP. eauto with vp.
  - rewrite (sm_f _ _ _ S). by apply store_sim.
Qed.

(** [sim] does not look at the slot of x0. *)
Lemma sim_meq D s sc sc' : sim D s sc -> sc' ≡ sc -> sim D s sc'.
Proof.
  intros [] (P & X & F & M & T). constructor; rewrite ?P, ?M, ?T; try done.
  - intros r N N0. rewrite X by done. by apply sm_x0.
  - by rewrite X.
  - intros r. by rewrite F.
Qed.

Abbreviation pstep := (pstep g flags).

Lemma plain_step D s sc i len s' : sim D s sc -> fetched D s i len -> plain i = true ->
  exec i len s = Next s' -> exists sc', tc pstep sc sc' /\ sim D s' sc'.
Proof.
  intros S F P E. destruct (exec_plain_sim _ _ _ _ _ _ S P E) as (sc' & E' & S').
  exists sc'. split; [|done]. apply tc_once, ps_run. by rewrite (sim_step D s sc i len).
Qed.

Lemma eff_addr_sim D s sc i : sim D s sc -> (base_imm i).1 <> gp -> eff_addr i sc = eff_addr i s.
Proof.
  intros S N. unfold eff_addr. destruct (base_imm i) as [r imm]. by rewrite (sim_getx D s sc).
Qed.

(** An access through gp: the fault and its emulation. *)
Lemma gp_access_step D s sc i imm len s' : installed -> sim D s sc -> fetched D s (IMem i) len ->
  spares_gp i = true -> base_imm i = (gp, imm) -> access_ok D i (eff_addr i s) ->
  in_xom g (rgp ⊞ imm) -> range_prot PROT_READ (Z.to_nat len) (mem s) (pc s) = true ->
  exec (IMem i) len s = Next s' ->
  exists sc', pstep sc sc' /\ sim (after_access D i (eff_addr i s)) s' sc'.
Proof.
  intros I S F SG B A X RP E. destruct (sm_gp _ _ _ S) as [Gc Ga].
  assert (eff_addr i sc = rgp ⊞ imm) as EAc by (unfold eff_addr; rewrite B; cbn; by rewrite Gc).
  assert (eff_addr i s = vgp ⊞ imm) as EA by (unfold eff_addr; rewrite B; cbn; by rewrite Ga).
  destruct (ins_xom I _ X) as [HX PX].
  assert (step sc = Fault (rgp ⊞ imm)) as ST.
  { rewrite (sim_step D s sc (IMem i) len) by done. cbn [exec]. rewrite EAc.
    apply exec_mem_at_fault. left. by rewrite (proj2 (sm_hidden _ _ _ S _ HX)). }
  destruct (exec_mem_sim D s sc i len (eff_addr i s) s' S SG A E) as (sc1 & E1 & S1).
  rewrite EA, <- (ins_backup I imm X) in E1.
  destruct F as (_ & F & V).
  assert (at_access sc i len) as AA.
  { split; rewrite (sm_pc _ _ _ S).
    - by apply (msim_fetch_decode hidden D _ (mem s) (sm_mem _ _ _ S)).
    - rewrite (msim_range_prot hidden D _ (mem s) (sm_mem _ _ _ S)); [done|].
      intros x Hx. apply V. destruct (fetch_decode_inv _ _ _ _ F) as [(-> & _)|(-> & _)]; lia. }
  destruct (deliver_access g flags sc _ i len sc1 X AA E1) as (sc' & DL & Q).
  exists sc'. split; [by eapply ps_fault|]. by eapply sim_meq.
Qed.

Lemma access_step D s sc i len s' : installed -> sim D s sc -> fetched D s (IMem i) len ->
  spares_gp i = true -> access_ok D i (eff_addr i s) -> gp_access_ok s i len ->
  exec (IMem i) len s = Next s' ->
  exists sc', tc pstep sc sc' /\ sim (after_access D i (eff_addr i s)) s' sc'.
Proof.
  intros I S F SG A GA E. destruct (base_imm i) as [r imm] eqn:B.
  destruct (decide (r = gp)) as [->|N].
  - unfold gp_access_ok in GA. rewrite B in GA. destruct (GA eq_refl) as [X RP].
    destruct (gp_access_step D s sc i imm len s') as (sc' & P & S'); try done.
    exists sc'. split; [by apply tc_once | done].
  - destruct (exec_mem_sim D s sc i len _ s' S SG A E) as (sc' & E' & S').
    exists sc'. split; [|done]. apply tc_once, ps_run. rewrite (sim_step D s sc (IMem i) len) by done.
    cbn [exec]. rewrite (eff_addr_sim D s sc); [done..|]. by rewrite B.
Qed.

(** An [ecall] that is not patched. *)
Lemma sys_kernel s : sys_result s = u64 (kernel_spec s (mem s)).1 /\
  sys_memory s = (kernel_spec s (mem s)).2 /\
  sys_event s = Event (xr s a7) (site_args s) (xr s).
Proof. done. Qed.

Lemma Forall2_snoc l1 l2 e1 e2 : Forall2 ev_eq l1 l2 -> ev_eq e1 e2 -> Forall2 ev_eq (l1 ++ [e1]) (l2 ++ [e2]).
Proof. intros. apply Forall2_app; [done|]. apply Forall2_cons. split; [done | by apply Forall2_nil]. Qed.

Lemma ecall_step D D' s sc s' : sim D s sc -> fetched D s IEcall 4 ->
  blind eq D D' 0 0 (kernel_spec s) (mem s) -> exec IEcall 4 s = Next s' ->
  exists sc', tc pstep sc sc' /\ sim D' s' sc'.
Proof.
  intros S F BK E. destruct (BK (mem sc) (sm_mem _ _ _ S) (sm_hidden _ _ _ S)) as (ER & M & H & _).
  destruct (kernel_spec_ext s sc (mem sc) (sm_x _ _ _ S)) as [EK EA]. rewrite <- EK in ER, M, H.
  cbn [exec] in E. injection E as <-. exists (setpc (pc sc ⊞ 4) (do_ecall sc)).
  split; [apply tc_once, ps_run; by rewrite (sim_step D s sc IEcall 4)|].
  rewrite (sm_pc _ _ _ S), !do_ecall_eq.
  destruct (sys_kernel s) as (-> & -> & ->), (sys_kernel sc) as (-> & -> & ->).
  rewrite ER. destruct S. constructor; try done.
  - intros q Hq Hq0. cbn. destruct (q =? 10); [done|by apply sm_x0].
  - apply Forall2_snoc; [done|]. split; cbn; [by rewrite sm_x0 | done].
Qed.

(** ** An interception *)

Lemma hidden_keeps lo hi mc mc' : (forall x, lo <= x < hi -> hidden x) ->
  same_hidden mc -> same_hidden mc' -> keeps lo hi mc mc'.
Proof. intros H S S' x Hx. destruct (S x (H x Hx)) as [-> ->]. by apply S', H. Qed.

(** What changes only bytes that are not hidden. *)
Lemma same_hidden_agree lo hi mc mc' : (forall x, lo <= x < hi -> ~ hidden x) ->
  agree_off lo hi mc' mc -> (forall x, m_prot mc' x = m_prot mc x) ->
  same_hidden mc -> same_hidden mc'.
Proof.
  intros N A P S x Hx. rewrite P, A; [by apply S|]. intros Hr. by apply (N x).
Qed.

Lemma apart_of_hidden a b c d : a < b -> c < d -> (forall x, a <= x < b -> ~ hidden x) ->
  (forall x, c <= x < d -> hidden x) -> b <= c \/ d <= a.
Proof.
  intros Hab Hcd N H. destruct (decide (c < b /\ a < d)) as [O|]; [|lia].
  exfalso. apply (N (Z.max a c)); [lia|]. apply H. lia.
Qed.

Lemma sim_frame D s sc : sim D s sc -> xr sc sp = xr s sp /\ frame_of sc = frame_of s.
Proof. intros S. unfold frame_of. by rewrite (sm_x _ _ _ S sp). Qed.

(** The memory the hook sees. *)
Lemma intercepted_sim D s sc : sim D s sc -> 0 <= scratch -> stack_ok s ->
  msim (dirty D (frame_of s) (xr s sp)) (intercept_mem sc) (mem s) /\ same_hidden (intercept_mem sc).
Proof.
  intros S SC (_ & _ & N). destruct (sim_frame _ _ _ S) as [Esp Ef].
  pose proof (intercept_mem_agree sc) as A. rewrite Esp, Ef in A. pose proof (intercept_mem_prot sc) as P.
  split.
  - apply (msim_dirty _ _ _ _ (mem sc)); [done | by rewrite P | apply (sm_mem _ _ _ S)].
  - apply (same_hidden_agree (frame_of s) (xr s sp) (mem sc)); [intros; apply N; lia | done | by rewrite P |].
    apply (sm_hidden _ _ _ S).
Qed.

(** The hook's answer, and the memory when it has returned. *)
Lemma answered_sim D D2 s sc : installed -> sim D s sc -> stack_ok s ->
  blind answer_eq (dirty D (frame_of s) (xr s sp)) D2 (frame_of s) (xr s sp) (hook_spec e s) (mem s) ->
  answer_eq (hook_spec e sc (intercept_mem sc)).1 (hook_spec e s (mem s)).1 /\
  msim (dirty D2 (frame_of s - scratch) (frame_of s)) (answered_mem e sc) (hook_spec e s (mem s)).2 /\
  same_hidden (answered_mem e sc) /\ keeps (frame_of s) (xr s sp) (intercept_mem sc) (answered_mem e sc).
Proof.
  intros I S SO BH. destruct (ins_scratch I) as [SC SA]. pose proof SO as (_ & _ & N).
  destruct (intercepted_sim D s sc S SC SO) as [M H].
  destruct (BH _ M H) as (AE & M2 & H2 & KF). destruct (sim_frame _ _ _ S) as [Esp Ef].
  rewrite (hook_spec_ext e s sc _ (sm_x _ _ _ S)).
  assert (answered_mem e sc = ce_scratch e (frame_of s) (hook_spec e s (intercept_mem sc)).2) as ->.
  { unfold answered_mem. rewrite intercept_answer_spec, Ef. cbn [fst snd].
    by rewrite (hook_spec_ext e s sc _ (sm_x _ _ _ S)). }
  set (mh := (hook_spec e s (intercept_mem sc)).2) in *.
  destruct (SA (frame_of s) mh) as [A P]. split_and!; try done.
  - by apply (msim_dirty _ _ _ _ mh).
  - apply (same_hidden_agree (frame_of s - scratch) (frame_of s) mh); try done.
    intros x Hx. apply N. unfold frame_of, FRAME_SIZE in *. lia.
  - intros x Hx. rewrite P, A by lia. by apply KF.
Qed.

(** The patched process can take the interception. *)
Lemma sim_site_ok D D2 s sc : installed -> sim D s sc -> typed sc -> site (pc s) -> stack_ok s ->
  blind answer_eq (dirty D (frame_of s) (xr s sp)) D2 (frame_of s) (xr s sp) (hook_spec e s) (mem s) ->
  site_ok e hk rgp sc.
Proof.
  intros I S T Hs SO BH. destruct (answered_sim D D2 s sc I S SO BH) as (_ & _ & H2 & KF).
  destruct (ins_scratch I) as [SC _]. destruct (intercepted_sim D s sc S SC SO) as [_ H1].
  destruct (ins_site I _ Hs) as (CS & P1 & P2 & P3 & PM & PH). destruct SO as (SP & RW & N).
  destruct (sim_frame _ _ _ S) as [Esp Ef]. pose proof (sm_hidden _ _ _ S) as H.
  pose proof (ins_code_hidden I) as CH. pose proof (ins_var_hidden I) as VH.
  assert (forall x, frame_of s <= x < xr s sp -> ~ hidden x) as NF by (intros; apply N; lia).
  assert (frame_of s < xr s sp) as LT by (unfold frame_of, FRAME_SIZE; lia).
  split; [|apply (ins_routine I)].
  constructor; rewrite ?(sm_pc _ _ _ S), ?Esp, ?Ef; try done.
  - apply (code_at_keeps m0); [|exact CS]. by apply hidden_keeps.
  - apply (sm_gp _ _ _ S).
  - apply (ins_rgp I).
  - apply (code_at_keeps m0); [|apply (ins_tramp I)]. rewrite trampoline_words_length.
    apply hidden_keeps; try done. intros x Hx. apply CH. unfold RET_SEQUENCE_SIZE, TRAMPOLINE_SIZE. lia.
  - apply (code_at_keeps m0); [|apply (ins_ret I)].
    apply hidden_keeps; try done. intros x Hx. apply CH.
    unfold RET_SEQUENCE_SIZE, TRAMPOLINE_SIZE in *. cbn in Hx. lia.
  - apply (ins_hk I).
  - split; [done | apply (ins_code I)].
  - split; [done|]. intros x Hx. unfold has_prot. rewrite (proj1 (sm_mem _ _ _ S x (NF x Hx))).
    by apply RW.
  - apply (apart_of_hidden (frame_of s) (xr s sp) (rgp - RET_SEQUENCE_SIZE) (rgp + TRAMPOLINE_SIZE));
      try done. unfold RET_SEQUENCE_SIZE, TRAMPOLINE_SIZE. lia.
  - eapply rgp_var_ok_keeps; [|apply (ins_var I)]. by apply hidden_keeps.
  - destruct (apart_of_hidden (frame_of s) (xr s sp) (ce_rgp_var e) (ce_rgp_var e + 8)); auto; lia.
  - apply T.
  - by apply hidden_keeps.
  - by apply hidden_keeps.
Qed.

Lemma sim_returned D D' s sc sc' v m tr : sim D s sc -> same_context sc sc' -> xr sc' a0 = v ->
  msim D' (mem sc') m -> same_hidden (mem sc') -> Forall2 ev_eq (trace sc') tr ->
  sim D' (Mach (pc s + 4) (upd (xr s) a0 v) (fr s) m tr) sc'.
Proof.
  intros S (P & X & F) V M H T. constructor; cbn [pc xr fr mem trace]; try done.
  - by rewrite P, (sm_pc _ _ _ S).
  - intros r N N0. destruct (decide (r = a0)) as [->|Na]; [by rewrite upd_eq|].
    rewrite upd_ne, X by done. by apply (sm_x _ _ _ S).
  - rewrite upd_ne, X by done. apply (sm_gp _ _ _ S).
  - intros r. rewrite F. apply (sm_f _ _ _ S).
Qed.

(** The kernel's part of a forwarded call. *)
Lemma forwarded_step D D' D3 s sc m : installed -> sim D s sc -> site_ok e hk rgp sc ->
  xr s a7 <> 139 -> wr_a1 (intercept_answer e sc).1.1 = 0 ->
  msim D3 (answered_mem e sc) m -> same_hidden (answered_mem e sc) ->
  blind eq D3 D' (frame_of s) (if is_clone (xr s a7) then frame_of s else xr s sp) (kernel_spec s) m ->
  exists sc' ev, tc pstep sc sc' /\ same_context sc sc' /\ xr sc' a0 = u64 (kernel_spec s m).1 /\
    msim D' (mem sc') (kernel_spec s m).2 /\ same_hidden (mem sc') /\
    trace sc' = trace sc ++ (intercept_answer e sc).2 ++ [ev] /\
    ev_nr ev = xr s a7 /\ ev_args ev = site_args s.
Proof.
  intros I S SO N9 W M H BK. destruct (BK _ M H) as (ER & M' & H' & KF).
  destruct (kernel_spec_ext s sc (answered_mem e sc) (sm_x _ _ _ S)) as [EK EA].
  rewrite <- EK in ER, M', H', KF. destruct (sim_frame _ _ _ S) as [Esp Ef].
  assert (xr sc a7 = xr s a7) as E7 by (by apply (sm_x _ _ _ S)).
  assert (keeps (rgp - RET_SEQUENCE_SIZE) rgp (answered_mem e sc) (kernel_spec sc (answered_mem e sc)).2) as KC.
  { apply hidden_keeps; try done. intros x Hx. apply (ins_code_hidden I). unfold TRAMPOLINE_SIZE. lia. }
  rewrite <- ER, <- E7, <- EA. unfold is_clone in KF. destruct (decide (xr s a7 = 220 \/ xr s a7 = 435)) as [C|C].
  - destruct (run_clone e hk rgp sc SO ltac:(by rewrite E7) W KC)
      as (sc' & ev & E & SCx & A & Em & T & Nr & Ar & _).
    exists sc', ev. rewrite Em. split_and!; try done. exact (run_pstep_tc g flags _ _ _ E).
  - replace ((xr s a7 =? 220) || (xr s a7 =? 435)) with false in KF by (case_bools; tauto || done).
    destruct (run_forwarded e hk rgp sc SO) as (sc' & ev & E & SCx & A & Em & T & Nr & Ar); try done.
    { rewrite E7, !not_elem_of_cons. split_and!; try tauto. apply not_elem_of_nil. }
    { by rewrite Ef, Esp. }
    exists sc', ev. rewrite Em. split_and!; try done. exact (run_pstep_tc g flags _ _ _ E).
Qed.

Lemma site_step D D' s sc : installed -> sim D s sc -> typed sc -> site (pc s) ->
  xr s a7 <> 139 -> stack_ok s -> call_ok D D' s ->
  exists sc', tc pstep sc sc' /\ sim D' (spec_call e s) sc'.
Proof.
  intros I S T Hs N9 SO (D2 & BH & CO). pose proof (sim_site_ok D D2 s sc I S T Hs SO BH) as SOK.
  destruct (answered_sim D D2 s sc I S SO BH) as ([AE EE] & M & H & KF).
  assert (xr sc a7 = xr s a7) as E7 by (by apply (sm_x _ _ _ S)).
  pose proof (intercept_answer_spec e sc) as IA. unfold spec_call.
  destruct (hook_spec e s (mem s)) as [[v evs] m]. cbn [fst snd] in *.
  rewrite AE in IA. destruct v as [v|].
  - subst D'. destruct (run_handled e hk rgp sc SOK) as (sc' & E & SCx & A & Em & Tr);
      [by rewrite E7 | by rewrite IA |].
    rewrite IA in A, Tr. exists sc'. split; [exact (run_pstep_tc g flags _ _ _ E)|].
    apply (sim_returned D _ s sc); rewrite ?Em, ?Tr; try done.
    by apply Forall2_app; [apply (sm_trace _ _ _ S)|].
  - destruct (forwarded_step D D' _ s sc m I S SOK N9 ltac:(by rewrite IA) M H CO)
      as (sc' & ev & P & SCx & A & M' & H' & Tr & Nr & Ar).
    rewrite IA in Tr. exists sc'. split; [done|]. destruct (kernel_spec s m) as [r m']. cbn [fst snd] in *.
    apply (sim_returned D _ s sc); rewrite ?Tr; try done.
    apply Forall2_app; [apply (sm_trace _ _ _ S)|]. by apply Forall2_snoc.
Qed.

(** ** Step by step *)

Lemma step_sim D s D' s' sc : installed -> sim D s sc -> typed sc -> astep (D, s) (D', s') ->
  exists sc', tc pstep sc sc' /\ sim D' s' sc' /\ typed sc'.
Proof.
  intros I S T A.
  assert (exists sc', tc pstep sc sc' /\ sim D' s' sc') as (sc' & P & S').
  { inversion A; subst; [by eapply plain_step | by eapply access_step | by eapply ecall_step
      | by eapply site_step]. }
  exists sc'. split_and!; try done. apply tc_rtc in P.
  by apply (rtc_typed g flags e sc sc' (ins_env I) (ins_only I) T).
Qed.

(** ** Whole runs *)

Lemma nsteps_sim n : forall D s D' s' sc, installed -> sim D s sc -> typed sc ->
  nsteps astep n (D, s) (D', s') ->
  exists k sc', (n <= k)%nat /\ nsteps pstep k sc sc' /\ sim D' s' sc' /\ typed sc'.
Proof.
  induction n as [|n IH]; intros D s D' s' sc I S T A; inversion A as [|? ? [D1 s1] ? A1 A2]; subst.
  { exists 0%nat, sc. split_and!; try done. constructor. }
  destruct (step_sim D s D1 s1 sc I S T A1) as (sc1 & P1 & S1 & T1).
  destruct (IH D1 s1 D' s' sc1 I S1 T1 A2) as (k2 & sc' & Hk & P2 & S2 & T2).
  apply tc_nsteps in P1 as (k1 & Hk1 & P1).
  exists (k1 + k2)%nat, sc'. split_and!; try done; [lia|]. by eapply nsteps_trans.
Qed.

(** Runs of a deterministic process are prefixes of each other. *)
Lemma nsteps_prefix k1 : forall k2 s s1 s2, (k1 <= k2)%nat ->
  nsteps pstep k1 s s1 -> nsteps pstep k2 s s2 -> nsteps pstep (k2 - k1) s1 s2.
Proof.
  induction k1 as [|k1 IH]; intros k2 s s1 s2 L P1 P2.
  { inversion P1; subst. by rewrite Nat.sub_0_r. }
  destruct k2 as [|k2]; [lia|]. inversion P1 as [|? ? u ? Q1 R1]; subst.
  inversion P2 as [|? ? v ? Q2 R2]; subst. rewrite (pstep_det g flags s u v Q1 Q2) in R1.
  apply (IH k2 v); [lia|done|done].
Qed.

(** Refinement: whatever the program does in [n] steps, the patched process
    does too, in at least as many steps: it reaches a state with the same
    program counter, the same integer registers but for gp, the same
    floating-point registers, the same memory where the program may look, and
    the same system calls made. *)
Theorem patched_process_simulates n D s D' s' sc :
  installed -> sim D s sc -> typed sc -> nsteps astep n (D, s) (D', s') ->
  exists k sc', (n <= k)%nat /\ nsteps pstep k sc sc' /\ sim D' s' sc'.
Proof.
  intros I S T A. destruct (nsteps_sim n D s D' s' sc I S T A) as (k & sc' & L & P & S' & _). eauto 6.
Qed.

(** C4: Liveness: a system call that the program makes, or that its hook makes,
    after some number of steps, the patched process eventually makes, after the
    same system calls. *)
Theorem patched_process_reaches_syscall D s D' s' sc evs :
  installed -> sim D s sc -> typed sc -> rtc astep (D, s) (D', s') -> trace s' = trace s ++ evs ->
  exists sc' evs', rtc pstep sc sc' /\ trace sc' = trace sc ++ evs' /\ Forall2 ev_eq evs' evs.
Proof.
  intros I S T A E. apply rtc_nsteps in A as [n A].
  destruct (nsteps_sim n D s D' s' sc I S T A) as (k & sc' & _ & P & S' & _).
  destruct (nsteps_trace g flags e k sc sc' (ins_only I) P) as [evs' E'].
  exists sc', evs'. split_and!; [by eapply rtc_nsteps_2 | done |].
  pose proof (sm_trace _ _ _ S') as F. rewrite E, E' in F.
  apply Forall2_app_inv in F as [_ F]; [done|]. by eapply Forall2_length, (sm_trace _ _ _ S).
Qed.

(** C3: Safety: the patched process does nothing else.  All the system calls it
    has made at any point of the first [n] steps are those the program makes in
    its first [n] steps, in the same order. *)
Theorem patched_process_adds_nothing n k D s D' s' sc sc2 :
  installed -> sim D s sc -> typed sc -> nsteps astep n (D, s) (D', s') ->
  nsteps pstep k sc sc2 -> (k <= n)%nat ->
  exists evs, evs `prefix_of` trace s' /\ Forall2 ev_eq (trace sc2) evs.
Proof.
  intros I S T A P2 L. destruct (nsteps_sim n D s D' s' sc I S T A) as (k1 & sc' & L1 & P1 & S' & _).
  assert (nsteps pstep (k1 - k) sc2 sc') as P by (apply (nsteps_prefix k k1 sc); [lia|done|done]).
  destruct (nsteps_trace g flags e _ _ _ (ins_only I) P) as [evs E].
  pose proof (sm_trace _ _ _ S') as F. rewrite E in F.
  apply Forall2_app_inv_l in F as (l1 & l2 & F1 & _ & EL). exists l1. split; [by exists l2 | done].
Qed.

(** ** Without a hook the abstract program is the machine itself *)

Lemma astep_step D s D' s' : installed -> ce_hook_fn e = None -> astep (D, s) (D', s') -> step s = Next s'.
Proof.
  intros I H A.
  assert (forall D i len, fetched D s i len -> exec i len s = Next s' -> step s = Next s') as ST
    by (intros ? i len (N & F & _) E; unfold step; by rewrite N, F).
  inversion A as [| | |? ? ? Hs C]; subst; try (by eapply ST).
  destruct (ins_site I _ Hs) as (_ & P1 & P2 & _ & PM & _).
  rewrite (step_code s (pc s) [ECALL] 0 ECALL IEcall); try done; [|by apply PM; lia|lia].
  cbn [exec]. rewrite do_ecall_eq, u64_small by u64_lia.
  destruct (sys_kernel s) as (-> & -> & ->). unfold spec_call, hook_spec. rewrite H.
  by destruct (kernel_spec s (mem s)).
Qed.
End Sim.
