(* ===== verification/Hooks.v ===== *)
(** * The example hooks: src/test

    [hook_function] of hook_write_test.c as a hook of the interception, with the
    test's assertion (write_test.c) as a theorem; the buffer arithmetic of
    [my_print_syscall] in safe_syscall_tracker.c, and that library's
    [__hook_init] under the calling convention of [load_hook_lib] (main.c).
    [None] is a fault, or a write outside a local buffer. *)

From stdpp Require Import base gmap list.
From Stdlib Require Import ZArith Lia Bool.
From Stdlib.Strings Require Import Ascii String.
From S2P Require Import Prelude Memory Isa Os RetSeq Patcher AsmHook Intercept Rewriter Maps.

Definition SYS_write : Z := 64.

(** ** hook_write_test.c *)

Section WriteHook.
Context {K : Kernel}.

(** The variadic call gives three arguments; the other three registers and the
    register file at the ecall are whatever the compiled hook leaves there. *)
Variables (junk3 junk4 junk5 : Z) (regs : Z -> Z).

(** The characters of [interc], without the final NUL. *)
Definition interc : list Z := map code_of (chars "intercepted_").
Definition sizeof_interc : Z := Z.of_nat (List.length interc) + 1.

(** The loop that copies the characters of [src] to [buf], up to the NUL. *)
Fixpoint copy_chars (src : list Z) (m : memory) (buf : Z) : option memory :=
  match src with
  | [] => Some m
  | c :: rest => m' ← mstore 1 m buf c; copy_chars rest m' (buf + 1)
  end.

Definition hook_write (syscall_number a0 a1 a2 a3 a4 a5 : Z) (m : memory) : option hook_outcome :=
  if syscall_number =? SYS_write then
    let len := a2 in
    let buf := a1 in
    m1 ← (if sizeof_interc <? len then copy_chars interc m buf else Some m);
    let args := [a0; a1; a2; junk3; junk4; junk5] in
    let '(r, m2) := k_syscall syscall_number args m1 in
    Some {| ho_code := 0; ho_result := Some (u64 r); ho_mem := m2;
            ho_events := [Event syscall_number args regs] |}
  else Some {| ho_code := 1; ho_result := None; ho_mem := m; ho_events := [] |}.
End WriteHook.

(** [h] is the hook [f] where [f] does not fault. *)
Definition implements (h : hook_fn_t)
  (f : Z -> Z -> Z -> Z -> Z -> Z -> Z -> memory -> option hook_outcome) : Prop :=
  forall nr x0 x1 x2 x3 x4 x5 m o, f nr x0 x1 x2 x3 x4 x5 m = Some o -> h nr x0 x1 x2 x3 x4 x5 m = o.

(** ** safe_syscall_tracker.c *)

Definition buf_size : nat := 64.
Definition print_prefix : list ascii := chars "output from hook_function: syscall number ".

(** [p[i] = c], [None] outside the buffer. *)
Definition put (buf : list ascii) (p : Z) (c : ascii) : option (list ascii) :=
  if (0 <=? p) && (p <? Z.of_nat (List.length buf)) then Some (<[Z.to_nat p := c]> buf) else None.

Definition digit (v : Z) : ascii := ascii_of_N (Z.to_N (48 + v)).

(** The loop that writes the decimal digits of [n] below [p], the last one first. *)
Fixpoint digit_loop (fuel : nat) (n p : Z) (buf : list ascii) : option (Z * list ascii) :=
  match fuel with
  | O => None
  | S fuel' =>
    if 0 <? n then
      buf' ← put buf (p - 1) (digit (n mod 10));
      digit_loop fuel' (n / 10) (p - 1) buf'
    else Some (p, buf)
  end.

(** [for (int i = 0; i < prefix_len; i++) p[i] = prefix[i]] *)
Fixpoint copy_prefix (s : list ascii) (p : Z) (buf : list ascii) : option (list ascii) :=
  match s with
  | [] => Some buf
  | c :: rest => buf' ← put buf p c; copy_prefix rest (p + 1) buf'
  end.

(** A [long] has at most 19 decimal digits. *)
Definition digit_fuel : nat := 20.

(** The bytes given to write: from [p] to the end of [buf], which holds [buf0]
    before.  [syscall_number] is a signed [long]. *)
Definition my_print_syscall (buf0 : list ascii) (syscall_number : Z) : option (list ascii) :=
  let p := Z.of_nat buf_size - 1 in
  buf ← put buf0 p newline;
  '(p, buf) ← (if syscall_number =? 0 then buf ← put buf (p - 1) (digit 0); Some (p - 1, buf)
               else digit_loop digit_fuel syscall_number p buf);
  let prefix_len := 42 in
  let p := p - prefix_len in
  buf ← copy_prefix print_prefix p buf;
  Some (drop (Z.to_nat p) buf).

(** [__hook_init(placeholder, sys_call_hook_ptr)], which reads and replaces the
    function pointer at its second argument; [hook_function] is an address. *)
Definition safe_hook_init (hook_function sys_call_hook_ptr : Z) (m : memory) : option (Z * Z * memory) :=
  syscall_no_intercept ← mload 8 m sys_call_hook_ptr;
  m' ← mstore 8 m sys_call_hook_ptr hook_function;
  Some (0, syscall_no_intercept, m').

(** ** Copying *)

Lemma copy_chars_ok src : forall m buf,
  (forall x, buf <= x < buf + Z.of_nat (List.length src) -> has_prot PROT_WRITE m x = true) ->
  exists m', copy_chars src m buf = Some m' /\ m_prot m' = m_prot m /\
    agree_off buf (buf + Z.of_nat (List.length src)) m' m /\
    forall i c, src !! i = Some c -> mbyte m' (buf + Z.of_nat i) = byte_of_Z c.
Proof.
  induction src as [|c src IH]; intros m buf P.
  { by exists m. }
  cbn [copy_chars List.length] in *. unfold mstore.
  rewrite (proj2 (range_prot_spec _ 1 _ _)) by (intros; apply P; lia). cbn [mbind option_bind].
  destruct (IH (mwrite 1 m buf c) (buf + 1)) as (m' & -> & PR & A & B).
  { intros x Hx. rewrite has_prot_mwrite. apply P. lia. }
  exists m'. split_and!; try done.
  - intros x Hx. rewrite A by lia. apply mbyte_mwrite_out. lia.
  - intros [|i] d Hi; cbn in Hi.
    + injection Hi as <-. rewrite Z.add_0_r, A by lia. rewrite (mbyte_mwrite 1), Z.sub_diag.
      cbn [Z.mul]. rewrite Z.shiftr_0_r. case_bools; lia || done.
    + rewrite <- (B i d Hi). f_equal. lia.
Qed.

Lemma put_app l1 x l2 c : put (l1 ++ x :: l2) (Z.of_nat (List.length l1)) c = Some (l1 ++ c :: l2).
Proof.
  unfold put. rewrite length_app. cbn [List.length].
  destruct (Z.leb_spec 0 (Z.of_nat (List.length l1))); [|lia].
  destruct (Z.ltb_spec (Z.of_nat (List.length l1)) (Z.of_nat (List.length l1 + S (List.length l2)))); [|lia].
  cbn [andb]. f_equal. rewrite Nat2Z.id.
  replace (List.length l1) with (List.length l1 + 0)%nat at 1 by lia. by rewrite insert_app_r.
Qed.

Lemma copy_prefix_app s : forall l1 l2 l3, List.length l2 = List.length s ->
  copy_prefix s (Z.of_nat (List.length l1)) (l1 ++ l2 ++ l3) = Some (l1 ++ s ++ l3).
Proof.
  induction s as [|c s IH]; intros l1 l2 l3 L.
  { by destruct l2. }
  destruct l2 as [|x l2]; [done|]. cbn [copy_prefix app]. rewrite put_app. cbn [mbind option_bind].
  injection L as L. specialize (IH (l1 ++ [c]) l2 l3 L).
  rewrite length_app, <- !app_assoc in IH. cbn [app List.length] in IH.
  replace (Z.of_nat (List.length l1) + 1) with (Z.of_nat (List.length l1 + 1)) by lia. exact IH.
Qed.

(** ** Decimal numbers *)

Definition dec_value (ds : list ascii) : Z := foldl (fun acc c => 10 * acc + (code_of c - 48)) 0 ds.

(** The digits of a number that is not zero, without leading zeros. *)
Definition canonical (ds : list ascii) : Prop :=
  Forall (fun c => 48 <= code_of c <= 57) ds /\ forall c rest, ds = c :: rest -> code_of c <> 48.

Lemma code_of_digit v : 0 <= v < 10 -> code_of (digit v) = 48 + v.
Proof. intros. unfold code_of, digit. rewrite N_ascii_embedding by lia. lia. Qed.

Lemma dec_value_snoc ds v : 0 <= v < 10 -> dec_value (ds ++ [digit v]) = 10 * dec_value ds + v.
Proof. intros. unfold dec_value. rewrite foldl_snoc, code_of_digit by done. lia. Qed.

Lemma canonical_snoc ds v : 0 <= v < 10 -> canonical ds -> (ds = [] -> v <> 0) -> canonical (ds ++ [digit v]).
Proof.
  intros V [F N] E. pose proof (code_of_digit v V) as C. split.
  - apply Forall_app. split; [done|]. apply Forall_singleton. lia.
  - intros c rest Hc. destruct ds as [|d ds]; cbn in Hc; injection Hc as <- _; [|by eapply N].
    specialize (E eq_refl). lia.
Qed.

Lemma digit_loop_S fuel n p buf : digit_loop (S fuel) n p buf =
  if 0 <? n then buf' ← put buf (p - 1) (digit (n mod 10)); digit_loop fuel (n / 10) (p - 1) buf'
  else Some (p, buf).
Proof. done. Qed.

Lemma digit_loop_spec fuel : forall n l1 l3, 0 <= n < 10 ^ Z.of_nat fuel -> (fuel <= List.length l1)%nat ->
  exists l1' l2 ds, l1 = l1' ++ l2 /\ List.length l2 = List.length ds /\ (List.length ds <= fuel)%nat /\
    digit_loop (S fuel) n (Z.of_nat (List.length l1)) (l1 ++ l3) = Some (Z.of_nat (List.length l1'), l1' ++ ds ++ l3) /\
    dec_value ds = n /\ canonical ds /\ (ds = [] -> n = 0).
Proof.
  induction fuel as [|fuel IH]; intros n l1 l3 Hn Hl.
  - assert (n = 0) as -> by lia. exists l1, [], []. rewrite app_nil_r. by split_and!.
  - rewrite digit_loop_S. destruct (Z.ltb_spec 0 n) as [Pn|].
    2: { assert (n = 0) as -> by lia. exists l1, [], []. rewrite app_nil_r. split_and!; done || (cbn; lia). }
    assert (exists l x, l1 = l ++ [x]) as (l & x & ->).
    { destruct l1 as [|y l1] using rev_ind; [cbn in Hl; lia | by eexists _, _]. }
    rewrite length_app in *. cbn [List.length] in Hl |- *.
    replace (Z.of_nat (List.length l + 1) - 1) with (Z.of_nat (List.length l)) by lia.
    rewrite <- app_assoc. cbn [app]. rewrite put_app. cbn [mbind option_bind].
    pose proof (Z.mod_pos_bound n 10 ltac:(lia)) as Hd.
    destruct (IH (n / 10) l (digit (n mod 10) :: l3)) as (l1' & l2 & ds & -> & L & LF & E & V & Cn & Z0).
    { rewrite Nat2Z.inj_succ, Z.pow_succ_r in Hn by lia. split; [by apply Z.div_pos; lia|].
      apply Z.div_lt_upper_bound; lia. }
    { lia. }
    rewrite E. exists l1', (l2 ++ [x]), (ds ++ [digit (n mod 10)]). rewrite !length_app. cbn [List.length].
    split_and!; [by rewrite app_assoc | lia | lia | by rewrite <- app_assoc | | |].
    + rewrite dec_value_snoc, V by done. pose proof (Z.div_mod n 10 ltac:(lia)). lia.
    + apply canonical_snoc; try done. intros Q%Z0 M. revert Pn. Z.div_mod_to_equations. lia.
    + intros Hnil. by apply app_eq_nil in Hnil as [_ ?].
Qed.

(** ** Properties *)

(** intercepted_ in ASCII *)
Definition intercepted_text : list Z := [105; 110; 116; 101; 114; 99; 101; 112; 116; 101; 100; 95].

(** C32: hook_write_test.c, and the assertion of write_test.c: every intercepted
    write reaches the kernel once, with the caller's file descriptor, buffer and
    length, and the caller gets the kernel's answer.  When the length is more than
    13 the text intercepted_ was written over the first 12 bytes of the buffer,
    and else, in a buffer the text may not fit into, nothing was; no other byte
    but those of the frame was changed. *)
Theorem write_hook_replaces_text `{Kernel, Routines} e hk rgp s h j3 j4 j5 regs :
  site_ok e hk rgp s -> ce_hook_fn e = Some h -> implements h (hook_write j3 j4 j5 regs) ->
  xr s a7 = 64 ->
  (13 < xr s a2 -> (forall x, xr s a1 <= x < xr s a1 + 12 -> has_prot PROT_WRITE (mem s) x = true) /\
     (xr s a1 + 12 <= frame_of s \/ xr s sp <= xr s a1)) ->
  exists s' ev mk, run 27 s = Next s' /\ same_context s s' /\ trace s' = trace s ++ [ev] /\
    ev_nr ev = 64 /\ take 3 (ev_args ev) = map (xr s) [a0; a1; a2] /\
    (forall i c, 13 < xr s a2 -> intercepted_text !! i = Some c -> mread 1 mk (xr s a1 + Z.of_nat i) = c) /\
    (forall x, ~ (13 < xr s a2 /\ xr s a1 <= x < xr s a1 + 12) -> ~ (frame_of s <= x < xr s sp) ->
       mbyte mk x = mbyte (mem s) x) /\
    xr s' a0 = u64 (k_syscall 64 (ev_args ev) mk).1.
Proof.
  intros SO HF IM N W.
  assert (exists mk, (if sizeof_interc <? xr s a2 then copy_chars interc (intercept_mem s) (xr s a1)
      else Some (intercept_mem s)) = Some mk /\
    (forall i c, 13 < xr s a2 -> intercepted_text !! i = Some c -> mread 1 mk (xr s a1 + Z.of_nat i) = c) /\
    forall x, ~ (13 < xr s a2 /\ xr s a1 <= x < xr s a1 + 12) -> mbyte mk x = mbyte (intercept_mem s) x)
    as (mk & CP & B & A).
  { change sizeof_interc with 13. destruct (Z.ltb_spec 13 (xr s a2)) as [L|L].
    2: { exists (intercept_mem s). split_and!; [done | lia | done]. }
    destruct (copy_chars_ok interc (intercept_mem s) (xr s a1)) as (mk & CP & _ & A & B).
    { intros x Hx. unfold has_prot. rewrite intercept_mem_prot. by apply W. }
    change (Z.of_nat (List.length interc)) with 12 in A. exists mk. split_and!; [done| |].
    - intros i c _ Hi. change intercepted_text with interc in Hi.
      cbn [mread]. rewrite (B i c Hi), Z_of_byte_of_Z, Z.mul_0_r, Z.add_0_r.
      assert (Forall (fun c => c < 256 /\ 0 <= c) interc) as F by (repeat constructor; vm_compute; discriminate).
      apply (Forall_lookup_1 _ _ _ _ F) in Hi. apply Z.mod_small. change (2 ^ 8) with 256. lia.
    - intros x Hx. apply A. lia. }
  set (args := [xr s a0; xr s a1; xr s a2; j3; j4; j5]).
  assert (user_answer h s = {| ho_code := 0; ho_result := Some (u64 (k_syscall 64 args mk).1);
    ho_mem := (k_syscall 64 args mk).2; ho_events := [Event 64 args regs] |}) as UA.
  { apply IM. unfold hook_write. rewrite N. cbn [Z.eqb SYS_write Pos.eqb].
    rewrite CP. cbn [mbind option_bind]. fold args. by destruct (k_syscall 64 args mk). }
  pose proof (answer_some e h s HF) as AN. rewrite UA in AN. cbn in AN.
  destruct (run_handled e hk rgp s SO) as (s' & E & SC & A0 & _ & T).
  { by rewrite N. }
  { by rewrite AN. }
  rewrite AN in A0, T. exists s', (Event 64 args regs), mk. split_and!; try done.
  intros x Hx Hf. rewrite A by done. by apply intercept_mem_agree.
Qed.

(** C31: safe_syscall_tracker.c prints every system call number correctly and
    stays within its 64-byte buffer: for a number that is not negative the bytes
    written are the text, the decimal digits of the number without leading zeros
    and a newline. *)
Theorem my_print_syscall_decimal buf0 n : List.length buf0 = buf_size -> 0 <= n < 2 ^ 63 ->
  exists ds, my_print_syscall buf0 n = Some (print_prefix ++ ds ++ [newline]) /\
    dec_value ds = n /\ (List.length ds <= 19)%nat /\ (canonical ds \/ ds = [digit 0]).
Proof.
  intros L Hn. unfold my_print_syscall.
  assert (exists b x, buf0 = b ++ [x] /\ List.length b = 63%nat) as (b & x & -> & Lb).
  { destruct buf0 as [|y b] using rev_ind; [done|]. rewrite length_app in L. cbn in L.
    exists b, y. split; [done | unfold buf_size in L; lia]. }
  change (Z.of_nat buf_size - 1) with (Z.of_nat 63). rewrite <- Lb, put_app. cbn [mbind option_bind].
  set (r := if n =? 0 then _ else _).
  assert (exists l1 l2 ds, b = l1 ++ l2 /\ List.length l2 = List.length ds /\ (List.length ds <= 19)%nat /\
    r = Some (Z.of_nat (List.length l1), l1 ++ ds ++ [newline]) /\ dec_value ds = n /\
    (canonical ds \/ ds = [digit 0])) as (l1 & l2 & ds & -> & L2 & L3 & Er & V & Cn).
  { subst r. destruct (Z.eqb_spec n 0) as [->|N0].
    - assert (exists l y, b = l ++ [y]) as (l & y & ->)
        by (destruct b as [|y b] using rev_ind; [done | by eexists _, _]).
      exists l, [y], [digit 0]. rewrite length_app. cbn [List.length].
      replace (Z.of_nat (List.length l + 1) - 1) with (Z.of_nat (List.length l)) by lia.
      rewrite <- app_assoc. cbn [app]. rewrite put_app. split_and!; try done; try lia. by right.
    - destruct (digit_loop_spec 19 n b [newline]) as (l1 & l2 & ds & Eb & L2 & L3 & E & V & Cn & _).
      { change (10 ^ Z.of_nat 19) with 10000000000000000000. lia. }
      { lia. }
      exists l1, l2, ds. split_and!; try done. by left. }
  rewrite Er. cbn [mbind option_bind]. rewrite length_app in Lb.
  assert (exists u v, l1 = u ++ v /\ List.length v = 42%nat) as (u & v & -> & Lv).
  { exists (take (List.length l1 - 42) l1), (drop (List.length l1 - 42) l1).
    rewrite take_drop, length_drop. split; [done | lia]. }
  rewrite length_app in *.
  replace (Z.of_nat (List.length u + List.length v) - 42) with (Z.of_nat (List.length u)) by lia.
  rewrite <- app_assoc, copy_prefix_app by (rewrite Lv; reflexivity). cbn [mbind option_bind].
  rewrite Nat2Z.id, drop_app_length. by exists ds.
Qed.

(** safe_syscall_tracker.c does not fit the interface: called as
    [load_hook_lib] calls it, with the address of [syscall_no_intercept] as the
    second argument, its [__hook_init] stores to the text of libvpoline and
    faults. *)
Theorem safe_tracker_init_faults hook_function no_intercept m :
  has_prot PROT_WRITE m no_intercept = false ->
  safe_hook_init hook_function no_intercept m = None.
Proof.
  intros P. unfold safe_hook_init, mstore. cbn [range_prot]. rewrite P. cbn [andb mbind option_bind].
  by destruct (mload 8 m no_intercept).
Qed.

(** ** A concrete process: write(1, 0x400100, 17) with the hook of
    hook_write_test.c installed *)
Section Witnesses.
#[local] Existing Instance ex_kernel.

Definition wr_hook : hook_fn_t := fun nr x0 x1 x2 x3 x4 x5 m =>
  default {| ho_code := 1; ho_result := None; ho_mem := m; ho_events := [] |}
    (hook_write 0 0 0 (fun _ => 0) nr x0 x1 x2 x3 x4 x5 m).

Definition wr_env : cenv := {|
  ce_hook_fn := Some wr_hook; ce_result0 := 99; ce_rgp_var := 0x400000;
  ce_clob_x := fun _ _ => 0xdead; ce_clob_f := fun _ _ => 0xbeef; ce_scratch := fun _ m => m |}.

#[local] Instance wr_routines : Routines :=
  fun a => if a =? 0x500000 then Some (asm_routine wr_env) else None.

Definition wr_machine : machine :=
  Mach 0x1000 (fun r => if r =? a1 then 0x400100 else if r =? a2 then 17 else ex_x 64 r)
    (fun _ => 7) ex_mem [].

Lemma wr_hook_ok : implements wr_hook (hook_write 0 0 0 (fun _ => 0)).
Proof. intros nr x0 x1 x2 x3 x4 x5 m o E. unfold wr_hook. by rewrite E. Qed.

Lemma wr_ex_prot flag n a : range_prot flag n ex_mem a = true ->
  forall x, a <= x < a + Z.of_nat n -> has_prot flag ex_mem x = true.
Proof. apply range_prot_spec. Qed.

(** The hook writes twelve bytes at 0x400100. *)
Lemma wr_answered : exists mk, answered_mem wr_env wr_machine = mk /\
  m_prot mk = m_prot (intercept_mem wr_machine) /\
  agree_off 0x400100 0x40010c mk (intercept_mem wr_machine).
Proof.
  destruct (copy_chars_ok interc (intercept_mem wr_machine) 0x400100) as (mk & CP & PR & A & _).
  { intros x Hx. unfold has_prot. rewrite intercept_mem_prot. revert x Hx.
    apply (wr_ex_prot PROT_WRITE 12). vm_compute. reflexivity. }
  exists mk. split; [|by split].
  pose proof (answer_some wr_env wr_hook wr_machine eq_refl) as AN.
  unfold answered_mem. rewrite AN. cbn [fst snd wr_env ce_scratch].
  unfold user_answer, wr_hook, hook_write.
  change (xr wr_machine a7 =? SYS_write) with true. change (sizeof_interc <? xr wr_machine a2) with true.
  change (xr wr_machine a1) with 0x400100. cbv iota zeta. rewrite CP. reflexivity.
Qed.

Lemma wr_keeps lo hi : hi <= 0x400100 \/ 0x40010c <= lo ->
  keeps lo hi (intercept_mem wr_machine) (answered_mem wr_env wr_machine).
Proof.
  intros D. destruct wr_answered as (mk & -> & P & A). exact (keeps_of_agree _ _ _ _ _ _ A P D).
Qed.

Lemma wr_site_ok : site_ok wr_env 0x500000 0x200800 wr_machine.
Proof.
  assert (forall ws a, mwords (List.length ws) ex_mem a = ws ->
    range_prot PROT_EXEC (4 * List.length ws) ex_mem a = true -> code_at ex_mem a ws) as CA.
  { intros ws a E P. split; [exact E|]. intros x Hx. apply (wr_ex_prot _ _ _ P). lia. }
  split; [|exact (eq_refl (Some (asm_routine wr_env)))].
  constructor; change (mem wr_machine) with ex_mem; change (pc wr_machine) with 0x1000;
    change (frame_of wr_machine) with 0x30fed0; change (xr wr_machine sp) with 0x310000.
  - apply CA; vm_compute; reflexivity.
  - split_and!; [lia | lia | reflexivity].
  - reflexivity.
  - split_and!; [lia | unfold TRAMPOLINE_SIZE; lia | reflexivity].
  - apply CA; vm_compute; reflexivity.
  - apply CA; vm_compute; reflexivity.
  - split; [auto with vp | reflexivity].
  - split; intros x Hx; unfold routine_at, wr_routines; unfold RET_SEQUENCE_SIZE, TRAMPOLINE_SIZE in Hx;
      case_bools; lia || done.
  - split; [unfold FRAME_SIZE; lia|]. intros x Hx.
    split; revert x Hx; apply (wr_ex_prot _ 304); vm_compute; reflexivity.
  - right. unfold TRAMPOLINE_SIZE. lia.
  - unfold rgp_var_ok. change (ce_rgp_var wr_env) with 0x400000.
    split_and!; [lia | lia | vm_compute; reflexivity|].
    apply (wr_ex_prot PROT_READ 8). vm_compute. reflexivity.
  - right. change (ce_rgp_var wr_env) with 0x400000. lia.
  - intros r. split; [|cbn; u64_lia]. cbn. unfold ex_x, is_u64. case_bools; lia.
  - apply wr_keeps. lia.
  - change (ce_rgp_var wr_env) with 0x400000. apply wr_keeps. lia.
  - apply wr_keeps. unfold RET_SEQUENCE_SIZE, TRAMPOLINE_SIZE. lia.
Qed.

Lemma write_hook_replaces_text_witness :
  exists s' ev, run 27 wr_machine = Next s' /\ trace s' = [ev] /\ xr s' a0 = 42 /\
    take 3 (ev_args ev) = [1010; 0x400100; 17].
Proof.
  destruct (write_hook_replaces_text wr_env 0x500000 0x200800 wr_machine wr_hook 0 0 0 (fun _ => 0))
    as (s' & ev & mk & E & _ & T & _ & G & _ & _ & A).
  - exact wr_site_ok.
  - exact eq_refl.
  - exact wr_hook_ok.
  - exact eq_refl.
  - intros _. split; [apply (wr_ex_prot PROT_WRITE 12); vm_compute; reflexivity|].
    right. change (xr wr_machine a1) with 0x400100. change (xr wr_machine sp) with 0x310000. lia.
  - exists s', ev. split; [exact E|]. split; [exact T|]. split; [exact A | exact G].
Defined.

Lemma my_print_syscall_decimal_witness :
  my_print_syscall (replicate 64 space) 291 =
    Some (chars "output from hook_function: syscall number 291" ++ [newline]).
Proof.
  destruct (my_print_syscall_decimal (replicate 64 space) 291) as (ds & E & _).
  - reflexivity.
  - lia.
  - rewrite E. assert (Some (print_prefix ++ ds ++ [newline]) =
      Some (print_prefix ++ chars "291" ++ [newline])) as X.
    { rewrite <- E. vm_compute. reflexivity. }
    exact X.
Defined.

Lemma safe_tracker_init_faults_witness : safe_hook_init 0x700000 0x1000 ex_mem = None.
Proof. apply safe_tracker_init_faults. vm_compute. reflexivity. Defined.
End Witnesses.
