(* ===== verification/Reentrant.v ===== *)
(** * Hooks that make system calls themselves

    A hook library is code like any other: src/test/hook_fcntl_test.c calls
    [openat] of libc from inside its hook, and all the hooks of src/test call
    [syscall_no_intercept].  A libc function runs into a patched site, so the
    hook is intercepted itself, one frame further down the same stack.

    [hook_prog] is the code of a hook as seen from vpoline.  [hrun] runs it on
    the machine: [HDirect] through the listing of [syscall_no_intercept] (main.c),
    [HLibc] through a patched site, the trampoline, [asm_syscall_hook] and the
    hook again ([intercepted]).  The recursion is bounded by a depth: the result is
    [Ran], [Stuck] (a fault) or [Deep] (the recursion is deeper).  [hspec] is the meaning of the same
    code without the machine.  It checks what is asked of a hook ([Unsafe]): it
    leaves alone what vpoline uses and the stack above it. *)

From stdpp Require Import base gmap list.
From Stdlib Require Import ZArith Lia Bool.
From S2P Require Import Prelude Memory Isa Os RetSeq Patcher AsmHook Intercept.

(** ** The code of a hook *)

Inductive hook_prog :=
| HDone (code : Z) (result : option Z)                          (** [*result = ...; return code] *)
| HLoad (n : nat) (a : Z) (k : Z -> hook_prog)
| HStore (n : nat) (a v : Z) (k : hook_prog)
| HDirect (nr : Z) (args : list Z) (k : Z -> hook_prog)         (** [syscall_no_intercept] *)
| HLibc (nr : Z) (args : list Z) (k : Z -> hook_prog).          (** a function of libc *)

(** How code ends: with a value, at a fault, or not within the depth. *)
Inductive ran (A : Type) := Ran (a : A) | Stuck | Deep.
#[global] Arguments Ran {A}.
#[global] Arguments Stuck {A}.
#[global] Arguments Deep {A}.

#[export] Instance ran_bind : MBind ran := fun A B f r =>
  match r with Ran a => f a | Stuck => Stuck | Deep => Deep end.
#[export] Instance ran_fmap : FMap ran := fun A B f r =>
  match r with Ran a => Ran (f a) | Stuck => Stuck | Deep => Deep end.

Definition or_stuck {A} (o : option A) : ran A := match o with Some a => Ran a | None => Stuck end.

(** A hook that has not returned leaves a mark where its system calls would be;
    no system call has the number of a mark. *)
Definition mark (nr : Z) : event := Event nr [] (fun _ => 0).
Definition stuck_mark : event := mark (-1).
Definition deep_mark : event := mark (-2).

Definition unreturned (ev : event) (m : memory) : hook_outcome :=
  {| ho_code := 0; ho_result := None; ho_mem := m; ho_events := [ev] |}.

Definition outcome_of (m : memory) (r : ran hook_outcome) : hook_outcome :=
  match r with Ran o => o | Stuck => unreturned stuck_mark m | Deep => unreturned deep_mark m end.

(** The first mark among events. *)
Fixpoint marked {A} (evs : list event) (a : A) : ran A :=
  match evs with
  | [] => Ran a
  | ev :: evs =>
    if ev_nr ev =? ev_nr stuck_mark then Stuck else if ev_nr ev =? ev_nr deep_mark then Deep else marked evs a
  end.

(** Events made before an outcome. *)
Definition after_events (evs : list event) (o : hook_outcome) : hook_outcome :=
  {| ho_code := ho_code o; ho_result := ho_result o; ho_mem := ho_mem o;
     ho_events := evs ++ ho_events o |}.

(** The machine runs until control is at [target]. *)
Fixpoint back_at `{Kernel, Routines} (n : nat) (target : Z) (s : machine) : option machine :=
  match n with
  | O => None
  | S n =>
    match step s with
    | Next s' => if pc s' =? target then Some s' else back_at n target s'
    | _ => None
    end
  end.

Section Machine.
Context {K : Kernel} (e : cenv) (hk rgp : Z).

(** The hook: system call number, six arguments and its stack pointer, where
    its local variables are. *)
Variable hook : Z -> list Z -> Z -> hook_prog.

(** The compiled code of hook and libc: the site that libc's function for a
    system call runs into, the stack that is used up to there, and what is in
    the other registers. *)
Variables (site : Z -> Z) (used : Z) (junk junkf : Z -> Z).

Definition call_regs (first : Z) (vals : list Z) (sp0 : Z) (r : Z) : Z :=
  if r =? sp then sp0 - used else if r =? gp then rgp
  else if (first <=? r) && (r <? first + Z.of_nat (length vals)) then
    default 0 (vals !! Z.to_nat (r - first))
  else junk r.

(** libc at the [ecall] it had. *)
Definition libc_state (sp0 nr : Z) (args : list Z) (m : memory) : machine :=
  Mach (site nr) (fun r => if r =? a7 then nr else call_regs a0 args sp0 r) junkf m [].

(** The call of [syscall_no_intercept]. *)
Definition direct_state (sp0 nr : Z) (args : list Z) (m : memory) : machine :=
  Mach 0 (call_regs a0 (nr :: args) sp0) junkf m [].

(** The dispatcher, when hooks run by [run_hook]. *)
Definition env_of (run_hook : Z -> hook_prog -> memory -> ran hook_outcome) (sp0 : Z) : cenv := {|
  ce_hook_fn := Some (fun nr x0 x1 x2 x3 x4 x5 m =>
    outcome_of m (run_hook sp0 (hook nr [x0; x1; x2; x3; x4; x5] sp0) m));
  ce_result0 := ce_result0 e; ce_rgp_var := ce_rgp_var e;
  ce_clob_x := ce_clob_x e; ce_clob_f := ce_clob_f e; ce_scratch := ce_scratch e |}.

Definition hook_routines run_hook (sp0 : Z) : Routines :=
  fun a => if a =? hk then Some (asm_routine (env_of run_hook sp0)) else None.

(** An interception, from the site to the instruction after it: the machine runs
    the trampoline, the listing, the hook when the listing calls it, and the way
    back.  It has come back unless a hook it called has not. *)
Definition intercepted run_hook (s : machine) : ran machine :=
  s' ← or_stuck (back_at (H0 := hook_routines run_hook (frame_of s)) 28 (pc s + 4) s);
  marked (drop (length (trace s)) (trace s')) s'.

Fixpoint hrun (d : nat) (sp0 : Z) : hook_prog -> memory -> ran hook_outcome :=
  fix go p m :=
  match p with
  | HDone code result =>
    Ran {| ho_code := code; ho_result := result; ho_mem := m; ho_events := [] |}
  | HLoad n a k => v ← or_stuck (mload n m a); go (k v) m
  | HStore n a v k => m' ← or_stuck (mstore n m a v); go k m'
  | HDirect nr args k =>
    match arun e no_intercept_text (length no_intercept_text) 0 (direct_state sp0 nr args m) with
    | AExit s' => after_events (trace s') <$> go (k (xr s' a0)) (mem s')
    | _ => Stuck
    end
  | HLibc nr args k =>
    match d with
    | O => Deep
    | S d =>
      s' ← intercepted (hrun d) (libc_state sp0 nr args m);
      after_events (trace s') <$> go (k (xr s' a0)) (mem s')
    end
  end.

(** ** What a hook means *)

(** System calls without the registers that do not matter to the kernel. *)
Definition call_of (ev : event) : Z * list Z := (ev_nr ev, ev_args ev).

Inductive verdict (A : Type) :=
| Returns (a : A) (m : memory) (calls : list (Z * list Z))
| Unsafe
| TooDeep.
#[global] Arguments Returns {A}.
#[global] Arguments Unsafe {A}.
#[global] Arguments TooDeep {A}.

Definition vbind {A B} (v : verdict A) (k : A -> memory -> verdict B) : verdict B :=
  match v with
  | Returns a m calls =>
    match k a m with Returns b m' calls' => Returns b m' (calls ++ calls') | v => v end
  | Unsafe => Unsafe
  | TooDeep => TooDeep
  end.

(** The stack of the thread, the bytes of vpoline and libc, and the system calls
    that neither write to them nor to the stack from a given address on. *)
Variables (lo hi : Z) (protected : Z -> bool) (permitted : Z -> list Z -> Z -> bool).

Definition word (z : Z) : bool := (0 <=? z) && (z <? 2 ^ 64).

Definition writable_byte (sp0 x : Z) : bool := negb (protected x) && negb ((sp0 <=? x) && (x <? hi)).
Definition safe_store (sp0 : Z) (n : nat) (a : Z) : bool :=
  forallb (fun i => writable_byte sp0 (a + Z.of_nat i)) (seq 0 n).
Definition safe_args (nr : Z) (args : list Z) : bool :=
  word nr && forallb word args && (length args =? 6)%nat.
(** rt_sigreturn, clone and clone3 are not calls a hook can make. *)
Definition safe_libc (sp0 nr : Z) (args : list Z) : bool :=
  safe_args nr args && negb (bool_decide (nr ∈ [139; 220; 435])) && (lo + FRAME_SIZE <=? sp0 - used).

(** A system call of libc: the hook answers or the kernel does. *)
Definition libc_spec (run_hook : Z -> hook_prog -> memory -> verdict (Z * option Z)) (s : machine)
  : verdict Z :=
  let f := frame_of s in
  let nr := xr s a7 in
  let args := site_args s in
  vbind (run_hook f (hook nr args f) (intercept_mem s)) (fun '(code, result) m =>
    let m := ce_scratch e f m in
    if code =? 0 then Returns (default (ce_result0 e) result) m []
    else if permitted nr args f then
      let '(r, m) := k_syscall nr args m in Returns (u64 r) m [(nr, args)]
    else Unsafe).

Fixpoint hspec (d : nat) (sp0 : Z) : hook_prog -> memory -> verdict (Z * option Z) :=
  fix go p m :=
  match p with
  | HDone code result => Returns (code, result) m []
  | HLoad n a k => match mload n m a with Some v => go (k v) m | None => Unsafe end
  | HStore n a v k =>
    if safe_store sp0 n a then
      match mstore n m a v with Some m' => go k m' | None => Unsafe end
    else Unsafe
  | HDirect nr args k =>
    if safe_args nr args && permitted nr args sp0 then
      let '(r, m') := k_syscall nr args m in
      vbind (Returns (u64 r) m' [(nr, args)]) (fun v m => go (k v) m)
    else Unsafe
  | HLibc nr args k =>
    if safe_libc sp0 nr args then
      match d with
      | O => TooDeep
      | S d => vbind (libc_spec (hspec d) (libc_state sp0 nr args m)) (fun v m => go (k v) m)
      end
    else Unsafe
  end.
End Machine.

(** ** Returning to an address *)

Lemma back_at_S `{Kernel, Routines} n target s s1 : step s = Next s1 ->
  back_at (S n) target s = if pc s1 =? target then Some s1 else back_at n target s1.
Proof. intros E. cbn [back_at]. by rewrite E. Qed.

(** With nothing to run at [target], a run that goes on has not been there. *)
Lemma back_at_run (K : Kernel) (R R' : Routines) target n : forall s s',
  (forall a, a <> target -> @routine_at R' a = @routine_at R a) ->
  @routine_at R' target = Some (fun _ => Illegal) ->
  run (R := R') (S n) s = Next s' -> pc s' = target -> back_at (H0 := R) (S n) target s = Some s'.
Proof.
  induction n as [|n IH]; intros s s' E T X P.
  all: cbn [run] in X; destruct (step (R := R') s) as [s1| | |] eqn:S1; try discriminate.
  all: assert (step (R := R) s = Next s1) as S2
    by (rewrite <- S1; unfold step in S1 |- *; destruct (decide (pc s = target)) as [Es|N];
        [rewrite Es, T in S1; discriminate | by rewrite E]).
  all: rewrite (back_at_S (H0 := R) _ _ _ _ S2).
  - injection X as <-. by rewrite P, Z.eqb_refl.
  - destruct (Z.eqb_spec (pc s1) target) as [Es|N]; [|by apply IH].
    cbn [run] in X. unfold step in X. by rewrite Es, T in X.
Qed.

Lemma back_at_more `{Kernel, Routines} n k target s s' : (n <= k)%nat ->
  back_at n target s = Some s' -> back_at k target s = Some s'.
Proof.
  revert k s. induction n as [|n IH]; intros [|k] s L; try done; try lia. cbn [back_at].
  destruct (step s); try done. case_match; [done|]. apply IH. lia.
Qed.

(** ** Hooks that return *)

Section Sandbox.
Context {K : Kernel} (e : cenv) (hk rgp : Z) (hook : Z -> list Z -> Z -> hook_prog).
Context (site : Z -> Z) (used : Z) (junk junkf : Z -> Z).
Context (lo hi : Z) (protected : Z -> bool) (permitted : Z -> list Z -> Z -> bool) (m0 : memory).

(** [m'] is as [m] where vpoline and libc are and on the stack from [sp0] on,
    and the stack is mapped as it was. *)
Record unaffected (sp0 : Z) (m m' : memory) : Prop := {
  un_byte : forall x, protected x = true \/ sp0 <= x < hi -> mbyte m' x = mbyte m x;
  un_prot : forall x, protected x = true \/ lo <= x < hi -> m_prot m' x = m_prot m x
}.

#[local] Instance unaffected_preorder sp0 : PreOrder (unaffected sp0).
Proof.
  split; [by constructor|]. intros m1 m2 m3 [B1 P1] [B2 P2].
  constructor; intros x Hx; [by rewrite B2, B1 | by rewrite P2, P1].
Qed.

Lemma unaffected_le a b m m' : a <= b -> unaffected a m m' -> unaffected b m m'.
Proof. intros L [B P]. constructor; [|done]. intros x [Hx|Hx]; apply B; [by left | right; lia]. Qed.

(** A process set up by vpoline, in the memory [m0], with a stack, and what is
    assumed of the kernel and of the compiled dispatcher. *)
Record sandbox_ok : Prop := {
  sb_hk : is_u64 hk /\ hk mod 2 = 0;
  sb_rgp : 64 <= rgp /\ rgp + TRAMPOLINE_SIZE <= 2 ^ 63 /\ rgp mod 2 = 0;
  sb_tramp : code_at m0 rgp (trampoline_words hk);
  sb_ret : code_at m0 (rgp - RET_SEQUENCE_SIZE) return_words;
  sb_var : rgp_var_ok e rgp m0;
  sb_site : forall nr, code_at m0 (site nr) [JALR_GP];
  sb_pc : forall nr, 0 <= site nr /\ site nr + 4 < 2 ^ 63 /\ site nr mod 2 = 0;
  sb_hk_apart : ~ (rgp - RET_SEQUENCE_SIZE <= hk < rgp + TRAMPOLINE_SIZE) /\
    forall nr, ~ (site nr <= hk <= site nr + 4);
  sb_site_apart : forall nr, ~ (rgp - RET_SEQUENCE_SIZE <= site nr + 4 < rgp + TRAMPOLINE_SIZE);
  sb_code_in : forall x, rgp - RET_SEQUENCE_SIZE <= x < rgp + TRAMPOLINE_SIZE -> protected x = true;
  sb_var_in : forall x, ce_rgp_var e <= x < ce_rgp_var e + 8 -> protected x = true;
  sb_site_in : forall nr x, site nr <= x < site nr + 4 -> protected x = true;
  sb_stack : 0 <= lo /\ lo <= hi < 2 ^ 63 /\ stack_rw m0 lo hi;
  sb_apart : forall x, lo <= x < hi -> protected x = false;
  sb_kernel : forall nr args sp0 m, permitted nr args sp0 = true ->
    unaffected sp0 m (k_syscall nr args m).2;
  sb_scratch : forall f m, unaffected f m (ce_scratch e f m);
  sb_regs : forall r, is_u64 (junk r) /\ is_u64 (junkf r);
  sb_used : 0 <= used
}.

Hypothesis SB : sandbox_ok.

Local Abbreviation env_of := (env_of e hook).
Local Abbreviation intercepted := (intercepted e hk hook).
Local Abbreviation hrun := (hrun e hk rgp hook site used junk junkf).
Local Abbreviation libc_state := (libc_state rgp site used junk junkf).
Local Abbreviation libc_spec := (libc_spec e hook permitted).
Local Abbreviation hspec := (hspec e rgp hook site used junk junkf lo hi protected permitted).

(** The memory is as vpoline set it up. *)
Definition fit (m : memory) : Prop := unaffected hi m0 m.

Lemma fit_unaffected sp0 m m' : sp0 <= hi -> fit m -> unaffected sp0 m m' -> fit m'.
Proof. intros L F U. unfold fit. etransitivity; [exact F|]. by apply (unaffected_le sp0). Qed.

Lemma fit_keeps a b m : fit m -> (forall x, a <= x < b -> protected x = true) -> keeps a b m0 m.
Proof. intros [B P] H x Hx. split; [apply B | apply P]; left; auto. Qed.

Lemma fit_code a ws m : fit m -> code_at m0 a ws ->
  (forall x, a <= x < a + 4 * Z.of_nat (length ws) -> protected x = true) -> code_at m a ws.
Proof. intros F C H. apply (code_at_keeps m0); [|done]. by apply fit_keeps. Qed.

Lemma unaffected_keeps sp0 a b m m' : unaffected sp0 m m' ->
  (forall x, a <= x < b -> protected x = true) -> keeps a b m m'.
Proof. intros [B P] H x Hx. split; [apply B | apply P]; left; auto. Qed.

Lemma unaffected_stack sp0 m m' : lo <= sp0 -> unaffected sp0 m m' -> keeps sp0 hi m m'.
Proof. intros L [B P] x Hx. split; [apply B | apply P]; right; lia. Qed.

Lemma keeps_sub a b a' b' m m' : a <= a' -> b' <= b -> keeps a b m m' -> keeps a' b' m m'.
Proof. intros L1 L2 H x Hx. apply H. lia. Qed.

(** A store that the checks let pass. *)
Lemma safe_store_unaffected sp0 n a v m m' : safe_store hi protected sp0 n a = true ->
  mstore n m a v = Some m' -> unaffected sp0 m m'.
Proof.
  unfold mstore. destruct (range_prot _ _ _ _); [|done]. intros S [= <-].
  constructor; intros x Hx; [|by rewrite mwrite_prot]. apply mbyte_mwrite_out. intros Hi.
  unfold safe_store in S. rewrite forallb_forall in S.
  assert (In (Z.to_nat (x - a)) (seq 0 n)) as N by (apply in_seq; lia). apply S in N. clear S. rename N into S.
  replace (a + Z.of_nat (Z.to_nat (x - a))) with x in S by lia. unfold writable_byte in S.
  destruct Hx as [Hx|Hx]; [by rewrite Hx in S|].
  apply andb_true_iff in S as [_ S]. revert S. case_bools; lia || done.
Qed.

(** ** One interception *)

(** A thread at a patched site of libc, with room for a frame. *)
Record at_site (s : machine) : Prop := {
  as_pc : exists nr, pc s = site nr;
  as_gp : xr s gp = rgp;
  as_regs : regs_u64 s;
  as_sp : lo + FRAME_SIZE <= xr s sp <= hi;
  as_fit : fit (mem s)
}.

Lemma at_site_frame s : at_site s -> lo <= frame_of s /\ frame_of s + 304 = xr s sp /\ frame_of s <= hi.
Proof. intros A. pose proof (as_sp s A) as H. unfold frame_of, FRAME_SIZE in *. lia. Qed.

Lemma intercept_mem_unaffected s : at_site s -> unaffected (xr s sp) (mem s) (intercept_mem s).
Proof.
  intros A. destruct (at_site_frame s A) as (F1 & F2 & F3). pose proof (as_sp s A) as S.
  constructor; intros x Hx; [|by rewrite intercept_mem_prot].
  apply intercept_mem_agree. intros Hf. destruct Hx as [Hx|Hx]; [|lia].
  rewrite (sb_apart SB) in Hx by (unfold FRAME_SIZE in S; lia). done.
Qed.

Lemma intercept_mem_fit s : at_site s -> fit (intercept_mem s).
Proof.
  intros A. apply (fit_unaffected (xr s sp) (mem s)); [apply (as_sp s A) | apply (as_fit s A) |].
  by apply intercept_mem_unaffected.
Qed.

(** The site and the way back lie in memory. *)
Definition trap (target : Z) (R : Routines) : Routines :=
  fun a => if a =? target then Some (fun _ => Illegal) else R a.

(** What the hook gives the dispatcher. *)
Definition hook_at (rh : Z -> hook_prog -> memory -> ran hook_outcome) (s : machine) : ran hook_outcome :=
  rh (frame_of s) (hook (xr s a7) (site_args s) (frame_of s)) (intercept_mem s).

Lemma nested_answer rh s o : outcome_of (intercept_mem s) (hook_at rh s) = o ->
  intercept_answer (env_of rh (frame_of s)) s =
    (if ho_code o =? 0 then {| wr_a0 := default (ce_result0 e) (ho_result o); wr_a1 := 1 |}
     else {| wr_a0 := xr s a0; wr_a1 := 0 |}, ho_mem o, ho_events o).
Proof.
  intros E. rewrite (answer_some (env_of rh (frame_of s)) _ s eq_refl). unfold user_answer.
  change [xr s a0; xr s a1; xr s a2; xr s a3; xr s a4; xr s a5] with (site_args s).
  change (rh _ _ _) with (hook_at rh s). by rewrite E.
Qed.

Lemma nested_site_ok rh s o : at_site s -> outcome_of (intercept_mem s) (hook_at rh s) = o ->
  unaffected (frame_of s) (intercept_mem s) (ho_mem o) ->
  site_ok (R := trap (pc s + 4) (hook_routines e hk hook rh (frame_of s)))
    (env_of rh (frame_of s)) hk rgp s.
Proof.
  intros A E U. pose proof A as [(nr & Hpc) G RG S F]. destruct (at_site_frame s A) as (F1 & F2 & F3).
  assert (unaffected (frame_of s) (intercept_mem s) (answered_mem (env_of rh (frame_of s)) s)) as UA.
  { unfold answered_mem. rewrite (nested_answer _ _ _ E). etransitivity; [exact U|]. apply (sb_scratch SB). }
  destruct (sb_hk_apart SB) as [H1 H2]. specialize (H2 nr). pose proof (sb_site_apart SB nr) as H3.
  destruct (sb_stack SB) as (L1 & L2 & RW). rewrite <- Hpc in H2, H3.
  assert (forall x, frame_of s <= x < xr s sp -> protected x = false) as AP by (intros; apply (sb_apart SB); lia).
  pose proof (sb_code_in SB) as CI. pose proof (sb_var_in SB) as VI.
  split; [constructor|].
  - rewrite Hpc. apply fit_code; [done|apply (sb_site SB)|]. intros x Hx. apply (sb_site_in SB nr). cbn in Hx. lia.
  - rewrite Hpc. apply (sb_pc SB).
  - done.
  - apply (sb_rgp SB).
  - apply fit_code; [done|apply (sb_tramp SB)|]. intros x Hx. rewrite trampoline_words_length in Hx.
    apply CI. unfold RET_SEQUENCE_SIZE, TRAMPOLINE_SIZE. lia.
  - apply fit_code; [done|apply (sb_ret SB)|]. intros x Hx. apply CI. cbn in Hx.
    unfold RET_SEQUENCE_SIZE, TRAMPOLINE_SIZE in *. lia.
  - apply (sb_hk SB).
  - split; intros x Hx; unfold routine_at, trap, hook_routines; case_bools; try lia; done.
  - split; [unfold FRAME_SIZE in *; lia|]. intros x Hx. unfold has_prot.
    rewrite (un_prot _ _ _ F) by (right; lia). apply RW. lia.
  - unfold RET_SEQUENCE_SIZE, TRAMPOLINE_SIZE in *.
    destruct (decide (xr s sp <= rgp - 56)); [by left|]. destruct (decide (rgp + 80 <= frame_of s)); [by right|].
    enough (protected (Z.max (frame_of s) (rgp - 56)) = true) as Q by (rewrite AP in Q; [done | lia]).
    apply CI. lia.
  - apply (rgp_var_ok_keeps _ _ m0); [by apply fit_keeps | apply (sb_var SB)].
  - change (ce_rgp_var (env_of rh (frame_of s))) with (ce_rgp_var e).
    destruct (decide (ce_rgp_var e + 8 <= frame_of s)); [by left|]. destruct (decide (xr s sp <= ce_rgp_var e)); [by right|].
    enough (protected (Z.max (frame_of s) (ce_rgp_var e)) = true) as Q by (rewrite AP in Q; [done | lia]).
    apply VI. lia.
  - done.
  - apply (keeps_sub (frame_of s) hi); [lia|lia|]. by apply unaffected_stack.
  - by apply (unaffected_keeps (frame_of s)).
  - by apply (unaffected_keeps (frame_of s)).
  - unfold routine_at, trap, hook_routines. case_bools; lia || done.
Qed.

(** A system call with a number. *)
Definition real (ev : event) : Prop := 0 <= ev_nr ev.

Lemma marked_real {A} evs (a : A) : Forall real evs -> marked evs a = Ran a.
Proof.
  induction 1 as [|ev evs R _ IH]; [done|]. unfold real in R. cbn [marked stuck_mark deep_mark mark ev_nr].
  by case_bools; try lia.
Qed.

(** The machine is back after the site: what it tells is in the new events. *)
Lemma intercepted_back rh s s' evs n : (S n <= 28)%nat ->
  run (R := trap (pc s + 4) (hook_routines e hk hook rh (frame_of s))) (S n) s = Next s' ->
  same_context s s' -> trace s' = trace s ++ evs -> intercepted rh s = marked evs s'.
Proof.
  intros L X (P & _) T. unfold Reentrant.intercepted.
  rewrite (back_at_more (H0 := hook_routines e hk hook rh (frame_of s)) (S n) 28 _ _ s'); [|done|].
  - cbn [or_stuck mbind ran_bind]. by rewrite T, drop_app_length.
  - apply (back_at_run K _ (trap (pc s + 4) (hook_routines e hk hook rh (frame_of s)))); try done.
    + intros a Na. unfold routine_at, trap. by rewrite (proj2 (Z.eqb_neq _ _) Na).
    + unfold routine_at, trap. by rewrite Z.eqb_refl.
Qed.

(** A run does what a verdict on it says: it returns or recurses too deep. *)
Definition agrees (sp0 : Z) (m : memory) (v : verdict (Z * option Z)) (r : ran hook_outcome) : Prop :=
  match v with
  | Returns (code, result) m' calls =>
    exists evs, r = Ran {| ho_code := code; ho_result := result; ho_mem := m'; ho_events := evs |} /\
      map call_of evs = calls /\ Forall real evs /\ unaffected sp0 m m'
  | TooDeep => r = Deep
  | Unsafe => True
  end.

Definition sound (rh : Z -> hook_prog -> memory -> ran hook_outcome)
  (hs : Z -> hook_prog -> memory -> verdict (Z * option Z)) : Prop :=
  forall sp0 p m, lo <= sp0 <= hi -> fit m -> agrees sp0 m (hs sp0 p m) (rh sp0 p m).

(** A hook that recurses too deep is called by the listing, and so the
    interception does not come back. *)
Lemma intercepted_deep rh hs s : sound rh hs -> at_site s -> xr s a7 <> 139 ->
  libc_spec hs s = TooDeep -> intercepted rh s = Deep.
Proof.
  intros SO A N E. destruct (at_site_frame s A) as (F1 & F2 & F3). unfold Reentrant.libc_spec in E.
  pose proof (SO (frame_of s) (hook (xr s a7) (site_args s) (frame_of s)) _ (conj F1 F3) (intercept_mem_fit s A)) as SH.
  destruct (hs _ _ _) as [[code result] m1 calls1| |]; [|discriminate|].
  { cbn [vbind] in E. destruct (code =? 0); [discriminate|]. destruct (permitted _ _ _); [|discriminate].
    destruct (k_syscall _ _ _). discriminate. }
  assert (outcome_of (intercept_mem s) (hook_at rh s) = unreturned deep_mark (intercept_mem s)) as EO
    by (unfold hook_at; by rewrite SH).
  pose proof (nested_site_ok rh s _ A EO ltac:(reflexivity)) as OK. pose proof (nested_answer rh s _ EO) as AN.
  destruct (run_handled (env_of rh (frame_of s)) hk rgp s OK) as (s' & X & CX & _ & _ & T).
  { done. }
  { by rewrite AN. }
  rewrite AN in T. rewrite (intercepted_back rh s s' [deep_mark] 26); [done | lia | done..].
Qed.

Lemma intercepted_sound rh hs s v m' calls : sound rh hs -> at_site s -> xr s a7 ∉ [139; 220; 435] ->
  libc_spec hs s = Returns v m' calls ->
  exists s' evs, intercepted rh s = Ran s' /\ same_context s s' /\ xr s' a0 = v /\ mem s' = m' /\
    trace s' = trace s ++ evs /\ map call_of evs = calls /\ Forall real evs /\
    unaffected (xr s sp) (mem s) m'.
Proof.
  intros SO A N E. unfold Reentrant.libc_spec in E. destruct (at_site_frame s A) as (F1 & F2 & F3).
  pose proof (SO (frame_of s) (hook (xr s a7) (site_args s) (frame_of s)) _ (conj F1 F3) (intercept_mem_fit s A)) as SH.
  destruct (hs _ _ _) as [[code result] m1 calls1| |]; try discriminate. cbn [vbind] in E.
  destruct SH as (evs1 & ER & EC & RE & U1).
  assert (outcome_of (intercept_mem s) (hook_at rh s) =
    {| ho_code := code; ho_result := result; ho_mem := m1; ho_events := evs1 |}) as EO
    by (unfold hook_at; by rewrite ER).
  pose proof (nested_site_ok rh s _ A EO U1) as OK. pose proof (nested_answer rh s _ EO) as AN.
  cbn [ho_code ho_result ho_mem ho_events] in AN.
  assert (answered_mem (env_of rh (frame_of s)) s = ce_scratch e (frame_of s) m1) as AM
    by (unfold answered_mem; by rewrite AN).
  assert (unaffected (xr s sp) (mem s) (ce_scratch e (frame_of s) m1)) as U2.
  { etransitivity; [by apply intercept_mem_unaffected|]. apply (unaffected_le (frame_of s)); [lia|].
    etransitivity; [exact U1 | apply (sb_scratch SB)]. }
  destruct (Z.eqb_spec code 0) as [->|NC].
  - injection E as <- <- <-. destruct (run_handled (env_of rh (frame_of s)) hk rgp s OK) as (s' & X & CX & A0 & M & T).
    { rewrite !not_elem_of_cons in N. tauto. }
    { by rewrite AN. }
    rewrite AN in A0, T. exists s', evs1. rewrite app_nil_r. split_and!; try done; [rewrite (intercepted_back rh s s' evs1 26); [by rewrite marked_real | lia | done..]|].
    by rewrite M, AM.
  - destruct (permitted _ _ _) eqn:PM; [|done]. destruct (k_syscall _ _ _) as [r m4] eqn:KS.
    injection E as <- <- <-. pose proof (sb_kernel SB _ _ _ (ce_scratch e (frame_of s) m1) PM) as UK.
    rewrite KS in UK. cbn [snd] in UK.
    assert (k_syscall (xr s a7) (site_args s) (answered_mem (env_of rh (frame_of s)) s) = (r, m4)) as KA by by rewrite AM.
    destruct (run_forwarded (env_of rh (frame_of s)) hk rgp s OK N) as (s' & ev & X & CX & A0 & M & T & NR & AR).
    { rewrite AN. by destruct code. }
    { rewrite KA, AM. apply (keeps_sub (frame_of s) hi); [lia|apply (as_sp s A)|]. by apply unaffected_stack. }
    { rewrite KA, AM. apply (unaffected_keeps (frame_of s)); [done|]. intros x Hx. apply (sb_code_in SB).
      unfold TRAMPOLINE_SIZE. lia. }
    rewrite KA in A0, M. rewrite AN in T. cbn [fst snd] in *.
    assert (Forall real (evs1 ++ [ev])) as RE2.
    { apply Forall_app. split; [done|]. apply Forall_singleton. unfold real. rewrite NR. apply (as_regs s A). }
    exists s', (evs1 ++ [ev]). split_and!; try done.
    + rewrite (intercepted_back rh s s' (evs1 ++ [ev]) 27); [by rewrite marked_real | lia | done | done |].
      by rewrite T, app_assoc.
    + rewrite map_app, EC. cbn [map]. unfold call_of. by rewrite NR, AR.
    + etransitivity; [exact U2|]. by apply (unaffected_le (frame_of s)); [lia|].
Qed.

(** ** Hooks *)

Lemma word_u64 z : word z = true -> is_u64 z.
Proof. unfold word, is_u64. case_bools; lia || done. Qed.

(** Six arguments that are words. *)
Lemma safe_args_inv nr args : safe_args nr args = true ->
  is_u64 nr /\ Forall is_u64 args /\ exists x0 x1 x2 x3 x4 x5, args = [x0; x1; x2; x3; x4; x5].
Proof.
  unfold safe_args. rewrite !andb_true_iff, Nat.eqb_eq, forallb_forall.
  intros [[W F] L]. split_and!; [by apply word_u64|..].
  - apply Forall_forall. intros x Hx. by apply word_u64, F, list_elem_of_In.
  - do 7 (destruct args as [|? args]; try done). by eexists _, _, _, _, _, _.
Qed.

Lemma call_regs_u64 first vals sp0 r : Forall is_u64 vals -> used <= sp0 <= hi -> 
  is_u64 (call_regs rgp used junk first vals sp0 r).
Proof.
  intros F S. destruct (sb_stack SB) as (L1 & L2 & _). destruct (sb_rgp SB) as (G1 & G2 & _).
  pose proof (sb_used SB) as U. unfold call_regs, TRAMPOLINE_SIZE in *.
  destruct (r =? sp); [u64_lia|]. destruct (r =? gp); [u64_lia|]. case_match; [|apply (sb_regs SB)].
  destruct (vals !! _) as [v|] eqn:V; [|cbn; u64_lia]. by apply (Forall_lookup_1 _ _ _ _ F V).
Qed.

Lemma safe_libc_inv sp0 nr args m : safe_libc used lo sp0 nr args = true -> sp0 <= hi -> fit m ->
  let s := libc_state sp0 nr args m in
  at_site s /\ site_args s = args /\ xr s a7 = nr /\ (nr ∉ [139; 220; 435]) /\ xr s sp <= sp0.
Proof.
  intros H S F s. unfold safe_libc in H.
  rewrite !andb_true_iff, Z.leb_le, negb_true_iff, bool_decide_eq_false in H.
  destruct H as [[SA N] L]. destruct (safe_args_inv nr args SA) as (Un & Ua & x0 & x1 & x2 & x3 & x4 & x5 & ->).
  destruct (sb_stack SB) as (L1 & L2 & _). pose proof (sb_used SB) as U. unfold FRAME_SIZE in *.
  assert (xr s sp = sp0 - used) as Esp by reflexivity.
  split_and!; try done; [|lia]. constructor; try done.
  - by exists nr.
  - intros r. split; [|apply (sb_regs SB)]. unfold s. cbn [xr Reentrant.libc_state].
    destruct (r =? a7); [done|]. apply call_regs_u64; [done | lia].
  - rewrite Esp. unfold FRAME_SIZE. lia.
Qed.

(** [syscall_no_intercept] asks the kernel. *)
Lemma direct_run sp0 nr args m : safe_args nr args = true ->
  exists s' ev, arun e no_intercept_text (length no_intercept_text) 0
      (direct_state rgp used junk junkf sp0 nr args m) = AExit s' /\
    xr s' a0 = u64 (k_syscall nr args m).1 /\ mem s' = (k_syscall nr args m).2 /\
    trace s' = [ev] /\ call_of ev = (nr, args).
Proof.
  intros SA. destruct (safe_args_inv nr args SA) as (_ & _ & x0 & x1 & x2 & x3 & x4 & x5 & ->).
  destruct (syscall_no_intercept_passes_args e (direct_state rgp used junk junkf sp0 nr [x0; x1; x2; x3; x4; x5] m))
    as (s' & ev & X & _ & A0 & M & _ & T & NR & AR & _).
  exists s', ev. split_and!; try done. unfold call_of. by rewrite NR, AR.
Qed.

(** The steps of [hspec], for any depth. *)
Lemma hspec_done d sp0 code result m : hspec d sp0 (HDone code result) m = Returns (code, result) m [].
Proof. by destruct d. Qed.
Lemma hspec_load d sp0 n a k m : hspec d sp0 (HLoad n a k) m =
  match mload n m a with Some v => hspec d sp0 (k v) m | None => Unsafe end.
Proof. by destruct d. Qed.
Lemma hspec_store d sp0 n a v k m : hspec d sp0 (HStore n a v k) m =
  if safe_store hi protected sp0 n a then
    match mstore n m a v with Some m' => hspec d sp0 k m' | None => Unsafe end
  else Unsafe.
Proof. by destruct d. Qed.
Lemma hspec_direct d sp0 nr args k m : hspec d sp0 (HDirect nr args k) m =
  if safe_args nr args && permitted nr args sp0 then
    let '(r, m') := k_syscall nr args m in
    vbind (Returns (u64 r) m' [(nr, args)]) (fun v m => hspec d sp0 (k v) m)
  else Unsafe.
Proof. by destruct d. Qed.
Lemma hspec_libc d sp0 nr args k m : hspec (S d) sp0 (HLibc nr args k) m =
  if safe_libc used lo sp0 nr args then
    vbind (libc_spec (hspec d) (libc_state sp0 nr args m)) (fun v m => hspec (S d) sp0 (k v) m)
  else Unsafe.
Proof. done. Qed.

(** The same for [hrun]. *)
Lemma hrun_load d sp0 n a k m : hrun d sp0 (HLoad n a k) m = v ← or_stuck (mload n m a); hrun d sp0 (k v) m.
Proof. by destruct d. Qed.
Lemma hrun_store d sp0 n a v k m :
  hrun d sp0 (HStore n a v k) m = m' ← or_stuck (mstore n m a v); hrun d sp0 k m'.
Proof. by destruct d. Qed.
Lemma hrun_direct d sp0 nr args k m : hrun d sp0 (HDirect nr args k) m =
  match arun e no_intercept_text (length no_intercept_text) 0
          (direct_state rgp used junk junkf sp0 nr args m) with
  | AExit s' => after_events (trace s') <$> hrun d sp0 (k (xr s' a0)) (mem s')
  | _ => Stuck
  end.
Proof. by destruct d. Qed.
Lemma hrun_libc d sp0 nr args k m : hrun (S d) sp0 (HLibc nr args k) m =
  s' ← intercepted (hrun d) (libc_state sp0 nr args m);
  after_events (trace s') <$> hrun (S d) sp0 (k (xr s' a0)) (mem s').
Proof. done. Qed.

(** The rest of the hook runs after a call. *)
Lemma after_call {A} sp0 m m1 evs calls (a : A) k r : agrees sp0 m1 (k a m1) r -> unaffected sp0 m m1 ->
  map call_of evs = calls -> Forall real evs ->
  agrees sp0 m (vbind (Returns a m1 calls) k) (after_events evs <$> r).
Proof.
  cbn [vbind]. destruct (k a m1) as [[code result] m' calls'| |]; [|done|by intros ->].
  intros (evs2 & -> & <- & R2 & U2) U <- R1. exists (evs ++ evs2).
  split_and!; [done | by rewrite map_app | by apply Forall_app | by etransitivity].
Qed.

Lemma hrun_sound d : sound (hrun d) (hspec d).
Proof.
  induction d as [d IHd] using lt_wf_ind. intros sp0 p.
  induction p as [code result|n a k IH|n a v k IH|nr args k IH|nr args k IH]; intros m S F.
  - destruct d; exists []; (split_and!; [done..|reflexivity]).
  - rewrite hspec_load, hrun_load. destruct (mload n m a) as [v|]; [by apply IH | done].
  - rewrite hspec_store, hrun_store. destruct (safe_store _ _ _ _ _) eqn:SS; [|done].
    destruct (mstore n m a v) as [m1|] eqn:L; [|done]. cbn [or_stuck mbind ran_bind].
    pose proof (safe_store_unaffected _ _ _ _ _ _ SS L) as U.
    specialize (IH m1 S (fit_unaffected _ _ _ (proj2 S) F U)). unfold agrees in IH |- *. case_match; [|done..].
    case_match. destruct IH as (evs & X & Y & R & U2). exists evs. split_and!; try done. by etransitivity.
  - rewrite hspec_direct, hrun_direct. destruct (safe_args nr args) eqn:SA; [|done].
    destruct (permitted nr args sp0) eqn:PM; [|done]. cbn [andb].
    pose proof (sb_kernel SB nr args sp0 m PM) as U.
    destruct (direct_run sp0 nr args m SA) as (s' & ev & -> & -> & -> & -> & C).
    destruct (k_syscall nr args m) as [r m1].
    apply (after_call sp0 m m1 [ev]); [|done|cbn [map]; by rewrite C|].
    + apply IH; [done|]. by apply (fit_unaffected sp0 m); [apply S|..].
    + apply Forall_singleton. unfold real. injection C as -> _. by destruct (safe_args_inv nr args SA) as ((? & _) & _).
  - destruct d as [|d]; [cbn; by destruct (safe_libc _ _ _ _ _)|].
    rewrite hspec_libc, hrun_libc. destruct (safe_libc _ _ _ _ _) eqn:SL; [|done].
    destruct (safe_libc_inv sp0 nr args m SL (proj2 S) F) as (AT & _ & E7 & N & LE). rewrite <- E7 in N.
    destruct (libc_spec _ _) as [v m1 c1| |] eqn:E1; [|done|].
    + destruct (intercepted_sound (hrun d) (hspec d) _ _ _ _ (IHd d ltac:(lia)) AT N E1)
        as (s' & evs & -> & _ & EA & EM & ET & C & R & U).
      cbn [mbind ran_bind]. rewrite EA, EM, ET. cbn [trace Reentrant.libc_state app].
      apply (unaffected_le _ _ _ _ LE) in U. apply (after_call sp0 m m1); try done.
      apply IH; [done|]. by apply (fit_unaffected sp0 m); [apply S|..].
    + rewrite (intercepted_deep (hrun d) (hspec d)); try done; [by apply IHd; lia|].
      rewrite !not_elem_of_cons in N. tauto.
Qed.

(** Hooks may make system calls of libc: the interception of a system call
    inside the hook of another one, on the same stack and to any depth, does not
    disturb it.  When the meaning of the hook says that it returns, the machine
    comes back after the site: a0 is the answer, every other register is as it
    was, the system calls of the hook and of its nested interceptions reach the
    kernel in order, and neither vpoline's memory nor the stack above the
    caller's sp is changed. *)
Theorem reentrant_interception d s v m' calls : at_site s -> xr s a7 ∉ [139; 220; 435] ->
  libc_spec (hspec d) s = Returns v m' calls ->
  exists s' evs, intercepted (hrun d) s = Ran s' /\ same_context s s' /\ xr s' a0 = v /\ mem s' = m' /\
    trace s' = trace s ++ evs /\ map call_of evs = calls /\ unaffected (xr s sp) (mem s) m'.
Proof.
  intros A N E. destruct (intercepted_sound (hrun d) (hspec d) s v m' calls (hrun_sound d) A N E)
    as (s' & evs & ? & ? & ? & ? & ? & ? & _ & ?). by exists s', evs.
Qed.

(** ** Hooks that do not recurse for ever *)

(** The system calls of libc that the hook makes have a rank below [n]. *)
Fixpoint calls_below (rank : Z -> nat) (n : nat) (p : hook_prog) : Prop :=
  match p with
  | HDone _ _ => True
  | HLoad _ _ k | HDirect _ _ k => forall v, calls_below rank n (k v)
  | HStore _ _ _ k => calls_below rank n k
  | HLibc nr _ k => (rank nr < n)%nat /\ forall v, calls_below rank n (k v)
  end.

Section Rank.
Variable rank : Z -> nat.
Hypothesis ranked : forall nr args sp0, calls_below rank (rank nr) (hook nr args sp0).

Lemma vbind_deep {A B} (v : verdict A) (k : A -> memory -> verdict B) :
  v <> TooDeep -> (forall a m, k a m <> TooDeep) -> vbind v k <> TooDeep.
Proof. intros Hv Hk. destruct v as [a m calls| |]; try done. cbn. specialize (Hk a m). by destruct (k a m). Qed.

Lemma libc_spec_deep d s : (rank (xr s a7) <= d)%nat ->
  (forall n sp0 p m, (n <= d)%nat -> calls_below rank n p -> hspec d sp0 p m <> TooDeep) ->
  libc_spec (hspec d) s <> TooDeep.
Proof.
  intros L H. unfold Reentrant.libc_spec. apply vbind_deep; [by apply (H (rank (xr s a7)))|].
  intros [code result] m. case_match; [done|]. case_match; [|done]. by destruct (k_syscall _ _ _).
Qed.

Lemma ranked_hspec d : forall n sp0 p m, (n <= d)%nat -> calls_below rank n p -> hspec d sp0 p m <> TooDeep.
Proof.
  induction d as [d IHd] using lt_wf_ind. intros n sp0 p m L. revert m.
  induction p as [code result|w a k IH|w a v k IH|nr args k IH|nr args k IH]; intros m C; cbn [calls_below] in C.
  - by destruct d.
  - rewrite hspec_load. destruct (mload w m a); [by apply IH | done].
  - rewrite hspec_store. case_match; [|done]. destruct (mstore w m a v); [by apply IH | done].
  - rewrite hspec_direct. case_match; [|done]. destruct (k_syscall nr args m) as [r m1].
    apply vbind_deep; [done|]. intros v m2. by apply IH.
  - destruct C as [C1 C2]. destruct d as [|d]; [lia|]. rewrite hspec_libc. case_match; [|done].
    apply vbind_deep; [|intros v m2; by apply IH].
    apply libc_spec_deep; [change (xr _ a7) with nr; lia|].
    intros n' sp' p' m2 L'. apply IHd; lia.
Qed.
End Rank.

(** C26: A hook whose own libc calls have a lower rank than the call it was
    entered for, which is none of rt_sigreturn, clone and clone3, always returns: with a depth of that rank the machine comes back
    after the site, unless the hook fails the safety checks, which ask for room
    on the stack too. *)
Theorem ranked_hook_returns rank d s :
  (forall nr args sp0, calls_below rank (rank nr) (hook nr args sp0)) ->
  at_site s -> xr s a7 ∉ [139; 220; 435] -> (rank (xr s a7) <= d)%nat ->
  libc_spec (hspec d) s <> Unsafe -> exists s', intercepted (hrun d) s = Ran s' /\ same_context s s'.
Proof.
  intros R A N L NU. pose proof (libc_spec_deep rank R d s L (ranked_hspec rank R d)) as ND.
  destruct (libc_spec (hspec d) s) as [v m calls| |] eqn:E; try done.
  destruct (intercepted_sound (hrun d) (hspec d) s v m calls (hrun_sound d) A N E) as (s' & evs & X & CX & _).
  by exists s'.
Qed.
(** ** Hooks that do *)

(** On every path the hook makes a system call of libc in [C]. *)
Fixpoint calls_into (C : Z -> Prop) (p : hook_prog) : Prop :=
  match p with
  | HDone _ _ => False
  | HLoad _ _ k | HDirect _ _ k => forall v, calls_into C (k v)
  | HStore _ _ _ k => calls_into C k
  | HLibc nr _ k => C nr \/ forall v, calls_into C (k v)
  end.

Section Recursion.
Variable C : Z -> Prop.
Hypothesis feeds : forall nr args sp0, C nr -> calls_into C (hook nr args sp0).

Definition returns {A} (v : verdict A) : Prop := match v with Returns _ _ _ => True | _ => False end.

Lemma vbind_returns {A B} (v : verdict A) (k : A -> memory -> verdict B) :
  returns (vbind v k) -> returns v /\ exists a m, returns (k a m).
Proof.
  destruct v as [a m calls| |]; try done. cbn. intros R. split; [done|]. exists a, m. by destruct (k a m).
Qed.

Lemma hspec_calls_into d : forall sp0 p m, calls_into C p -> ~ returns (hspec d sp0 p m).
Proof.
  induction d as [d IHd] using lt_wf_ind. intros sp0 p.
  induction p as [code result|w a k IH|w a v k IH|nr args k IH|nr args k IH]; intros m H; cbn [calls_into] in H.
  - done.
  - rewrite hspec_load. case_match; [by apply IH | by intros []].
  - rewrite hspec_store. do 2 (case_match; [|by intros []]). by apply IH.
  - rewrite hspec_direct. case_match; [|by intros []]. destruct (k_syscall nr args m) as [r m1].
    intros (_ & v & m2 & R)%vbind_returns. by apply (IH v m2).
  - destruct d as [|d]; [cbn; case_match; by intros []|]. rewrite hspec_libc. case_match; [|by intros []].
    intros (R1 & v & m2 & R2)%vbind_returns. destruct H as [H|H]; [|by apply (IH v m2)].
    unfold Reentrant.libc_spec in R1. apply vbind_returns in R1 as [R1 _].
    revert R1. apply IHd; [lia|]. by apply feeds.
Qed.

(** C27: A hook that answers the system calls of a set by calling libc functions
    that make system calls of the set (printing with [printf] in a hook that
    sees write) does not return: at every depth the hook has failed the safety
    checks, as when the stack is used up, or the listing has called it again
    and the machine is deeper still. *)
Theorem self_feeding_hook_never_returns d s : at_site s -> C (xr s a7) -> xr s a7 <> 139 ->
  libc_spec (hspec d) s = Unsafe \/ intercepted (hrun d) s = Deep.
Proof.
  intros A H N. destruct (libc_spec (hspec d) s) as [v m calls| |] eqn:E; [exfalso|by left|right].
  - assert (returns (libc_spec (hspec d) s)) as R by by rewrite E.
    apply vbind_returns in R as [R _]. revert R. apply hspec_calls_into. by apply feeds.
  - by apply (intercepted_deep (hrun d) (hspec d)); [apply hrun_sound|..].
Qed.
End Recursion.
End Sandbox.

(** ** A concrete process

    The memory of [Intercept] with one patched site; the stack is its stack, and
    the kernel answers 42 and leaves the memory alone. *)
Section Example.
#[local] Existing Instance ex_kernel.

Definition rx_protected (x : Z) : bool :=
  ((0x1000 <=? x) && (x <? 0x1004)) || ((0x200700 <=? x) && (x <? 0x200900))
  || ((0x400000 <=? x) && (x <? 0x400008)).
Definition rx_junk (r : Z) : Z := 1000 + Z.land r 31.
Definition rx_env : cenv := ex_env None.

Lemma rx_prot flag n a : range_prot flag n ex_mem a = true ->
  forall x, a <= x < a + Z.of_nat n -> has_prot flag ex_mem x = true.
Proof. apply range_prot_spec. Qed.

Lemma rx_code a ws : mwords (length ws) ex_mem a = ws ->
  range_prot PROT_EXEC (4 * length ws) ex_mem a = true -> code_at ex_mem a ws.
Proof. intros E P. split; [done|]. intros x Hx. apply (rx_prot _ _ _ P). lia. Qed.

Lemma rx_junk_u64 r : is_u64 (rx_junk r).
Proof.
  unfold rx_junk. pose proof (Z.land_ones r 5 ltac:(lia)) as L. change (Z.ones 5) with 31 in L.
  rewrite L. pose proof (Z.mod_pos_bound r (2 ^ 5) ltac:(lia)). u64_lia.
Qed.

Lemma rx_sandbox_ok : sandbox_ok rx_env 0x500000 0x200800 (fun _ => 0x1000) 0x100 rx_junk rx_junk
  0x300000 0x310000 rx_protected (fun _ _ _ => true) ex_mem.
Proof.
  assert (ce_rgp_var rx_env = 0x400000) as V by reflexivity.
  constructor; rewrite ?V; unfold RET_SEQUENCE_SIZE, TRAMPOLINE_SIZE.
  - split; [u64_lia | reflexivity].
  - split_and!; [lia.. | reflexivity].
  - apply rx_code; vm_compute; reflexivity.
  - apply rx_code; vm_compute; reflexivity.
  - unfold rgp_var_ok. rewrite V. split_and!; [lia.. | vm_compute; reflexivity |].
    apply (rx_prot PROT_READ 8). vm_compute. reflexivity.
  - intros _. apply rx_code; vm_compute; reflexivity.
  - intros _. split_and!; [lia.. | reflexivity].
  - split; [lia | intros _; lia].
  - intros _. lia.
  - intros x Hx. unfold rx_protected. case_bools; lia || done.
  - intros x Hx. unfold rx_protected. case_bools; lia || done.
  - intros _ x Hx. unfold rx_protected. case_bools; lia || done.
  - split_and!; [lia..|]. intros x Hx. unfold has_prot. change (m_prot ex_mem x) with (ex_prot x).
    unfold ex_prot. case_bools; lia || done.
  - intros x Hx. unfold rx_protected. case_bools; lia || done.
  - by constructor.
  - by constructor.
  - intros r. split; apply rx_junk_u64.
  - lia.
Qed.

Lemma rx_at_site nr : is_u64 nr ->
  at_site 0x200800 (fun _ => 0x1000) 0x300000 0x310000 rx_protected ex_mem (ex_machine nr).
Proof.
  intros U. destruct (so_shape _ _ _ _ (ex_site_ok None nr U)). constructor; try done.
Qed.

(** A hook that answers write (64) with what getppid (173) of libc returns. *)
Definition rx_hook (nr : Z) (_ : list Z) (_ : Z) : hook_prog :=
  if nr =? 64 then HLibc 173 [0; 0; 0; 0; 0; 0] (fun v => HDone 0 (Some (v + 1))) else HDone 1 None.

Definition rx_result (v : verdict Z) : option (Z * list (Z * list Z)) :=
  match v with Returns a _ calls => Some (a, calls) | _ => None end.

Lemma rx_hook_result : rx_result (libc_spec rx_env rx_hook (fun _ _ _ => true)
    (hspec rx_env 0x200800 rx_hook (fun _ => 0x1000) 0x100 rx_junk rx_junk 0x300000 0x310000
       rx_protected (fun _ _ _ => true) 1) (ex_machine 64)) = Some (43, [(173, [0; 0; 0; 0; 0; 0])]).
Proof. vm_compute. reflexivity. Qed.

Lemma ranked_hook_returns_witness :
  exists s', intercepted rx_env 0x500000 rx_hook (hrun rx_env 0x500000 0x200800 rx_hook
    (fun _ => 0x1000) 0x100 rx_junk rx_junk 1) (ex_machine 64) = Ran s' /\ pc s' = 0x1004.
Proof.
  destruct (ranked_hook_returns rx_env 0x500000 0x200800 rx_hook (fun _ => 0x1000) 0x100 rx_junk rx_junk
    0x300000 0x310000 rx_protected (fun _ _ _ => true) ex_mem rx_sandbox_ok
    (fun nr => if nr =? 64 then 1%nat else 0%nat) 1 (ex_machine 64)) as (s' & X & P & _).
  - intros nr args sp0. unfold rx_hook. destruct (nr =? 64); cbn; [|exact I]. split; [lia | intros _; exact I].
  - apply rx_at_site. u64_lia.
  - apply (bool_decide_unpack _). vm_compute. exact I.
  - cbn. lia.
  - intros U. pose proof rx_hook_result as R. rewrite U in R. discriminate R.
  - exists s'. split; [exact X | exact P].
Defined.

(** A hook that prints with a libc function that makes a write. *)
Definition rx_printing (nr : Z) (args : list Z) (_ : Z) : hook_prog :=
  HLibc 64 args (fun _ => HDone 1 None).

Lemma self_feeding_hook_never_returns_witness :
  intercepted rx_env 0x500000 rx_printing (hrun rx_env 0x500000 0x200800 rx_printing
    (fun _ => 0x1000) 0x100 rx_junk rx_junk 3) (ex_machine 57) = Deep.
Proof.
  destruct (self_feeding_hook_never_returns rx_env 0x500000 0x200800 rx_printing (fun _ => 0x1000) 0x100
    rx_junk rx_junk 0x300000 0x310000 rx_protected (fun _ _ _ => true) ex_mem rx_sandbox_ok (fun _ => True))
    with (d := 3%nat) (s := ex_machine 57) as [U|D].
  - intros nr args sp0 _. left. exact I.
  - apply rx_at_site. u64_lia.
  - exact I.
  - vm_compute. discriminate.
  - vm_compute in U. discriminate U.
  - exact D.
Defined.
End Example.
