(* ===== verification/HookLibs.v ===== *)
(** * Hook libraries that call libc and print: src/test

    The hooks of hook_fcntl_test.c, syscall_tracker.c and hook_template.c as code
    of [Reentrant].  The first calls [openat] of libc, and so is intercepted
    itself; the other two format a line with [sprintf] into a local buffer and
    write it with [syscall_no_intercept].  The functions of the C library are
    modelled by what the hooks use of them: [sprintf] with a [%ld] that follows a
    fixed text, and [strlen]. *)

From stdpp Require Import base gmap list.
From Stdlib Require Import ZArith Lia Bool.
From Stdlib.Strings Require Import Ascii String.
From S2P Require Import Prelude Memory Isa Os RetSeq Patcher AsmHook Intercept Rewriter Maps Hooks Reentrant.

(** ** hook_fcntl_test.c *)

Definition SYS_fcntl : Z := 25.
Definition SYS_openat : Z := 56.
Definition AT_FDCWD : Z := u64 (-100).
(** O_RDWR | O_CREAT | O_TRUNC *)
Definition open_flags : Z := Z.lor 2 (Z.lor 64 512).
Definition open_mode : Z := 438.

(** A function of libc returns -1 for the error codes of the kernel. *)
Definition libc_result (r : Z) : Z := if 2 ^ 64 - 4096 <? r then u64 (-1) else r.
(** An [int] in a register. *)
Definition int_reg (z : Z) : Z := u64 (sext 32 z).

(** [path] is the address of the string; the fifth and sixth argument registers
    of [openat] hold what they held. *)
Definition hook_fcntl (path junk4 junk5 : Z) (syscall_number : Z) (args : list Z) (_ : Z) : hook_prog :=
  if syscall_number =? SYS_fcntl then
    HLibc SYS_openat [AT_FDCWD; path; open_flags; open_mode; junk4; junk5] (fun r =>
      let fd := int_reg (libc_result r) in
      HDirect syscall_number (fd :: tail args) (fun ret =>
        HDone 0 (Some (int_reg ret))))
  else HDone 1 None.

(** ** syscall_tracker.c and hook_template.c *)

(** The decimal digits of a number that is not negative. *)
Fixpoint dec_digits (fuel : nat) (n : Z) (acc : list ascii) : list ascii :=
  match fuel with
  | O => acc
  | S fuel =>
    let acc := digit (n mod 10) :: acc in
    if n / 10 =? 0 then acc else dec_digits fuel (n / 10) acc
  end.

(** [%ld]: a [long] has at most 19 digits. *)
Definition print_long (n : Z) : list ascii :=
  if n <? 0 then chars "-" ++ dec_digits 19 (- n) [] else dec_digits 19 n [].

(** What [sprintf] puts into the buffer for the value of a7. *)
Definition tracker_line (nr : Z) : list ascii := print_prefix ++ print_long (sext 64 nr) ++ [newline].

(** The stores of [sprintf], with the final NUL. *)
Fixpoint store_text (cs : list ascii) (a : Z) (k : hook_prog) : hook_prog :=
  match cs with
  | [] => HStore 1 a 0 k
  | c :: cs => HStore 1 a (code_of c) (store_text cs (a + 1) k)
  end.

(** [strlen], on a buffer of [fuel] bytes. *)
Fixpoint strlen (fuel : nat) (a n : Z) (k : Z -> hook_prog) : hook_prog :=
  match fuel with
  | O => k n
  | S fuel => HLoad 1 a (fun c => if c =? 0 then k n else strlen fuel (a + 1) (n + 1) k)
  end.

Definition tracker_buf : nat := 128.

(** [sprintf] and the write of the line.  [buf] is [off] bytes below the stack
    pointer the hook is entered with; the registers of the arguments that are not
    passed hold what they held. *)
Definition print_line (off junk3 junk4 junk5 syscall_number sp0 : Z) (k : hook_prog) : hook_prog :=
  let buf := sp0 - off in
  store_text (tracker_line syscall_number) buf (
    strlen tracker_buf buf 0 (fun len =>
      HDirect SYS_write [1; buf; len; junk3; junk4; junk5] (fun _ => k))).

Definition hook_tracker (off junk3 junk4 junk5 : Z) (syscall_number : Z) (_ : list Z) (sp0 : Z) : hook_prog :=
  print_line off junk3 junk4 junk5 syscall_number sp0 (HDone 1 None).

(** ** Decimal numbers *)

Definition is_digit (c : ascii) : Prop := 48 <= code_of c <= 57.

Lemma dec_digits_spec fuel : forall n acc, 0 <= n < 10 ^ Z.of_nat fuel -> (0 < fuel)%nat ->
  exists ds, dec_digits fuel n acc = ds ++ acc /\ dec_value ds = n /\ (0 < List.length ds <= fuel)%nat /\
    Forall is_digit ds.
Proof.
  induction fuel as [|fuel IH]; intros n acc Hn Hf; [lia|]. cbn [dec_digits].
  pose proof (Z.mod_pos_bound n 10 ltac:(lia)) as Hd. pose proof (code_of_digit _ Hd) as C.
  pose proof (Z.div_mod n 10 ltac:(lia)) as DM.
  assert (Forall is_digit [digit (n mod 10)]) as FD
    by (apply Forall_singleton; unfold is_digit; rewrite C; lia).
  destruct (Z.eqb_spec (n / 10) 0) as [Z0|N].
  - exists [digit (n mod 10)]. split_and!; try done; try (cbn; lia).
  - destruct fuel as [|fuel]; [change (10 ^ Z.of_nat 1) with 10 in Hn; rewrite Z.div_small in N; lia|].
    destruct (IH (n / 10) (digit (n mod 10) :: acc)) as (ds & E & V & L & F); [|lia|].
    { rewrite Nat2Z.inj_succ, Z.pow_succ_r in Hn by lia. split; [apply Z.div_pos; lia|].
      apply Z.div_lt_upper_bound; lia. }
    exists (ds ++ [digit (n mod 10)]). rewrite E, <- app_assoc, length_app. cbn [List.length].
    split_and!; try done; try lia; [|by apply Forall_app].
    rewrite dec_value_snoc by done. lia.
Qed.

Lemma print_long_spec n : - 2 ^ 63 <= n < 2 ^ 63 ->
  exists ds, print_long n = (if n <? 0 then chars "-" else []) ++ ds /\ dec_value ds = Z.abs n /\
    (0 < List.length ds <= 19)%nat /\ Forall is_digit ds.
Proof.
  intros Hn. unfold print_long.
  assert (0 <= Z.abs n < 10 ^ Z.of_nat 19) as B by (change (10 ^ Z.of_nat 19) with 10000000000000000000; lia).
  destruct (dec_digits_spec 19 (Z.abs n) [] B ltac:(lia)) as (ds & E & V & L & F). rewrite app_nil_r in E.
  exists ds. destruct (Z.ltb_spec n 0).
  - replace (- n) with (Z.abs n) by lia. rewrite E. repeat split; try done; lia.
  - replace n with (Z.abs n) at 1 by lia. rewrite E. repeat split; try done; lia.
Qed.

(** No character of the line is NUL, and it fits the buffer. *)
Lemma tracker_line_spec nr :
  (List.length (tracker_line nr) < tracker_buf)%nat /\
  Forall (fun c => 1 <= code_of c < 256) (tracker_line nr).
Proof.
  pose proof (sext_range 64 nr ltac:(lia)) as R. change (64 - 1) with 63 in R.
  destruct (print_long_spec (sext 64 nr) R) as (ds & E & _ & L & F). unfold tracker_line, tracker_buf.
  rewrite E, !length_app. split.
  - change (List.length print_prefix) with 42%nat. cbn [List.length]. destruct (sext 64 nr <? 0); cbn; lia.
  - rewrite !Forall_app. split_and!.
    + repeat constructor; vm_compute; congruence.
    + destruct (sext 64 nr <? 0); repeat constructor; vm_compute; congruence.
    + apply (Forall_impl _ _ _ F). intros c. unfold is_digit. lia.
    + repeat constructor; vm_compute; congruence.
Qed.

(** ** Formatting into a local buffer *)

Lemma code_of_byte c : Z_of_byte (byte_of_Z (code_of c)) = code_of c.
Proof.
  rewrite Z_of_byte_of_Z. apply Z.mod_small. unfold code_of. pose proof (N_ascii_bounded c). lia.
Qed.

Section Libraries.
Context {K : Kernel} (e : cenv) (hk rgp : Z).
Context (site : Z -> Z) (used : Z) (junk junkf : Z -> Z).
Context (lo hi : Z) (protected : Z -> bool) (permitted : Z -> list Z -> Z -> bool) (m0 : memory).

Local Abbreviation sandbox_ok := (sandbox_ok e hk rgp site used junk junkf lo hi protected permitted m0).
Local Abbreviation at_site := (at_site rgp site lo hi protected m0).
Local Abbreviation hspec hook := (hspec e rgp hook site used junk junkf lo hi protected permitted).
Local Abbreviation hrun hook := (hrun e hk rgp hook site used junk junkf).
Local Abbreviation intercepted hook := (intercepted e hk hook).

Lemma hspec_store_text hook d sp0 k cs : forall a m,
  (forall x, a <= x <= a + Z.of_nat (List.length cs) ->
     has_prot PROT_WRITE m x = true /\ writable_byte hi protected sp0 x = true) ->
  exists m', hspec hook d sp0 (store_text cs a k) m = hspec hook d sp0 k m' /\ m_prot m' = m_prot m /\
    (forall i c, cs !! i = Some c -> mread 1 m' (a + Z.of_nat i) = code_of c) /\
    mread 1 m' (a + Z.of_nat (List.length cs)) = 0 /\
    agree_off a (a + Z.of_nat (List.length cs) + 1) m' m.
Proof.
  assert (forall a m v k', has_prot PROT_WRITE m a = true -> writable_byte hi protected sp0 a = true ->
    hspec hook d sp0 (HStore 1 a v k') m = hspec hook d sp0 k' (mwrite 1 m a v)) as Store.
  { intros a m v k' P W. rewrite hspec_store. unfold safe_store. cbn [seq forallb].
    rewrite Z.add_0_r, W. unfold mstore. cbn [range_prot]. by rewrite P. }
  assert (forall m a, mread 1 m a = Z_of_byte (mbyte m a)) as R1 by (intros; cbn [mread]; lia).
  induction cs as [|c cs IH]; intros a m H; cbn [store_text List.length] in *.
  - destruct (H a ltac:(lia)) as [P W]. rewrite Store by done. exists (mwrite 1 m a 0). split_and!; try done.
    + rewrite R1, Z.add_0_r, mbyte_mwrite, Z.sub_diag. case_bools; lia || reflexivity.
    + apply (mwrite_agree_off _ _ 1); lia.
  - destruct (H a ltac:(lia)) as [P W]. rewrite Store by done.
    destruct (IH (a + 1) (mwrite 1 m a (code_of c))) as (m' & -> & PR & B & N & A).
    { intros x Hx. rewrite has_prot_mwrite. apply H. lia. }
    exists m'. split_and!; try done.
    + intros [|i] d' Hi; cbn in Hi.
      * injection Hi as <-. rewrite R1, Z.add_0_r, A, mbyte_mwrite, Z.sub_diag by lia.
        change (8 * 0) with 0. rewrite Z.shiftr_0_r. case_bools; try lia. apply code_of_byte.
      * rewrite <- (B i d' Hi). f_equal. lia.
    + rewrite <- N. f_equal. lia.
    + intros x Hx. rewrite A by lia. apply mbyte_mwrite_out. lia.
Qed.

Lemma hspec_strlen hook d sp0 k m cs : forall fuel a n, (List.length cs < fuel)%nat ->
  (forall x, a <= x <= a + Z.of_nat (List.length cs) -> has_prot PROT_READ m x = true) ->
  (forall i c, cs !! i = Some c -> mread 1 m (a + Z.of_nat i) = code_of c) ->
  mread 1 m (a + Z.of_nat (List.length cs)) = 0 -> Forall (fun c => 1 <= code_of c < 256) cs ->
  hspec hook d sp0 (strlen fuel a n k) m = hspec hook d sp0 (k (n + Z.of_nat (List.length cs))) m.
Proof.
  assert (forall a k', has_prot PROT_READ m a = true ->
    hspec hook d sp0 (HLoad 1 a k') m = hspec hook d sp0 (k' (mread 1 m a)) m) as Load.
  { intros a k' P. rewrite hspec_load. unfold mload. cbn [range_prot]. by rewrite P. }
  induction cs as [|c cs IH]; intros fuel a n L P B N F; (destruct fuel as [|fuel]; [cbn in L; lia|]);
    cbn [strlen List.length] in *; rewrite Load by (apply P; lia).
  - rewrite Z.add_0_r in N. by rewrite N, Z.eqb_refl, Z.add_0_r.
  - apply Forall_cons in F as [F1 F2]. specialize (B 0%nat c eq_refl) as B0. rewrite Z.add_0_r in B0.
    rewrite B0. destruct (Z.eqb_spec (code_of c) 0); [lia|]. rewrite (IH fuel (a + 1)); try done; try lia.
    + do 2 f_equal. lia.
    + intros x Hx. apply P. lia.
    + intros i c' Hi. rewrite <- (B (S i) c' Hi). f_equal. lia.
    + rewrite <- N. f_equal. lia.
Qed.

(** The stack below the frame is writable for the hook. *)
Lemma frame_below s x : sandbox_ok -> at_site s -> lo <= x < frame_of s ->
  has_prot PROT_WRITE (intercept_mem s) x = true /\ has_prot PROT_READ (intercept_mem s) x = true /\
  writable_byte hi protected (frame_of s) x = true.
Proof.
  intros SB A Hx. destruct (sb_stack _ _ _ _ _ _ _ _ _ _ _ _ SB) as (_ & _ & RW).
  pose proof (as_sp _ _ _ _ _ _ _ A) as S. unfold frame_of, FRAME_SIZE in Hx, S.
  assert (lo <= x < hi) as Hs by lia. destruct (RW x Hs) as [R W].
  pose proof (un_prot _ _ _ _ _ _ (as_fit _ _ _ _ _ _ _ A) x (or_intror Hs)) as P.
  unfold has_prot in *. rewrite intercept_mem_prot, P. split_and!; try done.
  unfold writable_byte. rewrite (sb_apart _ _ _ _ _ _ _ _ _ _ _ _ SB x Hs).
  unfold frame_of, FRAME_SIZE. case_bools; lia || done.
Qed.

Lemma u64_word z : is_u64 z -> word z = true.
Proof. unfold is_u64, word. case_bools; lia || done. Qed.

Lemma safe_args_six nr x0 x1 x2 x3 x4 x5 : is_u64 nr -> is_u64 x0 -> is_u64 x1 -> is_u64 x2 -> is_u64 x3 ->
  is_u64 x4 -> is_u64 x5 -> safe_args nr [x0; x1; x2; x3; x4; x5] = true.
Proof. intros. unfold safe_args. cbn [forallb]. by rewrite !u64_word. Qed.

Lemma int_reg_u64 z : is_u64 (int_reg z).
Proof. apply u64_range. Qed.

(** What printing means, for a hook entered at an interception of [s]. *)
Lemma hspec_print_line hook d off j3 j4 j5 k s : sandbox_ok -> at_site s ->
  Z.of_nat tracker_buf <= off -> lo <= frame_of s - off -> is_u64 j3 -> is_u64 j4 -> is_u64 j5 ->
  let f := frame_of s in
  let line := tracker_line (xr s a7) in
  let args := [1; f - off; Z.of_nat (List.length line); j3; j4; j5] in
  permitted SYS_write args f = true ->
  exists mk, (forall i c, line !! i = Some c -> mread 1 mk (f - off + Z.of_nat i) = code_of c) /\
    agree_off (f - off) f mk (intercept_mem s) /\ m_prot mk = m_prot (intercept_mem s) /\
    let r := k_syscall SYS_write args mk in
    hspec hook d f (print_line off j3 j4 j5 (xr s a7) f k) (intercept_mem s) =
      vbind (Returns (u64 r.1) r.2 [(SYS_write, args)]) (fun _ m => hspec hook d f k m).
Proof.
  intros SB A Ho Hl U3 U4 U5 f line args PM. destruct (tracker_line_spec (xr s a7)) as [L F].
  fold line in L, F. unfold tracker_buf in Ho, L.
  pose proof (as_sp _ _ _ _ _ _ _ A) as S. destruct (sb_stack _ _ _ _ _ _ _ _ _ _ _ _ SB) as (L1 & L2 & _).
  assert (forall x, f - off <= x <= f - off + Z.of_nat (List.length line) -> lo <= x < frame_of s) as In
    by (intros; unfold f in *; lia).
  set (rest := fun len => HDirect SYS_write [1; f - off; len; j3; j4; j5] (fun _ => k)).
  destruct (hspec_store_text hook d f (strlen tracker_buf (f - off) 0 rest) line (f - off) (intercept_mem s))
    as (mk & E & P & B & N & AG).
  { intros x Hx. destruct (frame_below s x SB A (In x Hx)) as (W & _ & WB). by split. }
  exists mk. split; [exact B|]. split; [intros x Hx; apply AG; lia|]. split; [exact P|]. cbv zeta.
  change (print_line off j3 j4 j5 (xr s a7) f k)
    with (store_text line (f - off) (strlen tracker_buf (f - off) 0 rest)). rewrite E.
  rewrite (hspec_strlen _ d f rest mk line tracker_buf (f - off) 0 L); [|..|exact F].
  - rewrite Z.add_0_l. unfold rest. rewrite hspec_direct. fold args. rewrite PM.
    assert (safe_args SYS_write args = true) as ->.
    { apply safe_args_six; try done; unfold is_u64, f, frame_of, FRAME_SIZE in *; lia. }
    cbn [andb]. clearbody line args. by destruct (k_syscall SYS_write args mk).
  - intros x Hx. unfold has_prot. rewrite P. by apply (frame_below s x SB A), In.
  - exact B.
  - exact N.
Qed.

(** The interception, when the hook forwards the system call and when it answers. *)
Lemma hook_forwards hook d s code result m calls : sandbox_ok -> at_site s -> xr s a7 ∉ [139; 220; 435] ->
  hspec hook d (frame_of s) (hook (xr s a7) (site_args s) (frame_of s)) (intercept_mem s) =
    Returns (code, result) m calls -> code <> 0 -> permitted (xr s a7) (site_args s) (frame_of s) = true ->
  let r := k_syscall (xr s a7) (site_args s) (ce_scratch e (frame_of s) m) in
  exists s' evs ev, intercepted hook (hrun hook d) s = Ran s' /\ same_context s s' /\
    xr s' a0 = u64 r.1 /\ mem s' = r.2 /\ trace s' = trace s ++ evs ++ [ev] /\
    map call_of evs = calls /\ call_of ev = (xr s a7, site_args s).
Proof.
  intros SB A N E NZ P r.
  assert (libc_spec e hook permitted (hspec hook d) s =
    Returns (u64 r.1) r.2 (calls ++ [(xr s a7, site_args s)])) as SP.
  { unfold libc_spec. rewrite E. cbn [vbind]. destruct (Z.eqb_spec code 0); [done|]. rewrite P. fold r.
    by destruct r. }
  destruct (intercepted_sound _ hk _ _ _ _ _ _ _ _ _ _ _ SB (hrun hook d) _ s _ _ _
    (hrun_sound _ _ _ _ _ _ _ _ _ _ _ _ _ SB d) A N SP) as (s' & evs & X & CX & A0 & M & T & C & _ & _).
  apply map_eq_app in C as (evs1 & evs2 & -> & <- & C).
  destruct evs2 as [|ev [|]]; try discriminate. injection C as C1 C2.
  exists s', evs1, ev. split_and!; try done. unfold call_of. congruence.
Qed.

Lemma hook_answers hook d s r m calls : sandbox_ok -> at_site s -> xr s a7 ∉ [139; 220; 435] ->
  hspec hook d (frame_of s) (hook (xr s a7) (site_args s) (frame_of s)) (intercept_mem s) =
    Returns (0, Some r) m calls ->
  exists s' evs, intercepted hook (hrun hook d) s = Ran s' /\ same_context s s' /\
    xr s' a0 = r /\ mem s' = ce_scratch e (frame_of s) m /\ trace s' = trace s ++ evs /\
    map call_of evs = calls.
Proof.
  intros SB A N E.
  assert (libc_spec e hook permitted (hspec hook d) s =
    Returns r (ce_scratch e (frame_of s) m) (calls ++ [])) as SP by (unfold libc_spec; by rewrite E).
  rewrite app_nil_r in SP.
  destruct (intercepted_sound _ hk _ _ _ _ _ _ _ _ _ _ _ SB (hrun hook d) _ s _ _ _
    (hrun_sound _ _ _ _ _ _ _ _ _ _ _ _ _ SB d) A N SP) as (s' & evs & X & CX & A0 & M & T & C & _ & _).
  by exists s', evs.
Qed.

(** C34: syscall_tracker.c and hook_template.c: for every intercepted system call
    but rt_sigreturn, clone and clone3 the hook writes one line to stdout, the text, the number in decimal and a
    newline, which fits its 128-byte buffer; then the kernel gets the system
    call itself, and the caller sees only a0 changed. *)
Theorem tracker_hook_prints off j3 j4 j5 s : sandbox_ok -> at_site s -> xr s a7 ∉ [139; 220; 435] ->
  Z.of_nat tracker_buf <= off -> lo <= frame_of s - off -> is_u64 j3 -> is_u64 j4 -> is_u64 j5 ->
  let f := frame_of s in
  let line := tracker_line (xr s a7) in
  let args := [1; f - off; Z.of_nat (List.length line); j3; j4; j5] in
  permitted SYS_write args f = true -> permitted (xr s a7) (site_args s) f = true ->
  exists s' ev1 ev2 mk ds,
    intercepted (hook_tracker off j3 j4 j5) (hrun (hook_tracker off j3 j4 j5) 0) s = Ran s' /\
    same_context s s' /\ trace s' = trace s ++ [ev1; ev2] /\
    call_of ev1 = (SYS_write, args) /\ call_of ev2 = (xr s a7, site_args s) /\
    (forall i c, line !! i = Some c -> mread 1 mk (f - off + Z.of_nat i) = code_of c) /\
    line = print_prefix ++ (if sext 64 (xr s a7) <? 0 then chars "-" else []) ++ ds ++ [newline] /\
    dec_value ds = Z.abs (sext 64 (xr s a7)) /\ (List.length line < tracker_buf)%nat /\
    let r := k_syscall (xr s a7) (site_args s) (ce_scratch e f (k_syscall SYS_write args mk).2) in
    xr s' a0 = u64 r.1 /\ mem s' = r.2.
Proof.
  intros SB A N Ho Hl U3 U4 U5 f line args P1 P2.
  destruct (hspec_print_line (hook_tracker off j3 j4 j5) 0 off j3 j4 j5 (HDone 1 None) s SB A Ho Hl U3 U4 U5 P1)
    as (mk & B & _ & _ & E). cbn [vbind] in E. rewrite hspec_done in E. cbn [app] in E.
  destruct (print_long_spec (sext 64 (xr s a7)) (sext_range 64 _ ltac:(lia))) as (ds & PL & V & _ & _).
  destruct (hook_forwards _ 0 s _ _ _ _ SB A N E ltac:(lia) P2) as (s' & evs & ev2 & X & CX & A0 & M & T & C & C2).
  destruct evs as [|ev1 [|]]; try discriminate. injection C as C1 C3.
  exists s', ev1, ev2, mk, ds. split_and!; try done.
  - unfold call_of. by rewrite C1, C3.
  - unfold line, tracker_line. by rewrite PL, <- app_assoc.
  - apply tracker_line_spec.
Qed.

(** C33: hook_fcntl_test.c: for an intercepted fcntl the hook calls [openat] of
    libc, which is intercepted in turn and reaches the kernel with the file's
    path, flags and mode; then the kernel gets fcntl on the new descriptor
    instead of the caller's, and the caller gets its result as an [int]. *)
Theorem fcntl_hook_redirects path j4 j5 s : sandbox_ok -> at_site s -> xr s a7 = SYS_fcntl ->
  is_u64 path -> is_u64 j4 -> is_u64 j5 ->
  let f := frame_of s in
  let hook := hook_fcntl path j4 j5 in
  let oargs := [AT_FDCWD; path; open_flags; open_mode; j4; j5] in
  let inner := libc_state rgp site used junk junkf f SYS_openat oargs (intercept_mem s) in
  let opened := k_syscall SYS_openat oargs (ce_scratch e (frame_of inner) (intercept_mem inner)) in
  let fargs := int_reg (libc_result (u64 opened.1)) :: map (xr s) [a1; a2; a3; a4; a5] in
  lo + FRAME_SIZE <= f - used ->
  permitted SYS_openat oargs (frame_of inner) = true -> permitted SYS_fcntl fargs f = true ->
  exists s' ev1 ev2, intercepted hook (hrun hook 1) s = Ran s' /\ same_context s s' /\
    trace s' = trace s ++ [ev1; ev2] /\
    call_of ev1 = (SYS_openat, oargs) /\ call_of ev2 = (SYS_fcntl, fargs) /\
    let r := k_syscall SYS_fcntl fargs opened.2 in
    xr s' a0 = int_reg (u64 r.1) /\ mem s' = ce_scratch e f r.2.
Proof.
  intros SB A E7 UP U4 U5 f hook oargs inner opened fargs R P1 P2.
  assert (xr s a7 ∉ [139; 220; 435]) as N by (rewrite E7; apply (bool_decide_unpack _); vm_compute; exact I).
  assert (libc_spec e hook permitted (hspec hook 0) inner =
    Returns (u64 opened.1) opened.2 [(SYS_openat, oargs)]) as IN.
  { unfold libc_spec. change (xr inner a7) with SYS_openat. change (site_args inner) with oargs.
    change (hook SYS_openat oargs (frame_of inner)) with (HDone 1 None). cbn [Reentrant.hspec vbind].
    change (1 =? 0) with false. cbv iota. rewrite P1. fold opened. by destruct opened. }
  set (r := k_syscall SYS_fcntl fargs opened.2).
  assert (hspec hook 1 f (hook (xr s a7) (site_args s) f) (intercept_mem s) =
    Returns (0, Some (int_reg (u64 r.1))) r.2 [(SYS_openat, oargs); (SYS_fcntl, fargs)]) as H.
  { rewrite E7. change (hook SYS_fcntl (site_args s) f) with
      (HLibc SYS_openat oargs (fun r => HDirect SYS_fcntl (int_reg (libc_result r) :: tail (site_args s))
         (fun ret => HDone 0 (Some (int_reg ret))))).
    rewrite hspec_libc. assert (safe_libc used lo f SYS_openat oargs = true) as -> .
    { unfold safe_libc, oargs. rewrite safe_args_six; [by apply Z.leb_le in R as ->|..]; try done; u64_lia. }
    fold inner. rewrite IN. cbn [vbind]. rewrite hspec_direct.
    change (int_reg (libc_result (u64 opened.1)) :: tail (site_args s)) with fargs. rewrite P2.
    assert (safe_args SYS_fcntl fargs = true) as -> by (apply safe_args_six; [done|apply int_reg_u64|apply A..]).
    cbn [andb].
    fold r. by destruct r. }
  destruct (hook_answers _ 1 s _ _ _ SB A N H) as (s' & evs & X & CX & A0 & M & T & C).
  destruct evs as [|ev1 [|ev2 [|]]]; try discriminate. injection C as C1 C2 C3 C4.
  exists s', ev1, ev2. split_and!; try done; unfold call_of; congruence.
Qed.
End Libraries.

(** ** The hooks in the process of [Reentrant] *)
Section Example.
#[local] Existing Instance ex_kernel.

Lemma tracker_hook_prints_witness :
  exists s' ev1 ev2, intercepted rx_env 0x500000 (hook_tracker 0x100 0 0 0)
      (hrun rx_env 0x500000 0x200800 (hook_tracker 0x100 0 0 0) (fun _ => 0x1000) 0x100 rx_junk rx_junk 0)
      (ex_machine 57) = Ran s' /\
    trace s' = [ev1; ev2] /\ ev_nr ev1 = 64 /\ take 3 (ev_args ev1) = [1; 0x30fdd0; 45] /\
    ev_nr ev2 = 57 /\ xr s' a0 = 42.
Proof.
  destruct (tracker_hook_prints rx_env 0x500000 0x200800 (fun _ => 0x1000) 0x100 rx_junk rx_junk
    0x300000 0x310000 rx_protected (fun _ _ _ => true) ex_mem 0x100 0 0 0 (ex_machine 57) rx_sandbox_ok
    (rx_at_site 57 ltac:(u64_lia)) ltac:(apply (bool_decide_unpack _); vm_compute; exact I)
    ltac:(vm_compute; discriminate) ltac:(vm_compute; discriminate) ltac:(u64_lia) ltac:(u64_lia) ltac:(u64_lia)
    eq_refl eq_refl) as (s' & ev1 & ev2 & mk & ds & X & _ & T & C1 & C2 & _ & _ & _ & _ & A & _).
  exists s', ev1, ev2. injection C1 as N1 A1. injection C2 as N2 _.
  split; [exact X|]. split; [exact T|]. split; [exact N1|]. split; [rewrite A1; vm_compute; reflexivity|].
  split; [exact N2|]. rewrite A. reflexivity.
Defined.

Lemma fcntl_hook_redirects_witness :
  exists s' ev1 ev2, intercepted rx_env 0x500000 (hook_fcntl 0x1234 0 0)
      (hrun rx_env 0x500000 0x200800 (hook_fcntl 0x1234 0 0) (fun _ => 0x1000) 0x100 rx_junk rx_junk 1)
      (ex_machine 25) = Ran s' /\
    trace s' = [ev1; ev2] /\ call_of ev1 = (56, [u64 (-100); 0x1234; 578; 438; 0; 0]) /\
    ev_nr ev2 = 25 /\ hd 0 (ev_args ev2) = 42 /\ xr s' a0 = 42.
Proof.
  destruct (fcntl_hook_redirects rx_env 0x500000 0x200800 (fun _ => 0x1000) 0x100 rx_junk rx_junk
    0x300000 0x310000 rx_protected (fun _ _ _ => true) ex_mem 0x1234 0 0 (ex_machine 25) rx_sandbox_ok
    (rx_at_site 25 ltac:(u64_lia)) eq_refl ltac:(u64_lia) ltac:(u64_lia) ltac:(u64_lia)
    ltac:(vm_compute; discriminate) eq_refl eq_refl) as (s' & ev1 & ev2 & X & _ & T & C1 & C2 & A & _).
  exists s', ev1, ev2. injection C2 as N2 A2.
  split; [exact X|]. split; [exact T|]. split; [exact C1|]. split; [exact N2|].
  split; [rewrite A2; reflexivity | rewrite A; reflexivity].
Defined.
End Example.
