(* ===== verification/Coverage.v ===== *)
(** * The coverage test: src/test/wrapper_test.c and its hook

    wrapper_test.c calls libc functions one after the other; before each it notes
    which system call it expects.  The hook of hook_wrapper_test.c (and the copy
    of it in intercept_sys_wrapper.c) runs in the same process, reads and writes
    the variables of the test program, answers every system call with -ENOSYS and
    marks the test when the expected number comes by.  [wstate] is the table;
    [holds] says that a memory has it. *)

From stdpp Require Import base gmap list.
From Stdlib Require Import ZArith Lia Bool.
From Stdlib.Strings Require Import Ascii String.
From S2P Require Import Prelude Memory Isa Os RetSeq Patcher AsmHook Intercept Rewriter Maps Hooks Reentrant HookLibs.

(** ** The hook *)

Definition MAX_TESTS : Z := 500.
Definition SYS_exit : Z := 93.
Definition SYS_exit_group : Z := 94.
Definition ENOSYS : Z := 38.

(** An element of [struct syscall_test_data]: two ints and a pointer. *)
Definition sizeof_test : Z := 16.

(** The variables of wrapper_test.c, by their addresses. *)
Record test_vars := TestVars { at_tracker : Z; at_current_test_idx : Z; at_inside_test : Z }.

(** The update of the current test and the answer. *)
Definition marking (v : test_vars) (syscall_number : Z) : hook_prog :=
  let answer := HDone 0 (Some (u64 (- ENOSYS))) in
  HLoad 4 (at_current_test_idx v) (fun idx =>
    let idx := sext 32 idx in
    let test := at_tracker v + sizeof_test * idx in
    if idx <? MAX_TESTS then
      HLoad 4 (test + 4) (fun matched =>
        if sext 32 matched =? 0 then
          HLoad 4 test (fun expected_sys_nr =>
            if sext 64 syscall_number =? sext 32 expected_sys_nr then HStore 4 (test + 4) 1 answer
            else answer)
        else answer)
    else answer).

Definition hook_wrapper (v : test_vars) (off junk3 junk4 junk5 : Z)
    (syscall_number : Z) (args : list Z) (sp0 : Z) : hook_prog :=
  if (syscall_number =? SYS_write) && (hd 0 args =? 1) then HDone 1 None
  else if (syscall_number =? SYS_exit_group) || (syscall_number =? SYS_exit) then HDone 1 None
  else HLoad 4 (at_inside_test v) (fun inside_test =>
    if negb (sext 32 inside_test =? 0) then
      print_line off junk3 junk4 junk5 syscall_number sp0 (marking v syscall_number)
    else HDone 1 None).

(** ** The table *)

Record wtest := WTest { expected_sys_nr : Z; matched : Z; name : Z }.
Record wstate := WState { tracker : list wtest; current_test_idx : Z; inside_test : Z }.

Definition mark (t : wtest) : wtest := WTest (expected_sys_nr t) 1 (name t).
Definition set_test (i : nat) (t : wtest) (w : wstate) : wstate :=
  WState (<[i := t]> (tracker w)) (current_test_idx w) (inside_test w).

(** What the hook does to it, inside a test. *)
Definition hook_update (nr : Z) (w : wstate) : wstate :=
  match tracker w !! Z.to_nat (current_test_idx w) with
  | Some t => if (matched t =? 0) && (nr =? expected_sys_nr t) then
                set_test (Z.to_nat (current_test_idx w)) (mark t) w else w
  | None => w
  end.

(** A system call: its number and first argument. *)
Definition hook_step (w : wstate) (c : Z * Z) : wstate :=
  if (c.1 =? SYS_write) && (c.2 =? 1) then w
  else if (c.1 =? SYS_exit_group) || (c.1 =? SYS_exit) then w
  else if negb (inside_test w =? 0) then hook_update c.1 w else w.

Definition test_addr (v : test_vars) (i : nat) : Z := at_tracker v + sizeof_test * Z.of_nat i.

Record holds (v : test_vars) (m : memory) (w : wstate) : Prop := {
  ho_inside : sext 32 (mread 4 m (at_inside_test v)) = inside_test w;
  ho_idx : sext 32 (mread 4 m (at_current_test_idx v)) = current_test_idx w;
  ho_size : Z.of_nat (List.length (tracker w)) = MAX_TESTS;
  ho_test : forall i t, tracker w !! i = Some t ->
    sext 32 (mread 4 m (test_addr v i)) = expected_sys_nr t /\
    sext 32 (mread 4 m (test_addr v i + 4)) = matched t /\
    mread 8 m (test_addr v i + 8) = name t
}.

(** The bytes of the variables. *)
Definition in_tracker (v : test_vars) (x : Z) : bool :=
  (at_tracker v <=? x) && (x <? at_tracker v + sizeof_test * MAX_TESTS).
Definition var_byte (v : test_vars) (x : Z) : bool :=
  in_tracker v x || ((at_current_test_idx v <=? x) && (x <? at_current_test_idx v + 4))
  || ((at_inside_test v <=? x) && (x <? at_inside_test v + 4)).

Definition vars_apart (v : test_vars) : Prop :=
  (forall x, at_current_test_idx v <= x < at_current_test_idx v + 4 -> in_tracker v x = false) /\
  (forall x, at_inside_test v <= x < at_inside_test v + 4 -> in_tracker v x = false).

Lemma test_bytes v w m i t x : holds v m w -> tracker w !! i = Some t ->
  test_addr v i <= x < test_addr v i + 16 -> in_tracker v x = true.
Proof.
  intros H L Hx. apply lookup_lt_Some in L. pose proof (ho_size _ _ _ H) as S.
  unfold test_addr, in_tracker, sizeof_test, MAX_TESTS in *. case_bools; lia || done.
Qed.

Lemma var_tracker v x : in_tracker v x = true -> var_byte v x = true.
Proof. intros H. unfold var_byte. by rewrite H. Qed.

Lemma var_idx v x : at_current_test_idx v <= x < at_current_test_idx v + 4 -> var_byte v x = true.
Proof. intros H. unfold var_byte. destruct (in_tracker v x); case_bools; lia || done. Qed.

Lemma var_inside v x : at_inside_test v <= x < at_inside_test v + 4 -> var_byte v x = true.
Proof. intros H. unfold var_byte. destruct (in_tracker v x); case_bools; lia || done. Qed.

Lemma holds_keeps v m m' w : (forall x, var_byte v x = true -> mbyte m' x = mbyte m x) ->
  holds v m w -> holds v m' w.
Proof.
  intros K H. assert (forall n a, (forall x, a <= x < a + Z.of_nat n -> var_byte v x = true) ->
    mread n m' a = mread n m a) as R by (intros; apply mread_ext; intros x Hx; auto).
  constructor; [..|apply H|].
  - rewrite R by (intros; apply var_inside; lia). apply H.
  - rewrite R by (intros; apply var_idx; lia). apply H.
  - intros i t L. assert (forall x, test_addr v i <= x < test_addr v i + 16 -> var_byte v x = true) as V
      by (intros; by eapply var_tracker, test_bytes).
    rewrite !R by (intros; apply V; lia). by apply H.
Qed.

(** The store of the hook. *)
Lemma holds_mark v m w i t : vars_apart v -> holds v m w -> tracker w !! i = Some t ->
  holds v (mwrite 4 m (test_addr v i + 4) 1) (set_test i (mark t) w).
Proof.
  intros [A1 A2] H L. assert (forall x, test_addr v i + 4 <= x < test_addr v i + 8 -> in_tracker v x = true) as V
    by (intros; eapply test_bytes; [done..|lia]).
  assert (forall n a, (forall x, a <= x < a + Z.of_nat n -> ~ (test_addr v i + 4 <= x < test_addr v i + 8)) ->
    mread n (mwrite 4 m (test_addr v i + 4) 1) a = mread n m a) as R.
  { intros n a D. apply mread_ext. intros x Hx. apply mbyte_mwrite_out. specialize (D x Hx). lia. }
  constructor; cbn [inside_test current_test_idx set_test tracker].
  - rewrite R; [apply H|]. intros x Hx B. specialize (A2 x ltac:(lia)). by rewrite V in A2.
  - rewrite R; [apply H|]. intros x Hx B. specialize (A1 x ltac:(lia)). by rewrite V in A1.
  - rewrite length_insert. apply H.
  - intros j u Lu. destruct (decide (i = j)) as [<-|N].
    + rewrite list_lookup_insert_eq in Lu by (by eapply lookup_lt_Some). injection Lu as <-.
      destruct (ho_test _ _ _ H i t L) as (E1 & E2 & E3). cbn [expected_sys_nr matched name mark].
      rewrite mread_mwrite, !R by (intros; lia). split_and!; done.
    + rewrite list_lookup_insert_ne in Lu by done. destruct (ho_test _ _ _ H j u Lu) as (E1 & E2 & E3).
      unfold test_addr, sizeof_test in *. rewrite !R by (intros; lia). done.
Qed.

(** ** The hook keeps the table *)

Section Hook.
Context {K : Kernel} (e : cenv) (hk rgp : Z).
Context (site : Z -> Z) (used : Z) (junk junkf : Z -> Z).
Context (lo hi : Z) (protected : Z -> bool) (permitted : Z -> list Z -> Z -> bool) (m0 : memory).
Context (v : test_vars).

Local Abbreviation sandbox_ok := (sandbox_ok e hk rgp site used junk junkf lo hi protected permitted m0).
Local Abbreviation at_site := (at_site rgp site lo hi protected m0).
Local Abbreviation hspec hook := (hspec e rgp hook site used junk junkf lo hi protected permitted).
Local Abbreviation hrun hook := (hrun e hk rgp hook site used junk junkf).
Local Abbreviation intercepted hook := (intercepted e hk hook).

(** The variables are in the data of the program: not on the stack, not among
    the bytes of vpoline, and neither a write nor the dispatcher changes them. *)
Record vars_ok : Prop := {
  vo_apart : vars_apart v;
  vo_outside : forall x, var_byte v x = true -> protected x = false /\ ~ (lo <= x < hi);
  vo_kernel : forall args m x, var_byte v x = true ->
    mbyte (k_syscall SYS_write args m).2 x = mbyte m x /\ m_prot (k_syscall SYS_write args m).2 x = m_prot m x;
  vo_scratch : forall f m x, var_byte v x = true -> mbyte (ce_scratch e f m) x = mbyte m x
}.

Definition vars_rw (m : memory) : Prop := forall x, var_byte v x = true ->
  has_prot PROT_READ m x = true /\ has_prot PROT_WRITE m x = true.

Lemma vars_load m a : vars_rw m -> (forall x, a <= x < a + 4 -> var_byte v x = true) ->
  mload 4 m a = Some (mread 4 m a).
Proof.
  intros RW V. unfold mload. assert (range_prot PROT_READ 4 m a = true) as ->; [|done].
  apply range_prot_spec. intros x Hx. apply RW, V. lia.
Qed.

Lemma vars_store f m a x : vars_ok -> vars_rw m -> lo <= f -> (forall x, a <= x < a + 4 -> var_byte v x = true) ->
  safe_store hi protected f 4 a = true /\ mstore 4 m a x = Some (mwrite 4 m a x).
Proof.
  intros OK RW F V. split.
  - unfold safe_store. apply forallb_forall. intros i Hi. apply in_seq in Hi.
    assert (var_byte v (a + Z.of_nat i) = true) as Vi by (apply V; lia).
    destruct (vo_outside OK _ Vi) as [P S].
    unfold writable_byte. rewrite P. case_bools; lia || done.
  - unfold mstore. assert (range_prot PROT_WRITE 4 m a = true) as ->; [|done].
    apply range_prot_spec. intros y Hy. apply RW, V. lia.
Qed.

(** The end of the hook, after the line is written. *)
Lemma hspec_marking hook d f m w nr : vars_ok -> vars_rw m -> holds v m w -> lo <= f ->
  0 <= current_test_idx w ->
  exists m', hspec hook d f (marking v nr) m = Returns (0, Some (u64 (- ENOSYS))) m' [] /\
    holds v m' (hook_update (sext 64 nr) w).
Proof.
  intros OK RW H F I. unfold marking. set (answer := HDone 0 _). assert (forall m, hspec hook d f answer m = Returns (0, Some (u64 (- ENOSYS))) m []) as AN
    by (intros; apply hspec_done). clearbody answer.
  rewrite hspec_load, vars_load by first [done | intros; by apply var_idx].
  rewrite (ho_idx _ _ _ H). cbv zeta. set (i := current_test_idx w) in *. unfold hook_update. fold i.
  pose proof (ho_size _ _ _ H) as S. destruct (Z.ltb_spec i MAX_TESTS) as [L|L].
  - assert (Z.to_nat i < List.length (tracker w))%nat as Li by lia.
    destruct (lookup_lt_is_Some_2 (tracker w) (Z.to_nat i) Li) as [t E]. rewrite E.
    assert (at_tracker v + sizeof_test * i = test_addr v (Z.to_nat i)) as -> by (unfold test_addr; by rewrite Z2Nat.id).
    set (a := test_addr v (Z.to_nat i)).
    assert (forall x, a <= x < a + 8 -> var_byte v x = true) as V
      by (intros; eapply var_tracker, test_bytes; [done..|]; fold a; lia).
    destruct (ho_test _ _ _ H _ t E) as (E1 & E2 & _). fold a in E1, E2.
    rewrite hspec_load, vars_load by first [done | intros; apply V; lia]. rewrite E2.
    destruct (Z.eqb_spec (matched t) 0); [|exists m; by rewrite AN].
    rewrite hspec_load, vars_load by first [done | intros; apply V; lia]. rewrite E1. cbn [andb].
    destruct (Z.eqb_spec (sext 64 nr) (expected_sys_nr t)); [|exists m; by rewrite AN].
    rewrite hspec_store.
    destruct (vars_store f m (a + 4) 1 OK RW F) as [-> ->]; [intros; apply V; lia|]. rewrite AN.
    eexists. split; [done|]. apply holds_mark; [apply (vo_apart OK) | done..].
  - assert (tracker w !! Z.to_nat i = None) as -> by (apply lookup_ge_None_2; lia). exists m. by rewrite AN.
Qed.

(** The path of the hook for the system calls it counts. *)
Lemma hook_wrapper_inside off j3 j4 j5 s :
  ~ (xr s a7 = SYS_write /\ xr s a0 = 1) -> xr s a7 ∉ [SYS_exit; SYS_exit_group] ->
  hook_wrapper v off j3 j4 j5 (xr s a7) (site_args s) (frame_of s) = HLoad 4 (at_inside_test v) (fun i =>
    if negb (sext 32 i =? 0) then print_line off j3 j4 j5 (xr s a7) (frame_of s) (marking v (xr s a7))
    else HDone 1 None).
Proof.
  intros NW NE. unfold hook_wrapper. change (hd 0 (site_args s)) with (xr s a0).
  apply not_elem_of_cons in NE as [N1 NE]. apply not_elem_of_cons in NE as [N2 _].
  assert ((xr s a7 =? SYS_write) && (xr s a0 =? 1) = false) as -> by (case_bools; tauto || done).
  by rewrite (proj2 (Z.eqb_neq _ _) N1), (proj2 (Z.eqb_neq _ _) N2).
Qed.

(** C35: hook_wrapper_test.c: inside a test every system call but a write to
    stdout, the exits, rt_sigreturn, clone and clone3 is answered with -ENOSYS; the kernel only gets the line
    the hook prints, and the table is updated in memory: the current test is
    marked exactly when the number is the expected one. *)
Theorem coverage_hook_marks off j3 j4 j5 s w : sandbox_ok -> at_site s -> xr s a7 ∉ [139; 220; 435] ->
  vars_ok -> vars_rw (mem s) -> holds v (mem s) w -> inside_test w <> 0 -> 0 <= current_test_idx w ->
  ~ (xr s a7 = SYS_write /\ xr s a0 = 1) -> xr s a7 ∉ [SYS_exit; SYS_exit_group] ->
  Z.of_nat tracker_buf <= off -> lo <= frame_of s - off -> is_u64 j3 -> is_u64 j4 -> is_u64 j5 ->
  let f := frame_of s in
  let args := [1; f - off; Z.of_nat (List.length (tracker_line (xr s a7))); j3; j4; j5] in
  permitted SYS_write args f = true ->
  let hook := hook_wrapper v off j3 j4 j5 in
  exists s' ev, intercepted hook (hrun hook 0) s = Ran s' /\ same_context s s' /\
    xr s' a0 = u64 (- ENOSYS) /\ trace s' = trace s ++ [ev] /\ call_of ev = (SYS_write, args) /\
    holds v (mem s') (hook_update (sext 64 (xr s a7)) w).
Proof.
  intros SB A N OK RW H IN IX NW NE Ho Hl U3 U4 U5 f args PM hook.
  assert (lo <= f) as Lf by (unfold tracker_buf in Ho; unfold f; lia).
  pose proof (as_sp _ _ _ _ _ _ _ A) as SP.
  assert (f <= hi) as Hf by (unfold f, frame_of, FRAME_SIZE in *; lia).
  assert (forall x, var_byte v x = true -> mbyte (intercept_mem s) x = mbyte (mem s) x) as KI.
  { intros x Hx. apply intercept_mem_agree. intros B. apply (vo_outside OK x Hx). fold f in B. lia. }
  pose proof (hook_wrapper_inside off j3 j4 j5 s NW NE) as HK. fold f hook in HK.
  destruct (hspec_print_line e hk rgp site used junk junkf lo hi protected permitted m0 hook 0
    off j3 j4 j5 (marking v (xr s a7)) s SB A Ho Hl U3 U4 U5 PM) as (mk & _ & AG & PR & E).
  fold f args in E, AG. set (r := k_syscall SYS_write args mk) in E.
  assert (forall x, var_byte v x = true -> mbyte r.2 x = mbyte (intercept_mem s) x) as KR.
  { intros x Hx. unfold r. rewrite (proj1 (vo_kernel OK args mk x Hx)). apply AG. intros B.
    apply (vo_outside OK x Hx). lia. }
  assert (vars_rw r.2) as RWr.
  { intros x Hx. unfold has_prot, r. rewrite (proj2 (vo_kernel OK args mk x Hx)), PR, intercept_mem_prot.
    by apply RW. }
  assert (holds v r.2 w) as HR by (apply (holds_keeps v (mem s)); [|done]; intros x Hx; by rewrite KR, KI).
  destruct (hspec_marking hook 0 f r.2 w (xr s a7) OK RWr HR Lf IX) as (m' & EM & HM).
  assert (hspec hook 0 f (hook (xr s a7) (site_args s) f) (intercept_mem s) =
    Returns (0, Some (u64 (- ENOSYS))) m' [(SYS_write, args)]) as HS.
  { rewrite HK, hspec_load.
    assert (vars_rw (intercept_mem s)) as RWi by (intros x Hx; unfold has_prot; rewrite intercept_mem_prot; by apply RW).
    rewrite vars_load by first [done | intros; by apply var_inside].
    rewrite (ho_inside _ _ w) by (by apply (holds_keeps v (mem s))).
    destruct (Z.eqb_spec (inside_test w) 0); [done|]. cbn [negb]. rewrite E. cbn [vbind].
    by rewrite EM. }
  destruct (hook_answers e hk rgp site used junk junkf lo hi protected permitted m0 hook 0 s _ _ _ SB A N HS)
    as (s' & evs & X & CX & A0 & M & T & C).
  destruct evs as [|ev [|]]; try discriminate. injection C as C1 C2.
  exists s', ev. split_and!; try done; [unfold call_of; by rewrite C1, C2|].
  rewrite M. apply (holds_keeps v m'); [|done]. intros x Hx. apply (vo_scratch OK f m' x Hx).
Qed.
End Hook.

(** ** The test program *)

(** A use of TEST_LIBC_WRAPPER: the expected number, the text of the call, and
    the system calls the function makes, each intercepted. *)
Record libc_test := LibcTest { lt_nr : Z; lt_name : Z; lt_calls : list (Z * Z) }.

(** [None] is the exit when the table is full. *)
Definition test_libc_wrapper (w : wstate) (t : libc_test) : option wstate :=
  if current_test_idx w <? MAX_TESTS then
    let i := Z.to_nat (current_test_idx w) in
    old ← tracker w !! i;
    let w := set_test i (WTest (lt_nr t) (matched old) (lt_name t)) w in
    let w := WState (tracker w) (current_test_idx w) 1 in
    let w := foldl hook_step w (lt_calls t) in
    Some (WState (tracker w) (current_test_idx w + 1) 0)
  else None.

Fixpoint run_tests (ts : list libc_test) (w : wstate) : option wstate :=
  match ts with
  | [] => Some w
  | t :: ts => w ← test_libc_wrapper w t; run_tests ts w
  end.

(** The variables before main. *)
Definition no_tests : wstate := WState (replicate (Z.to_nat MAX_TESTS) (WTest 0 0 0)) 0 0.

Section Report.
(** The string literals. *)
Variable text : Z -> list ascii.

Definition report_size : Z := 32768.
Definition header : list ascii := newline :: chars "--- Interception Coverage ---" ++ [newline].
Definition ok_line (t : wtest) : list ascii :=
  chars "[ OK ] " ++ text (name t) ++ chars " (NR: " ++ print_long (expected_sys_nr t) ++ chars ")" ++ [newline].
Definition fail_line (t : wtest) : list ascii :=
  chars "[FAIL] " ++ text (name t) ++ chars " (NR: " ++ print_long (expected_sys_nr t)
  ++ chars ") NOT intercepted" ++ [newline].

(** The loop of [print_report]: the offset in the report and the count. *)
Fixpoint report_loop (ts : list wtest) (offset intercepted : Z) : Z * Z :=
  match ts with
  | [] => (offset, intercepted)
  | t :: ts =>
    let '(offset, intercepted) :=
      if negb (matched t =? 0) then (offset + Z.of_nat (List.length (ok_line t)), intercepted + 1)
      else (offset + Z.of_nat (List.length (fail_line t)), intercepted) in
    if report_size - 100 <=? offset then (offset, intercepted) else report_loop ts offset intercepted
  end.

(** [print_report] up to the end of its loop. *)
Definition print_report (w : wstate) : Z * Z :=
  report_loop (take (Z.to_nat (current_test_idx w)) (tracker w)) (Z.of_nat (List.length header)) 0.

(** What a test is for: one of the calls the hook counts has the expected number. *)
Definition counted (c : Z * Z) : bool :=
  negb ((c.1 =? SYS_write) && (c.2 =? 1)) && negb ((c.1 =? SYS_exit_group) || (c.1 =? SYS_exit)).
Definition seen (nr : Z) (calls : list (Z * Z)) : bool := existsb (fun c => counted c && (c.1 =? nr)) calls.
Definition outcome (t : libc_test) : wtest :=
  WTest (lt_nr t) (if seen (lt_nr t) (lt_calls t) then 1 else 0) (lt_name t).

Lemma hook_step_seen w i t c : inside_test w = 1 -> current_test_idx w = Z.of_nat i -> tracker w !! i = Some t ->
  matched t = 0 \/ matched t = 1 ->
  hook_step w c = set_test i (WTest (expected_sys_nr t)
    (if negb (matched t =? 0) || (counted c && (c.1 =? expected_sys_nr t)) then 1 else 0) (name t)) w.
Proof.
  intros I X L M. assert (forall u, u = t -> w = set_test i u w) as Same.
  { intros u ->. unfold set_test. rewrite list_insert_id by done. by destruct w. }
  assert (t = WTest (expected_sys_nr t) (matched t) (name t)) as Et by by destruct t.
  unfold hook_step, counted, hook_update. rewrite I, X, Nat2Z.id, L. cbn [negb Z.eqb].
  destruct ((c.1 =? SYS_write) && (c.2 =? 1)); cbn [negb andb].
  { apply Same. rewrite Et at 4. f_equal. destruct M as [-> | ->]; done. }
  destruct ((c.1 =? SYS_exit_group) || (c.1 =? SYS_exit)); cbn [negb andb].
  { apply Same. rewrite Et at 4. f_equal. destruct M as [-> | ->]; done. }
  destruct M as [M|M]; rewrite M; cbn [Z.eqb negb orb andb].
  - destruct (c.1 =? expected_sys_nr t); [done|]. apply Same. rewrite Et at 3. by rewrite M.
  - apply Same. rewrite Et at 3. by rewrite M.
Qed.
Lemma set_test_twice i t u w : set_test i t (set_test i u w) = set_test i t w.
Proof. unfold set_test. cbn [tracker]. by rewrite list_insert_insert_eq. Qed.

Lemma hook_steps_seen i nr nm calls : forall w b, inside_test w = 1 -> current_test_idx w = Z.of_nat i ->
  tracker w !! i = Some (WTest nr (if b : bool then 1 else 0) nm) ->
  foldl hook_step w calls = set_test i (WTest nr (if b || seen nr calls then 1 else 0) nm) w.
Proof.
  induction calls as [|c calls IH]; intros w b I X L; cbn [foldl seen existsb].
  - rewrite orb_false_r. unfold set_test. rewrite list_insert_id by done. by destruct w.
  - rewrite (hook_step_seen w i _ c I X L) by (destruct b; cbn; auto). cbn [expected_sys_nr matched name].
    set (b' := b || (counted c && (c.1 =? nr))).
    assert (negb ((if b then 1 else 0) =? 0) = b) as -> by by destruct b. fold b'.
    rewrite (IH _ b'); [|done..|].
    + rewrite set_test_twice. do 2 f_equal. unfold b'. by rewrite <- orb_assoc.
    + cbn [set_test tracker]. apply list_lookup_insert_eq. by eapply lookup_lt_Some.
Qed.

(** The table while the tests run. *)
Definition after_tests (ts : list libc_test) (k : nat) : wstate :=
  WState (map outcome ts ++ replicate k (WTest 0 0 0)) (Z.of_nat (List.length ts)) 0.

Lemma test_libc_wrapper_outcome ts t k : Z.of_nat (List.length ts) < MAX_TESTS ->
  test_libc_wrapper (after_tests ts (S k)) t = Some (after_tests (ts ++ [t]) k).
Proof.
  intros L. unfold test_libc_wrapper. cbn [current_test_idx after_tests tracker].
  rewrite (proj2 (Z.ltb_lt _ _) L), Nat2Z.id.
  assert (List.length (map outcome ts) = List.length ts) as LM by apply length_map.
  cbn [replicate]. rewrite list_lookup_middle by done. cbn [mbind option_bind matched].
  assert (forall u : wtest, <[List.length ts := u]> (map outcome ts ++ WTest 0 0 0 :: replicate k (WTest 0 0 0)) =
    map outcome ts ++ u :: replicate k (WTest 0 0 0)) as Ins.
  { intros u. rewrite <- LM at 1. by rewrite insert_app_r_alt, Nat.sub_diag by lia. }
  rewrite (hook_steps_seen (List.length ts) (lt_nr t) (lt_name t) (lt_calls t) _ false); try done.
  - cbn [set_test tracker current_test_idx orb]. unfold after_tests. f_equal.
    rewrite list_insert_insert_eq, Ins, map_app, length_app, <- app_assoc. cbn [map app List.length current_test_idx]. f_equal. lia.
  - cbn [set_test tracker]. rewrite Ins. by apply list_lookup_middle.
Qed.

Lemma run_tests_outcome todo : forall ts k,
  Z.of_nat (List.length ts + List.length todo) <= MAX_TESTS ->
  run_tests todo (after_tests ts (List.length todo + k)) = Some (after_tests (ts ++ todo) k).
Proof.
  induction todo as [|t todo IH]; intros ts k L; cbn [run_tests List.length Nat.add] in *.
  - by rewrite app_nil_r.
  - rewrite test_libc_wrapper_outcome by lia. cbn [mbind option_bind]. rewrite IH by (rewrite length_app; cbn; lia).
    by rewrite <- app_assoc.
Qed.

(** An upper bound of the length of a test's line. *)
Definition line_room (t : libc_test) : Z := Z.of_nat (List.length (text (lt_name t))) + 51.

Lemma report_line_bound t : - 2 ^ 31 <= lt_nr t < 2 ^ 31 ->
  Z.of_nat (List.length (ok_line (outcome t))) <= line_room t /\
  Z.of_nat (List.length (fail_line (outcome t))) <= line_room t.
Proof.
  intros H. destruct (print_long_spec (lt_nr t)) as (ds & E & _ & L & _); [lia|].
  unfold ok_line, fail_line, line_room. cbn [name expected_sys_nr outcome]. rewrite E, !length_app.
  destruct (lt_nr t <? 0); cbn; lia.
Qed.

Lemma report_loop_counts ts : Forall (fun t => - 2 ^ 31 <= lt_nr t < 2 ^ 31) ts -> forall offset n,
  offset + foldr Z.add 0 (map line_room ts) < report_size - 100 ->
  (report_loop (map outcome ts) offset n).2 =
    n + Z.of_nat (List.length (filter (fun t => seen (lt_nr t) (lt_calls t) = true) ts)).
Proof.
  induction 1 as [|t ts H _ IH]; intros offset n B; [cbn; lia|]. cbn [map foldr] in B.
  destruct (report_line_bound t H) as [L1 L2]. cbn [map report_loop]. rewrite filter_cons.
  assert (0 <= foldr Z.add 0 (map line_room ts)) as P.
  { clear. induction ts as [|t ts IH]; cbn [map foldr]; [lia|]. unfold line_room at 1. lia. }
  cbn [matched outcome]. destruct (seen (lt_nr t) (lt_calls t)) eqn:E; cbn [Z.eqb negb].
  - destruct (Z.leb_spec (report_size - 100) (offset + Z.of_nat (List.length (ok_line (outcome t))))); [lia|].
    rewrite IH by lia. rewrite decide_True by done. cbn [List.length]. lia.
  - destruct (Z.leb_spec (report_size - 100) (offset + Z.of_nat (List.length (fail_line (outcome t))))); [lia|].
    rewrite IH by lia. rewrite decide_False by done. done.
Qed.

(** The report is right: when no more tests than the table holds are run and
    their lines fit the report, every test is run, the count of the report is the
    number of tests one of whose counted system calls had the expected number, and
    the table is left outside a test. *)
Theorem coverage_report_counts ts : Z.of_nat (List.length ts) <= MAX_TESTS ->
  Forall (fun t => - 2 ^ 31 <= lt_nr t < 2 ^ 31) ts ->
  Z.of_nat (List.length header) + foldr Z.add 0 (map line_room ts) < report_size - 100 ->
  exists w, run_tests ts no_tests = Some w /\ current_test_idx w = Z.of_nat (List.length ts) /\
    inside_test w = 0 /\
    (print_report w).2 = Z.of_nat (List.length (filter (fun t => seen (lt_nr t) (lt_calls t) = true) ts)).
Proof.
  intros L F B. set (k := (Z.to_nat MAX_TESTS - List.length ts)%nat). exists (after_tests ts k). split_and!; try done.
  - change no_tests with (after_tests [] (Z.to_nat MAX_TESTS)).
    replace (Z.to_nat MAX_TESTS) with (List.length ts + k)%nat by (unfold k; lia).
    by apply run_tests_outcome.
  - unfold print_report, after_tests. cbn [current_test_idx tracker]. rewrite Nat2Z.id, take_app_length'
      by by rewrite length_map. rewrite report_loop_counts by done. lia.
Qed.
End Report.

(** ** The process of [Reentrant] inside the first test

    The variables are at 0x600000; the test expects ioctl (29), which the libc
    function makes. *)
Section Example.
#[local] Existing Instance ex_kernel.

Definition cv_vars : test_vars := TestVars 0x600000 0x602000 0x602004.
Definition cv_table : wstate := WState (WTest 29 0 0 :: replicate 499 (WTest 0 0 0)) 0 1.
Definition cv_mem : memory :=
  mwrite 4 (mwrite 4 (Mem (m_bytes ex_mem)
    (fun x => if (0x600000 <=? x) && (x <? 0x603000) then Some 3 else ex_prot x)) 0x602004 1) 0x600000 29.
Definition cv_machine : machine := setmem cv_mem (ex_machine 29).

Lemma cv_byte x : x < 0x600000 -> mbyte cv_mem x = mbyte ex_mem x.
Proof. intros H. unfold cv_mem. by rewrite !mbyte_mwrite_out by lia. Qed.

Lemma cv_prot x : x < 0x600000 -> m_prot cv_mem x = m_prot ex_mem x.
Proof.
  intros H. unfold cv_mem. rewrite !mwrite_prot. cbn [m_prot]. change (m_prot ex_mem x) with (ex_prot x).
  case_bools; lia || done.
Qed.

Lemma cv_var x : var_byte cv_vars x = true -> 0x600000 <= x < 0x603000.
Proof. unfold var_byte, in_tracker, sizeof_test, MAX_TESTS. cbn. case_bools; lia || done. Qed.

Lemma cv_at_site : at_site 0x200800 (fun _ => 0x1000) 0x300000 0x310000 rx_protected ex_mem cv_machine.
Proof.
  destruct (rx_at_site 29 ltac:(u64_lia)) as [P G U S _]. constructor; [exact P | exact G | exact U | exact S |].
  assert (forall x, rx_protected x = true -> x < 0x600000) as L
    by (intros x; unfold rx_protected; case_bools; lia || done).
  constructor; intros x [Hx|Hx]; first [apply cv_byte | apply cv_prot]; first [by apply L | lia].
Qed.

Lemma cv_vars_ok : vars_ok rx_env 0x300000 0x310000 rx_protected cv_vars.
Proof.
  constructor; [|intros x Hx%cv_var|done|done].
  - split; intros x Hx; unfold in_tracker, sizeof_test, MAX_TESTS; cbn in *; case_bools; lia || done.
  - split; [unfold rx_protected; case_bools; lia || done | lia].
Qed.

Definition cv_entry (i : nat) : bool :=
  match tracker cv_table !! i with
  | Some t => (sext 32 (mread 4 cv_mem (test_addr cv_vars i)) =? expected_sys_nr t)
              && (sext 32 (mread 4 cv_mem (test_addr cv_vars i + 4)) =? matched t)
              && (mread 8 cv_mem (test_addr cv_vars i + 8) =? name t)
  | None => true
  end.

Lemma cv_holds : holds cv_vars cv_mem cv_table.
Proof.
  constructor; [vm_compute; reflexivity..|].
  assert (forallb cv_entry (seq 0 500) = true) as E by (vm_compute; reflexivity).
  rewrite forallb_forall in E. intros i t L.
  assert (In i (seq 0 500)) as I by (apply lookup_lt_Some in L; apply in_seq; cbn in L |- *; lia).
  apply E in I. unfold cv_entry in I. rewrite L in I. apply andb_true_iff in I as [I I3].
  apply andb_true_iff in I as [I1 I2]. by rewrite !Z.eqb_eq in *.
Qed.

Lemma coverage_hook_marks_witness :
  exists s', intercepted rx_env 0x500000 (hook_wrapper cv_vars 0x100 0 0 0)
      (hrun rx_env 0x500000 0x200800 (hook_wrapper cv_vars 0x100 0 0 0) (fun _ => 0x1000) 0x100 rx_junk rx_junk 0)
      cv_machine = Ran s' /\
    xr s' a0 = u64 (-38) /\ holds cv_vars (mem s') (WState (WTest 29 1 0 :: replicate 499 (WTest 0 0 0)) 0 1).
Proof.
  destruct (coverage_hook_marks rx_env 0x500000 0x200800 (fun _ => 0x1000) 0x100 rx_junk rx_junk
    0x300000 0x310000 rx_protected (fun _ _ _ => true) ex_mem cv_vars 0x100 0 0 0 cv_machine cv_table
    rx_sandbox_ok cv_at_site) as (s' & ev & X & _ & A & _ & _ & H).
  - apply (bool_decide_unpack _). vm_compute. exact I.
  - exact cv_vars_ok.
  - intros x Hx%cv_var. unfold has_prot, cv_machine, cv_mem. cbn [mem setmem]. rewrite !mwrite_prot. cbn [m_prot].
    case_bools; lia || done.
  - exact cv_holds.
  - discriminate.
  - discriminate.
  - intros [H _]. discriminate H.
  - apply (bool_decide_unpack _). vm_compute. exact I.
  - vm_compute. discriminate.
  - vm_compute. discriminate.
  - u64_lia.
  - u64_lia.
  - u64_lia.
  - reflexivity.
  - exists s'. split; [exact X|]. split; [exact A|]. exact H.
Defined.

(** dup is seen, getcwd made another system call. *)
Definition cv_tests : list libc_test := [LibcTest 23 0 [(23, 4)]; LibcTest 17 1 [(64, 1); (29, 0)]].

Lemma coverage_report_counts_witness :
  exists w, run_tests cv_tests no_tests = Some w /\ current_test_idx w = 2 /\
    (print_report (fun _ => chars "dup(4)") w).2 = 1.
Proof.
  destruct (coverage_report_counts (fun _ => chars "dup(4)") cv_tests) as (w & R & X & _ & C).
  - vm_compute. discriminate.
  - repeat constructor; cbn; lia.
  - vm_compute. reflexivity.
  - exists w. split; [exact R|]. split; [exact X|]. rewrite C. vm_compute. reflexivity.
Defined.
End Example.
