(* ===== verification/Init.v ===== *)
(** * Loading the hook and starting up: the rest of main.c

    [load_hook_lib], the constructor [__vpoline_init], which runs the components
    in order, and [__libc_start_main].  The dynamic loader and the hook library
    are parameters.  The theorems say what the start-up establishes for the
    interceptions of [Intercept]. *)

From stdpp Require Import base gmap list strings.
From Stdlib Require Import ZArith Lia Bool.
From Stdlib.Strings Require Import Ascii String.
From S2P Require Import Prelude Memory Isa Os RetSeq Patcher AsmHook Intercept Sigsegv Rewriter Maps.

(** ** The hook library *)

(** The dynamic loader and the library's [__hook_init]: what it returns and what
    it leaves in [user_hook_ptr], which is [NULL] at the call. *)
Class HookLib := {
  getenv_LIBVPHOOK : option string;
  dlopen : string -> memory -> option Z * memory;
  dlsym_hook_init : Z -> option (memory -> Z * option hook_fn_t * memory)
}.

Definition load_hook_lib `{HookLib} (hook_fn : option hook_fn_t) (m : memory)
  : res (option hook_fn_t * memory) :=
  match getenv_LIBVPHOOK with
  | None => Ok (hook_fn, m)
  | Some filename =>
    match dlopen filename m with
    | (None, _) => Exited 1
    | (Some handle, m1) =>
      match dlsym_hook_init handle with
      | None => Exited EXIT_FAILURE
      | Some hook_init =>
        let '(init_state, user_hook_ptr, m2) := hook_init m1 in
        if negb (init_state =? 0) then Exited EXIT_FAILURE
        else Ok (user_hook_ptr, m2)
      end
    end
  end.

(** ** The process *)

Record process := {
  p_globals : globals;
  p_mem : memory;
  p_gp : Z;
  p_disp : Z -> disposition;
  p_hook_fn : option hook_fn_t
}.

(** Lift a result into the rewriting's. *)
Definition andthen {A B} (r : res A) (k : A -> option (res B)) : option (res B) :=
  match r with Ok a => k a | Exited c => Some (Exited c) | Killed s => Some (Killed s) end.

(** gp is saved first, in [virtual_global_pointer]. *)
Definition init_globals (p : process) : globals :=
  {| virtual_global_pointer := p_gp p;
     relocated_global_pointer_at := relocated_global_pointer_at (p_globals p);
     page_size := page_size (p_globals p); rsi := rsi (p_globals p) |}.

Section Init.
Context {OS : Os} {C : Capstone} {H : HookLib}.

(** [asm_syscall_hook] is its address, [sigaction_ok] whether [sigaction]
    succeeds and [maps m] what /proc/self/maps holds when the memory is [m]. *)
Variable asm_syscall_hook : Z.
Variable sigaction_ok : bool.
Variable maps : memory -> option (list ascii).

Definition vpoline_init (p : process) : option (res process) :=
  let g1 := define_ret_sequence_info (init_globals p) in
  andthen (init_trap_handler sigaction_ok (p_disp p)) (fun d =>
  andthen (allocate_ret_sequence_page g1 (p_mem p)) (fun '(g2, m2) =>
  andthen (setup_shadow_page_trampoline asm_syscall_hook g2 m2) (fun m3 =>
  andthen (setup_return g2 m3) (fun m4 =>
  let gp := relocated_gp (rsi g2) in
  match rewrite_code (maps m4) m4 with
  | Some (Ok m5) =>
    andthen (load_hook_lib (p_hook_fn p) m5) (fun '(h, m6) =>
    Some (Ok {| p_globals := g2; p_mem := m6; p_gp := gp; p_disp := d; p_hook_fn := h |}))
  | Some (Exited c) => Some (Exited c)
  | Some (Killed s) => Some (Killed s)
  | None => None
  end)))).

(** [orig] is the function [dlsym] finds, which goes on with the relocated
    global pointer. *)
Definition libc_start_main {A} (orig : process -> A) (p : process) : A :=
  orig {| p_globals := p_globals p; p_mem := p_mem p; p_gp := relocated_gp (rsi (p_globals p));
          p_disp := p_disp p; p_hook_fn := p_hook_fn p |}.
End Init.

(** ** What the rewriting keeps *)

Definition aligned `{Os} (mp : mapping) : Prop :=
  mp_from mp mod os_pagesize = 0 /\ mp_to mp mod os_pagesize = 0.

Definition apart (mp1 mp2 : mapping) : Prop :=
  mp_to mp1 <= mp_from mp2 \/ mp_to mp2 <= mp_from mp1.

Definition inside (mp : mapping) (x : Z) : Prop := mp_from mp <= x < mp_to mp.

(** The ecalls the sweep of a mapping meets. *)
Definition libc_sites `{Capstone} (mp : mapping) (m : memory) : list Z :=
  region_sites (mp_from mp) (mp_to mp - mp_from mp) m.

Section Keep.
Context {OS : Os} {LOS : OsLaws OS} {C : Capstone} {LC : CapstoneLaws C}.

Lemma page_up_aligned mp : mapping_ok mp -> aligned mp ->
  mp_from mp + page_up os_pagesize (mp_to mp - mp_from mp) = mp_to mp.
Proof.
  intros _ [A1 A2]. pose proof pagesize_bounds as B.
  assert (os_pagesize <> 0) as N by lia.
  pose proof (Z.div_mod (mp_from mp) os_pagesize N). pose proof (Z.div_mod (mp_to mp) os_pagesize N).
  replace (mp_to mp - mp_from mp)
    with (os_pagesize * (mp_to mp / os_pagesize - mp_from mp / os_pagesize)) by lia.
  rewrite page_up_mult by lia. lia.
Qed.

Lemma region_ok_mapping mp : mapping_ok mp -> region_ok (mp_from mp) (mp_to mp - mp_from mp).
Proof. intros (? & ? & ? & _). unfold region_ok. lia. Qed.

Lemma libc_sites_spaced mp m : spaced (mp_from mp) (mp_to mp) (libc_sites mp m).
Proof.
  unfold libc_sites, region_sites.
  pose proof (ecall_sites_spaced (loop_fuel (mp_to mp - mp_from mp)) m (mp_from mp)
    (mp_from mp + (mp_to mp - mp_from mp) - 1)) as S.
  by replace (mp_from mp + (mp_to mp - mp_from mp) - 1 + 1) with (mp_to mp) in S by lia.
Qed.

Lemma libc_sites_ext mp m1 m2 : (forall x, inside mp x -> mbyte m1 x = mbyte m2 x) ->
  libc_sites mp m1 = libc_sites mp m2.
Proof.
  intros E. apply ecall_sites_ext. intros x Hx. apply E. unfold inside. lia.
Qed.

(** One mapping: its protection, its sites and everything else. *)
Lemma rewrite_mapping_spec mp m m' : mapping_ok mp -> aligned mp ->
  disassemble_and_rewrite (mp_from mp) (mp_to mp - mp_from mp) (perm_prot (mp_perms mp)) m
    = Some (Ok m') ->
  (forall x, inside mp x -> m_prot m' x = Some (perm_prot (mp_perms mp)) /\
     mbyte m' x = mbyte (patched (libc_sites mp m) m) x) /\
  (forall x, ~ inside mp x -> m_prot m' x = m_prot m x /\
     (m_prot m x <> None -> mbyte m' x = mbyte m x)).
Proof.
  intros O A E. destruct (disassemble_and_rewrite_ok _ _ _ _ _ (region_ok_mapping mp O) E) as [P B].
  rewrite (page_up_aligned mp O A) in P. fold (libc_sites mp m) in B.
  unfold inside. split; intros x Hx.
  - rewrite P. split; [case_bools; lia || done|]. apply B. lia.
  - rewrite P. split; [case_bools; lia || done|]. intros N. rewrite B by auto.
    apply mbyte_patched_out. intros a Ha. pose proof (spaced_in _ _ _ _ (libc_sites_spaced mp m) Ha). lia.
Qed.

(** What the rewriting of [mps] leaves alone. *)
Lemma rewrite_mappings_off mps : forall m m' x, Forall mapping_ok mps -> Forall aligned mps ->
  rewrite_mappings mps m = Some (Ok m') -> Forall (fun mp => ~ inside mp x) mps ->
  m_prot m x <> None -> m_prot m' x = m_prot m x /\ mbyte m' x = mbyte m x.
Proof.
  induction mps as [|mp mps IH]; intros m m' x FO FA E N P; [by injection E as <-|].
  apply Forall_cons in FO as [O FO]. apply Forall_cons in FA as [A FA]. apply Forall_cons in N as [N FN].
  cbn [rewrite_mappings] in E.
  destruct (disassemble_and_rewrite _ _ _ m) as [[m1| |]|] eqn:E1; try discriminate.
  destruct (rewrite_mapping_spec _ _ _ O A E1) as [_ K]. destruct (K x N) as [K1 K2].
  destruct (IH m1 m' x FO FA E FN) as [I1 I2]; [by rewrite K1|].
  by rewrite I1, I2, K1, (K2 P).
Qed.

(** Every site of every mapping ends up as the [jalr]. *)
Lemma rewrite_mappings_sites mps : forall m m' mp a, Forall mapping_ok mps -> Forall aligned mps ->
  ForallOrdPairs apart mps -> (forall mp x, mp ∈ mps -> inside mp x -> m_prot m x <> None) ->
  rewrite_mappings mps m = Some (Ok m') -> mp ∈ mps -> a ∈ libc_sites mp m ->
  mread 4 m' a = JALR_GP /\
  forall x, a <= x < a + 4 -> m_prot m' x = Some (perm_prot (mp_perms mp)).
Proof.
  induction mps as [|mp0 mps IH]; intros m m' mp a FO FA D M E Hin Ha; [by apply not_elem_of_nil in Hin|].
  apply Forall_cons in FO as [O FO]. apply Forall_cons in FA as [A FA].
  inversion D as [|? ? D1 D2]; subst. cbn [rewrite_mappings] in E.
  destruct (disassemble_and_rewrite _ _ _ m) as [[m1| |]|] eqn:E1; try discriminate.
  destruct (rewrite_mapping_spec _ _ _ O A E1) as [K1 K2].
  pose proof (spaced_in _ _ _ _ (libc_sites_spaced mp m) Ha) as Hr.
  apply elem_of_cons in Hin as [->|Hin].
  - assert (forall x, a <= x < a + 4 -> m_prot m' x = m_prot m1 x /\ mbyte m' x = mbyte m1 x) as KR.
    { intros x Hx. destruct (K1 x ltac:(unfold inside; lia)) as [P1 _].
      apply (rewrite_mappings_off mps m1 m' x FO FA E); [|by rewrite P1].
      apply Forall_forall. intros q Hq. apply list.Forall_forall with (x := q) in D1; [|done].
      unfold apart, inside in *. lia. }
    split.
    + erewrite mread_ext; [eapply mread_patched; [apply libc_sites_spaced | exact Ha]|].
      intros x Hx. rewrite (proj2 (KR x ltac:(lia))). apply K1. unfold inside. lia.
    + intros x Hx. rewrite (proj1 (KR x Hx)). apply K1. unfold inside. lia.
  - assert (apart mp0 mp) as AP by (by apply list.Forall_forall with (x := mp) in D1).
    assert (forall x, inside mp x -> ~ inside mp0 x) as NI by (unfold apart, inside in *; lia).
    apply (IH m1 m' mp a FO FA D2); try done.
    + intros q x Hq Hx. rewrite (proj1 (K2 x ltac:(
        apply list.Forall_forall with (x := q) in D1; [unfold apart, inside in *; lia|done]))).
      apply (M q); [by right | done].
    + rewrite (libc_sites_ext mp m1 m); [done|]. intros x Hx. apply (K2 x (NI x Hx)).
      apply (M mp); [by right | done].
Qed.

(** Away from the sites the rewriting changes nothing, when the mappings have the
    permissions that are listed. *)
Lemma rewrite_mappings_rest mps : forall m m' x, Forall mapping_ok mps -> Forall aligned mps ->
  ForallOrdPairs apart mps ->
  (forall mp y, mp ∈ mps -> inside mp y -> m_prot m y = Some (perm_prot (mp_perms mp))) ->
  rewrite_mappings mps m = Some (Ok m') ->
  (forall mp a, mp ∈ mps -> a ∈ libc_sites mp m -> ~ (a <= x < a + 4)) ->
  m_prot m' x = m_prot m x /\ (m_prot m x <> None -> mbyte m' x = mbyte m x).
Proof.
  induction mps as [|mp0 mps IH]; intros m m' x FO FA D T E N; [by injection E as <-|].
  apply Forall_cons in FO as [O FO]. apply Forall_cons in FA as [A FA].
  inversion D as [|? ? D1 D2]; subst. cbn [rewrite_mappings] in E.
  destruct (disassemble_and_rewrite _ _ _ m) as [[m1| |]|] eqn:E1; try discriminate.
  destruct (rewrite_mapping_spec _ _ _ O A E1) as [K1 K2].
  assert (forall mp y, mp ∈ mps -> inside mp y -> m_prot m1 y = m_prot m y /\ mbyte m1 y = mbyte m y) as KM.
  { intros mp y Hmp Hy. apply list.Forall_forall with (x := mp) in D1; [|done].
    destruct (K2 y ltac:(unfold apart, inside in *; lia)) as [Q1 Q2]. split; [done|]. apply Q2.
    by rewrite (T mp y) by (done || by right). }
  assert (m_prot m1 x = m_prot m x /\ (m_prot m x <> None -> mbyte m1 x = mbyte m x)) as [P1 B1].
  { destruct (decide (mp_from mp0 <= x < mp_to mp0)) as [Hx|Hx]; [|by apply K2].
    destruct (K1 x Hx) as [Q1 Q2]. split; [rewrite Q1; symmetry; apply (T mp0); [left|done]|].
    intros _. rewrite Q2. apply mbyte_patched_out. intros a Ha. apply (N mp0); [left|done]. }
  destruct (IH m1 m' x FO FA D2) as [P2 B2]; try done.
  - intros mp y Hmp Hy. rewrite (proj1 (KM mp y Hmp Hy)). apply T; [by right|done].
  - intros mp a Hmp Ha. apply (N mp); [by right|].
    rewrite <- (libc_sites_ext mp m1 m); [done|]. intros y Hy. by apply (KM mp).
  - rewrite P2, P1. split; [done|]. intros Q. rewrite B2, B1 by congruence. done.
Qed.
End Keep.

(** ** Properties *)

Section Properties.
Context {OS : Os} {LOS : OsLaws OS} {C : Capstone} {LC : CapstoneLaws C} {H : HookLib}.
Variable asm_syscall_hook : Z.
Variable sigaction_ok : bool.
Variable mappings : memory -> list mapping.

(** /proc/self/maps is the printed list of the mappings. *)
Definition maps_of (m : memory) : option (list ascii) := Some (maps_file (mappings m)).

(** It lists page-aligned mappings that do not overlap. *)
Definition mappings_ok : Prop := forall m,
  Forall mapping_ok (mappings m) /\ Forall aligned (mappings m) /\ ForallOrdPairs apart (mappings m).

(** Loading a library maps and writes its own memory: the code of the process
    stays as it is. *)
Definition loader_keeps_code : Prop := forall h m h' m',
  load_hook_lib h m = Ok (h', m') ->
  forall x, has_prot PROT_EXEC m x = true -> mbyte m' x = mbyte m x /\ m_prot m' x = m_prot m x.

(** The bytes of the variable [relocated_global_pointer]. *)
Definition in_rgp_var (p : process) (x : Z) : Prop :=
  relocated_global_pointer_at (p_globals p) <= x < relocated_global_pointer_at (p_globals p) + 8.

(** libc is mapped when the constructor runs, elsewhere than libvpoline's data. *)
Definition libc_mapped (p : process) : Prop := forall m mp x,
  mp ∈ mappings m -> libc_exec mp = true -> inside mp x ->
  m_prot (p_mem p) x <> None /\ ~ in_rgp_var p x.

(** libvpoline's data is mapped, readable and writable when its constructor runs,
    with whatever in it, and loading the hook library leaves it alone. *)
Record data_loaded (p : process) : Prop := {
  dl_bounds : 0 <= relocated_global_pointer_at (p_globals p) /\
    relocated_global_pointer_at (p_globals p) + 8 < 2 ^ 63;
  dl_readable : forall x, in_rgp_var p x -> has_prot PROT_READ (p_mem p) x = true;
  dl_writable : forall x, in_rgp_var p x -> has_prot PROT_WRITE (p_mem p) x = true;
  dl_loader : forall h m h' m', load_hook_lib h m = Ok (h', m') ->
    forall x, in_rgp_var p x -> mbyte m' x = mbyte m x /\ m_prot m' x = m_prot m x
}.

Abbreviation init := (vpoline_init asm_syscall_hook sigaction_ok maps_of).

(** The stages of a successful start-up. *)
Lemma init_inv p p' : init p = Some (Ok p') ->
  exists m4 m5, prepare_page asm_syscall_hook (init_globals p) (p_mem p) = Ok (p_globals p', m4) /\
    rewrite_code (maps_of m4) m4 = Some (Ok m5) /\
    load_hook_lib (p_hook_fn p) m5 = Ok (p_hook_fn p', p_mem p') /\
    init_trap_handler sigaction_ok (p_disp p) = Ok (p_disp p') /\
    p_gp p' = relocated_gp (rsi (p_globals p')).
Proof.
  unfold vpoline_init. cbv zeta. unfold prepare_page, layout.
  destruct (init_trap_handler _ _) as [d| |]; cbn [andthen]; [|discriminate..].
  destruct (allocate_ret_sequence_page _ _) as [[g2 m2]| |]; cbn [andthen mbind res_bind]; [|discriminate..].
  destruct (setup_shadow_page_trampoline _ _ _) as [m3| |]; cbn [andthen mbind res_bind]; [|discriminate..].
  destruct (setup_return _ _) as [m4| |]; cbn [andthen mbind res_bind]; [|discriminate..].
  destruct (rewrite_code _ m4) as [[m5| |]|] eqn:E5; [|discriminate..].
  destruct (load_hook_lib _ m5) as [[h m6]| |] eqn:E6; cbn [andthen]; [|discriminate..].
  intros E. injection E as <-. exists m4, m5. by split_and!.
Qed.

Lemma filter_libc_ok m : mappings_ok -> let l := List.filter libc_exec (mappings m) in
  Forall mapping_ok l /\ Forall aligned l /\ ForallOrdPairs apart l /\
  forall mp, mp ∈ l -> mp ∈ mappings m /\ libc_exec mp = true.
Proof.
  intros MO l. destruct (MO m) as (F1 & F2 & F3).
  assert (forall mp, mp ∈ l -> mp ∈ mappings m /\ libc_exec mp = true) as I.
  { intros mp Hmp. apply list_elem_of_In, filter_In in Hmp as [Hmp ?]. split; [by apply list_elem_of_In|done]. }
  split_and!; try done.
  - apply Forall_forall. intros mp Hmp. by apply (proj1 (Forall_forall _ _) F1), I.
  - apply Forall_forall. intros mp Hmp. by apply (proj1 (Forall_forall _ _) F2), I.
  - subst l. clear I F1 F2. induction F3 as [|mp l D1 D2 IH]; [constructor|]. cbn [List.filter].
    destruct (libc_exec mp); [|done]. constructor; [|done].
    apply List.Forall_forall. intros q [Hq _]%filter_In. by apply (proj1 (List.Forall_forall _ _) D1).
Qed.

(** The shadow region of [g]. *)
Definition in_region (g : globals) (x : Z) : Prop :=
  ret_sequence_page_addr (rsi g) <= x < ret_sequence_page_addr (rsi g) + protection_size (rsi g).

Lemma prepare_page_layout hook g m g' m4 :
  prepare_page hook g m = Ok (g', m4) -> exists m1, layout g m = Ok (g', m1).
Proof.
  intros E. unfold prepare_page in E.
  destruct (layout g m) as [[g1 m1]| |] eqn:EL; [|discriminate..]. cbn [mbind res_bind] in E.
  destruct (setup_shadow_page_trampoline _ _ _) as [m2| |]; [|discriminate..]. cbn [mbind res_bind] in E.
  destruct (setup_return _ _) as [m3| |]; [|discriminate..]. injection E as <- <-.
  by eexists.
Qed.

Lemma load_hook_lib_exit h m c : load_hook_lib h m = Exited c -> c = 1.
Proof. unfold load_hook_lib, EXIT_FAILURE. repeat case_match; congruence. Qed.

Lemma load_hook_lib_not_killed h m sig : load_hook_lib h m <> Killed sig.
Proof. unfold load_hook_lib. repeat case_match; congruence. Qed.

(** Nothing is mapped in the shadow region before it is allocated. *)
Lemma prepare_page_fresh hook g m g' m4 x : gp_sane (virtual_global_pointer g) ->
  prepare_page hook g m = Ok (g', m4) ->
  virtual_global_pointer g' = virtual_global_pointer g /\ (in_region g' x -> m_prot m x = None).
Proof.
  intros S E. apply prepare_page_layout in E as [m1 EL].
  pose proof (layout_spec _ _ _ _ S EL)
    as (_ & EV & _ & _ & _ & _ & _ & _ & _ & _ & _ & _ & _ & FR & _).
  split; [done|]. apply FR.
Qed.

(** The code around the relocated global pointer lies in the region. *)
Lemma prepare_page_in_region hook g m g' m4 : gp_sane (virtual_global_pointer g) ->
  gp_fits (virtual_global_pointer g mod os_pagesize) os_pagesize ->
  prepare_page hook g m = Ok (g', m4) ->
  ret_sequence_page_addr (rsi g') <= relocated_gp (rsi g') - RET_SEQUENCE_SIZE /\
  relocated_gp (rsi g') + TRAMPOLINE_SIZE <= ret_sequence_page_addr (rsi g') + protection_size (rsi g').
Proof.
  intros S [F1 F2] E. apply prepare_page_layout in E as [m1 EL].
  pose proof (layout_spec _ _ _ _ S EL) as (_ & _ & _ & _ & _ & EZ & _ & ER & _).
  pose proof pagesize_bounds. unfold RET_SEQUENCE_SIZE, TRAMPOLINE_SIZE in *.
  rewrite ER, EZ. case_bools; lia.
Qed.

Lemma prepare_page_low hook g m g' m4 : gp_sane (virtual_global_pointer g) ->
  prepare_page hook g m = Ok (g', m4) -> 128 <= ret_sequence_page_addr (rsi g').
Proof.
  intros S E. apply prepare_page_layout in E as [m1 EL].
  pose proof (layout_spec _ _ _ _ S EL) as (_ & _ & _ & LO & _). pose proof pagesize_bounds. lia.
Qed.

(** Where libc is, the memory is still the original one when libc is rewritten. *)
Lemma libc_untouched p g m4 mp x :
  libc_mapped p -> gp_sane (p_gp p) -> page_ready asm_syscall_hook g (p_mem p) m4 ->
  prepare_page asm_syscall_hook (init_globals p) (p_mem p) = Ok (g, m4) ->
  mp ∈ mappings m4 -> libc_exec mp = true -> inside mp x ->
  ~ in_region g x /\ mbyte m4 x = mbyte (p_mem p) x /\ m_prot m4 x = m_prot (p_mem p) x.
Proof.
  intros LM S PR E I X N. destruct (LM _ _ _ I X N) as [MP NV].
  destruct (prepare_page_layout _ _ _ _ _ E) as [m1 EL].
  pose proof (layout_spec (init_globals p) (p_mem p) g m1 S EL) as (_ & _ & _ & _ & _ & _ & _ & _ & EA & _).
  assert (~ in_region g x) as NX
    by (intros Hx; by apply MP, (prepare_page_fresh _ (init_globals p) _ _ _ _ S E)).
  split; [done|]. destruct (pr_rest _ _ _ _ PR x NX) as [-> ->]. split; [|done].
  rewrite EA. by apply mbyte_mwrite_out.
Qed.

(** The rewriting keeps what is mapped outside libc. *)
Lemma rewrite_code_keeps m4 m5 x : mappings_ok -> rewrite_code (maps_of m4) m4 = Some (Ok m5) ->
  m_prot m4 x <> None -> (forall mp, mp ∈ mappings m4 -> libc_exec mp = true -> ~ inside mp x) ->
  m_prot m5 x = m_prot m4 x /\ mbyte m5 x = mbyte m4 x.
Proof.
  intros MO E5 P N. destruct (filter_libc_ok m4 MO) as (F1 & F2 & _ & F4).
  unfold maps_of, rewrite_code in E5.
  rewrite rewrite_lines_file in E5; [|by apply MO|pose proof (maps_file_length (mappings m4)); lia].
  apply (rewrite_mappings_off _ _ _ _ F1 F2 E5); [|done].
  apply Forall_forall. intros mp Hmp. destruct (F4 mp Hmp). by apply N.
Qed.

(** Rewriting libc and loading the hook keep executable code outside libc. *)
Lemma late_steps_keep p m4 m5 h' m6 x :
  mappings_ok -> loader_keeps_code ->
  rewrite_code (maps_of m4) m4 = Some (Ok m5) -> load_hook_lib (p_hook_fn p) m5 = Ok (h', m6) ->
  has_prot PROT_EXEC m4 x = true ->
  (forall mp, mp ∈ mappings m4 -> libc_exec mp = true -> ~ inside mp x) ->
  mbyte m6 x = mbyte m4 x /\ m_prot m6 x = m_prot m4 x.
Proof.
  intros MO LK E5 E6 P N.
  destruct (rewrite_code_keeps m4 m5 x MO E5) as [P5 B5]; [unfold has_prot in P; by destruct (m_prot m4 x)|done|].
  destruct (LK _ _ _ _ E6 x) as [B6 P6]; [unfold has_prot in *; by rewrite P5|].
  by rewrite B6, P6, P5, B5.
Qed.

Lemma code_at_keep m m' base ws :
  (forall x, base <= x < base + 4 * Z.of_nat (List.length ws) ->
     mbyte m' x = mbyte m x /\ m_prot m' x = m_prot m x) ->
  code_at m base ws -> code_at m' base ws.
Proof.
  intros K [W X]. split.
  - rewrite <- W at 2. apply mwords_ext. intros x Hx. by apply K.
  - intros x Hx. unfold has_prot. rewrite (proj2 (K x Hx)). by apply X.
Qed.

(** The sites of libc after the start-up. *)
Lemma init_sites p g m4 m5 h' m6 mp a :
  mappings_ok -> loader_keeps_code -> libc_mapped p -> gp_sane (p_gp p) ->
  page_ready asm_syscall_hook g (p_mem p) m4 ->
  prepare_page asm_syscall_hook (init_globals p) (p_mem p) = Ok (g, m4) ->
  rewrite_code (maps_of m4) m4 = Some (Ok m5) -> load_hook_lib (p_hook_fn p) m5 = Ok (h', m6) ->
  mp ∈ mappings m4 -> libc_exec mp = true -> a ∈ libc_sites mp (p_mem p) ->
  code_at m6 a [JALR_GP].
Proof.
  intros MO LK LM S PR E4 E5 E6 I X Ha. destruct (filter_libc_ok m4 MO) as (F1 & F2 & F3 & F4).
  unfold maps_of, rewrite_code in E5.
  rewrite rewrite_lines_file in E5; [|by apply MO|pose proof (maps_file_length (mappings m4)); lia].
  assert (forall q x, q ∈ mappings m4 -> libc_exec q = true -> inside q x ->
    mbyte m4 x = mbyte (p_mem p) x /\ m_prot m4 x = m_prot (p_mem p) x) as U
    by (intros q x Hq Hx Hi; by apply (libc_untouched p g m4 q x LM S PR E4 Hq Hx Hi)).
  rewrite <- (libc_sites_ext mp m4 (p_mem p)) in Ha by (intros x Hx; by apply (U mp)).
  destruct (rewrite_mappings_sites _ m4 m5 mp a F1 F2 F3) as [W P]; try done.
  - intros q x [Hq Xq]%F4 Hx. rewrite (proj2 (U q x Hq Xq Hx)). by apply (LM m4 q x).
  - apply list_elem_of_In, filter_In. split; [by apply list_elem_of_In | done].
  - assert (forall x, a <= x < a + 4 -> has_prot PROT_EXEC m5 x = true) as PX.
    { intros x Hx. unfold has_prot. rewrite (P x Hx), perm_exec. unfold libc_exec in X.
      by apply andb_true_iff in X as [_ ?]. }
    apply (code_at_keep m5); [intros x Hx; apply (LK _ _ _ _ E6), PX; cbn in Hx; lia|].
    split; [cbn [mwords List.length]; by rewrite W|]. intros x Hx. apply PX. cbn in Hx. lia.
Qed.

(** The constructor leaves the relocated global pointer where the assembly looks
    for it. *)
Lemma init_publishes p p' :
  is_u64 asm_syscall_hook -> gp_sane (p_gp p) -> gp_fits (p_gp p mod os_pagesize) os_pagesize ->
  mappings_ok -> libc_mapped p -> data_loaded p -> init p = Some (Ok p') ->
  let a := relocated_global_pointer_at (p_globals p) in
  relocated_global_pointer_at (p_globals p') = a /\
  mread 8 (p_mem p') a = relocated_gp (rsi (p_globals p')) /\
  forall x, in_rgp_var p x -> has_prot PROT_READ (p_mem p') x = true.
Proof.
  intros Hh S F MO LM DL E a. destruct (init_inv p p' E) as (m4 & m5 & E4 & E5 & E6 & _).
  pose proof (prepare_page_ready asm_syscall_hook (init_globals p) _ _ _ Hh S F E4) as PR.
  destruct (prepare_page_layout _ _ _ _ _ E4) as [m1 EL].
  pose proof (layout_spec (init_globals p) (p_mem p) _ m1 S EL) as (_ & _ & _ & _ & _ & _ & _ & ER & EA & _).
  change (relocated_global_pointer_at (init_globals p)) with a in EA.
  assert (forall x, in_rgp_var p x -> m_prot (p_mem p') x = m_prot (p_mem p) x /\
    mbyte (p_mem p') x = mbyte (mwrite 8 (p_mem p) a (relocated_gp (rsi (p_globals p')))) x) as KV.
  { intros x Hx. pose proof (dl_readable p DL x Hx) as RD.
    assert (m_prot (p_mem p) x <> None) as MP by (unfold has_prot in RD; by destruct (m_prot (p_mem p) x)).
    assert (~ in_region (p_globals p') x) as NX
      by (intros N; by apply MP, (prepare_page_fresh _ (init_globals p) _ _ _ _ S E4)).
    destruct (pr_rest _ _ _ _ PR x NX) as [B4 P4]. rewrite EA in B4.
    destruct (rewrite_code_keeps m4 m5 x MO E5) as [P5 B5]; [by rewrite P4| |].
    { intros mp I X N. by destruct (LM _ _ _ I X N). }
    destruct (dl_loader p DL _ _ _ _ E6 x Hx) as [B6 P6]. by rewrite P6, P5, P4, B6, B5, B4. }
  split_and!; [done| |].
  - rewrite (mread_ext 8 _ (mwrite 8 (p_mem p) a (relocated_gp (rsi (p_globals p')))))
      by (intros x Hx; by apply KV). apply mread8_mwrite.
    destruct (xom_bounds (init_globals p) (p_mem p) _ m1 S EL) as (E1 & E2 & E3 & _ & ER').
    pose proof pagesize_bounds. pose proof (pr_high _ _ _ _ PR) as HI. unfold TRAMPOLINE_SIZE in HI.
    assert (0 <= p_gp p mod os_pagesize < os_pagesize) by (apply Z.mod_pos_bound; lia).
    change (virtual_global_pointer (init_globals p)) with (p_gp p) in ER'. u64_lia.
  - intros x Hx. unfold has_prot. rewrite (proj1 (KV x Hx)). by apply (dl_readable p DL).
Qed.

Lemma init_spec p p' :
  is_u64 asm_syscall_hook -> gp_sane (p_gp p) -> gp_fits (p_gp p mod os_pagesize) os_pagesize ->
  mappings_ok -> loader_keeps_code -> libc_mapped p -> init p = Some (Ok p') ->
  let g := p_globals p' in
  let rgp := relocated_gp (rsi g) in
  p_gp p' = rgp /\ virtual_global_pointer g = p_gp p /\
  p_disp p' SIGSEGV = SIG_SEGFAULT_HANDLER (Z.lor SA_SIGINFO SA_NODEFER) /\
  code_at (p_mem p') rgp (trampoline_words asm_syscall_hook) /\
  code_at (p_mem p') (rgp - RET_SEQUENCE_SIZE) return_words /\
  (forall x, in_region g x -> m_prot (p_mem p') x = Some PROT_EXEC) /\
  exists m, prepare_page asm_syscall_hook (init_globals p) (p_mem p) = Ok (g, m) /\
    forall mp a, mp ∈ mappings m -> libc_exec mp = true -> a ∈ libc_sites mp (p_mem p) ->
      code_at (p_mem p') a [JALR_GP].
Proof.
  intros Hh S F MO LK LM E g rgp. destruct (init_inv p p' E) as (m4 & m5 & E4 & E5 & E6 & E7 & EG).
  fold g in E4, EG. pose proof (prepare_page_ready asm_syscall_hook (init_globals p) _ _ _ Hh S F E4) as PR.
  assert (forall x, in_region g x ->
    mbyte (p_mem p') x = mbyte m4 x /\ m_prot (p_mem p') x = m_prot m4 x) as KX.
  { intros x Hx. apply (late_steps_keep p m4 m5 (p_hook_fn p') (p_mem p') x MO LK E5 E6).
    - unfold has_prot. by rewrite (pr_xom _ _ _ _ PR x Hx).
    - intros mp I X N. by apply (libc_untouched p g m4 mp x LM S PR E4 I X N). }
  pose proof (prepare_page_in_region _ (init_globals p) _ _ _ S F E4) as [R1 R2].
  split_and!; try done.
  - by apply (prepare_page_fresh _ (init_globals p) _ _ _ 0 S E4).
  - unfold init_trap_handler in E7. destruct sigaction_ok; [|discriminate]. by injection E7 as <-.
  - apply (code_at_keep m4); [|apply (pr_tramp _ _ _ _ PR)].
    rewrite trampoline_words_length. intros x Hx. apply KX. unfold in_region, rgp, RET_SEQUENCE_SIZE, TRAMPOLINE_SIZE in *. lia.
  - apply (code_at_keep m4); [|apply (pr_ret _ _ _ _ PR)].
    cbn [return_words List.length]. intros x Hx. apply KX.
    unfold in_region, rgp, RET_SEQUENCE_SIZE, TRAMPOLINE_SIZE in *. lia.
  - intros x Hx. rewrite (proj2 (KX x Hx)). by apply (pr_xom _ _ _ _ PR).
  - exists m4. split; [done|]. intros mp a I X Ha. by eapply init_sites.
Qed.

(** C17: A successful start-up has put everything an interception needs in place:
    gp holds the relocated global pointer, the SIGSEGV handler is installed, the
    trampoline and the return sequence are around the relocated global pointer
    in an execute-only region, the variable [relocated_global_pointer] that the
    assembly reads holds the relocated global pointer, whatever it held before,
    and every ecall the sweep meets in an executable mapping of libc is
    [jalr gp, gp, 0], executable. *)
Theorem init_establishes_interception p p' :
  is_u64 asm_syscall_hook -> gp_sane (p_gp p) -> gp_fits (p_gp p mod os_pagesize) os_pagesize ->
  mappings_ok -> loader_keeps_code -> libc_mapped p -> init p = Some (Ok p') ->
  let g := p_globals p' in
  let rgp := relocated_gp (rsi g) in
  p_gp p' = rgp /\ virtual_global_pointer g = p_gp p /\
  p_disp p' SIGSEGV = SIG_SEGFAULT_HANDLER (Z.lor SA_SIGINFO SA_NODEFER) /\
  code_at (p_mem p') rgp (trampoline_words asm_syscall_hook) /\
  code_at (p_mem p') (rgp - RET_SEQUENCE_SIZE) return_words /\
  (forall x, in_region g x -> m_prot (p_mem p') x = Some PROT_EXEC) /\
  (data_loaded p -> mread 8 (p_mem p') (relocated_global_pointer_at (p_globals p)) = rgp) /\
  exists m, prepare_page asm_syscall_hook (init_globals p) (p_mem p) = Ok (g, m) /\
    forall mp a, mp ∈ mappings m -> libc_exec mp = true -> a ∈ libc_sites mp (p_mem p) ->
      code_at (p_mem p') a [JALR_GP].
Proof.
  intros Hh S F MO LK LM E g rgp. destruct (init_spec p p' Hh S F MO LK LM E) as (? & ? & ? & ? & ? & ? & ?).
  split_and!; try done. intros DL. by apply (init_publishes p p').
Qed.

(** C40: An address that the program computes from gp is not redirected.  In a
    started process [addi rd, gp, imm] gives another address than in the
    unpatched program.  When the original one is in the page of the global
    pointer, the new one is in the execute-only region: the handler would redirect
    an access of the program to the original address, but without it, as in a
    system call that is given the address, nothing can be read or written there. *)
Theorem gp_derived_pointer_unreadable `{Kernel, Routines} p p' s rd imm len :
  is_u64 asm_syscall_hook -> gp_sane (p_gp p) -> gp_fits (p_gp p mod os_pagesize) os_pagesize ->
  mappings_ok -> loader_keeps_code -> libc_mapped p -> init p = Some (Ok p') ->
  m_prot (p_mem p) (p_gp p) <> None ->
  mem s = p_mem p' -> xr s gp = p_gp p' -> rd <> 0 -> routine_at (pc s) = None ->
  fetch_decode (mem s) (pc s) = Some (Some (IAddi rd gp imm), len) ->
  0 <= p_gp p mod os_pagesize + imm < os_pagesize ->
  exists s', step s = Next s' /\ xr s' rd <> p_gp p + imm /\
    in_xom (p_globals p') (xr s' rd) /\ backup_of (p_globals p') (xr s' rd) = p_gp p + imm /\
    forall n, mload (S n) (mem s') (xr s' rd) = None /\ forall v, mstore (S n) (mem s') (xr s' rd) v = None.
Proof.
  intros Hh S F MO LK LM E MP EM G R0 N FD IM. set (g := p_globals p').
  destruct (init_spec p p' Hh S F MO LK LM E) as (EG & _ & _ & _ & _ & XR & m4 & EP & _). fold g in EG, XR, EP.
  destruct (prepare_page_layout _ _ _ _ _ EP) as [m1 EL].
  pose proof (relocated_gp_other (init_globals p) (p_mem p) g m1 S EL MP) as [U NE].
  pose proof (xom_bounds (init_globals p) (p_mem p) g m1 S EL) as (X1 & X2 & X3 & X4 & X5).
  pose proof (layout_spec (init_globals p) (p_mem p) g m1 S EL) as (_ & EV & _ & _ & _ & _ & EO & _).
  pose proof (backup_of_gp (init_globals p) (p_mem p) g m1 imm S EL ltac:(rewrite EO; apply F)) as BK.
  change (virtual_global_pointer (init_globals p)) with (p_gp p) in *. rewrite EV in BK.
  unfold step. rewrite N, FD. cbn [exec]. eexists. split; [reflexivity|].
  assert (relocated_gp (rsi g) ⊞ imm = relocated_gp (rsi g) + imm) as EA by (apply u64_small; u64_lia).
  assert (xr (setpc (pc s ⊞ len) (setx rd (getx s gp ⊞ imm) s)) rd = relocated_gp (rsi g) + imm) as ->.
  { unfold setx. rewrite (proj2 (Z.eqb_neq rd 0) R0). cbn [setpc xr]. rewrite upd_eq.
    change (getx s gp) with (xr s gp). by rewrite G, EG. }
  assert (mem (setpc (pc s ⊞ len) (setx rd (getx s gp ⊞ imm) s)) = p_mem p') as ->
    by (rewrite <- EM; unfold setx; by destruct (rd =? 0)).
  assert (in_xom g (relocated_gp (rsi g) + imm)) as X by (unfold in_xom; lia).
  split_and!; try done; [lia| |].
  - rewrite <- EA, BK. apply u64_small. pose proof pagesize_bounds. unfold gp_sane in S.
    assert (p_gp p mod os_pagesize <= p_gp p) by (apply Z.mod_le; lia).
    assert (0 <= p_gp p mod os_pagesize) by (apply Z.mod_pos_bound; lia). u64_lia.
  - intros n. unfold mload, mstore. cbn [range_prot]. unfold has_prot.
    rewrite (XR (relocated_gp (rsi g) + imm)); [done|]. unfold in_region, in_xom, xom_start in *. lia.
Qed.

(** C24: The start-up always ends, with an initialised process, with exit status
    1, or killed by SIGSEGV. *)
Theorem init_terminates p :
  gp_sane (p_gp p) -> mappings_ok ->
  exists r, init p = Some r /\
    match r with Ok _ => True | Exited c => c = 1 | Killed sig => sig = SIGSEGV end.
Proof.
  intros S MO. unfold vpoline_init. cbv zeta.
  unfold init_trap_handler. destruct sigaction_ok; cbn [andthen]; [|by eexists].
  destruct (allocate_ret_sequence_page _ _) as [[g2 m2]|c|sig] eqn:E2; cbn [andthen].
  2: { eexists. split; [done|]. by apply (layout_exit (init_globals p) (p_mem p)). }
  2: { by apply (layout_not_killed (init_globals p) (p_mem p)) in E2. }
  destruct (setup_shadow_page_trampoline _ _ _) as [m3|c|sig] eqn:E3; cbn [andthen].
  2: { by apply store_words_not_exit in E3. }
  2: { eexists. split; [done|]. by eapply store_words_kill_sig. }
  destruct (setup_return g2 m3) as [m4|c|sig] eqn:E4; cbn [andthen].
  2: { eexists. split; [done|]. by eapply setup_return_exit. }
  2: { eexists. split; [done|]. apply setup_return_killed_iff in E4; [by eapply store_words_kill_sig|].
       pose proof (layout_spec (init_globals p) (p_mem p) g2 m2 S E2) as (EP & _ & A & _). by rewrite EP. }
  unfold maps_of, rewrite_code.
  rewrite rewrite_lines_file; [|by apply MO|pose proof (maps_file_length (mappings m4)); lia].
  destruct (rewrite_mappings_ends (List.filter libc_exec (mappings m4)) m4) as (r & -> & R);
    [by apply filter_libc_ok|].
  destruct r as [m5|c|sig]; [|by eexists..].
  destruct (load_hook_lib _ m5) as [[h m6]|c|sig] eqn:E6; cbn [andthen]; eexists; split; try done.
  - by eapply load_hook_lib_exit.
  - by apply load_hook_lib_not_killed in E6.
Qed.

(** ** A system call of libc, from start-up to return *)

Section Call.
Context {K : Kernel} {R : Routines} (e : cenv).

(** A thread of the started process at a patched site: what does not follow from
    the start-up.  [asm_syscall_hook] is where it was linked and calls the
    installed hook; it reads the variable [relocated_global_pointer] of the
    constructor; the stack has room for the frame; frame, code and variable are
    apart and survive the call. *)
Record thread_ok (p' : process) (s : machine) : Prop := {
  th_mem : mem s = p_mem p';
  th_gp : xr s gp = p_gp p';
  th_even : pc s mod 2 = 0 /\ p_gp p' mod 2 = 0 /\ asm_syscall_hook mod 2 = 0;
  th_routine : routine_at asm_syscall_hook = Some (asm_routine e);
  th_hook : ce_hook_fn e = p_hook_fn p';
  th_code : in_memory (pc s) (pc s + 4) /\
            in_memory (p_gp p' - RET_SEQUENCE_SIZE) (p_gp p' + TRAMPOLINE_SIZE);
  th_stack : FRAME_SIZE <= xr s sp < 2 ^ 63 /\ stack_rw (mem s) (frame_of s) (xr s sp);
  th_apart : xr s sp <= p_gp p' - RET_SEQUENCE_SIZE \/ p_gp p' + TRAMPOLINE_SIZE <= frame_of s;
  th_link : ce_rgp_var e = relocated_global_pointer_at (p_globals p');
  th_var_apart : ce_rgp_var e + 8 <= frame_of s \/ xr s sp <= ce_rgp_var e;
  th_regs : regs_u64 s;
  th_call_frame : keeps (frame_of s) (xr s sp) (intercept_mem s) (answered_mem e s);
  th_call_var : keeps (ce_rgp_var e) (ce_rgp_var e + 8) (intercept_mem s) (answered_mem e s);
  th_call_code : keeps (p_gp p' - RET_SEQUENCE_SIZE) (p_gp p' + TRAMPOLINE_SIZE)
                   (intercept_mem s) (answered_mem e s)
}.

Lemma started_site_ok p p' m mp s :
  is_u64 asm_syscall_hook -> gp_sane (p_gp p) -> gp_fits (p_gp p mod os_pagesize) os_pagesize ->
  mappings_ok -> loader_keeps_code -> libc_mapped p -> data_loaded p -> init p = Some (Ok p') ->
  prepare_page asm_syscall_hook (init_globals p) (p_mem p) = Ok (p_globals p', m) ->
  mp ∈ mappings m -> libc_exec mp = true -> pc s ∈ libc_sites mp (p_mem p) -> thread_ok p' s ->
  site_ok e asm_syscall_hook (p_gp p') s.
Proof.
  intros Hh S F MO LK LM DL E EP I X Ha T.
  destruct (init_publishes p p' Hh S F MO LM DL E) as (EA & PV & PR0).
  destruct (init_spec p p' Hh S F MO LK LM E) as (EG & _ & _ & CT & CR & _ & m' & EP' & ST).
  rewrite EP in EP'. injection EP' as <-.
  pose proof (prepare_page_ready asm_syscall_hook (init_globals p) _ _ _ Hh S F EP) as PR.
  pose proof (prepare_page_in_region _ (init_globals p) _ _ _ S F EP) as [R1 R2].
  pose proof (spaced_in _ _ _ _ (libc_sites_spaced mp (p_mem p)) Ha) as Hr.
  destruct (MO m) as (F1 & _). pose proof (proj1 (Forall_forall _ _) F1 mp I) as (M1 & M2 & M3 & _).
  pose proof (prepare_page_low _ (init_globals p) _ _ _ S EP) as LO.
  destruct T as [TM TG (TE1 & TE2 & TE3) TR TH TC TS TA TV TVA TRG TK1 TK2 TK3].
  rewrite <- TM, <- EG in *. rewrite EA in TV.
  split; [constructor; try done|done].
  - by apply (ST mp).
  - split_and!; [lia..|done].
  - split_and!; [unfold RET_SEQUENCE_SIZE in *; lia | rewrite EG; apply (pr_high _ _ _ _ PR) | done].
  - unfold rgp_var_ok. rewrite TV. split_and!; [apply DL..|done|]. intros x Hx. by apply PR0.
Qed.

(** C5: In a started process with no hook, a system call of libc other than
    rt_sigreturn, clone and clone3, made with 304 bytes of stack, behaves as before
    the patching: the kernel gets one system call with the caller's number and
    arguments, only a0 is changed and control is after the site.  The variable
    through which the assembly finds the relocated global pointer has been written
    by the constructor. *)
Theorem libc_syscall_transparent p p' m mp s :
  is_u64 asm_syscall_hook -> gp_sane (p_gp p) -> gp_fits (p_gp p mod os_pagesize) os_pagesize ->
  mappings_ok -> loader_keeps_code -> libc_mapped p -> data_loaded p -> init p = Some (Ok p') ->
  prepare_page asm_syscall_hook (init_globals p) (p_mem p) = Ok (p_globals p', m) ->
  mp ∈ mappings m -> libc_exec mp = true -> pc s ∈ libc_sites mp (p_mem p) -> thread_ok p' s ->
  p_hook_fn p' = None -> xr s a7 ∉ [139; 220; 435] ->
  let mk := ce_scratch e (frame_of s) (intercept_mem s) in
  let r := k_syscall (xr s a7) (site_args s) mk in
  keeps (frame_of s) (xr s sp) mk r.2 -> keeps (p_gp p' - RET_SEQUENCE_SIZE) (p_gp p') mk r.2 ->
  mread 4 (p_mem p) (pc s) = ECALL /\
  exists s' ev, run 28 s = Next s' /\ same_context s s' /\ xr s' a0 = u64 r.1 /\ mem s' = r.2 /\
    trace s' = trace s ++ [ev] /\ ev_nr ev = xr s a7 /\ ev_args ev = site_args s.
Proof.
  intros Hh S F MO LK LM DL E EP I X Ha T HN N mk r KF KC.
  pose proof (started_site_ok p p' m mp s Hh S F MO LK LM DL E EP I X Ha T) as SO.
  split; [by eapply ecall_sites_sound|].
  pose proof (answer_none e s ltac:(by rewrite (th_hook _ _ T))) as A.
  pose proof (run_forwarded e asm_syscall_hook (p_gp p') s SO N) as FW.
  unfold answered_mem in FW. rewrite A in FW. by apply FW.
Qed.
End Call.
End Properties.

(** ** A concrete process

    One page of libc with an ecall at 0x1004, the variable
    [relocated_global_pointer] at 0x400000, still 0, no hook library. *)
Section Witnesses.
#[local] Existing Instance linear_os.
#[local] Existing Instance linear_os_laws.
#[local] Existing Instance length_decoder.
#[local] Existing Instance length_decoder_laws.
#[local] Existing Instance ex_kernel.
#[local] Instance no_hook_lib : HookLib := {|
  getenv_LIBVPHOOK := None;
  dlopen := fun _ m => (None, m);
  dlsym_hook_init := fun _ => None
|}.

Definition st_mappings (m : memory) : list mapping := [ex_mapping 0x1000 0x2000 true].

Definition st_globals (var : Z) : globals :=
  {| virtual_global_pointer := 0; relocated_global_pointer_at := var; page_size := 0; rsi := rsi0 |}.

Definition st_process : process := {|
  p_globals := st_globals 0x400000;
  p_mem := put_words 0x1000 [0x00513023; ECALL] (Mem ∅ ex_prot);
  p_gp := 0x12800;
  p_disp := fun _ => SIG_DFL;
  p_hook_fn := None
|}.

Definition st_init : option (res process) :=
  vpoline_init 0x500000 true (maps_of st_mappings) st_process.

Definition st_started : process :=
  match st_init with Some (Ok p) => p | _ => st_process end.

Lemma st_started_ok : st_init = Some (Ok st_started).
Proof.
  assert (match st_init with Some (Ok _) => true | _ => false end = true) as E by (vm_compute; reflexivity).
  unfold st_started. by destruct st_init as [[| |]|].
Qed.

Lemma st_mappings_ok : mappings_ok st_mappings.
Proof.
  intros m. unfold st_mappings. split_and!.
  - apply Forall_cons; split; [apply ex_mapping_ok; lia | apply Forall_nil; exact I].
  - apply Forall_cons; split; [done | apply Forall_nil; exact I].
  - repeat constructor.
Qed.

Lemma st_loader_keeps_code : loader_keeps_code.
Proof. intros h m h' m' E. cbn in E. by injection E as <- <-. Qed.

Lemma st_libc_mapped : libc_mapped st_mappings st_process.
Proof.
  intros m mp x I _ N. unfold st_mappings in I. apply elem_of_cons in I as [->|I]; [|by apply not_elem_of_nil in I].
  unfold inside in N. cbn in N. change (m_prot (p_mem st_process) x) with (ex_prot x).
  unfold in_rgp_var. change (relocated_global_pointer_at (p_globals st_process)) with 0x400000.
  split; [unfold ex_prot; case_bools; lia || done | lia].
Qed.

Lemma st_data_loaded : data_loaded st_process.
Proof.
  constructor; unfold in_rgp_var; change (relocated_global_pointer_at (p_globals st_process)) with 0x400000.
  - lia.
  - apply (proj1 (range_prot_spec PROT_READ 8 (p_mem st_process) 0x400000)). vm_compute. reflexivity.
  - apply (proj1 (range_prot_spec PROT_WRITE 8 (p_mem st_process) 0x400000)). vm_compute. reflexivity.
  - intros h m h' m' E. cbn in E. by injection E as <- <-.
Qed.

Lemma init_establishes_interception_witness :
  p_gp st_started = 2 ^ 32 + 0x800 /\ code_at (p_mem st_started) 0x1004 [JALR_GP] /\
  mread 8 (p_mem st_process) 0x400000 = 0 /\ mread 8 (p_mem st_started) 0x400000 = 2 ^ 32 + 0x800.
Proof.
  destruct (init_establishes_interception 0x500000 true st_mappings st_process st_started)
    as (G & _ & _ & _ & _ & _ & V & m & _ & ST).
  - auto with vp.
  - unfold gp_sane. cbn. lia.
  - split; vm_compute; discriminate.
  - exact st_mappings_ok.
  - exact st_loader_keeps_code.
  - exact st_libc_mapped.
  - exact st_started_ok.
  - split_and!; [rewrite G; vm_compute; reflexivity| |vm_compute; reflexivity|].
    + apply (ST (ex_mapping 0x1000 0x2000 true)).
      * by left.
      * vm_compute. reflexivity.
      * apply (bool_decide_unpack _). vm_compute. exact I.
    + refine (eq_trans (V st_data_loaded) _). vm_compute. reflexivity.
Defined.

(** The same process, its global pointer in mapped memory, with
    [addi a1, gp, 16] in the code of the program. *)
Definition st_process_addi : process := {|
  p_globals := st_globals 0x400000;
  p_mem := put_words 0x1800 [0x01018593] (p_mem st_process);
  p_gp := 0x300800;
  p_disp := fun _ => SIG_DFL;
  p_hook_fn := None
|}.

Definition st_started_addi : process :=
  match vpoline_init 0x500000 true (maps_of st_mappings) st_process_addi with
  | Some (Ok p) => p | _ => st_process_addi end.

Lemma st_started_addi_ok :
  vpoline_init 0x500000 true (maps_of st_mappings) st_process_addi = Some (Ok st_started_addi).
Proof.
  assert (match vpoline_init 0x500000 true (maps_of st_mappings) st_process_addi with
          | Some (Ok _) => true | _ => false end = true) as E by (vm_compute; reflexivity).
  unfold st_started_addi. by destruct (vpoline_init _ _ _ _) as [[| |]|].
Qed.

Definition st_addi : machine :=
  Mach 0x1800 (fun r => if r =? gp then 2 ^ 32 + 0x800 else 0) (fun _ => 0) (p_mem st_started_addi) [].

Lemma gp_derived_pointer_unreadable_witness :
  exists s', @step _ (ex_routines None) st_addi = Next s' /\
    xr s' a1 <> 0x300810 /\ mload 8 (mem s') (xr s' a1) = None.
Proof.
  destruct (gp_derived_pointer_unreadable 0x500000 true st_mappings (H1 := ex_routines None)
    st_process_addi st_started_addi st_addi a1 16 4) as (s' & E & NE & _ & _ & L).
  - auto with vp.
  - unfold gp_sane. cbn. lia.
  - split; vm_compute; discriminate.
  - exact st_mappings_ok.
  - exact st_loader_keeps_code.
  - exact st_libc_mapped.
  - exact st_started_addi_ok.
  - vm_compute. discriminate.
  - reflexivity.
  - vm_compute. reflexivity.
  - vm_compute. discriminate.
  - reflexivity.
  - vm_compute. reflexivity.
  - vm_compute. split; [discriminate | reflexivity].
  - exists s'. split_and!; [exact E | exact NE | apply (L 7%nat)].
Defined.

Lemma init_terminates_witness : exists r, st_init = Some r.
Proof.
  destruct (init_terminates 0x500000 true st_mappings st_process) as (r & E & _).
  - unfold gp_sane. cbn. lia.
  - exact st_mappings_ok.
  - exists r. exact E.
Defined.

(** A write (64) at 0x1004. *)
Definition st_machine : machine :=
  Mach 0x1004
    (fun r => if r =? sp then 0x310000 else if r =? gp then 2 ^ 32 + 0x800 else if r =? a7 then 64
              else if (0 <=? r) && (r <? 32) then 1000 + r else 0)
    (fun _ => 7) (p_mem st_started) [].

Lemma st_prot flag n a : range_prot flag n (p_mem st_started) a = true ->
  forall x, a <= x < a + Z.of_nat n -> has_prot flag (p_mem st_started) x = true.
Proof. apply range_prot_spec. Qed.

Lemma st_thread_ok : thread_ok 0x500000 (R := ex_routines None) (ex_env None) st_started st_machine.
Proof.
  assert (p_gp st_started = 2 ^ 32 + 0x800) as G by (vm_compute; reflexivity).
  constructor; rewrite ?G.
  - exact (eq_refl (p_mem st_started)).
  - exact (eq_refl (2 ^ 32 + 0x800)).
  - split_and!; vm_compute; reflexivity.
  - exact (eq_refl (Some (asm_routine (ex_env None)))).
  - vm_compute. reflexivity.
  - split; intros x Hx; unfold routine_at, ex_routines; cbn in Hx;
      unfold RET_SEQUENCE_SIZE, TRAMPOLINE_SIZE in Hx; case_bools; lia || done.
  - change (xr st_machine sp) with 0x310000. unfold FRAME_SIZE. split; [lia|].
    change (frame_of st_machine) with 0x30fed0. change (mem st_machine) with (p_mem st_started).
    intros x Hx. split; revert x Hx; apply (st_prot _ 304); vm_compute; reflexivity.
  - left. change (xr st_machine sp) with 0x310000. unfold RET_SEQUENCE_SIZE. lia.
  - vm_compute. reflexivity.
  - right. change (xr st_machine sp) with 0x310000. change (ce_rgp_var (ex_env None)) with 0x400000. lia.
  - intros r. split; cbn [st_machine xr fr]; unfold is_u64; case_bools; lia.
  - rewrite ex_answered. apply ex_keeps.
  - rewrite ex_answered. apply ex_keeps.
  - rewrite ex_answered. apply ex_keeps.
Qed.

Lemma libc_syscall_transparent_witness :
  exists s' ev, @run _ (ex_routines None) 28 st_machine = Next s' /\ pc s' = 0x1008 /\
    xr s' a0 = 42 /\ trace s' = [ev] /\ ev_nr ev = 64.
Proof.
  destruct (init_inv 0x500000 true st_mappings st_process st_started st_started_ok) as (m & _ & EP & _).
  destruct (libc_syscall_transparent 0x500000 true st_mappings (R := ex_routines None) (ex_env None)
    st_process st_started m (ex_mapping 0x1000 0x2000 true) st_machine)
    as (_ & s' & ev & E & (P & _) & A & _ & T & N & _).
  - auto with vp.
  - unfold gp_sane. cbn. lia.
  - split; vm_compute; discriminate.
  - exact st_mappings_ok.
  - exact st_loader_keeps_code.
  - exact st_libc_mapped.
  - exact st_data_loaded.
  - exact st_started_ok.
  - exact EP.
  - by left.
  - vm_compute. reflexivity.
  - apply (bool_decide_unpack _). vm_compute. exact I.
  - exact st_thread_ok.
  - vm_compute. reflexivity.
  - apply (bool_decide_unpack _). vm_compute. exact I.
  - apply ex_keeps.
  - apply ex_keeps.
  - exists s', ev. split_and!; [exact E | exact P | exact A | exact T | exact N].
Defined.
End Witnesses.
