(* ===== verification/Nested.v ===== *)
(** * Hooks that call libc, in a process started by vpoline

    [Reentrant] asks for a process that is set up ([sandbox_ok]); here the
    constructor of [Init] provides it.  [surroundings] is what does not follow from
    the start-up: where the linker put things, the stack, and what kernel and
    compiled code leave alone. *)

From stdpp Require Import base gmap list.
From Stdlib Require Import ZArith Lia Bool.
From S2P Require Import Prelude Memory Isa Os RetSeq Patcher AsmHook Intercept Sigsegv Rewriter Maps Init Reentrant.

Section Nested.
Context {OS : Os} {LOS : OsLaws OS} {C : Capstone} {LC : CapstoneLaws C} {H : HookLib} {K : Kernel}.
Variable asm_syscall_hook : Z.
Variable sigaction_ok : bool.
Variable mappings : memory -> list mapping.
Variables (e : cenv) (site : Z -> Z) (used : Z) (junk junkf : Z -> Z).
Variables (lo hi : Z) (protected : Z -> bool) (permitted : Z -> list Z -> Z -> bool).

Local Abbreviation init := (vpoline_init asm_syscall_hook sigaction_ok (maps_of mappings)).

(** [m] is the memory when libc is rewritten; [site nr] is an [ecall] of libc. *)
Record surroundings (p p' : process) (m : memory) : Prop := {
  su_site : forall nr, exists mp, mp ∈ mappings m /\ libc_exec mp = true /\
    site nr ∈ libc_sites mp (p_mem p) /\ site nr mod 2 = 0;
  su_even : asm_syscall_hook mod 2 = 0 /\ p_gp p' mod 2 = 0;
  su_hook_apart : ~ (p_gp p' - RET_SEQUENCE_SIZE <= asm_syscall_hook < p_gp p' + TRAMPOLINE_SIZE) /\
    forall nr, ~ (site nr <= asm_syscall_hook <= site nr + 4);
  su_site_apart : forall nr, ~ (p_gp p' - RET_SEQUENCE_SIZE <= site nr + 4 < p_gp p' + TRAMPOLINE_SIZE);
  su_var : ce_rgp_var e = relocated_global_pointer_at (p_globals p);
  su_code_in : forall x, p_gp p' - RET_SEQUENCE_SIZE <= x < p_gp p' + TRAMPOLINE_SIZE -> protected x = true;
  su_var_in : forall x, ce_rgp_var e <= x < ce_rgp_var e + 8 -> protected x = true;
  su_site_in : forall nr x, site nr <= x < site nr + 4 -> protected x = true;
  su_stack : 0 <= lo /\ lo <= hi < 2 ^ 63 /\ stack_rw (p_mem p') lo hi;
  su_stack_apart : forall x, lo <= x < hi -> protected x = false;
  su_kernel : forall nr args sp0 m, permitted nr args sp0 = true ->
    unaffected lo hi protected sp0 m (k_syscall nr args m).2;
  su_scratch : forall f m, unaffected lo hi protected f m (ce_scratch e f m);
  su_regs : forall r, is_u64 (junk r) /\ is_u64 (junkf r);
  su_used : 0 <= used
}.

Lemma started_sandbox_ok p p' m :
  is_u64 asm_syscall_hook -> gp_sane (p_gp p) -> gp_fits (p_gp p mod os_pagesize) os_pagesize ->
  mappings_ok mappings -> loader_keeps_code -> libc_mapped mappings p -> data_loaded p -> init p = Some (Ok p') ->
  prepare_page asm_syscall_hook (init_globals p) (p_mem p) = Ok (p_globals p', m) -> surroundings p p' m ->
  sandbox_ok e asm_syscall_hook (p_gp p') site used junk junkf lo hi protected permitted (p_mem p').
Proof.
  intros Hh S F MO LK LM DL E EP SU.
  destruct (init_publishes _ _ _ p p' Hh S F MO LM DL E) as (_ & PV & PV0).
  destruct (init_spec _ _ _ p p' Hh S F MO LK LM E) as (EG & _ & _ & CT & CR & _ & m' & EP' & ST).
  rewrite EP in EP'. injection EP' as <-.
  pose proof (prepare_page_ready asm_syscall_hook (init_globals p) _ _ _ Hh S F EP) as PR.
  pose proof (prepare_page_in_region _ (init_globals p) _ _ _ S F EP) as [R1 R2].
  pose proof (prepare_page_low _ (init_globals p) _ _ _ S EP) as LO. rewrite <- EG in *.
  constructor; try apply SU; try done.
  - split; [done | apply SU].
  - split_and!; [unfold RET_SEQUENCE_SIZE in *; lia | rewrite EG; apply (pr_high _ _ _ _ PR) | apply SU].
  - unfold rgp_var_ok. rewrite (su_var _ _ _ SU). split_and!; [apply DL..|done|]. intros x Hx. by apply PV0.
  - intros nr. destruct (su_site _ _ _ SU nr) as (mp & I & X & Ha & _). by apply (ST mp).
  - intros nr. destruct (su_site _ _ _ SU nr) as (mp & I & X & Ha & Ev).
    pose proof (spaced_in _ _ _ _ (libc_sites_spaced mp (p_mem p)) Ha) as Hr.
    destruct (MO m) as (F1 & _). pose proof (proj1 (Forall_forall _ _) F1 mp I) as (M1 & M2 & M3 & _).
    split_and!; [lia..|done].
Qed.

(** C6: In a process that vpoline has started, a hook may call libc: when the
    meaning of the hook says that it returns, the interception of a system call
    other than rt_sigreturn, clone and clone3 comes back after the site with a0 as the answer and all else as it was, the system calls of
    the hook and of the interceptions inside it reach the kernel in order, and
    the bytes vpoline needs and the caller's stack are as before. *)
Theorem started_hook_may_call_libc p p' m hook d s v m' calls :
  is_u64 asm_syscall_hook -> gp_sane (p_gp p) -> gp_fits (p_gp p mod os_pagesize) os_pagesize ->
  mappings_ok mappings -> loader_keeps_code -> libc_mapped mappings p -> data_loaded p -> init p = Some (Ok p') ->
  prepare_page asm_syscall_hook (init_globals p) (p_mem p) = Ok (p_globals p', m) -> surroundings p p' m ->
  at_site (p_gp p') site lo hi protected (p_mem p') s -> xr s a7 ∉ [139; 220; 435] ->
  libc_spec e hook permitted
    (hspec e (p_gp p') hook site used junk junkf lo hi protected permitted d) s = Returns v m' calls ->
  exists s' evs, intercepted e asm_syscall_hook hook
      (hrun e asm_syscall_hook (p_gp p') hook site used junk junkf d) s = Ran s' /\
    same_context s s' /\ xr s' a0 = v /\ mem s' = m' /\ trace s' = trace s ++ evs /\
    map call_of evs = calls /\ unaffected lo hi protected (xr s sp) (mem s) m'.
Proof.
  intros Hh S F MO LK LM DL E EP SU A N L.
  pose proof (started_sandbox_ok p p' m Hh S F MO LK LM DL E EP SU) as SB.
  by apply (reentrant_interception _ _ _ _ _ _ _ _ _ _ _ _ _ SB).
Qed.
End Nested.

(** ** The process of [Init]

    The hook of [Reentrant] answers write with getppid; both are the [ecall] at
    0x1004. *)
Section Example.
#[local] Existing Instance linear_os.
#[local] Existing Instance linear_os_laws.
#[local] Existing Instance length_decoder.
#[local] Existing Instance length_decoder_laws.
#[local] Existing Instance ex_kernel.
#[local] Existing Instance no_hook_lib.

Definition nx_protected (x : Z) : bool :=
  ((0x1004 <=? x) && (x <? 0x1008)) || ((2 ^ 32 <=? x) && (x <? 2 ^ 32 + 0x1000))
  || ((0x400000 <=? x) && (x <? 0x400008)).

Lemma nx_surroundings m : surroundings 0x500000 st_mappings (ex_env None) (fun _ => 0x1004) 0x100 rx_junk rx_junk
  0x30f000 0x310000 nx_protected (fun _ _ _ => true) st_process st_started m.
Proof.
  assert (p_gp st_started = 2 ^ 32 + 0x800) as G by (vm_compute; reflexivity).
  constructor; rewrite ?G; unfold RET_SEQUENCE_SIZE, TRAMPOLINE_SIZE;
    change (ce_rgp_var (ex_env None)) with 0x400000.
  - intros _. exists (ex_mapping 0x1000 0x2000 true). split_and!; [by left | vm_compute; reflexivity | | reflexivity].
    apply (bool_decide_unpack _). vm_compute. exact I.
  - split; vm_compute; reflexivity.
  - split; [lia | intros _; lia].
  - intros _. lia.
  - exact (eq_refl 0x400000).
  - intros x Hx. unfold nx_protected. case_bools; lia || done.
  - intros x Hx. unfold nx_protected. case_bools; lia || done.
  - intros _ x Hx. unfold nx_protected. case_bools; lia || done.
  - split_and!; [lia..|]. intros x Hx.
    split; revert x Hx; apply (st_prot _ 4096); vm_compute; reflexivity.
  - intros x Hx. unfold nx_protected. case_bools; lia || done.
  - by constructor.
  - by constructor.
  - intros r. split; apply rx_junk_u64.
  - lia.
Qed.

Lemma nx_at_site : at_site (p_gp st_started) (fun _ => 0x1004) 0x30f000 0x310000 nx_protected (p_mem st_started)
  st_machine.
Proof.
  constructor.
  - exists 0. reflexivity.
  - vm_compute. reflexivity.
  - apply (th_regs _ _ _ _ st_thread_ok).
  - change (xr st_machine sp) with 0x310000. unfold FRAME_SIZE. lia.
  - change (mem st_machine) with (p_mem st_started). generalize (p_mem st_started). intros m. by constructor.
Qed.

Lemma started_hook_may_call_libc_witness :
  exists s' ev, intercepted (ex_env None) 0x500000 rx_hook (hrun (ex_env None) 0x500000 (p_gp st_started) rx_hook
      (fun _ => 0x1004) 0x100 rx_junk rx_junk 1) st_machine = Ran s' /\
    pc s' = 0x1008 /\ xr s' a0 = 43 /\ trace s' = [ev] /\ ev_nr ev = 173.
Proof.
  destruct (init_inv 0x500000 true st_mappings st_process st_started st_started_ok) as (m & _ & EP & _).
  assert (rx_result (libc_spec (ex_env None) rx_hook (fun _ _ _ => true)
    (hspec (ex_env None) (p_gp st_started) rx_hook (fun _ => 0x1004) 0x100 rx_junk rx_junk 0x30f000 0x310000
       nx_protected (fun _ _ _ => true) 1) st_machine) = Some (43, [(173, [0; 0; 0; 0; 0; 0])])) as R
    by (vm_compute; reflexivity).
  destruct (libc_spec _ _ _ _ _) as [v m' calls| |] eqn:E in R; try discriminate R.
  injection R as -> ->.
  destruct (started_hook_may_call_libc 0x500000 true st_mappings (ex_env None) (fun _ => 0x1004) 0x100 rx_junk rx_junk
    0x30f000 0x310000 nx_protected (fun _ _ _ => true) st_process st_started m rx_hook 1 st_machine 43 m'
    [(173, [0; 0; 0; 0; 0; 0])]) as (s' & evs & X & (P & _) & A & _ & T & CL & _).
  - auto with vp.
  - unfold gp_sane. cbn. lia.
  - split; vm_compute; discriminate.
  - exact st_mappings_ok.
  - exact st_loader_keeps_code.
  - exact st_libc_mapped.
  - exact st_data_loaded.
  - exact st_started_ok.
  - exact EP.
  - exact (nx_surroundings m).
  - exact nx_at_site.
  - apply (bool_decide_unpack _). vm_compute. exact I.
  - exact E.
  - destruct evs as [|ev [|]]; try discriminate CL. injection CL as CL _.
    exists s', ev. split; [exact X|]. split; [exact P|]. split; [exact A|]. split; [exact T | exact CL].
Defined.
End Example.
