(* ===== verification/System.v ===== *)
(** * From the constructor to the end of the run

    What [__vpoline_init] (main.c) leaves behind is what the simulation of
    [Simulation] starts from: the hidden bytes are the shadow region, the ecalls
    the sweep of libc has replaced and the variable [relocated_global_pointer].
    The theorems speak of the program from its first instruction under vpoline on: it runs as in a
    process in which libc was never patched and the hook answers libc's system
    calls. *)

From stdpp Require Import base gmap list relations strings.
From Stdlib Require Import ZArith Lia Bool.
From S2P Require Import Prelude Memory Isa Os RetSeq Patcher AsmHook Intercept Sigsegv.
From S2P Require Import Process Rewriter Simulation Maps Init.

Section System.
Context {OS : Os} {LOS : OsLaws OS} {C : Capstone} {LC : CapstoneLaws C} {H : HookLib}.
Context {K : Kernel} {R : Routines} (e : cenv).
Variable asm_syscall_hook : Z.
Variable sigaction_ok : bool.
Variable mappings : memory -> list mapping.

(** The process before and after the constructor, and the memory when
    /proc/self/maps is read. *)
Variables (p p' : process) (m : memory).

Abbreviation g := (p_globals p').

(** An ecall the sweep of libc meets, and the bytes the program must not look at. *)
Definition swept_site (a : Z) : Prop :=
  exists mp, mp ∈ mappings m /\ libc_exec mp = true /\ a ∈ libc_sites mp (p_mem p).
Definition vp_site (a : Z) : Prop := swept_site a /\ a mod 2 = 0.
Definition vp_hidden (x : Z) : Prop :=
  in_region g x \/ (exists a, swept_site a /\ a <= x < a + 4) \/
  ce_rgp_var e <= x < ce_rgp_var e + 8.

(** Bytes where nothing is mapped have no value. *)
Definition no_byte (m : memory) : Z -> Prop := fun x => m_prot m x = None.

(** Loading the hook library has the same effect whether libc is patched or not. *)
Definition loader_blind : Prop := forall h m1 mc h1 m1' h2 mc',
  msim vp_hidden (no_byte m1) mc m1 ->
  load_hook_lib h m1 = Ok (h1, m1') -> load_hook_lib h mc = Ok (h2, mc') ->
  msim vp_hidden (no_byte m1') mc' m1'.

(** The start-up: the global pointer leaves room for the code around the
    relocated one, the constructor succeeds, libc is mapped as
    /proc/self/maps says; [ma] is the memory of the process with the hook
    library, but without vpoline. *)
Record startup_ok (ma : memory) : Prop := {
  su_gp : gp_sane (p_gp p) /\ p_gp p mod 2 = 0 /\ gp_fits (p_gp p mod os_pagesize) os_pagesize;
  su_maps : mappings_ok mappings;
  su_perms : forall mp y, mp ∈ mappings m -> libc_exec mp = true -> inside mp y ->
    m_prot m y = Some (perm_prot (mp_perms mp));
  su_libc : libc_mapped mappings p;
  su_data : data_loaded p;
  su_loader : loader_keeps_code /\ loader_blind;
  su_init : vpoline_init asm_syscall_hook sigaction_ok (maps_of mappings) p = Some (Ok p');
  su_page : prepare_page asm_syscall_hook (init_globals p) (p_mem p) = Ok (g, m);
  su_load : exists h, load_hook_lib (p_hook_fn p) (p_mem p) = Ok (h, ma)
}.

(** How libvpoline is linked: [asm_syscall_hook] is in its own text, calls the
    installed hook and reads the variable [relocated_global_pointer] that the
    constructor writes; the compiled hook uses at most [scratch] bytes of stack. *)
Record linked (scratch : Z) : Prop := {
  lk_hk : is_u64 asm_syscall_hook /\ asm_syscall_hook mod 2 = 0;
  lk_routine : routine_at asm_syscall_hook = Some (asm_routine e);
  lk_only : forall a f, routine_at a = Some f -> a = asm_syscall_hook /\ f = asm_routine e;
  lk_text : m_prot (p_mem p) asm_syscall_hook <> None /\
    forall mp, mp ∈ mappings m -> libc_exec mp = true -> ~ inside mp asm_syscall_hook;
  lk_hook : ce_hook_fn e = p_hook_fn p';
  lk_env : env_typed e;
  lk_var : ce_rgp_var e = relocated_global_pointer_at (p_globals p);
  lk_scratch : 0 <= scratch /\ forall f m, agree_off (f - scratch) f (ce_scratch e f m) m /\
    forall x, m_prot (ce_scratch e f m) x = m_prot m x
}.

(** A thread of the program, and the same thread in the started process. *)
Definition same_thread (ma : memory) (s sc : machine) : Prop :=
  pc sc = pc s /\ (forall r, r <> gp -> xr sc r = xr s r) /\ (forall r, fr sc r = fr s r) /\
  trace sc = trace s /\ mem s = ma /\ xr s gp = p_gp p /\
  mem sc = p_mem p' /\ xr sc gp = p_gp p'.

(** ** The memory the constructor leaves *)

Lemma rewritten_sim ma m5 : startup_ok ma -> ce_rgp_var e = relocated_global_pointer_at (p_globals p) ->
  is_u64 asm_syscall_hook ->
  rewrite_code (maps_of mappings m) m = Some (Ok m5) ->
  msim vp_hidden (no_byte (p_mem p)) m5 (p_mem p).
Proof.
  intros SU LV Hh E x Hx. destruct SU as [(S & _ & F) MO PM LM _ _ _ EP _].
  pose proof (prepare_page_ready asm_syscall_hook (init_globals p) _ _ _ Hh S F EP) as PR.
  destruct (filter_libc_ok mappings m MO) as (F1 & F2 & F3 & F4).
  unfold maps_of, rewrite_code in E.
  rewrite rewrite_lines_file in E; [|by apply MO|pose proof (maps_file_length (mappings m)); lia].
  assert (~ in_region g x) as NR by (intros ?; apply Hx; by left).
  assert (~ in_rgp_var p x) as NV by (intros ?; apply Hx; right; right; by rewrite LV).
  destruct (pr_rest _ _ _ _ PR x NR) as [B4 P4].
  assert (relocated_global_pointer_at g = relocated_global_pointer_at (p_globals p)) as EA.
  { destruct (prepare_page_layout _ _ _ _ _ EP) as [m1 EL].
    by pose proof (layout_spec (init_globals p) (p_mem p) g m1 S EL) as (_ & _ & _ & _ & _ & _ & _ & _ & -> & _). }
  rewrite EA, mbyte_mwrite_out in B4 by (exact NV).
  assert (forall mp y, mp ∈ mappings m -> libc_exec mp = true -> inside mp y ->
    mbyte m y = mbyte (p_mem p) y) as U
    by (intros mp y I X Hy; by apply (libc_untouched asm_syscall_hook mappings p g m mp y LM S PR EP I X Hy)).
  destruct (rewrite_mappings_rest _ m m5 x F1 F2 F3) as [P5 B5]; try done.
  - intros mp y [I X]%F4 Hy. by apply PM.
  - intros mp a [I X]%F4 Ha Hr. apply Hx. right. left. exists a. split; [|done].
    exists mp. split_and!; try done. rewrite <- (libc_sites_ext mp m); [done|]. intros y Hy. by apply (U mp).
  - rewrite P5, P4. split; [done|]. unfold no_byte. intros N. rewrite B5 by congruence. done.
Qed.

Lemma started_memory ma : startup_ok ma -> ce_rgp_var e = relocated_global_pointer_at (p_globals p) ->
  is_u64 asm_syscall_hook ->
  msim vp_hidden (no_byte ma) (p_mem p') ma.
Proof.
  intros SU LV Hh. pose proof SU as [_ _ _ _ _ [_ LB] EI EP [h EL]].
  destruct (init_inv asm_syscall_hook sigaction_ok mappings p p' EI) as (m4 & m5 & E4 & E5 & E6 & _).
  rewrite EP in E4. injection E4 as <-.
  eapply LB; [by eapply rewritten_sim | exact EL | exact E6].
Qed.
(** ** What it leaves is what the simulation starts from *)

Lemma in_xom_region : gp_sane (p_gp p) ->
  prepare_page asm_syscall_hook (init_globals p) (p_mem p) = Ok (g, m) ->
  forall x, in_xom g x <-> in_region g x.
Proof.
  intros S EP x. destruct (prepare_page_layout _ _ _ _ _ EP) as [m1 EL].
  destruct (xom_bounds (init_globals p) (p_mem p) g m1 S EL) as (E1 & _).
  unfold in_xom, in_region. rewrite E1. unfold xom_start. lia.
Qed.

Lemma relocated_gp_even : gp_sane (p_gp p) -> p_gp p mod 2 = 0 ->
  prepare_page asm_syscall_hook (init_globals p) (p_mem p) = Ok (g, m) ->
  relocated_gp (rsi g) mod 2 = 0.
Proof.
  intros S E2 EP. destruct (prepare_page_layout _ _ _ _ _ EP) as [m1 EL].
  pose proof (layout_spec (init_globals p) (p_mem p) g m1 S EL) as (_ & _ & A & _ & _ & _ & _ & -> & _).
  destruct (pagesize_pow2) as (k & Hk & EK). change (virtual_global_pointer (init_globals p)) with (p_gp p).
  assert (os_pagesize = 2 * 2 ^ (k - 1)) as EH by (rewrite EK, <- Z.pow_succ_r by lia; f_equal; lia).
  assert (0 < 2 ^ (k - 1)) by (apply Z.pow_pos_nonneg; lia).
  assert (forall z, z mod os_pagesize mod 2 = z mod 2) as MM.
  { intros z. rewrite EH, Z.rem_mul_r, Z.mul_comm, Z.mod_add, Z.mod_mod by lia. done. }
  rewrite Z.add_mod, MM, E2, <- (MM (ret_sequence_page_addr _)), A by lia. done.
Qed.

Lemma started_installed ma scratch : startup_ok ma -> linked scratch ->
  installed e g asm_syscall_hook vp_hidden vp_site scratch (p_mem p').
Proof.
  intros SU LK. pose proof SU as [(S & E2 & F) MO PM LM DL [LKC LB] EI EP EL].
  destruct LK as [[Hh Hh2] HR HO [HT HL] HF HE HV HS].
  destruct (init_spec asm_syscall_hook sigaction_ok mappings p p' Hh S F MO LKC LM EI)
    as (EG & EV & _ & CT & CR & XR & m' & EP' & ST).
  destruct (init_publishes asm_syscall_hook sigaction_ok mappings p p' Hh S F MO LM DL EI) as (EA & PV & PV0).
  rewrite EP in EP'. injection EP' as <-.
  pose proof (prepare_page_ready asm_syscall_hook (init_globals p) _ _ _ Hh S F EP) as PR.
  pose proof (prepare_page_in_region _ (init_globals p) _ _ _ S F EP) as [R1 R2].
  pose proof (prepare_page_low _ (init_globals p) _ _ _ S EP) as LO.
  pose proof (in_xom_region S EP) as XI. destruct (prepare_page_layout _ _ _ _ _ EP) as [m1 ELay].
  assert (~ in_region g asm_syscall_hook) as NR.
  { intros N. apply HT. by apply (prepare_page_fresh _ (init_globals p) _ _ _ _ S EP). }
  assert (forall x, x <> asm_syscall_hook -> routine_at x = None) as RN.
  { intros x Nx. destruct (routine_at x) as [f|] eqn:Ex; [|done]. by destruct (HO x f Ex). }
  assert (forall x, relocated_gp (rsi g) - RET_SEQUENCE_SIZE <= x < relocated_gp (rsi g) + TRAMPOLINE_SIZE ->
    in_region g x) as CI by (intros x Hx; unfold in_region; lia).
  constructor; try done.
  - split_and!; [unfold RET_SEQUENCE_SIZE in *; lia | apply (pr_high _ _ _ _ PR) | by apply relocated_gp_even].
  - intros x Hx. apply RN. intros ->. by apply NR, CI.
  - intros x Hx. left. by apply CI.
  - intros a f Ea. by apply (HO a f).
  - unfold rgp_var_ok. rewrite HV. split_and!; [apply DL..|done|]. intros x Hx. by apply PV0.
  - intros x Hx. right. by right.
  - intros a [(mp & I & X & Ha) Ev]. destruct (MO m) as (F1 & _).
    pose proof (proj1 (Forall_forall _ _) F1 mp I) as (M1 & M2 & M3 & _).
    pose proof (spaced_in _ _ _ _ (libc_sites_spaced mp (p_mem p)) Ha) as Hr.
    split_and!; try done; [by apply (ST mp) | lia | lia | |].
    + intros x Hx. apply RN. intros ->. apply (HL mp I X). unfold inside. lia.
    + intros x Hx. right. left. exists a. split; [|done]. by exists mp.
  - intros x Hx%XI. split; [by left | by apply XR].
  - intros k _. apply (backup_of_gp (init_globals p) (p_mem p) g m1 k S ELay).
    pose proof (layout_spec (init_globals p) (p_mem p) g m1 S ELay) as (_ & _ & _ & _ & _ & _ & -> & _).
    apply F.
Qed.

Lemma started_sim ma scratch s sc : startup_ok ma -> linked scratch -> same_thread ma s sc ->
  sim g vp_hidden (p_mem p') (no_byte ma) s sc.
Proof.
  intros SU LK (T1 & T2 & T3 & T4 & T5 & T6 & T7 & T8). pose proof (lk_hk _ LK) as [Hh _].
  pose proof SU as [(S & _ & F) MO _ LM _ [LKC _] EI _ _].
  destruct (init_spec asm_syscall_hook sigaction_ok mappings p p' Hh S F MO LKC LM EI) as (EG & EV & _).
  constructor; rewrite ?T5, ?T7; try done.
  - intros r N _. by apply T2.
  - split; congruence.
  - apply started_memory; [done | apply (lk_var _ LK) | done].
  - rewrite T4. reflexivity.
Qed.
(** ** Properties *)

Abbreviation flags := (Z.lor SA_SIGINFO SA_NODEFER).
Abbreviation vp_pstep := (pstep g flags).
Abbreviation vp_astep scratch := (astep e g vp_hidden vp_site scratch (p_mem p')).

(** C1: From the constructor to the end of the run: any execution of the program
    in which libc is not patched and the hook answers libc's system calls, as long
    as it keeps to the rules of [astep], is an execution of the started process,
    with the handler that the constructor installed: it gets as far, with the same
    registers but for gp, the same memory where the program may look and the same
    system calls.  The rules: gp is used only as the base of loads and stores, and
    these stay in the shadow region; the program looks neither at the bytes
    vpoline uses nor at those an interception leaves below sp; every system call
    has 304 bytes of stack and what the hook needs; rt_sigreturn is not made
    through libc; kernel and hook leave the bytes vpoline uses alone.  That the
    assembly finds the relocated global pointer in its variable is the work of
    the constructor. *)
Theorem started_process_simulates ma scratch n s sc D' s' :
  startup_ok ma -> linked scratch -> same_thread ma s sc -> typed sc ->
  nsteps (vp_astep scratch) n (no_byte ma, s) (D', s') ->
  p_disp p' SIGSEGV = SIG_SEGFAULT_HANDLER flags /\
  exists k sc', (n <= k)%nat /\ nsteps vp_pstep k sc sc' /\ sim g vp_hidden (p_mem p') D' s' sc'.
Proof.
  intros SU LK ST T A. split.
  { destruct SU as [(S & _ & F) MO _ LM _ [LKC _] EI _ _].
    by apply (init_spec asm_syscall_hook sigaction_ok mappings p p' (proj1 (lk_hk _ LK)) S F MO LKC LM EI). }
  destruct (nsteps_sim e g flags asm_syscall_hook vp_hidden vp_site scratch (p_mem p') n
    (no_byte ma) s D' s' sc) as (k & sc' & L & P & S' & _); try done.
  - by eapply started_installed.
  - by eapply started_sim.
  - eauto 6.
Qed.

(** C2: With no hook library, an execution within the rules of [astep] (gp only as
    the base of accesses that stay in the shadow region, no look at the bytes
    vpoline uses, 304 bytes of stack at a system call, no rt_sigreturn through
    libc) is that of the unpatched program on the machine: [n] steps of it, system
    calls included, are reproduced by the started process, which ends with the
    same registers but for gp and has made the same system calls. *)
Theorem unhooked_process_transparent ma scratch n s sc D' s' :
  startup_ok ma -> linked scratch -> same_thread ma s sc -> typed sc -> p_hook_fn p' = None ->
  nsteps (vp_astep scratch) n (no_byte ma, s) (D', s') ->
  run n s = Next s' /\
  exists sc', rtc vp_pstep sc sc' /\ pc sc' = pc s' /\
    (forall r, r <> gp -> r <> 0 -> xr sc' r = xr s' r) /\ (forall r, fr sc' r = fr s' r) /\
    Forall2 ev_eq (trace sc') (trace s').
Proof.
  intros SU LK ST T HN A. pose proof (started_installed ma scratch SU LK) as I. split.
  - revert A. generalize (no_byte ma). clear ST. revert s. induction n as [|n IH]; intros s D A.
    + by inversion A.
    + inversion A as [|? ? [D1 s1] ? A1 A2]; subst. cbn [run].
      rewrite (astep_step e g asm_syscall_hook vp_hidden vp_site scratch (p_mem p') D s D1 s1 I) by
        (done || by rewrite (lk_hook _ LK)). by eapply IH.
  - destruct (nsteps_sim e g flags asm_syscall_hook vp_hidden vp_site scratch (p_mem p') n
      (no_byte ma) s D' s' sc) as (k & sc' & _ & P & [] & _); try done.
    { by eapply started_sim. }
    exists sc'. split_and!; try done. by eapply rtc_nsteps_2.
Qed.
End System.

(** ** A concrete process

    One page of libc with [ld a0, 16(gp); ecall; sd t0, 0(sp)], its data at
    0x400000 with the global pointer in the middle and 77 in the word that is
    read, a stack, the text of libvpoline at 0x500000 and its data at 0x600000, all 0;
    no hook library; the kernel answers 42. *)
Section Witnesses.
#[local] Existing Instance linear_os.
#[local] Existing Instance linear_os_laws.
#[local] Existing Instance length_decoder.
#[local] Existing Instance length_decoder_laws.
#[local] Existing Instance ex_kernel.
#[local] Existing Instance no_hook_lib.

Definition sy_prot (x : Z) : option Z :=
  if (0x1000 <=? x) && (x <? 0x2000) then Some 5
  else if (0x300000 <=? x) && (x <? 0x310000) then Some 3
  else if (0x400000 <=? x) && (x <? 0x401000) then Some 3
  else if (0x500000 <=? x) && (x <? 0x501000) then Some 5
  else if (0x600000 <=? x) && (x <? 0x601000) then Some 3
  else None.

Definition sy_mem : memory :=
  mwrite 8 (put_words 0x1000 [0x0101b503; ECALL; 0x00513023] (Mem ∅ sy_prot)) 0x400810 77.

Definition sy_process : process := {|
  p_globals := st_globals 0x600000; p_mem := sy_mem; p_gp := 0x400800; p_disp := fun _ => SIG_DFL; p_hook_fn := None
|}.

Definition sy_init : option (res process) :=
  vpoline_init 0x500000 true (maps_of st_mappings) sy_process.
Definition sy_started : process := match sy_init with Some (Ok p) => p | _ => sy_process end.

Lemma sy_started_ok : sy_init = Some (Ok sy_started).
Proof.
  assert (match sy_init with Some (Ok _) => true | _ => false end = true) as E by (vm_compute; reflexivity).
  unfold sy_started. by destruct sy_init as [[| |]|].
Qed.

(** The memory when libc is rewritten. *)
Definition sy_page : res (globals * memory) := prepare_page 0x500000 (init_globals sy_process) sy_mem.
Definition sy_m : memory := match sy_page with Ok (_, m) => m | _ => sy_mem end.

Lemma sy_page_ok : sy_page = Ok (p_globals sy_started, sy_m).
Proof.
  destruct (init_inv 0x500000 true st_mappings sy_process sy_started sy_started_ok) as (m4 & _ & E & _).
  unfold sy_m. change (sy_page = Ok (p_globals sy_started, m4)) in E. by rewrite E.
Qed.

(** The environment of [Intercept] with no hook, its variable at 0x600000. *)
Definition sy_env : cenv := {|
  ce_hook_fn := None; ce_result0 := 99; ce_rgp_var := 0x600000;
  ce_clob_x := fun _ _ => 0xdead; ce_clob_f := fun _ _ => 0xbeef; ce_scratch := fun _ m => m |}.

#[local] Instance sy_routines : Routines :=
  fun a => if a =? 0x500000 then Some (asm_routine sy_env) else None.

Abbreviation sy_hidden := (vp_hidden sy_env st_mappings sy_process sy_started sy_m).
Abbreviation sy_site := (vp_site st_mappings sy_process sy_m).

Lemma sy_swept a : swept_site st_mappings sy_process sy_m a <-> a = 0x1004.
Proof.
  assert (libc_sites (ex_mapping 0x1000 0x2000 true) sy_mem = [0x1004]) as E by (vm_compute; reflexivity).
  split.
  - intros (mp & I & _ & Ha). apply list_elem_of_singleton in I as ->.
    change (p_mem sy_process) with sy_mem in Ha. rewrite E in Ha.
    apply list_elem_of_singleton in Ha. exact Ha.
  - intros ->. exists (ex_mapping 0x1000 0x2000 true). split_and!; [left | vm_compute; reflexivity|].
    change (p_mem sy_process) with sy_mem. rewrite E. left.
Qed.

Lemma sy_region x : in_region (p_globals sy_started) x <-> 2 ^ 32 <= x < 2 ^ 32 + 0x1000.
Proof.
  unfold in_region.
  assert (ret_sequence_page_addr (rsi (p_globals sy_started)) = 2 ^ 32) as -> by (vm_compute; reflexivity).
  assert (protection_size (rsi (p_globals sy_started)) = 0x1000) as -> by (vm_compute; reflexivity).
  done.
Qed.

Lemma sy_hidden_iff x : sy_hidden x <->
  2 ^ 32 <= x < 2 ^ 32 + 0x1000 \/ 0x1004 <= x < 0x1008 \/ 0x600000 <= x < 0x600008.
Proof.
  unfold vp_hidden. rewrite sy_region. split; (intros [Hx|[Hx|Hx]]; [by left | right; left | right; by right]).
  - destruct Hx as (a & ->%sy_swept & Hx). lia.
  - exists 0x1004. by rewrite sy_swept.
Qed.

Lemma sy_libc_prot x : 0x1000 <= x < 0x2000 -> m_prot sy_m x = Some 5.
Proof.
  intros Hx.
  pose proof (prepare_page_ready 0x500000 (init_globals sy_process) sy_mem (p_globals sy_started) sy_m
    ltac:(auto with vp) ltac:(unfold gp_sane; cbn; lia) ltac:(split; vm_compute; discriminate) sy_page_ok) as PR.
  destruct (pr_rest _ _ _ _ PR x) as [_ ->].
  - change (~ in_region (p_globals sy_started) x). rewrite sy_region. lia.
  - change (m_prot sy_mem x) with (sy_prot x). unfold sy_prot. case_bools; lia || done.
Qed.

Lemma sy_data_loaded : data_loaded sy_process.
Proof.
  constructor; unfold in_rgp_var; change (relocated_global_pointer_at (p_globals sy_process)) with 0x600000.
  - lia.
  - apply (proj1 (range_prot_spec PROT_READ 8 sy_mem 0x600000)). vm_compute. reflexivity.
  - apply (proj1 (range_prot_spec PROT_WRITE 8 sy_mem 0x600000)). vm_compute. reflexivity.
  - intros h m h' m' E. cbn in E. by injection E as <- <-.
Qed.

Lemma sy_startup :
  startup_ok sy_env 0x500000 true st_mappings sy_process sy_started sy_m sy_mem.
Proof.
  constructor.
  - split_and!; [unfold gp_sane; cbn; lia | reflexivity | split; vm_compute; discriminate].
  - exact st_mappings_ok.
  - intros mp y I _ N. apply list_elem_of_singleton in I as ->.
    rewrite sy_libc_prot by exact N. vm_compute. reflexivity.
  - intros m mp x I _ N. apply list_elem_of_singleton in I as ->. unfold inside in N. cbn in N.
    change (m_prot (p_mem sy_process) x) with (sy_prot x).
    unfold in_rgp_var. change (relocated_global_pointer_at (p_globals sy_process)) with 0x600000.
    split; [unfold sy_prot; case_bools; lia || done | lia].
  - exact sy_data_loaded.
  - split; [exact st_loader_keeps_code|]. intros h m1 mc h1 m1' h2 mc' M E1 E2. cbn in E1, E2.
    injection E1 as <- <-. injection E2 as <- <-. exact M.
  - exact sy_started_ok.
  - exact sy_page_ok.
  - exists None. reflexivity.
Qed.

Lemma sy_gp : p_gp sy_started = 2 ^ 32 + 0x800.
Proof. vm_compute. reflexivity. Qed.

Lemma sy_linked : linked sy_env 0x500000 st_mappings sy_process sy_started sy_m 0.
Proof.
  constructor.
  - split; [auto with vp | reflexivity].
  - exact (eq_refl (Some (asm_routine sy_env))).
  - intros a f. unfold routine_at, sy_routines. case_bools; [|discriminate]. intros E. injection E as <-. auto.
  - split; [vm_compute; discriminate|]. intros mp I _. apply list_elem_of_singleton in I as ->.
    unfold inside. cbn. lia.
  - vm_compute. reflexivity.
  - constructor; try (intros; cbn; u64_lia). intros. discriminate.
  - exact (eq_refl 0x600000).
  - split; [lia|]. intros f m. split; [|intros; exact eq_refl]. intros x _. exact eq_refl.
Qed.

(** The thread that makes a write (64), without vpoline and with it. *)
Definition sy_x (gpv r : Z) : Z :=
  if r =? sp then 0x30ff00 else if r =? gp then gpv else if r =? a7 then 64
  else if (0 <=? r) && (r <? 32) then 1000 + r else 0.
Definition sy_s : machine := Mach 0x1000 (sy_x 0x400800) (fun _ => 7) sy_mem [].
Definition sy_sc : machine := Mach 0x1000 (sy_x (2 ^ 32 + 0x800)) (fun _ => 7) (p_mem sy_started) [].

Lemma sy_thread : same_thread sy_process sy_started sy_mem sy_s sy_sc.
Proof.
  unfold same_thread. rewrite sy_gp. unfold sy_s, sy_sc. cbn [pc xr fr mem trace].
  split; [exact eq_refl|]. split.
  { intros r N. unfold sy_x. apply Z.eqb_neq in N. by rewrite N. }
  repeat (split; [intros; exact eq_refl|]). exact eq_refl.
Qed.

Lemma sy_typed : typed sy_sc.
Proof. split; [cbn; u64_lia|]. intros r. split; cbn; [|u64_lia]. unfold sy_x, is_u64. case_bools; lia. Qed.

(** Its three steps. *)
Definition sy_s1 : machine := setpc 0x1004 (setx a0 77 sy_s).
Definition sy_s2 : machine := spec_call sy_env sy_s1.
Definition sy_s3 : machine := setpc 0x100c (setmem (mwrite 8 sy_mem 0x30ff00 1005) sy_s2).

Abbreviation sy_astep := (astep sy_env (p_globals sy_started) sy_hidden sy_site 0 (p_mem sy_started)).

Lemma sy_visible D lo hi : (forall x, lo <= x < hi -> ~ D x) ->
  (forall x, lo <= x < hi -> ~ (2 ^ 32 <= x < 2 ^ 32 + 0x1000) /\ ~ (0x1004 <= x < 0x1008) /\
     ~ (0x600000 <= x < 0x600008)) -> visible sy_hidden D lo hi.
Proof. intros ND NH x Hx. split; [rewrite sy_hidden_iff; destruct (NH x Hx); tauto | by apply ND]. Qed.

Lemma sy_mapped x : 0x1000 <= x < 0x2000 \/ 0x300000 <= x < 0x310000 \/ 0x400000 <= x < 0x401000 ->
  ~ no_byte sy_mem x.
Proof.
  intros Hx. unfold no_byte. change (m_prot sy_mem x) with (sy_prot x). unfold sy_prot.
  case_bools; lia || done.
Qed.

Lemma sy_step1 : sy_astep (no_byte sy_mem, sy_s) (no_byte sy_mem, sy_s1).
Proof.
  apply (as_access _ _ _ _ _ _ (no_byte sy_mem) sy_s (ILoad WD true a0 gp 16) 4 sy_s1).
  - split_and!; [reflexivity | vm_compute; reflexivity |].
    apply sy_visible; intros x Hx; cbn in Hx; [apply sy_mapped|]; lia.
  - reflexivity.
  - change (eff_addr _ _) with 0x400810. apply sy_visible; intros x Hx;
      change (access_end _ _) with 0x400818 in Hx; [apply sy_mapped|]; lia.
  - intros _. split; [vm_compute; split; discriminate | vm_compute; reflexivity].
  - rewrite (exec_ld a0 gp 16 4 sy_s 0x400810).
    + assert (mread 8 sy_mem 0x400810 = 77) as E by (vm_compute; reflexivity).
      change (mem sy_s) with sy_mem. rewrite E. reflexivity.
    + reflexivity.
    + apply (proj1 (range_prot_spec PROT_READ 8 sy_mem 0x400810)). vm_compute. reflexivity.
Qed.

Definition sy_D2 : Z -> Prop :=
  dirty (dirty (no_byte sy_mem) 0x30fdd0 0x30ff00) 0x30fdd0 0x30fdd0.

Lemma sy_step2 : sy_astep (no_byte sy_mem, sy_s1) (sy_D2, sy_s2).
Proof.
  apply as_site.
  - split; [by apply sy_swept | reflexivity].
  - change (mem sy_s1) with sy_mem. change (pc sy_s1) with 0x1004. split; [vm_compute; reflexivity|].
    apply (proj1 (range_prot_spec PROT_EXEC 4 sy_mem 0x1004)). vm_compute. reflexivity.
  - discriminate.
  - unfold stack_ok. change (xr sy_s1 sp) with 0x30ff00. change (frame_of sy_s1) with 0x30fdd0.
    change (mem sy_s1) with sy_mem. unfold FRAME_SIZE. split_and!; [lia | lia | |].
    + intros x Hx. split; revert x Hx;
        apply (proj1 (range_prot_spec _ 304 sy_mem 0x30fdd0)); vm_compute; reflexivity.
    + intros x Hx. rewrite sy_hidden_iff. lia.
  - exists (dirty (no_byte sy_mem) 0x30fdd0 0x30ff00). split.
    + apply (blind_id _ _ _ _ _ _ _ _ (None, [])); [by split|]. intros m. exact eq_refl.
    + change (blind sy_hidden (p_mem sy_started) eq sy_D2 sy_D2 0x30fdd0 0x30ff00
        (kernel_spec sy_s1) sy_mem).
      apply (blind_id _ _ _ _ _ _ _ _ 42); [exact eq_refl|]. intros m. exact eq_refl.
Qed.

Definition sy_D3 : Z -> Prop := after_access sy_D2 (IStore WD t0 sp 0) 0x30ff00.

Lemma sy_step3 : sy_astep (sy_D2, sy_s2) (sy_D3, sy_s3).
Proof.
  apply (as_access _ _ _ _ _ _ sy_D2 sy_s2 (IStore WD t0 sp 0) 4 sy_s3).
  - split_and!; [reflexivity | vm_compute; reflexivity |]. change (pc sy_s2) with 0x1008.
    apply sy_visible; intros x Hx; [|lia].
    intros [[N|N]|N]; [|lia|lia]. revert N. apply sy_mapped. lia.
  - reflexivity.
  - change (eff_addr _ _) with 0x30ff00. apply sy_visible; intros x Hx; [intros [] |].
    change (access_end _ _) with 0x30ff08 in Hx. lia.
  - discriminate.
  - rewrite (exec_sd t0 sp 0 4 sy_s2 0x30ff00); [reflexivity | reflexivity |].
    apply (proj1 (range_prot_spec PROT_WRITE 8 sy_mem 0x30ff00)). vm_compute. reflexivity.
Qed.

Lemma sy_run : nsteps sy_astep 3 (no_byte sy_mem, sy_s) (sy_D3, sy_s3).
Proof.
  eapply nsteps_l; [exact sy_step1|]. eapply nsteps_l; [exact sy_step2|].
  eapply nsteps_l; [exact sy_step3|]. apply nsteps_O.
Qed.

Lemma started_process_simulates_witness :
  exists k sc', nsteps (pstep (p_globals sy_started) (Z.lor SA_SIGINFO SA_NODEFER)) k sy_sc sc' /\
    (3 <= k)%nat /\ pc sc' = 0x100c /\ xr sc' a0 = 42 /\ xr sc' gp = 2 ^ 32 + 0x800.
Proof.
  destruct (started_process_simulates sy_env 0x500000 true st_mappings sy_process sy_started sy_m
    sy_mem 0 3 sy_s sy_sc sy_D3 sy_s3 sy_startup sy_linked sy_thread sy_typed sy_run)
    as (_ & k & sc' & L & P & [E1 E2 [E3 _] _ _ _ _]).
  exists k, sc'. split; [exact P|]. split; [exact L|]. rewrite E1, E2, E3 by discriminate.
  split_and!; vm_compute; reflexivity.
Defined.

Lemma unhooked_process_transparent_witness :
  run 3 sy_s = Next sy_s3 /\
  exists sc', rtc (pstep (p_globals sy_started) (Z.lor SA_SIGINFO SA_NODEFER)) sy_sc sc' /\
    exists ev, trace sc' = [ev] /\ ev_nr ev = 64 /\ ev_args ev = [77; 1011; 1012; 1013; 1014; 1015].
Proof.
  destruct (unhooked_process_transparent sy_env 0x500000 true st_mappings sy_process sy_started sy_m
    sy_mem 0 3 sy_s sy_sc sy_D3 sy_s3 sy_startup sy_linked sy_thread sy_typed) as (RN & sc' & P & _ & _ & _ & T).
  - vm_compute. reflexivity.
  - exact sy_run.
  - split; [exact RN|]. exists sc'. split; [exact P|].
    change (trace sy_s3) with [Event 64 [77; 1011; 1012; 1013; 1014; 1015] (xr sy_s1)] in T.
    apply Forall2_cons_inv_r in T as (ev & l & [N A] & T & ->). apply Forall2_nil_inv_r in T as ->.
    exists ev. split_and!; [exact eq_refl | exact N | exact A].
Defined.

(** The properties of [Simulation] at the same process. *)
Abbreviation sy_pstep := (pstep (p_globals sy_started) 4).

Lemma sy_installed :
  installed sy_env (p_globals sy_started) 0x500000 sy_hidden sy_site 0 (p_mem sy_started).
Proof. exact (started_installed sy_env 0x500000 true st_mappings _ _ _ _ _ sy_startup sy_linked). Qed.

Lemma sy_sim : sim (p_globals sy_started) sy_hidden (p_mem sy_started) (no_byte sy_mem) sy_s sy_sc.
Proof.
  exact (started_sim sy_env 0x500000 true st_mappings _ _ _ _ _ _ _ sy_startup sy_linked sy_thread).
Qed.

Lemma patched_process_simulates_witness :
  exists k sc', (3 <= k)%nat /\ nsteps sy_pstep k sy_sc sc' /\ pc sc' = 0x100c.
Proof.
  destruct (patched_process_simulates sy_env (p_globals sy_started) 4 0x500000 sy_hidden sy_site 0
    (p_mem sy_started) 3 (no_byte sy_mem) sy_s sy_D3 sy_s3 sy_sc sy_installed sy_sim sy_typed sy_run)
    as (k & sc' & L & P & [E1 _ _ _ _ _ _]).
  exists k, sc'. split; [exact L|]. split; [exact P | exact E1].
Defined.

Lemma patched_process_reaches_syscall_witness :
  exists sc' ev, rtc sy_pstep sy_sc sc' /\ trace sc' = [ev] /\ ev_nr ev = 64.
Proof.
  destruct (patched_process_reaches_syscall sy_env (p_globals sy_started) 4 0x500000 sy_hidden sy_site 0
    (p_mem sy_started) (no_byte sy_mem) sy_s sy_D3 sy_s3 sy_sc (trace sy_s3) sy_installed sy_sim sy_typed)
    as (sc' & evs' & P & T & F).
  - exact (rtc_nsteps_2 _ _ _ sy_run).
  - exact eq_refl.
  - change (trace sy_s3) with [Event 64 [77; 1011; 1012; 1013; 1014; 1015] (xr sy_s1)] in F.
    apply Forall2_cons_inv_r in F as (ev & l & [N _] & F & ->). apply Forall2_nil_inv_r in F as ->.
    exists sc', ev. split; [exact P|]. split; [exact T | exact N].
Defined.

Lemma patched_process_adds_nothing_witness :
  exists sc2 evs, nsteps sy_pstep 3 sy_sc sc2 /\ evs `prefix_of` trace sy_s3 /\
    Forall2 ev_eq (trace sc2) evs.
Proof.
  destruct (nsteps_sim sy_env (p_globals sy_started) 4 0x500000 sy_hidden sy_site 0
    (p_mem sy_started) 3 (no_byte sy_mem) sy_s sy_D3 sy_s3 sy_sc sy_installed sy_sim sy_typed sy_run)
    as (k & sc' & L & P & _).
  replace k with (3 + (k - 3))%nat in P by lia. apply nsteps_add_inv in P as (sc2 & P & _).
  destruct (patched_process_adds_nothing sy_env (p_globals sy_started) 4 0x500000 sy_hidden sy_site 0
    (p_mem sy_started) 3 3 (no_byte sy_mem) sy_s sy_D3 sy_s3 sy_sc sc2 sy_installed sy_sim sy_typed sy_run P)
    as (evs & Q & F); [lia|].
  exists sc2, evs. split; [exact P|]. split; [exact Q | exact F].
Defined.
End Witnesses.
