(* ===== verification/DebugInit.v ===== *)
(** * The DEBUG build's constructor: the target check of main.c

    With DEBUG defined, [__vpoline_init] goes on only when the running executable
    (/proc/self/exe) has the name of the target: VPOLINE_TARGET, else argv[0],
    else "dummy_exec"; otherwise it returns early, and [__libc_start_main] runs all the
    same.  The environment of the process is a parameter. *)

From stdpp Require Import base gmap list strings.
From Stdlib Require Import ZArith Lia Bool.
From Stdlib.Strings Require Import Ascii String.
From S2P Require Import Prelude Memory Isa Os RetSeq Patcher AsmHook Intercept Sigsegv Rewriter Maps Init.

Definition PATH_MAX : nat := 4096.
Definition nul : ascii := ascii_of_nat 0.
Definition slash : ascii := "/"%char.

(** What the check reads: [readlink] of /proc/self/exe ([None] is [-1]) before it
    is cut to the buffer, [getenv] and the bytes of /proc/self/cmdline ([None]
    when it cannot be opened). *)
Class DebugEnv := {
  readlink_exe : option (list ascii);
  getenv_VPOLINE_TARGET : option string;
  proc_cmdline : option (list ascii)
}.

(** ** The string functions of libc *)

(** The C string at the start of a buffer. *)
Definition cstr (buf : list ascii) : list ascii := (span (fun c => bool_decide (c = nul)) buf).1.

(** [strrchr(s, c)]: the rest of the string from the last [c] on. *)
Fixpoint strrchr (s : list ascii) (c : ascii) : option (list ascii) :=
  match s with
  | [] => None
  | x :: rest =>
    match strrchr rest c with
    | Some t => Some t
    | None => if decide (x = c) then Some s else None
    end
  end.

(** [base ? base + 1 : path] of [base = strrchr(path, '/')]. *)
Definition after_slash (path : list ascii) : list ascii :=
  match strrchr path slash with Some t => tail t | None => path end.

(** ** The check *)

Section Check.
Context {E : DebugEnv}.

(** [expected], [None] while it is NULL. *)
Definition debug_expected : option (list ascii) :=
  match getenv_VPOLINE_TARGET with
  | Some t => Some (chars t)
  | None =>
    match proc_cmdline with
    | None => None
    | Some input =>
      let expected_buf := take (PATH_MAX - 1) input in
      if decide (expected_buf = []) then None else Some (after_slash (cstr expected_buf))
    end
  end.

(** Whether the constructor goes on. *)
Definition debug_target : bool :=
  match readlink_exe with
  | None => false
  | Some link =>
    let path := take (PATH_MAX - 1) link in
    if decide (path = []) then false
    else bool_decide (after_slash (cstr path) = default (chars "dummy_exec") debug_expected)
  end.
End Check.

Section DebugInit.
Context {OS : Os} {C : Capstone} {H : HookLib} {E : DebugEnv}.
Variable asm_syscall_hook : Z.
Variable sigaction_ok : bool.
Variable maps : memory -> option (list ascii).

(** The constructor of the DEBUG build: the early return leaves only the
    saved global pointer behind. *)
Definition vpoline_init_debug (p : process) : option (res process) :=
  if debug_target then vpoline_init asm_syscall_hook sigaction_ok maps p
  else Some (Ok {| p_globals := init_globals p; p_mem := p_mem p; p_gp := p_gp p; p_disp := p_disp p;
                   p_hook_fn := p_hook_fn p |}).
End DebugInit.

(** ** Lemmas on paths *)

Lemma strrchr_none s c : c ∉ s -> strrchr s c = None.
Proof.
  induction s as [|x s IH]; [done|]. rewrite not_elem_of_cons. intros [N1 N2]. cbn.
  rewrite (IH N2). by rewrite decide_False by congruence.
Qed.

Lemma strrchr_app s t c : c ∉ t -> strrchr (s ++ c :: t) c = Some (c :: t).
Proof.
  intros N. induction s as [|x s IH]; cbn.
  - by rewrite (strrchr_none t c N), decide_True.
  - by rewrite IH.
Qed.

Lemma cstr_app s rest : nul ∉ s -> cstr (s ++ nul :: rest) = s.
Proof.
  intros N. unfold cstr. rewrite span_app.
  - cbn. by rewrite app_nil_r.
  - apply Forall_forall. intros c Hc. apply bool_decide_eq_false. by intros ->.
Qed.

(** [path] names the file [name], in some directory or in none. *)
Definition names (path name : list ascii) : Prop :=
  (slash ∉ name) /\ (path = name \/ exists dir, path = dir ++ slash :: name).

Lemma after_slash_names path name : names path name -> after_slash path = name.
Proof.
  intros [N [->|(dir & ->)]]; unfold after_slash.
  - by rewrite strrchr_none.
  - by rewrite strrchr_app.
Qed.

Lemma cstr_nul_free s : nul ∉ s -> cstr s = s.
Proof.
  intros N. unfold cstr. rewrite <- (app_nil_r s) at 1. rewrite span_app.
  - cbn. apply app_nil_r.
  - apply Forall_forall. intros c Hc. apply bool_decide_eq_false. by intros ->.
Qed.

(** The first entry of a command line that is read into the buffer. *)
Lemma cstr_take n s rest : nul ∉ s -> (List.length s <= n)%nat -> cstr (take n (s ++ nul :: rest)) = s.
Proof.
  intros N L. destruct (Nat.eq_dec (List.length s) n) as [<-|].
  - rewrite take_app_length. by apply cstr_nul_free.
  - rewrite take_app_ge by lia. destruct (n - List.length s)%nat as [|k] eqn:K; [lia|].
    cbn [take]. by apply cstr_app.
Qed.

(** ** Properties *)

(** The DEBUG constructor goes on exactly for the target: the file name of
    the executable is VPOLINE_TARGET when that is set, and otherwise the file
    name in argv[0]; directories do not matter. *)
Theorem debug_target_is_file_name `{DebugEnv} exe name :
  readlink_exe = Some exe -> exe <> [] -> nul ∉ exe -> (List.length exe < PATH_MAX)%nat ->
  names exe name ->
  (forall t, getenv_VPOLINE_TARGET = Some t -> debug_target = bool_decide (name = chars t)) /\
  (forall argv0 name0 rest, getenv_VPOLINE_TARGET = None ->
     proc_cmdline = Some (argv0 ++ nul :: rest) -> nul ∉ argv0 ->
     (List.length argv0 < PATH_MAX)%nat -> names argv0 name0 ->
     debug_target = bool_decide (name = name0)).
Proof.
  intros EX NE NN L NM. unfold debug_target, debug_expected. rewrite EX. cbv zeta.
  rewrite take_ge by lia. rewrite decide_False, cstr_nul_free, (after_slash_names _ _ NM) by done. split.
  - by intros t ->.
  - intros argv0 name0 rest -> -> NA LA NM0.
    assert (take (PATH_MAX - 1) (argv0 ++ nul :: rest) <> []) as NT by (by destruct argv0).
    rewrite decide_False by done. cbn [default]. by rewrite cstr_take, (after_slash_names _ _ NM0) by (done || lia).
Qed.

(** C39: When the DEBUG constructor returns early, nothing is patched and no handler is
    installed, but [__libc_start_main] still loads the relocated global pointer,
    which was never computed: the program starts with gp = 0, and its first
    access through gp kills it. *)
Theorem skipped_init_loses_gp `{Os, Capstone, HookLib, DebugEnv, Kernel, Routines}
  asm_syscall_hook sigaction_ok maps p :
  debug_target = false -> rsi (p_globals p) = rsi0 -> p_disp p SIGSEGV = SIG_DFL ->
  exists p1, vpoline_init_debug asm_syscall_hook sigaction_ok maps p = Some (Ok p1) /\
    p_mem p1 = p_mem p /\ p_gp p1 = p_gp p /\ p_hook_fn p1 = p_hook_fn p /\
    p_gp (libc_start_main (fun q => q) p1) = 0 /\
    forall s i imm len, mem s = p_mem p -> xr s gp = p_gp (libc_start_main (fun q => q) p1) ->
      routine_at (pc s) = None -> fetch_decode (mem s) (pc s) = Some (Some (IMem i), len) ->
      base_imm i = (gp, imm) -> m_prot (mem s) (u64 imm) = None ->
      step s = Fault (u64 imm) /\
      deliver (p_globals p1) (p_disp p1 SIGSEGV) s (u64 imm) = Some (Killed SIGSEGV).
Proof.
  intros T Z0 D. unfold vpoline_init_debug. rewrite T. eexists. split; [reflexivity|].
  cbn [libc_start_main init_globals p_globals p_mem p_gp p_disp p_hook_fn rsi]. rewrite Z0, D.
  split_and!; try done. intros s i imm len M G N F B U.
  split; [|done]. unfold step. rewrite N, F. cbn [exec].
  assert (eff_addr i s = u64 imm) as -> by (unfold eff_addr; rewrite B; cbn; by rewrite G).
  apply exec_mem_at_fault. by right.
Qed.

(** ** A concrete process: dummy_exec run by path, and a shell *)
Section Witnesses.
#[local] Existing Instance linear_os.
#[local] Existing Instance length_decoder.
#[local] Existing Instance ex_kernel.
#[local] Existing Instance no_hook_lib.
#[local] Instance db_routines : Routines := fun _ => None.

Definition db_env (exe argv0 : string) : DebugEnv := {|
  readlink_exe := Some (chars exe);
  getenv_VPOLINE_TARGET := None;
  proc_cmdline := Some (chars argv0 ++ [nul; "-"%char; "v"%char; nul])
|}.

Lemma debug_target_is_file_name_witness :
  @debug_target (db_env "/usr/bin/prog" "./prog") = true /\
  @debug_target (db_env "/usr/bin/dash" "/bin/sh") = false.
Proof.
  assert (forall exe dir name argv0 dir0 name0,
    bool_decide (chars exe = chars dir ++ slash :: chars name) &&
    bool_decide (chars argv0 = chars dir0 ++ slash :: chars name0) &&
    negb (bool_decide (slash ∈ chars name)) && negb (bool_decide (slash ∈ chars name0)) &&
    negb (bool_decide (nul ∈ chars exe)) && negb (bool_decide (nul ∈ chars argv0)) &&
    (List.length (chars exe) <? PATH_MAX)%nat && (List.length (chars argv0) <? PATH_MAX)%nat = true ->
    @debug_target (db_env exe argv0) = bool_decide (chars name = chars name0)) as G.
  { intros exe dir name argv0 dir0 name0. rewrite !andb_true_iff, !negb_true_iff, !bool_decide_eq_true,
      !bool_decide_eq_false, !Nat.ltb_lt. intros [[[[[[[E1 E2] N1] N2] N3] N4] L1] L2].
    destruct (@debug_target_is_file_name (db_env exe argv0) (chars exe) (chars name)) as [_ A].
    - reflexivity.
    - rewrite E1. by destruct (chars dir).
    - exact N3.
    - exact L1.
    - split; [exact N1 | right; by exists (chars dir)].
    - apply (A (chars argv0) (chars name0) ["-"%char; "v"%char; nul]); try done.
      split; [exact N2 | right; by exists (chars dir0)]. }
  split.
  - rewrite (G "/usr/bin/prog" "/usr/bin" "prog" "./prog" "." "prog")%string by (vm_compute; reflexivity).
    vm_compute. reflexivity.
  - rewrite (G "/usr/bin/dash" "/usr/bin" "dash" "/bin/sh" "/bin" "sh")%string by (vm_compute; reflexivity).
    vm_compute. reflexivity.
Defined.

(** [ld a0, 16(gp)] in a shell that is not the target. *)
Definition db_process : process := {|
  p_globals := ex_g 0; p_mem := put_words 0x1000 [0x0101b503] (Mem ∅ ex_prot); p_gp := 0x12800;
  p_disp := fun _ => SIG_DFL; p_hook_fn := None
|}.

Lemma skipped_init_loses_gp_witness :
  exists p1, @vpoline_init_debug _ _ _ (db_env "/usr/bin/dash" "/bin/sh") 0x500000 true
    (maps_of st_mappings) db_process = Some (Ok p1) /\
    p_gp p1 = 0x12800 /\ p_gp (libc_start_main (fun q => q) p1) = 0 /\
    deliver (p_globals p1) (p_disp p1 SIGSEGV)
      (Mach 0x1000 (fun _ => 0) (fun _ => 0) (p_mem db_process) []) 16 = Some (Killed SIGSEGV).
Proof.
  destruct (@skipped_init_loses_gp _ _ _ (db_env "/usr/bin/dash" "/bin/sh") _ _ 0x500000 true
    (maps_of st_mappings) db_process) as (p1 & E & _ & G1 & _ & G & KL).
  - vm_compute. reflexivity.
  - reflexivity.
  - reflexivity.
  - exists p1. split; [exact E|]. split; [exact G1|]. split; [exact G|].
    apply (KL (Mach 0x1000 (fun _ => 0) (fun _ => 0) (p_mem db_process) [])
      (ILoad WD true a0 gp 16) 16 4); try reflexivity. rewrite G. reflexivity.
Defined.
End Witnesses.
