(* ===== verification/DebugHandler.v ===== *)
(** * The DEBUG build's SIGSEGV handler

    With DEBUG defined, [segfault_handler] of src/src/sigsegv_handler.c writes the
    address of the fault to the standard error, by [syscall_no_intercept] and from a
    buffer of 80 bytes, traps on a fault outside the execute-only region where the
    release build re-raises the signal, and traps before the [exit(1)] of the
    default arms, all but that of the switch over 16-bit opcodes. *)

From stdpp Require Import base gmap list strings.
From Stdlib Require Import ZArith Lia Bool.
From Stdlib.Strings Require Import Ascii String.
From S2P Require Import Prelude Memory Isa Os RetSeq Patcher Sigsegv Maps.

(** ** The messages *)

(** [%] [PRIXPTR] *)
Definition HEX_char (v : Z) : ascii := ascii_of_N (Z.to_N (if v <? 10 then 48 + v else 55 + v)).
Definition HEX_print (z : Z) : list ascii := base16 HEX_char (S (Z.to_nat (Z.log2 z / 4))) z.

Definition fault_text (a : Z) : list ascii :=
  chars "Segmentation fault at address: 0x" ++ HEX_print a ++ [newline].
Definition outside_text (a : Z) : list ascii :=
  chars "Segfault at addr 0x" ++ HEX_print a ++ chars " outside XOM region" ++ [newline].

(** What [snprintf(buf, n, ...)] leaves in [buf], without the final zero. *)
Definition snprintf (n : nat) (text : list ascii) : list ascii := take (n - 1) text.

(** ** The handler *)

(** [DTrap] is [__builtin_trap()]. *)
Inductive dres (A : Type) : Type :=
| DOk (x : A)
| DExit (code : Z)
| DTrap
| DFault (addr : Z).
Arguments DOk {A} _.
Arguments DExit {A} _.
Arguments DTrap {A}.
Arguments DFault {A} _.

#[export] Instance dres_bind : MBind dres := fun A B k r =>
  match r with DOk x => k x | DExit code => DExit code | DTrap => DTrap | DFault a => DFault a end.

(** A part of the release build, in the DEBUG build: [exit_traps] when a trap
    precedes its [exit]. *)
Definition debug_of {A} (exit_traps : bool) (r : hres A) : dres A :=
  match r with
  | HOk x => DOk x
  | HExit code => if exit_traps then DTrap else DExit code
  | HRaised _ => DTrap
  | HFault a => DFault a
  end.

(** What is written and how the handler ends.  The emulation functions trap in
    their default arms, and so does the switch over 32-bit opcodes. *)
Definition segfault_handler_debug (g : globals) (fault_addr : Z) (ctx : ucontext) (m : memory)
  : list (list ascii) * dres (ucontext * memory) :=
  let buf := snprintf 80 (fault_text fault_addr) in
  if (fault_addr <? xom_start g) || (xom_end g <? fault_addr) then
    ([buf; snprintf 80 (outside_text fault_addr)], DTrap)
  else
    let backup_addr := backup_of g fault_addr in
    let pc := gregs ctx REG_PC in
    ([buf],
     c_instr ← debug_of true (deref 2 m pc);
     let is_32bit := Z.land c_instr 0x3 =? 0x3 in
     '(ctx', m') ← (if is_32bit then
                      instr ← debug_of true (deref 4 m pc);
                      debug_of true (emulate_32bit ctx m instr backup_addr)
                    else
                      let opcode := get_field c_instr 0 2 in
                      debug_of ((opcode =? C0_OPCODE) || (opcode =? C2_OPCODE))
                        (emulate_16bit ctx m c_instr backup_addr));
     let pc_step := if is_32bit then 4 else 2 in
     DOk (set_greg REG_PC (gregs ctx' REG_PC ⊞ pc_step) ctx', m')).

(** ** Delivery of SIGSEGV *)

Definition SIGTRAP : Z := 5.

(** The same as [deliver], with what is written; a fault of the handler itself
    outside the region ends in the second activation. *)
Definition deliver_debug (g : globals) (s : machine) (fault_addr : Z)
  : option (list (list ascii) * res machine) :=
  let '(out, r) := segfault_handler_debug g fault_addr (sigframe s) (mem s) in
  match r with
  | DOk (c, m) => Some (out, Ok (sigreturn s c m))
  | DExit code => Some (out, Exited code)
  | DTrap => Some (out, Killed SIGTRAP)
  | DFault a =>
    if (a <? xom_start g) || (xom_end g <? a)
    then Some (out ++ (segfault_handler_debug g a (sigframe s) (mem s)).1, Killed SIGTRAP) else None
  end.

(** ** Properties *)

Lemma HEX_char_value v : 0 <= v < 16 -> hex_value (HEX_char v) = Some v.
Proof.
  intros H. assert (exists n : nat, v = Z.of_nat n /\ (n < 16)%nat) as (n & -> & Hn) by (exists (Z.to_nat v); lia).
  clear H. do 16 (destruct n as [|n]; [done|]). lia.
Qed.

Lemma HEX_print_length z : is_u64 z -> (List.length (HEX_print z) <= 16)%nat.
Proof.
  intros [Z0 Z64]. unfold HEX_print. rewrite base16_length.
  assert (Z.log2 z < 64) by (destruct (decide (z = 0)) as [->|]; [done|]; apply Z.log2_lt_pow2; lia).
  pose proof (Z.log2_nonneg z). Z.div_mod_to_equations. lia.
Qed.

(** The printed address can be read back. *)
Lemma HEX_print_value z c rest : is_u64 z -> hex_value c = None ->
  hex_digits 0 (HEX_print z ++ c :: rest) = z.
Proof.
  intros [Z0 Z64] C. unfold HEX_print. rewrite hex_digits_base16; [cbn [hex_digits]; by rewrite C|apply HEX_char_value|].
  split; [done|]. destruct (decide (z = 0)) as [->|N]; [done|].
  pose proof (Z.log2_spec z ltac:(lia)) as [_ H]. eapply Z.lt_le_trans; [exact H|].
  change 16 with (2 ^ 4). rewrite <- Z.pow_mul_r by lia. apply Z.pow_le_mono_r; [lia|].
  pose proof (Z.log2_nonneg z). Z.div_mod_to_equations. lia.
Qed.

(** The messages fit into the buffer. *)
Lemma texts_fit a : is_u64 a ->
  snprintf 80 (fault_text a) = fault_text a /\ snprintf 80 (outside_text a) = outside_text a.
Proof.
  intros A. pose proof (HEX_print_length a A) as L.
  split; apply take_ge; unfold fault_text, outside_text; rewrite !length_app; cbn [List.length chars list_ascii_of_string]; lia.
Qed.

(** A 16-bit instruction the handler has no case for. *)
Definition unknown_16bit (h : Z) : bool :=
  negb (Z.land h 0x3 =? 0x3) &&
  negb ((get_field h 0 2 =? C0_OPCODE) || (get_field h 0 2 =? C2_OPCODE)).

(** Inside the region, the handlers differ in the exits. *)
Lemma debug_handler_inside g sig a ctx m : is_u64 a -> (a <? xom_start g) || (xom_end g <? a) = false ->
  segfault_handler_debug g a ctx m =
  ([fault_text a], debug_of (negb (unknown_16bit (mread 2 m (gregs ctx REG_PC)))) (segfault_handler g sig a ctx m)).
Proof.
  intros A X. destruct (texts_fit a A) as [F _]. unfold segfault_handler_debug, segfault_handler.
  rewrite X, F. f_equal. unfold deref, mload.
  destruct (range_prot PROT_READ 2 m (gregs ctx REG_PC)); [|done]. cbn [debug_of mbind dres_bind hres_bind].
  generalize (mread 2 m (gregs ctx REG_PC)). intros h. unfold unknown_16bit.
  destruct (Z.land h 3 =? 3); cbn [negb andb].
  - destruct (range_prot PROT_READ 4 m (gregs ctx REG_PC)); [|done]. cbn [debug_of mbind dres_bind hres_bind].
    by destruct (emulate_32bit ctx m _ _) as [[]| | |].
  - rewrite negb_involutive. destruct (emulate_16bit ctx m h _) as [[]| | |]; try done.
    cbn [debug_of mbind dres_bind hres_bind]. by case_match.
Qed.

Lemma debug_handler_outside g a ctx m : is_u64 a -> (a <? xom_start g) || (xom_end g <? a) = true ->
  segfault_handler_debug g a ctx m = ([fault_text a; outside_text a], DTrap).
Proof.
  intros A X. destruct (texts_fit a A) as [F O]. unfold segfault_handler_debug. by rewrite X, F, O.
Qed.

(** C38: The DEBUG handler redirects as the release handler does.  It first writes
    the address of the fault, whole and in hexadecimal; the redirected access and
    the state the program goes on in are the same.  Where the release build is
    killed by SIGSEGV the DEBUG build is killed by SIGTRAP, and so it is where the
    release build exits with 1, all but after a 16-bit instruction of the quadrant
    without loads and stores, where both exit. *)
Theorem debug_handler_agrees g f s a : is_u64 a ->
  hex_digits 0 (drop 33 (fault_text a)) = a /\
  match deliver g (SIG_SEGFAULT_HANDLER f) s a with
  | Some (Ok s') => deliver_debug g s a = Some ([fault_text a], Ok s')
  | Some (Exited code) => deliver_debug g s a = Some ([fault_text a],
      if unknown_16bit (mread 2 (mem s) (pc s)) then Exited code else Killed SIGTRAP)
  | Some (Killed _) => exists out, deliver_debug g s a = Some (fault_text a :: out, Killed SIGTRAP)
  | None => deliver_debug g s a = None
  end.
Proof.
  intros A. split; [by apply HEX_print_value|]. unfold deliver, deliver_debug.
  destruct ((a <? xom_start g) || (xom_end g <? a)) eqn:X.
  - unfold segfault_handler. rewrite X, debug_handler_outside by done. by eexists.
  - rewrite (debug_handler_inside g SIGSEGV) by done. change (gregs (sigframe s) REG_PC) with (pc s).
    destruct (segfault_handler g SIGSEGV a (sigframe s) (mem s)) as [[c m']| | |b]; cbn [debug_of]; [done|..].
    + by destruct (unknown_16bit _).
    + by eexists.
    + destruct ((b <? xom_start g) || (xom_end g <? b)); [|done]. by eexists.
Qed.

(** ** [amoadd.w a0, a0, (gp)] *)
Section Example.
#[local] Existing Instance linear_os.

Lemma debug_handler_agrees_witness :
  deliver_debug (seg_g 0x12800) (seg_state 0x12800 0x00a1a52f) (2 ^ 32 + 0x800) =
    Some ([chars "Segmentation fault at address: 0x100000800" ++ [newline]], Killed SIGTRAP).
Proof.
  destruct (debug_handler_agrees (seg_g 0x12800) 4 (seg_state 0x12800 0x00a1a52f) (2 ^ 32 + 0x800)
    ltac:(split; [discriminate | reflexivity])) as [_ H].
  change (fault_text (2 ^ 32 + 0x800)) with (chars "Segmentation fault at address: 0x100000800" ++ [newline]) in H.
  assert (deliver (seg_g 0x12800) (SIG_SEGFAULT_HANDLER 4) (seg_state 0x12800 0x00a1a52f) (2 ^ 32 + 0x800) =
    Some (Exited 1)) as E by (vm_compute; reflexivity).
  rewrite E in H. exact H.
Defined.
End Example.
