(* ===== verification/Sud.v ===== *)
(** * Syscall user dispatch: src/benchmark/libsud_custom.c

    The signal-based interception that the benchmarks compare vpoline with.  The
    kernel turns the system calls of the process into SIGSYS while the variable
    [selector] says so, except in one range of addresses; the handler makes the
    system call itself and returns with an [ecall] in that range.

    The state of the handler is a machine and the selector; [ecall_sud] is an
    [ecall] under dispatch ([None]: a SIGSYS, which kills the process when it
    comes from the handler, where it is blocked).  The context of the signal is
    kept apart from the memory, as in [Sigsegv]; what delivery and the prologue of
    the handler write to the stack is the parameter [scratch]. *)

From stdpp Require Import base gmap list.
From Stdlib Require Import ZArith Lia Bool.
From S2P Require Import Prelude Memory Isa Os RetSeq Patcher Sigsegv.

Definition SYSCALL_DISPATCH_FILTER_ALLOW : Z := 0.
Definition SYSCALL_DISPATCH_FILTER_BLOCK : Z := 1.
Definition SYS_rt_sigreturn : Z := 139.
Definition s0 : Z := 8.

(** The range prctl is called with: an offset and a length. *)
Definition dispatch : Type := Z * Z.

Record sud_state := SudState { hm : machine; selector : Z }.
Definition set_selector (v : Z) (st : sud_state) : sud_state := SudState (hm st) v.
Definition set_hm (s : machine) (st : sud_state) : sud_state := SudState s (selector st).

(** [enable_sud]: [start] and [end_] are the labels around the last [ecall]. *)
Definition enable_sud (sigaction_ok prctl_ok : bool) (start end_ : Z) : res (dispatch * Z) :=
  if negb sigaction_ok then Exited 1
  else if negb prctl_ok then Exited 1
  else Ok ((start, end_), SYSCALL_DISPATCH_FILTER_BLOCK).

Section Sud.
Context {K : Kernel}.

(** The kernel compares the address of the [ecall] plus [ipo]. *)
Variable ipo : Z.

Definition exempt (d : dispatch) (a : Z) : bool := u64 (a + ipo - d.1) <? d.2.
Definition blocked (d : dispatch) (sel a : Z) : bool :=
  negb (exempt d a) && (sel =? SYSCALL_DISPATCH_FILTER_BLOCK).

Definition ecall_sud (d : dispatch) (st : sud_state) : option sud_state :=
  if blocked d (selector st) (pc (hm st)) then None else Some (set_hm (do_ecall (hm st)) st).

(** Where the [ecall] of [intercept_hook_point] is, the stack pointer at the entry
    of the handler, which is the address of the signal frame, and the size of the
    handler's stack frame. *)
Variables (hook_pc frame frame_size : Z) (scratch : memory -> memory).

Definition intercept_hook_point (d : dispatch) (syscall_number : Z) (args : list Z) (st : sud_state)
  : option (Z * sud_state) :=
  let s := setpc hook_pc (setx a7 (u64 (sext 32 syscall_number)) (hm st)) in
  let s := foldl (fun s '(r, v) => setx r v s) s (zip [a0; a1; a2; a3; a4; a5] args) in
  st ← ecall_sud d (set_hm s st);
  Some (xr (hm st) a0, st).

Definition handle_sigsys (d : dispatch) (si_syscall : Z) (context : ucontext) (st : sud_state)
  : option (ucontext * sud_state) :=
  let st := set_selector SYSCALL_DISPATCH_FILTER_ALLOW st in
  '(result, st) ← intercept_hook_point d si_syscall (map (gregs context) [10; 11; 12; 13; 14; 15]) st;
  let context := set_greg 10 result context in
  let st := set_selector SYSCALL_DISPATCH_FILTER_BLOCK st in
  Some (context, st).

(** The inline assembly at the end of the handler, up to the [ecall]. *)
Definition exit_text : list instr :=
  [IAddi a7 0 SYS_rt_sigreturn; IMem (ILoad WD true ra sp 72); IMem (ILoad WD true s0 sp 64);
   IAddi sp sp 80].

Fixpoint exec_all (code : list instr) (s : machine) : option machine :=
  match code with
  | [] => Some s
  | i :: code => match exec i 4 s with Next s => exec_all code s | _ => None end
  end.

(** rt_sigreturn at the label, from the frame at sp. *)
Definition sigsys_return (d : dispatch) (context : ucontext) (st : sud_state) : option (machine * Z) :=
  s ← exec_all exit_text (setx sp (frame - frame_size) (hm st));
  if blocked d (selector st) d.1 then None
  else if (xr s a7 =? SYS_rt_sigreturn) && (xr s sp =? frame) then
    Some (sigreturn s context (mem s), selector st)
  else None.

(** A SIGSYS for the [ecall] at [pc s]: the saved context is past it, with a0 as
    it was. *)
Definition deliver_sigsys (d : dispatch) (s : machine) (sel : Z) : option (machine * Z) :=
  let st := SudState (setmem (scratch (mem s)) s) sel in
  '(context, st) ← handle_sigsys d (sext 32 (xr s a7)) (sigframe (setpc (pc s ⊞ 4) s)) st;
  sigsys_return d context st.

(** An [ecall] of the program. *)
Definition sud_step (d : dispatch) (s : machine) (sel : Z) : option (machine * Z) :=
  if blocked d sel (pc s) then deliver_sigsys d s sel
  else Some (setpc (pc s ⊞ 4) (do_ecall s), sel).

(** ** The handler *)

Lemma hook_point_spec d nr args st x0 x1 x2 x3 x4 x5 : selector st = SYSCALL_DISPATCH_FILTER_ALLOW ->
  args = [x0; x1; x2; x3; x4; x5] ->
  let n := u64 (sext 32 nr) in
  let r := k_syscall n args (mem (hm st)) in
  exists st' ev, intercept_hook_point d nr args st = Some (u64 r.1, st') /\ mem (hm st') = r.2 /\
    trace (hm st') = trace (hm st) ++ [ev] /\ ev_nr ev = n /\ ev_args ev = args /\ selector st' = selector st.
Proof.
  intros S -> n r. unfold intercept_hook_point. cbn [zip zip_with foldl].
  set (s := setx a5 x5 _). unfold ecall_sud, blocked. cbn [set_hm selector hm]. rewrite S, andb_false_r.
  cbn [mbind option_bind]. rewrite do_ecall_eq. eexists _, _. split; [reflexivity|].
  by split_and!.
Qed.

(** The end of the handler takes the stack pointer back to the signal frame. *)
Lemma exit_spec s : frame_size = 80 -> 80 <= frame < 2 ^ 63 ->
  range_prot PROT_READ 16 (mem s) (frame - 16) = true ->
  exists s', exec_all exit_text (setx sp (frame - frame_size) s) = Some s' /\ xr s' a7 = SYS_rt_sigreturn /\
    xr s' sp = frame /\ mem s' = mem s /\ trace s' = trace s.
Proof.
  intros -> F R. rewrite range_prot_spec in R.
  assert (forall a, frame - 16 <= a <= frame - 8 -> mload 8 (mem s) a = Some (mread 8 (mem s) a)) as L.
  { intros a Ha. unfold mload. assert (range_prot PROT_READ 8 (mem s) a = true) as ->; [|done].
    apply range_prot_spec. intros x Hx. apply R. lia. }
  unfold exit_text, s0, exec_all, exec, exec_mem_at, eff_addr. cbn [base_imm nbytes extend]. reg_simpl.
  rewrite (u64_small (frame - 80 + 72)) by u64_lia. rewrite L by lia. reg_simpl.
  rewrite (u64_small (frame - 80 + 64)) by u64_lia. rewrite L by lia. reg_simpl.
  eexists. split; [reflexivity|]. reg_simpl. split_and!; try done. rewrite u64_small by u64_lia. lia.
Qed.

(** C36: A system call that is dispatched is transparent: when the handler's stack
    frame is the 80 bytes its inline assembly removes, the kernel gets the system
    call once, the program goes on after the [ecall] with only a0 changed, and the
    selector blocks again.  The number passes through an [int]. *)
Theorem sud_call_transparent start end_ d sel s : enable_sud true true start end_ = Ok (d, sel) ->
  ipo < end_ -> 0 <= ipo <= 4 -> blocked d sel (pc s) = true ->
  frame_size = 80 -> 80 <= frame < 2 ^ 63 -> pc s + 4 < 2 ^ 64 -> 0 <= pc s ->
  let nr := u64 (sext 32 (xr s a7)) in
  let r := k_syscall nr (map (xr s) [a0; a1; a2; a3; a4; a5]) (scratch (mem s)) in
  range_prot PROT_READ 16 r.2 (frame - 16) = true ->
  exists s' ev, sud_step d s sel = Some (s', SYSCALL_DISPATCH_FILTER_BLOCK) /\
    pc s' = pc s + 4 /\ (forall x, x <> 0 -> x <> a0 -> xr s' x = xr s x) /\ (forall x, fr s' x = fr s x) /\
    xr s' a0 = u64 r.1 /\ mem s' = r.2 /\
    trace s' = trace s ++ [ev] /\ ev_nr ev = nr /\ ev_args ev = map (xr s) [a0; a1; a2; a3; a4; a5].
Proof.
  intros [= <- <-] Le Hi B Hf F P4 P0 nr r RP. unfold sud_step. rewrite B.
  unfold deliver_sigsys, handle_sigsys.
  set (st := set_selector _ _). set (args := map (gregs _) _).
  destruct (hook_point_spec (start, end_) (sext 32 (xr s a7)) args st _ _ _ _ _ _ eq_refl eq_refl)
    as (st' & ev & E & M & T & EN & EA & _).
  rewrite E. cbn [mbind option_bind]. unfold sigsys_return. cbn [set_selector hm selector].
  assert (u64 (sext 32 (sext 32 (xr s a7))) = nr) as ENR by (unfold nr; unfold sext at 1; by rewrite sext_wrap).
  rewrite ENR in *. change (args) with (map (xr s) [a0; a1; a2; a3; a4; a5]) in *.
  change (mem (hm st)) with (scratch (mem s)) in *. fold r in M.
  rewrite <- M in RP. destruct (exit_spec (hm st') Hf F RP) as (s2 & E2 & E7 & ES & EM & ET).
  rewrite E2. cbn [mbind option_bind]. unfold blocked, exempt. cbn [fst snd].
  rewrite (u64_small (start + ipo - start)) by u64_lia. destruct (Z.ltb_spec (start + ipo - start) end_); [|lia].
  cbn [negb andb]. rewrite E7, ES, !Z.eqb_refl. cbn [andb].
  eexists _, ev. split; [reflexivity|]. cbn [pc xr fr mem trace sigreturn].
  rewrite EM, ET, T, M. split_and!; try done.
  - cbn. by rewrite u64_small by u64_lia.
  - intros x Hx Ha. cbn. unfold upd. change a0 with 10 in Ha. case_bools; lia || done.
Qed.

(** C37: The range the library asks for is too wide: prctl takes a length, and gets
    the address of the end of the range.  Every [ecall] from the start up to the
    sum of both addresses goes to the kernel without the handler; with the length
    it would be those between the two labels only. *)
Theorem sud_exempts_code_above start end_ d sel s : enable_sud true true start end_ = Ok (d, sel) ->
  0 <= start < end_ -> start + end_ <= 2 ^ 64 -> is_u64 (pc s + ipo) ->
  (start <= pc s + ipo < start + end_ -> sud_step d s sel = Some (setpc (pc s ⊞ 4) (do_ecall s), sel)) /\
  (blocked (start, end_ - start) sel (pc s) = false <-> start <= pc s + ipo < end_).
Proof.
  intros [= <- <-] S B P. unfold sud_step, blocked, exempt. cbn [fst snd]. rewrite Z.eqb_refl, !andb_true_r. split.
  - intros H. rewrite u64_small by u64_lia. destruct (Z.ltb_spec (pc s + ipo - start) end_); [done | lia].
  - unfold is_u64 in P. destruct (decide (start <= pc s + ipo)) as [G|G].
    + rewrite u64_small by u64_lia. case_bools; (split; intros; [discriminate || lia | lia || done]).
    + assert (u64 (pc s + ipo - start) = pc s + ipo - start + 2 ^ 64) as ->.
      { unfold u64, wrap. symmetry. apply (Z.mod_unique_pos _ _ (-1)); lia. }
      case_bools; (split; intros; [discriminate || lia | lia || done]).
Qed.
End Sud.

(** ** A concrete process

    A getppid (173) at 0x1000; the library is at 0x7000, the signal frame at
    0x9000. *)
Section Example.
#[local] Instance sud_kernel : Kernel := fun nr _ m => (nr + 1, m).

Definition sx_mem : memory := Mem ∅ (fun _ => Some 3).
Definition sx_machine (a : Z) : machine := Mach a (fun r => if r =? a7 then 173 else r) (fun r => r) sx_mem [].

Lemma sud_call_transparent_witness :
  exists s' ev, sud_step 4 0x7100 0x9000 80 (fun m => m) (0x7000, 0x7004) (sx_machine 0x1000) 1 = Some (s', 1) /\
    pc s' = 0x1004 /\ xr s' a0 = 174 /\ trace s' = [ev] /\ ev_nr ev = 173.
Proof.
  destruct (sud_call_transparent (K := sud_kernel) 4 0x7100 0x9000 80 (fun m => m) 0x7000 0x7004 (0x7000, 0x7004) 1
    (sx_machine 0x1000) eq_refl ltac:(lia) ltac:(lia) eq_refl eq_refl ltac:(lia) ltac:(cbn; lia) ltac:(cbn; lia)
    ltac:(vm_compute; reflexivity)) as (s' & ev & E & P & _ & _ & A & _ & T & N & _).
  exists s', ev. split; [exact E|]. split; [exact P|]. split; [exact A|]. split; [exact T | exact N].
Defined.

(** The same at 0x8000, above the library. *)
Lemma sud_exempts_code_above_witness :
  sud_step 4 0x7100 0x9000 80 (fun m => m) (0x7000, 0x7004) (sx_machine 0x8000) 1 =
    Some (setpc 0x8004 (do_ecall (sx_machine 0x8000)), 1) /\
  blocked 4 (0x7000, 4) 1 0x8000 = true.
Proof.
  destruct (sud_exempts_code_above 4 0x7100 0x9000 80 (fun m => m) 0x7000 0x7004 (0x7000, 0x7004) 1
    (sx_machine 0x8000) eq_refl ltac:(lia) ltac:(lia) ltac:(cbn; u64_lia)) as [H _].
  split; [apply H; cbn; lia | reflexivity].
Defined.
End Example.
